(** * Notion duplicate checker: the indexing and detection engine

    A shallow embedding of the three deployed scripts

    - [backfill-local-deploy.ts]   (module [Backfill], the bulk reconciler),
    - [duplicate-checker-deploy.ts] (module [Webhook], the real-time detector),
    - [index-builder-deploy.ts]    (module [IndexBuilder], the resumable scanner),

    over one explicit world: the Notion database, the SQLite tables of
    Val.town, the environment, and the failures the two back ends inject. *)

From Stdlib Require Import List String Ascii Bool Arith ZArith NArith Lia.
From Stdlib Require Import DecimalString.
Import ListNotations.

Local Open Scope string_scope.
Local Open Scope list_scope.
Local Open Scope nat_scope.

(** ** JavaScript strings

    User text (names, tag names) is a sequence of UTF-16 code units.
    Identifiers, HTTP methods and error messages are protocol text and are
    kept as [string]. *)

Definition jsstring := list N.

Definition js (s : string) : jsstring :=
  map N_of_ascii (list_ascii_of_string s).

Fixpoint jsstring_eqb (a b : jsstring) : bool :=
  match a, b with
  | [], [] => true
  | x :: a', y :: b' => N.eqb x y && jsstring_eqb a' b'
  | _, _ => false
  end.

(** WhiteSpace and LineTerminator code units, as [String.prototype.trim]
    strips them. *)
Definition isWhiteSpace (c : N) : bool :=
  ((9 <=? c) && (c <=? 13) || (c =? 32) || (c =? 160) || (c =? 5760)
   || (8192 <=? c) && (c <=? 8202) || (c =? 8232) || (c =? 8233)
   || (c =? 8239) || (c =? 8287) || (c =? 12288) || (c =? 65279))%N.

Fixpoint trimStart (s : jsstring) : jsstring :=
  match s with
  | [] => []
  | c :: r => if isWhiteSpace c then trimStart r else s
  end.

Definition trimEnd (s : jsstring) : jsstring := rev (trimStart (rev s)).

Definition trim (s : jsstring) : jsstring := trimEnd (trimStart s).

Definition isAscii (c : N) : bool := (c <? 128)%N.

Definition asciiLower (c : N) : N :=
  if ((65 <=? c) && (c <=? 90))%N then (c + 32)%N else c.

Definition asciiUpper (c : N) : N :=
  if ((97 <=? c) && (c <=? 122))%N then (c - 32)%N else c.

(** [String.prototype.toLowerCase] follows the Unicode default case
    conversion.  On a string of ASCII code units that is the letter-wise
    map A-Z to a-z; on any other string the result comes from the Unicode
    tables of the runtime, which the scripts do not contain: they are
    taken as a parameter. *)
Class UnicodeTables := { unicodeLower : jsstring -> jsstring }.

Definition toLowerCase `{UnicodeTables} (s : jsstring) : jsstring :=
  if forallb isAscii s then map asciiLower s else unicodeLower s.

(** [msg.includes(pat)] on protocol text. *)
Definition includes (msg pat : string) : bool :=
  match index 0 pat msg with
  | Some _ => true
  | None => false
  end.

Definition show_nat (n : nat) : string :=
  NilEmpty.string_of_uint (Nat.to_uint n).

(** ** Thrown values and results *)

(** What a [catch] clause inspects: [error.message?.includes(...)]. *)
Record JsError := { message : option string }.

Definition Error (msg : string) : JsError := {| message := Some msg |}.

Definition message_includes (e : JsError) (pat : string) : bool :=
  match message e with
  | Some msg => includes msg pat
  | None => false
  end.

Inductive Result (A : Type) : Type :=
| Ok (a : A)
| Throw (e : JsError).

Arguments Ok {A} a.
Arguments Throw {A} e.

(** ** The external record store (Notion) *)

(** The "Duplicate Flag" property of a page.  The backfill script treats it
    as a multi-select, the webhook as a single select. *)
Inductive Flag : Type :=
| NoFlag
| SelectFlag (selected : option jsstring)
| MultiSelectFlag (options : list jsstring).

(** [title] holds the [plain_text] of the rich-text items of the title
    property; a page without the property has [title = []]. *)
Record NotionPage := {
  page_id : string;
  title : list jsstring;
  duplicate_flag : Flag
}.

Record NotionQueryResponse := {
  results : list NotionPage;
  next_cursor : option nat;
  has_more : bool
}.

(** ** The SQLite tables *)

Record IndexRow := {
  row_name : jsstring;
  notion_page_id : string
}.

Record Progress := {
  last_cursor : option nat;
  total_indexed : nat;
  completed : bool
}.

(** ** The world *)

(** What the HTTP back end does with the next request. *)
Inductive HttpFault : Type :=
| HttpServes
| HttpStatus (status : nat) (text : string)
| HttpRejects (e : JsError).

(** Requests that leave the process, logged whether or not they succeed. *)
Inductive Call : Type :=
| SqlCreateNameIndex
| SqlCreateIdxName
| SqlCreateProgress
| SqlSelectName (key : jsstring)
| SqlInsertName (name : jsstring) (pageId : string)
| SqlCountNames
| SqlSelectProgress
| SqlInsertProgress
| SqlUpdateProgress (data : Progress)
| HttpQuery (startCursor : option nat) (pageSize : nat)
| HttpGetPage (pageId : string)
| HttpPatchPage (pageId : string) (value : Flag).

Record World := {
  (** records of the Notion database, in the order its query pages them *)
  notion_pages : list NotionPage;
  (** rows of [name_index], by ascending rowid *)
  name_index : list IndexRow;
  (** the row [id = 1] of [index_builder_progress], when it exists *)
  index_builder_progress : option Progress;
  (** every [total_indexed] written to that row, newest first *)
  progress_history : list nat;
  NOTION_TOKEN : bool;
  NOTION_DATABASE_ID : bool;
  (** failures the SQLite service injects into the coming statements *)
  sqlite_faults : list (option JsError);
  (** what the Notion API does with the coming requests *)
  http_faults : list HttpFault;
  (** requests made so far, newest first *)
  calls : list Call;
  (** [setTimeout] delays waited so far, newest first *)
  sleeps : list Z
}.

Definition set_notion_pages (ps : list NotionPage) (w : World) : World :=
  {| notion_pages := ps; name_index := name_index w;
     index_builder_progress := index_builder_progress w;
     progress_history := progress_history w;
     NOTION_TOKEN := NOTION_TOKEN w; NOTION_DATABASE_ID := NOTION_DATABASE_ID w;
     sqlite_faults := sqlite_faults w; http_faults := http_faults w;
     calls := calls w; sleeps := sleeps w |}.

Definition set_name_index (rows : list IndexRow) (w : World) : World :=
  {| notion_pages := notion_pages w; name_index := rows;
     index_builder_progress := index_builder_progress w;
     progress_history := progress_history w;
     NOTION_TOKEN := NOTION_TOKEN w; NOTION_DATABASE_ID := NOTION_DATABASE_ID w;
     sqlite_faults := sqlite_faults w; http_faults := http_faults w;
     calls := calls w; sleeps := sleeps w |}.

Definition write_progress (p : Progress) (w : World) : World :=
  {| notion_pages := notion_pages w; name_index := name_index w;
     index_builder_progress := Some p;
     progress_history := total_indexed p :: progress_history w;
     NOTION_TOKEN := NOTION_TOKEN w; NOTION_DATABASE_ID := NOTION_DATABASE_ID w;
     sqlite_faults := sqlite_faults w; http_faults := http_faults w;
     calls := calls w; sleeps := sleeps w |}.

Definition set_sqlite_faults (fs : list (option JsError)) (w : World) : World :=
  {| notion_pages := notion_pages w; name_index := name_index w;
     index_builder_progress := index_builder_progress w;
     progress_history := progress_history w;
     NOTION_TOKEN := NOTION_TOKEN w; NOTION_DATABASE_ID := NOTION_DATABASE_ID w;
     sqlite_faults := fs; http_faults := http_faults w;
     calls := calls w; sleeps := sleeps w |}.

Definition set_http_faults (fs : list HttpFault) (w : World) : World :=
  {| notion_pages := notion_pages w; name_index := name_index w;
     index_builder_progress := index_builder_progress w;
     progress_history := progress_history w;
     NOTION_TOKEN := NOTION_TOKEN w; NOTION_DATABASE_ID := NOTION_DATABASE_ID w;
     sqlite_faults := sqlite_faults w; http_faults := fs;
     calls := calls w; sleeps := sleeps w |}.

Definition log_call (c : Call) (w : World) : World :=
  {| notion_pages := notion_pages w; name_index := name_index w;
     index_builder_progress := index_builder_progress w;
     progress_history := progress_history w;
     NOTION_TOKEN := NOTION_TOKEN w; NOTION_DATABASE_ID := NOTION_DATABASE_ID w;
     sqlite_faults := sqlite_faults w; http_faults := http_faults w;
     calls := c :: calls w; sleeps := sleeps w |}.

Definition add_sleep (delay : Z) (w : World) : World :=
  {| notion_pages := notion_pages w; name_index := name_index w;
     index_builder_progress := index_builder_progress w;
     progress_history := progress_history w;
     NOTION_TOKEN := NOTION_TOKEN w; NOTION_DATABASE_ID := NOTION_DATABASE_ID w;
     sqlite_faults := sqlite_faults w; http_faults := http_faults w;
     calls := calls w; sleeps := delay :: sleeps w |}.

(** ** Promises: state passing with exceptions *)

Definition M (A : Type) : Type := World -> Result A * World.

Definition ret {A} (a : A) : M A := fun w => (Ok a, w).

Definition throw {A} (e : JsError) : M A := fun w => (Throw e, w).

Definition bind {A B} (c : M A) (k : A -> M B) : M B :=
  fun w =>
    match c w with
    | (Ok a, w1) => k a w1
    | (Throw e, w1) => (Throw e, w1)
    end.

Definition try_catch {A} (body : M A) (handler : JsError -> M A) : M A :=
  fun w =>
    match body w with
    | (Ok a, w1) => (Ok a, w1)
    | (Throw e, w1) => handler e w1
    end.

Declare Scope promise_scope.
Delimit Scope promise_scope with promise.
Notation "x <- c ;; k" := (bind c (fun x => k))
  (at level 61, c at next level, right associativity) : promise_scope.
Notation "c ;; k" := (bind c (fun _ => k))
  (at level 61, right associativity) : promise_scope.
Local Open Scope promise_scope.

(** [await new Promise(resolve => setTimeout(resolve, delay))] *)
Definition sleep (delay : Z) : M unit := fun w => (Ok tt, add_sleep delay w).

(** [sqlite.execute]: the statement is sent; the service either fails it,
    leaving the tables as they are, or runs it. *)
Definition sqlite_execute {A} (c : Call) (run : World -> Result A * World) : M A :=
  fun w =>
    let w1 := log_call c w in
    match sqlite_faults w1 with
    | Some e :: rest => (Throw e, set_sqlite_faults rest w1)
    | None :: rest => run (set_sqlite_faults rest w1)
    | [] => run w1
    end.

Inductive Response (A : Type) : Type :=
| RespOk (json : A)
| RespFail (status : nat) (text : string).

Arguments RespOk {A} json.
Arguments RespFail {A} status text.

(** [fetch]: rejects on a transport failure, resolves with a non-ok
    response on an HTTP error, and is otherwise served by the store. *)
Definition fetch {A} (c : Call) (serve : World -> Response A * World) : M (Response A) :=
  fun w =>
    let w1 := log_call c w in
    match http_faults w1 with
    | HttpRejects e :: rest => (Throw e, set_http_faults rest w1)
    | HttpStatus s t :: rest => (Ok (RespFail s t), set_http_faults rest w1)
    | HttpServes :: rest =>
        let (r, w2) := serve (set_http_faults rest w1) in (Ok r, w2)
    | [] => let (r, w2) := serve w1 in (Ok r, w2)
    end.

(** *** How the Notion API serves a request *)

(** A page of the database: the cursor is the number of records already
    paged. *)
Definition query_page (startCursor : option nat) (pageSize : nat)
    (pages : list NotionPage) : NotionQueryResponse :=
  let k := match startCursor with Some k => k | None => 0 end in
  let rest := skipn k pages in
  let more := pageSize <? List.length rest in
  {| results := firstn pageSize rest;
     next_cursor := if more then Some (k + pageSize) else None;
     has_more := more |}.

Definition serve_query (startCursor : option nat) (pageSize : nat)
  : World -> Response NotionQueryResponse * World :=
  fun w => (RespOk (query_page startCursor pageSize (notion_pages w)), w).

Definition find_page (pageId : string) (ps : list NotionPage) : option NotionPage :=
  find (fun p => String.eqb (page_id p) pageId) ps.

Definition serve_get (pageId : string) : World -> Response NotionPage * World :=
  fun w =>
    match find_page pageId (notion_pages w) with
    | Some p => (RespOk p, w)
    | None => (RespFail 404 "Could not find page", w)
    end.

(** A PATCH replaces the value of the property; the API refuses a value
    whose shape is not that of the property. *)
Definition same_shape (old new : Flag) : bool :=
  match old, new with
  | SelectFlag _, SelectFlag _ => true
  | MultiSelectFlag _, MultiSelectFlag _ => true
  | _, _ => false
  end.

Definition set_flag (pageId : string) (value : Flag) (p : NotionPage) : NotionPage :=
  if String.eqb (page_id p) pageId
  then {| page_id := page_id p; title := title p; duplicate_flag := value |}
  else p.

Definition serve_patch (pageId : string) (value : Flag)
  : World -> Response unit * World :=
  fun w =>
    match find_page pageId (notion_pages w) with
    | None => (RespFail 404 "Could not find page", w)
    | Some p =>
        if same_shape (duplicate_flag p) value
        then (RespOk tt, set_notion_pages (map (set_flag pageId value) (notion_pages w)) w)
        else (RespFail 400 "Duplicate Flag is expected to be of another type", w)
    end.

(** *** How SQLite runs a statement *)

(** The length in bytes of the UTF-8 text SQLite stores for a string: a
    code unit below 0x80 takes one byte, one below 0x800 two, a surrogate
    pair four and any other code unit three (a surrogate that stands
    alone, which UTF-8 proper does not encode, is counted with the three
    bytes of its generalized encoding). *)
Definition isHighSurrogate (c : N) : bool := ((55296 <=? c) && (c <=? 56319))%N.
Definition isLowSurrogate (c : N) : bool := ((56320 <=? c) && (c <=? 57343))%N.

Fixpoint utf8_length (s : jsstring) : nat :=
  match s with
  | [] => 0
  | c :: r =>
      if (c <? 128)%N then S (utf8_length r)
      else if (c <? 2048)%N then 2 + utf8_length r
      else if isHighSurrogate c
      then match r with
           | lo :: r' =>
               if isLowSurrogate lo then 4 + utf8_length r' else 3 + utf8_length r
           | [] => 3
           end
      else 3 + utf8_length r
  end.

(** The loop of [sqlite3StrNICmp]: the texts are compared, the 26
    upper-case ASCII letters folded and nothing else, until the first NUL
    of the left one, where the right one must have a NUL too; what follows
    the NUL is not looked at.  The encoding is one to one, no text is
    the beginning of another, the byte 0 comes from the code unit 0 only
    and the bytes above 0x7F are not folded, so the comparison of the
    bytes is that of the code units. *)
Fixpoint nocase_until_nul (a b : jsstring) : bool :=
  match a, b with
  | [], [] => true
  | x :: a', y :: b' =>
      if (x =? 0)%N then (y =? 0)%N
      else (asciiLower x =? asciiLower y)%N && nocase_until_nul a' b'
  | _, _ => false
  end.

(** [COLLATE NOCASE], as [nocaseCollatingFunc] computes it: the texts are
    equal when [sqlite3StrNICmp] finds no difference and they have the
    same number of bytes. *)
Definition nocase_eqb (a b : jsstring) : bool :=
  Nat.eqb (utf8_length a) (utf8_length b) && nocase_until_nul a b.

(** [SELECT notion_page_id FROM name_index WHERE name = ?].  The statement
    has no ORDER BY; SQLite walks [idx_name], whose entries for equal names
    are in rowid order. *)
Definition select_by_name (key : jsstring) (rows : list IndexRow) : list string :=
  map notion_page_id (filter (fun r => nocase_eqb (row_name r) key) rows).

Definition has_page_id (pageId : string) (rows : list IndexRow) : bool :=
  existsb (fun r => String.eqb (notion_page_id r) pageId) rows.

Definition UNIQUE_failed : JsError :=
  Error "UNIQUE constraint failed: name_index.notion_page_id".

(** [INSERT INTO name_index (name, notion_page_id) VALUES (?, ?)] *)
Definition run_insert_name (name : jsstring) (pageId : string)
  : World -> Result unit * World :=
  fun w =>
    if has_page_id pageId (name_index w)
    then (Throw UNIQUE_failed, w)
    else (Ok tt, set_name_index
                   (name_index w ++ [{| row_name := name; notion_page_id := pageId |}]) w).

(** [UPDATE index_builder_progress SET ... WHERE id = 1] *)
Definition run_update_progress (data : Progress) : World -> Result unit * World :=
  fun w =>
    match index_builder_progress w with
    | Some _ => (Ok tt, write_progress data w)
    | None => (Ok tt, w)
    end.

Definition initial_progress : Progress :=
  {| last_cursor := None; total_indexed := 0; completed := false |}.

(** [INSERT INTO index_builder_progress ... VALUES (1, NULL, 0, FALSE)] *)
Definition run_insert_progress : World -> Result unit * World :=
  fun w =>
    match index_builder_progress w with
    | Some _ =>
        (Throw (Error "UNIQUE constraint failed: index_builder_progress.id"), w)
    | None => (Ok tt, write_progress initial_progress w)
    end.

(** [getNotionHeaders]: fails when the token is not configured. *)
Definition getNotionHeaders : M unit :=
  fun w =>
    if NOTION_TOKEN w then (Ok tt, w)
    else (Throw (Error "NOTION_TOKEN environment variable is not set"), w).

(** ** The retry loop

    The three scripts carry the same loop

      [for (let i = 0; i < maxRetries; i++) { try { return await fn(); }
         catch (error) { lastError = error;
                         if (retryable) { wait initialDelay * 2^i; continue; }
                         throw error; } }
       throw lastError;]

    and differ in what they take as retryable. *)

Definition undefined_error : JsError := {| message := None |}.

Fixpoint retry_loop {A} (retryable : JsError -> bool) (fn : M A)
    (initialDelay : Z) (remaining i : nat) (lastError : JsError) : M A :=
  match remaining with
  | O => throw lastError
  | S remaining' =>
      try_catch fn (fun error =>
        if retryable error
        then sleep (initialDelay * 2 ^ Z.of_nat i) ;;
             retry_loop retryable fn initialDelay remaining' (S i) error
        else throw error)
  end.

(** The rate-limit signal the three scripts look for:
    [error.message?.includes("429") || error.message?.includes("Rate limit")]. *)
Definition rate_limit_signal (error : JsError) : bool :=
  message_includes error "429" || message_includes error "Rate limit".

(** The waits of [k] consecutive retries that start at attempt [i], oldest
    first. *)
Definition backoff (initialDelay : Z) (i k : nat) : list Z :=
  map (fun j => (initialDelay * 2 ^ Z.of_nat j)%Z) (seq i k).

Definition falsy_text {A} (o : option (list A)) : bool :=
  match o with
  | None => true
  | Some [] => true
  | Some (_ :: _) => false
  end.

Definition falsy_string (o : option string) : bool :=
  match o with
  | None => true
  | Some s => String.eqb s ""
  end.

(** ** backfill-local-deploy.ts *)

Module Backfill.

Definition DRY_RUN : bool := false.
Definition BATCH_SIZE : nat := 100.
Definition RATE_LIMIT_DELAY : Z := 100.

Definition isRateLimit (error : JsError) : bool := rate_limit_signal error.

Definition isServerError (error : JsError) : bool :=
  message_includes error "502" || message_includes error "500"
  || message_includes error "503" || message_includes error "504"
  || message_includes error "Internal server error".

Definition retryWithBackoff {A} (fn : M A) (maxRetries : nat) (initialDelay : Z) : M A :=
  retry_loop (fun error => isRateLimit error || isServerError error)
             fn initialDelay maxRetries 0 undefined_error.

(** The wrapped function is the bare [fetch]: a non-ok response is not a
    rejection, so it is turned into an error after the retry loop. *)
Definition queryNotionDatabase (startCursor : option nat) (pageSize : nat)
  : M NotionQueryResponse :=
  response <- retryWithBackoff
                (getNotionHeaders ;;
                 fetch (HttpQuery startCursor pageSize) (serve_query startCursor pageSize))
                3 1000 ;;
  match response with
  | RespFail status errorText =>
      throw (Error ("Failed to query Notion database: " ++ show_nat status
                    ++ " " ++ errorText)%string)
  | RespOk json => ret json
  end.

Definition fetchNotionPage (pageId : string) : M NotionPage :=
  response <- retryWithBackoff
                (getNotionHeaders ;; fetch (HttpGetPage pageId) (serve_get pageId))
                3 1000 ;;
  match response with
  | RespFail status errorText =>
      throw (Error ("Failed to fetch Notion page " ++ pageId ++ ": "
                    ++ show_nat status ++ " " ++ errorText)%string)
  | RespOk json => ret json
  end.

(** [currentPage.properties["Duplicate Flag"]?.multi_select || []] *)
Definition multi_select (page : NotionPage) : list jsstring :=
  match duplicate_flag page with
  | MultiSelectFlag tags => tags
  | _ => []
  end.

(** [page.properties["клиент"]?.title?.[0]?.plain_text] *)
Definition plain_text (page : NotionPage) : option jsstring := hd_error (title page).

Record Counters := {
  totalDuplicates : nat;
  tagged : nat;
  skipped : nat;
  processed : nat
}.

Inductive MainExit : Type :=
| Finished (scanned : nat) (counts : Counters)
| Exit1 (error : JsError).

(** The function [updateNotionTags] hands to [retryWithBackoff]: the PATCH,
    and the error thrown on a non-ok response. *)
Definition patchTags (pageId : string) (updatedTags : list jsstring) : M unit :=
  getNotionHeaders ;;
  response <- fetch (HttpPatchPage pageId (MultiSelectFlag updatedTags))
                    (serve_patch pageId (MultiSelectFlag updatedTags)) ;;
  match response with
  | RespFail status errorText =>
      throw (Error ("Failed to update Notion page " ++ pageId ++ ": "
                    ++ show_nat status ++ " " ++ errorText)%string)
  | RespOk _ => ret tt
  end.

Section WithTables.
Context {U : UnicodeTables}.

Definition normalizeName (name : jsstring) : jsstring := toLowerCase (trim name).

Definition hasDuplicateTag (existingTags : list jsstring) : bool :=
  existsb (fun tag => jsstring_eqb (toLowerCase tag) (js "duplicate")) existingTags.

Definition updateNotionTags (pageId : string) (existingTags : list jsstring) : M bool :=
  if hasDuplicateTag existingTags then ret false
  else if DRY_RUN then ret true
  else
    let updatedTags := existingTags ++ [js "Duplicate"] in
    retryWithBackoff (patchTags pageId updatedTags) 3 1000 ;;
    ret true.

(** The [do ... while (cursor)] loop.  The cursor of the store advances by
    a page per round, so [fuel] rounds are enough when [fuel] exceeds the
    number of records. *)
Fixpoint fetchAllPages_loop (fuel : nat) (allPages : list NotionPage)
    (cursor : option nat) : M (list NotionPage) :=
  match fuel with
  | O => ret allPages
  | S fuel' =>
      response <- queryNotionDatabase cursor BATCH_SIZE ;;
      let allPages := allPages ++ results response in
      match next_cursor response with
      | Some c =>
          sleep RATE_LIMIT_DELAY ;;
          fetchAllPages_loop fuel' allPages (Some c)
      | None => ret allPages
      end
  end.

Definition fetchAllPages : M (list NotionPage) :=
  fun w => fetchAllPages_loop (S (List.length (notion_pages w))) [] None w.

(** [nameMap.get(normalizedName)!.push(page)], on a [Map] that keeps its
    keys in the order of their first insertion. *)
Fixpoint push_page (normalizedName : jsstring) (page : NotionPage)
    (nameMap : list (jsstring * list NotionPage)) : list (jsstring * list NotionPage) :=
  match nameMap with
  | [] => [(normalizedName, [page])]
  | (key, pagesWithName) :: rest =>
      if jsstring_eqb key normalizedName
      then (key, pagesWithName ++ [page]) :: rest
      else (key, pagesWithName) :: push_page normalizedName page rest
  end.

Definition buildDuplicateMap (pages : list NotionPage)
  : list (jsstring * list NotionPage) :=
  fold_left
    (fun nameMap page =>
       if falsy_text (plain_text page) then nameMap
       else match plain_text page with
            | Some name => push_page (normalizeName name) page nameMap
            | None => nameMap
            end)
    pages [].

(** The inner [for (const page of pages)] with its per-page [try]. *)
Fixpoint tagPages (pages : list NotionPage) (c : Counters) : M Counters :=
  match pages with
  | [] => ret c
  | page :: rest =>
      c' <- try_catch
              (currentPage <- fetchNotionPage (page_id page) ;;
               let currentTags := multi_select currentPage in
               wasTagged <- updateNotionTags (page_id page) currentTags ;;
               sleep RATE_LIMIT_DELAY ;;
               ret {| totalDuplicates := totalDuplicates c;
                      tagged := if wasTagged then S (tagged c) else tagged c;
                      skipped := if wasTagged then skipped c else S (skipped c);
                      processed := S (processed c) |})
              (fun _ => ret c) ;;
      tagPages rest c'
  end.

Fixpoint tagGroups (nameMap : list (jsstring * list NotionPage)) (c : Counters)
  : M Counters :=
  match nameMap with
  | [] => ret c
  | (_, pages) :: rest =>
      if List.length pages <=? 1 then tagGroups rest c
      else
        c' <- tagPages pages
                {| totalDuplicates := totalDuplicates c + List.length pages;
                   tagged := tagged c; skipped := skipped c;
                   processed := processed c |} ;;
        tagGroups rest c'
  end.

Definition tagDuplicates (nameMap : list (jsstring * list NotionPage)) : M Counters :=
  tagGroups nameMap
    {| totalDuplicates := 0; tagged := 0; skipped := 0; processed := 0 |}.

(** [main]: the two environment checks reject the promise; anything thrown
    by the three steps ends the process with [Deno.exit(1)]. *)
Definition main : M MainExit :=
  fun w =>
    if negb (NOTION_DATABASE_ID w)
    then (Throw (Error "NOTION_DATABASE_ID environment variable is not set"), w)
    else if negb (NOTION_TOKEN w)
    then (Throw (Error "NOTION_TOKEN environment variable is not set"), w)
    else
      try_catch
        (allPages <- fetchAllPages ;;
         let nameMap := buildDuplicateMap allPages in
         counts <- tagDuplicates nameMap ;;
         ret (Finished (List.length allPages) counts))
        (fun error => ret (Exit1 error)) w.

End WithTables.

End Backfill.

(** ** duplicate-checker-deploy.ts *)

Module Webhook.

(** The page data of a delivery: an object shaped like [WebhookBody],
    every field of which may be missing; [pageData_title] is the
    [plain_text] of the items of [properties["клиент"].title]. *)
Record PageData := {
  pageData_id : option string;
  pageData_title : list jsstring
}.

(** A delivery, after [req.json()]: an object that wraps the page data in
    [data], an object that is the page data, or [null]. *)
Inductive WebhookBody : Type :=
| Wrapped (data : PageData)
| Plain (pageData : PageData)
| NullBody.

(** [body.data || body], which throws a TypeError on [null]. *)
Definition pageData_of (body : WebhookBody) : option PageData :=
  match body with
  | Wrapped data => Some data
  | Plain pageData => Some pageData
  | NullBody => None
  end.

(** [body = None] when [req.json()] rejects. *)
Record Request := {
  method : string;
  body : option WebhookBody
}.

Inductive ResponseBody : Type :=
| MethodNotAllowed
| Skipped (reason : string)
| Tagged (duplicateCount : nat)
| Indexed
| InternalError (errorMessage : option string).

Record HttpResponse := {
  status : nat;
  payload : ResponseBody
}.

(** The [success] and [skipped] members of the JSON body, when present. *)
Definition success (b : ResponseBody) : option bool :=
  match b with
  | MethodNotAllowed => None
  | Skipped _ => Some false
  | Tagged _ => Some true
  | Indexed => Some true
  | InternalError _ => Some false
  end.

Definition skipped (b : ResponseBody) : option bool :=
  match b with
  | Skipped _ => Some true
  | _ => None
  end.

Definition fetchNotionPage (pageId : string) : M NotionPage :=
  getNotionHeaders ;;
  response <- fetch (HttpGetPage pageId) (serve_get pageId) ;;
  match response with
  | RespFail status errorText =>
      throw (Error ("Failed to fetch Notion page " ++ pageId ++ ": "
                    ++ show_nat status ++ " " ++ errorText)%string)
  | RespOk json => ret json
  end.

(** [page.properties["Duplicate Flag"]?.select || null] *)
Definition select (page : NotionPage) : option jsstring :=
  match duplicate_flag page with
  | SelectFlag tag => tag
  | _ => None
  end.

Definition retryWithBackoff {A} (fn : M A) (maxRetries : nat) (initialDelay : Z) : M A :=
  retry_loop rate_limit_signal fn initialDelay maxRetries 0 undefined_error.

Definition findDuplicatePages (normalizedName : jsstring) : M (list string) :=
  retryWithBackoff
    (sqlite_execute (SqlSelectName normalizedName)
       (fun w => (Ok (select_by_name normalizedName (name_index w)), w)))
    3 1000.

Section WithTables.
Context {U : UnicodeTables}.

Definition normalizeName (name : jsstring) : jsstring := toLowerCase (trim name).

Definition hasDuplicateTag (existingTag : option jsstring) : bool :=
  match existingTag with
  | Some name => jsstring_eqb (toLowerCase name) (js "duplicate")
  | None => false
  end.

Definition updateNotionTags (pageId : string) (existingTag : option jsstring) : M unit :=
  if hasDuplicateTag existingTag then ret tt
  else
    getNotionHeaders ;;
    response <- fetch (HttpPatchPage pageId (SelectFlag (Some (js "Duplicate"))))
                      (serve_patch pageId (SelectFlag (Some (js "Duplicate")))) ;;
    match response with
    | RespFail status errorText =>
        throw (Error ("Failed to update Notion page " ++ pageId ++ ": "
                      ++ show_nat status ++ " " ++ errorText)%string)
    | RespOk _ => ret tt
    end.

Definition insertNameIndex (name : jsstring) (pageId : string) : M unit :=
  let normalizedName := normalizeName name in
  try_catch
    (retryWithBackoff
       (sqlite_execute (SqlInsertName normalizedName pageId)
          (run_insert_name normalizedName pageId))
       3 1000)
    (fun error =>
       if message_includes error "UNIQUE constraint" then ret tt
       else throw error).

(** The [for (const duplicatePageId of otherDuplicates)] loop with its
    per-page [try]. *)
Fixpoint tagOthers (otherDuplicates : list string) : M unit :=
  match otherDuplicates with
  | [] => ret tt
  | duplicatePageId :: rest =>
      try_catch
        (duplicatePage <- fetchNotionPage duplicatePageId ;;
         updateNotionTags duplicatePageId (select duplicatePage))
        (fun _ => ret tt) ;;
      tagOthers rest
  end.

Definition skip (reason : string) : M HttpResponse :=
  ret {| status := 200; payload := Skipped reason |}.

(** The body of the outer [try]. *)
Definition handle (req : Request) : M HttpResponse :=
  if negb (String.eqb (method req) "POST")
  then ret {| status := 405; payload := MethodNotAllowed |}
  else
    match body req with
    | None => skip "Invalid JSON in request body"
    | Some body =>
        match pageData_of body with
        | None => throw (Error "Cannot read properties of null (reading 'data')")
        | Some pageData =>
            if falsy_string (pageData_id pageData)
            then skip "Missing 'id' field in webhook body"
            else if falsy_text (hd_error (pageData_title pageData))
            then skip "Missing or invalid 'клиент' property"
            else
              match pageData_id pageData, hd_error (pageData_title pageData) with
              | Some pageId, Some name =>
                  let normalizedName := normalizeName name in
                  duplicatePageIds <- findDuplicatePages normalizedName ;;
                  let otherDuplicates :=
                    filter (fun id => negb (String.eqb id pageId)) duplicatePageIds in
                  if 0 <? List.length otherDuplicates
                  then
                    currentPage <- fetchNotionPage pageId ;;
                    updateNotionTags pageId (select currentPage) ;;
                    tagOthers otherDuplicates ;;
                    insertNameIndex name pageId ;;
                    ret {| status := 200;
                           payload := Tagged (List.length otherDuplicates) |}
                  else
                    insertNameIndex name pageId ;;
                    ret {| status := 200; payload := Indexed |}
              | _, _ => skip "Missing 'id' field in webhook body"
              end
        end
    end.

(** The outer [catch] answers 200 whatever was thrown. *)
Definition handler (req : Request) (w : World) : HttpResponse * World :=
  match handle req w with
  | (Ok response, w1) => (response, w1)
  | (Throw error, w1) =>
      ({| status := 200; payload := InternalError (message error) |}, w1)
  end.

End WithTables.

End Webhook.

(** ** index-builder-deploy.ts *)

Module IndexBuilder.

Definition BATCH_SIZE : nat := 100.
Definition MAX_RUNTIME_MS : Z := 45000.

(** [MAX_RUNTIME_MS * 0.85] *)
Definition PAUSE_AFTER_MS : Z := 38250.

Definition retryWithBackoff {A} (fn : M A) (maxRetries : nat) (initialDelay : Z) : M A :=
  retry_loop rate_limit_signal fn initialDelay maxRetries 0 undefined_error.

(** The three [CREATE ... IF NOT EXISTS] statements change no row. *)
Definition initializeTables : M unit :=
  sqlite_execute SqlCreateNameIndex (fun w => (Ok tt, w)) ;;
  sqlite_execute SqlCreateIdxName (fun w => (Ok tt, w)) ;;
  sqlite_execute SqlCreateProgress (fun w => (Ok tt, w)).

Definition getProgress : M Progress :=
  result <- retryWithBackoff
              (sqlite_execute SqlSelectProgress
                 (fun w => (Ok (index_builder_progress w), w)))
              3 1000 ;;
  match result with
  | None =>
      retryWithBackoff (sqlite_execute SqlInsertProgress run_insert_progress) 3 1000 ;;
      ret initial_progress
  | Some row => ret row
  end.

Definition updateProgress (data : Progress) : M unit :=
  retryWithBackoff
    (sqlite_execute (SqlUpdateProgress data) (run_update_progress data))
    3 1000.

Definition queryNotionDatabase (startCursor : option nat) (pageSize : nat)
  : M NotionQueryResponse :=
  getNotionHeaders ;;
  response <- fetch (HttpQuery startCursor pageSize) (serve_query startCursor pageSize) ;;
  match response with
  | RespFail status errorText =>
      throw (Error ("Failed to query Notion database: " ++ show_nat status
                    ++ " " ++ errorText)%string)
  | RespOk json => ret json
  end.

Definition getExistingIndexCount : M nat :=
  retryWithBackoff
    (sqlite_execute SqlCountNames (fun w => (Ok (List.length (name_index w)), w)))
    3 1000.

Inductive Report : Type :=
| AlreadyCompleted (total : nat)
| CompleteEmptyBatch (total : nat)
| Complete (total : nat)
| Partial (total : nat)
| ErrorReport (errorMessage : option string).

Section WithTables.
Context {U : UnicodeTables}.

Definition normalizeName (name : jsstring) : jsstring := toLowerCase (trim name).

Definition insertIntoIndex (name : jsstring) (pageId : string) : M bool :=
  let normalizedName := normalizeName name in
  retryWithBackoff
    (try_catch
       (sqlite_execute (SqlInsertName normalizedName pageId)
          (run_insert_name normalizedName pageId) ;;
        ret true)
       (fun error =>
          if message_includes error "UNIQUE constraint" then ret false
          else throw error))
    3 1000.

Fixpoint processBatch_from (pages : list NotionPage) (indexed : nat) : M nat :=
  match pages with
  | [] => ret indexed
  | page :: rest =>
      match hd_error (title page) with
      | Some (c :: name) =>
          wasInserted <- insertIntoIndex (c :: name) (page_id page) ;;
          processBatch_from rest (if wasInserted then S indexed else indexed)
      | _ => processBatch_from rest indexed
      end
  end.

Definition processBatch (pages : list NotionPage) : M nat := processBatch_from pages 0.

(** The [while (Date.now() - startTime < MAX_RUNTIME_MS)] loop.  [clock]
    lists the coming readings of [Date.now()]: one for the loop test, one
    for the logged duration, one for the pause test.  A clock that has no
    reading left ends the run as a pause. *)
Fixpoint batches (clock : list Z) (startTime : Z) (cursor : option nat)
    (totalIndexed : nat) : M Report :=
  match clock with
  | [] => ret (Partial totalIndexed)
  | now :: clock1 =>
      if (now - startTime <? MAX_RUNTIME_MS)%Z
      then
        response <- queryNotionDatabase cursor BATCH_SIZE ;;
        let pages := results response in
        let cursor := next_cursor response in
        let completed := negb (has_more response) in
        if List.length pages =? 0
        then
          updateProgress {| last_cursor := None; total_indexed := totalIndexed;
                            completed := true |} ;;
          ret (CompleteEmptyBatch totalIndexed)
        else
          indexed <- processBatch pages ;;
          let totalIndexed := totalIndexed + indexed in
          updateProgress {| last_cursor := cursor; total_indexed := totalIndexed;
                            completed := completed |} ;;
          if completed then ret (Complete totalIndexed)
          else
            match clock1 with
            | _ :: now2 :: clock2 =>
                if (now2 - startTime >? PAUSE_AFTER_MS)%Z
                then ret (Partial totalIndexed)
                else batches clock2 startTime cursor totalIndexed
            | _ => ret (Partial totalIndexed)
            end
      else ret (Partial totalIndexed)
  end.

(** The body of the [try] of [indexBuilder]. *)
Definition build (startTime : Z) (clock : list Z) : M Report :=
  initializeTables ;;
  progress <- getProgress ;;
  progress <-
    (if negb (completed progress) && (total_indexed progress =? 0)
     then
       existingCount <- getExistingIndexCount ;;
       if 0 <? existingCount
       then
         updateProgress {| last_cursor := last_cursor progress;
                           total_indexed := existingCount;
                           completed := completed progress |} ;;
         ret {| last_cursor := last_cursor progress;
                total_indexed := existingCount;
                completed := completed progress |}
       else ret progress
     else ret progress) ;;
  if completed progress then ret (AlreadyCompleted (total_indexed progress))
  else
    databaseId <- (fun w => (Ok (NOTION_DATABASE_ID w), w)) ;;
    if negb databaseId
    then throw (Error "NOTION_DATABASE_ID environment variable is not set")
    else batches clock startTime (last_cursor progress) (total_indexed progress).

(** Every report is sent with status 200; the [catch] turns what was
    thrown into an error report. *)
Definition indexBuilder (startTime : Z) (clock : list Z) (w : World) : Report * World :=
  match build startTime clock w with
  | (Ok report, w1) => (report, w1)
  | (Throw error, w1) => (ErrorReport (message error), w1)
  end.

End WithTables.

End IndexBuilder.

(** ** Vocabulary of the statements *)

Definition empty_world : World :=
  {| notion_pages := []; name_index := []; index_builder_progress := None;
     progress_history := []; NOTION_TOKEN := true; NOTION_DATABASE_ID := true;
     sqlite_faults := []; http_faults := []; calls := []; sleeps := [] |}.

(** What one run of a retry loop leaves behind, for a function that makes
    the request [c] once per attempt and does not wait itself: [k] waits,
    those of attempts [i], [i+1], ..., and either [k + 1] attempts, the last
    of which succeeded or failed with an error that is not retried, or
    [maxRetries] attempts, all of which failed. *)
Definition retry_outcome {A} (retryable : JsError -> bool) (initialDelay : Z)
    (c : Call) (maxRetries i : nat) (w : World) (out : Result A * World) : Prop :=
  exists k,
    k <= maxRetries
    /\ sleeps (snd out) = rev (backoff initialDelay i k) ++ sleeps w
    /\ match fst out with
       | Ok _ => k < maxRetries /\ calls (snd out) = repeat c (S k) ++ calls w
       | Throw e =>
           (retryable e = false /\ k < maxRetries
            /\ calls (snd out) = repeat c (S k) ++ calls w)
           \/ (k = maxRetries /\ calls (snd out) = repeat c maxRetries ++ calls w)
       end.

(** The number of rows of [name_index] that carry a page id, and the
    invariant its UNIQUE constraint maintains. *)
Definition entries_for (pageId : string) (rows : list IndexRow) : nat :=
  List.length (filter (fun r => String.eqb (notion_page_id r) pageId) rows).

Definition index_unique (rows : list IndexRow) : Prop :=
  NoDup (map notion_page_id rows).

(** The requests to Notion leave the SQLite side of the world alone. *)
Definition same_sqlite (w w' : World) : Prop :=
  name_index w' = name_index w
  /\ sqlite_faults w' = sqlite_faults w
  /\ index_builder_progress w' = index_builder_progress w
  /\ progress_history w' = progress_history w.

(** Statements that change no row of either table. *)
Definition changes_no_row (c : Call) : bool :=
  match c with
  | SqlCreateNameIndex | SqlCreateIdxName | SqlCreateProgress
  | SqlSelectName _ | SqlCountNames | SqlSelectProgress => true
  | _ => false
  end.

(** [w1] is [w] after requests that changed no row and none of which went
    to Notion: the records, the index, the progress row and its history
    are those of [w]. *)
Definition only_reads (w w1 : World) : Prop :=
  notion_pages w1 = notion_pages w
  /\ name_index w1 = name_index w
  /\ index_builder_progress w1 = index_builder_progress w
  /\ progress_history w1 = progress_history w
  /\ http_faults w1 = http_faults w
  /\ exists new, calls w1 = new ++ calls w /\ forallb changes_no_row new = true.

(** The progress row and the history of its writes are those of [w]. *)
Definition same_progress (w w1 : World) : Prop :=
  index_builder_progress w1 = index_builder_progress w
  /\ progress_history w1 = progress_history w.

(** A history, newest first, in which no write went below the one before. *)
Fixpoint never_decreased (history : list nat) : Prop :=
  match history with
  | newer :: rest =>
      match rest with
      | older :: _ => older <= newer
      | [] => True
      end /\ never_decreased rest
  | [] => True
  end.

(** The history starts with the creation of the row and its head is the
    value the row holds. *)
Definition progress_tracked (w : World) : Prop :=
  match index_builder_progress w, progress_history w with
  | Some row, newest :: _ => total_indexed row = newest
  | None, [] => True
  | _, _ => False
  end.

(** One invocation of the scanner: when it starts, the readings its clock
    will give, and what the two back ends will do to its requests. *)
Record Invocation := {
  startTime : Z;
  clock : list Z;
  store_faults : list (option JsError);
  api_faults : list HttpFault
}.

(** The world after a sequence of invocations of the scanner. *)
Fixpoint scanner_runs `{UnicodeTables} (schedule : list Invocation) (w : World) : World :=
  match schedule with
  | [] => w
  | inv :: later =>
      scanner_runs later
        (snd (IndexBuilder.indexBuilder (startTime inv) (clock inv)
                (set_http_faults (api_faults inv)
                   (set_sqlite_faults (store_faults inv) w))))
  end.

(** The invariant of the progress row, and what the scanner knows while
    its local total is [t]: the row has not gone beyond it. *)
Definition tracked_monotone (w : World) : Prop :=
  progress_tracked w /\ never_decreased (progress_history w).

Definition scan_inv (t : nat) (w : World) : Prop :=
  tracked_monotone w
  /\ match progress_history w with
     | newest :: _ => newest <= t
     | [] => True
     end.

(** No write of the history of [w] is forgotten in [w1]. *)
Definition grows (w w1 : World) : Prop :=
  exists newer, progress_history w1 = newer ++ progress_history w.

(** Whether a record carries the duplicate tag, in either shape of the
    property. *)
Definition carries_duplicate `{UnicodeTables} (p : NotionPage) : bool :=
  match duplicate_flag p with
  | MultiSelectFlag tags => Backfill.hasDuplicateTag tags
  | SelectFlag tag => Webhook.hasDuplicateTag tag
  | NoFlag => false
  end.

(** [p1] is the record [p] later on: same id, same title, and still tagged
    if [p] was. *)
Definition keeps_tag `{UnicodeTables} (p p1 : NotionPage) : Prop :=
  page_id p1 = page_id p
  /\ title p1 = title p
  /\ (carries_duplicate p = true -> carries_duplicate p1 = true).

(** The key under which the backfill groups a record, when it has a name,
    and the group of a record among [pages]: the records of its key. *)
Definition key_of `{UnicodeTables} (p : NotionPage) : option jsstring :=
  match Backfill.plain_text p with
  | Some (c :: name) => Some (Backfill.normalizeName (c :: name))
  | _ => None
  end.

Definition has_key `{UnicodeTables} (k : jsstring) (p : NotionPage) : bool :=
  match key_of p with
  | Some k' => jsstring_eqb k' k
  | None => false
  end.

Definition group_of `{UnicodeTables} (p : NotionPage) (pages : list NotionPage)
  : list NotionPage :=
  match key_of p with
  | Some k => filter (has_key k) pages
  | None => []
  end.

(** The records of [w] whose id is not in [ids] are in [w1] as they were. *)
Definition untouched (ids : list string) (w w1 : World) : Prop :=
  forall p, In p (notion_pages w) -> ~ In (page_id p) ids -> In p (notion_pages w1).

(** The ids of the records that sit in a group of two or more. *)
Definition duplicated_ids (nameMap : list (jsstring * list NotionPage)) : list string :=
  flat_map (fun group => if List.length (snd group) <=? 1 then []
                         else map page_id (snd group))
           nameMap.

(** What the duplicate map is of the records seen so far: its keys are
    distinct, every group is the records with its key, and every key seen
    has its group. *)
Definition grouped `{UnicodeTables} (nameMap : list (jsstring * list NotionPage))
    (seen : list NotionPage) : Prop :=
  NoDup (map fst nameMap)
  /\ (forall k g, In (k, g) nameMap -> g = filter (has_key k) seen)
  /\ (forall q k, In q seen -> key_of q = Some k -> In k (map fst nameMap)).

(** [w1] holds the data of [w]: the records, the two tables and the
    environment; only the traffic (requests, waits, pending failures) may
    differ. *)
Definition same_data (w w1 : World) : Prop :=
  notion_pages w1 = notion_pages w
  /\ name_index w1 = name_index w
  /\ index_builder_progress w1 = index_builder_progress w
  /\ progress_history w1 = progress_history w
  /\ NOTION_TOKEN w1 = NOTION_TOKEN w
  /\ NOTION_DATABASE_ID w1 = NOTION_DATABASE_ID w.

(** The store is about to answer: no failure is pending for the next
    statement. *)
Definition store_answers (faults : list (option JsError)) : Prop :=
  faults = [] \/ exists later, faults = None :: later.

(** The API is about to serve: no failure is pending for the next
    request. *)
Definition api_serves (faults : list HttpFault) : Prop :=
  faults = [] \/ exists later, faults = HttpServes :: later.

(** The five texts for which the backfill retries a failure. *)
Definition backfill_signals : list string := ["429"; "500"; "502"; "503"; "504"].

(** What a delivery about [pageId] may do to the index: nothing, or append
    one row for [pageId] when it has none. *)
Definition index_effect (pageId : string) (w w1 : World) : Prop :=
  name_index w1 = name_index w
  \/ (has_page_id pageId (name_index w) = false
      /\ exists key,
           name_index w1
           = name_index w ++ [{| row_name := key; notion_page_id := pageId |}]).

(** The id a delivery is about, when it has one. *)
Definition delivered_id (req : Webhook.Request) : string :=
  match Webhook.body req with
  | Some b =>
      match Webhook.pageData_of b with
      | Some pageData =>
          match Webhook.pageData_id pageData with
          | Some pageId => pageId
          | None => ""
          end
      | None => ""
      end
  | None => ""
  end.

Definition is_get_page (c : Call) : bool :=
  match c with
  | HttpGetPage _ => true
  | _ => false
  end.

(** Every id of [ids] is that of a record whose flag is a single select;
    every id of [ids] is that of a record that carries the tag. *)
Definition selectable (ids : list string) (pages : list NotionPage) : Prop :=
  forall pageId, In pageId ids ->
    exists p tag, find_page pageId pages = Some p /\ duplicate_flag p = SelectFlag tag.

Definition all_tagged `{UnicodeTables} (ids : list string) (pages : list NotionPage)
  : Prop :=
  forall pageId, In pageId ids ->
    exists p, find_page pageId pages = Some p /\ carries_duplicate p = true.

(** [p1] is the record [p] after the pages of [ids] have been tagged: the
    same record, or, for a page of [ids], the record with a flag that holds
    the tag.  The webhook sets the select to the tag; the backfill adds the
    tag to the multi-select. *)
Definition marked_as (tagged_flag : Flag -> Prop) (ids : list string)
    (p p1 : NotionPage) : Prop :=
  page_id p1 = page_id p
  /\ title p1 = title p
  /\ (p1 = p \/ (In (page_id p) ids /\ tagged_flag (duplicate_flag p1))).

Definition marked : list string -> NotionPage -> NotionPage -> Prop :=
  marked_as (fun flag => flag = SelectFlag (Some (js "Duplicate"))).

Definition marked_multi `{UnicodeTables}
  : list string -> NotionPage -> NotionPage -> Prop :=
  marked_as (fun flag => exists tags, flag = MultiSelectFlag tags
                                      /\ Backfill.hasDuplicateTag tags = true).

(** Every record is a multi-select, as the backfill takes it to be. *)
Definition multi_selects (pages : list NotionPage) : Prop :=
  forall p, In p pages -> exists tags, duplicate_flag p = MultiSelectFlag tags.

Definition is_patch (c : Call) : bool :=
  match c with
  | HttpPatchPage _ _ => true
  | _ => false
  end.

(** The total of the progress row, when there is one, is at most the
    number of rows of the index. *)
Definition within_index (w : World) : Prop :=
  match index_builder_progress w with
  | Some row => total_indexed row <= List.length (name_index w)
  | None => True
  end.

(** The total a report of the scanner gives. *)
Definition report_total (r : IndexBuilder.Report) : option nat :=
  match r with
  | IndexBuilder.AlreadyCompleted t | IndexBuilder.CompleteEmptyBatch t
  | IndexBuilder.Complete t | IndexBuilder.Partial t => Some t
  | IndexBuilder.ErrorReport _ => None
  end.

(** A statement that writes [data] to the progress row did so, or not. *)
Definition progress_written (data : Progress) (w w1 : World) : Prop :=
  name_index w1 = name_index w
  /\ notion_pages w1 = notion_pages w
  /\ (index_builder_progress w1 = index_builder_progress w
      \/ index_builder_progress w1 = Some data).

(** A record with a name the scripts accept. *)
Definition named (p : NotionPage) : bool := negb (falsy_text (hd_error (title p))).

(** The named records among the first [k] of the database are in the
    index. *)
Definition covered (k : nat) (w : World) : Prop :=
  forall p, In p (firstn k (notion_pages w)) -> named p = true ->
            has_page_id (page_id p) (name_index w) = true.

(** The number of records a cursor stands behind. *)
Definition cursor_position (cursor : option nat) : nat :=
  match cursor with
  | Some k => k
  | None => 0
  end.

(** What the progress row promises: the records before its cursor are
    indexed, and all of them are once it says completed. *)
Definition scan_covers (w : World) : Prop :=
  match index_builder_progress w with
  | Some row =>
      covered (cursor_position (last_cursor row)) w
      /\ (completed row = true -> covered (List.length (notion_pages w)) w)
  | None => True
  end.

(** The reports that say the scan is over. *)
Definition finished (r : IndexBuilder.Report) : bool :=
  match r with
  | IndexBuilder.AlreadyCompleted _ | IndexBuilder.CompleteEmptyBatch _
  | IndexBuilder.Complete _ => true
  | _ => false
  end.

Definition marked_completed (w : World) : Prop :=
  exists row, index_builder_progress w = Some row /\ completed row = true.

(** Every id of [ids] is that of a record whose flag is a multi-select. *)
Definition multi_selectable (ids : list string) (pages : list NotionPage) : Prop :=
  forall pageId, In pageId ids ->
    exists p tags, find_page pageId pages = Some p
                   /\ duplicate_flag p = MultiSelectFlag tags.

(** [w1] is [w] after requests that sent no PATCH: the records are those
    of [w]. *)
Definition nothing_patched (w w1 : World) : Prop :=
  notion_pages w1 = notion_pages w
  /\ filter is_patch (calls w1) = filter is_patch (calls w).

(** The name a delivery carries, when it has one. *)
Definition delivered_name (req : Webhook.Request) : jsstring :=
  match Webhook.body req with
  | Some b =>
      match Webhook.pageData_of b with
      | Some pageData =>
          match hd_error (Webhook.pageData_title pageData) with
          | Some name => name
          | None => []
          end
      | None => []
      end
  | None => []
  end.

(** Requests about one page: its fetch and its update. *)
Definition is_page_request (c : Call) : bool :=
  match c with
  | HttpGetPage _ | HttpPatchPage _ _ => true
  | _ => false
  end.

(** [w1] is [w] after requests none of which was about a page: the
    records are those of [w]. *)
Definition pages_left_alone (w w1 : World) : Prop :=
  notion_pages w1 = notion_pages w
  /\ filter is_page_request (calls w1) = filter is_page_request (calls w).

(** A delivery the handler cannot use: its JSON does not parse, or its
    page data lacks the id or the name. *)
Definition unusable (req : Webhook.Request) : Prop :=
  Webhook.body req = None
  \/ exists b pageData,
       Webhook.body req = Some b
       /\ Webhook.pageData_of b = Some pageData
       /\ (falsy_string (Webhook.pageData_id pageData) = true
           \/ falsy_text (hd_error (Webhook.pageData_title pageData)) = true).

(** Every reading of the clock is early enough for the scanner to go on:
    at most [PAUSE_AFTER_MS] after the start. *)
Definition within_budget (startTime : Z) (clock : list Z) : Prop :=
  Forall (fun now => (now - startTime <= IndexBuilder.PAUSE_AFTER_MS)%Z) clock.

(** A text without the character NUL. *)
Definition nul_free (s : jsstring) : bool := forallb (fun c => negb (c =? 0)%N) s.

(** A key as [normalizeName] makes it of a name without NUL: no NUL and
    no upper-case ASCII letter is left in it. *)
Definition plain_key (s : jsstring) : bool :=
  forallb (fun c => negb (c =? 0)%N && negb ((65 <=? c) && (c <=? 90))%N) s.


(** A delivery that brings no name: its JSON does not parse or is
    [null], or its page data has no name or an empty one. *)
Definition nameless (req : Webhook.Request) : Prop :=
  match Webhook.body req with
  | None => True
  | Some b =>
      match Webhook.pageData_of b with
      | None => True
      | Some pageData =>
          falsy_text (hd_error (Webhook.pageData_title pageData)) = true
      end
  end.

(** The INSERT statements of [name_index]. *)
Definition is_insert_name (c : Call) : bool :=
  match c with
  | SqlInsertName _ _ => true
  | _ => false
  end.

(** Between [w] and [w1] no INSERT was sent to [name_index], and its
    rows are those of [w]. *)
Definition no_insert (w w1 : World) : Prop :=
  name_index w1 = name_index w
  /\ filter is_insert_name (calls w1) = filter is_insert_name (calls w).

(** Consecutive attempts of [fn], the first of them attempt [i] made in
    [w], each of which failed and was followed by the wait
    [initialDelay * 2^attempt]: the errors they threw, oldest first, and
    the world after the last wait. *)
Inductive waited_on {A} (fn : M A) (initialDelay : Z) :
    nat -> World -> list JsError -> World -> Prop :=
| waited_none i w : waited_on fn initialDelay i w [] w
| waited_more i w e w1 es wk :
    fn w = (Throw e, w1) ->
    waited_on fn initialDelay (S i)
      (add_sleep (initialDelay * 2 ^ Z.of_nat i) w1) es wk ->
    waited_on fn initialDelay i w (e :: es) wk.

(** The policy of a retrying wrapper [retry], told by what it does after
    any number of failed attempts that were waited on, all of them
    retryable.  While attempts are left, the next attempt decides: its
    value is returned, and its failure, when it is not retryable, is
    thrown as it is, from the world that attempt left, so without a wait
    or a further attempt.  When [maxRetries] attempts have been waited on,
    the last error is thrown and [fn] is not called again. *)
Definition follows_policy {A} (retryable : JsError -> bool)
    (retry : M A -> nat -> Z -> M A) : Prop :=
  forall (fn : M A) maxRetries initialDelay w es wk,
    waited_on fn initialDelay 0 w es wk ->
    Forall (fun e => retryable e = true) es ->
    (List.length es < maxRetries ->
     match fn wk with
     | (Ok a, w1) => retry fn maxRetries initialDelay w = (Ok a, w1)
     | (Throw e, w1) =>
         retryable e = false ->
         retry fn maxRetries initialDelay w = (Throw e, w1)
     end)
    /\ (List.length es = maxRetries ->
        retry fn maxRetries initialDelay w = (Throw (last es undefined_error), wk)).

(** Every run is one of those: the failures that were waited on, all
    retryable, are [maxRetries], or fewer and followed by an attempt that
    succeeds or fails with an error that is not retryable. *)
Definition attempts_end {A} (retryable : JsError -> bool) (fn : M A)
    (maxRetries : nat) (initialDelay : Z) (w : World) : Prop :=
  exists es wk,
    waited_on fn initialDelay 0 w es wk
    /\ Forall (fun e => retryable e = true) es
    /\ (List.length es = maxRetries
        \/ (List.length es < maxRetries
            /\ forall e, fst (fn wk) = Throw e -> retryable e = false)).

(** The store reports a uniqueness violation only when the INSERT meets
    one ([run_insert_name]): none of the failures the service injects
    carries that message. *)
Definition genuine (faults : list (option JsError)) : Prop :=
  Forall (fun f => match f with
                   | Some e => message_includes e "UNIQUE constraint" = false
                   | None => True
                   end) faults.

(** A failure that is retried and is not taken for a uniqueness
    violation. *)
Definition throttled (e : JsError) : Prop :=
  rate_limit_signal e = true /\ message_includes e "UNIQUE constraint" = false.

(** [w1] is [w] after further requests, the token being the same; when
    the token is set, a GET of every page of [ids] is among them. *)
Definition attempted (ids : list string) (w w1 : World) : Prop :=
  NOTION_TOKEN w1 = NOTION_TOKEN w
  /\ exists new,
       calls w1 = new ++ calls w
       /\ (NOTION_TOKEN w = true ->
           forall pageId, In pageId ids -> In (HttpGetPage pageId) new).

(** A stand-in for the Unicode tables, used to run the scripts on ASCII
    input, where the tables are never consulted. *)
Definition ascii_tables : UnicodeTables := {| unicodeLower := fun s => s |}.

(** ** Sample worlds *)

(** Three records: "Acme" and " acme " share a name, "Solo" stands alone
    and already carries the tag. *)
Definition acme1 : NotionPage :=
  {| page_id := "1"; title := [js "Acme"]; duplicate_flag := MultiSelectFlag [] |}.
Definition acme2 : NotionPage :=
  {| page_id := "2"; title := [js " acme "]; duplicate_flag := MultiSelectFlag [] |}.
Definition solo5 : NotionPage :=
  {| page_id := "5"; title := [js "Solo"];
     duplicate_flag := MultiSelectFlag [js "Duplicate"] |}.

Definition backfill_world : World := set_notion_pages [acme1; acme2; solo5] empty_world.

(** The same database when the first request to the API is answered 500. *)
Definition failing_api_world : World :=
  set_http_faults [HttpStatus 500 "Internal server error"] backfill_world.

(** A database whose flag is a single select, "Acme" being indexed, and
    the delivery of a second record of that name. *)
Definition webhook_world : World :=
  set_name_index [{| row_name := js "acme"; notion_page_id := "1" |}]
    (set_notion_pages
       [{| page_id := "1"; title := [js "Acme"]; duplicate_flag := SelectFlag None |};
        {| page_id := "2"; title := [js "acme"]; duplicate_flag := SelectFlag None |}]
       empty_world).

Definition acme_delivery : Webhook.Request :=
  {| Webhook.method := "POST";
     Webhook.body :=
       Some (Webhook.Plain {| Webhook.pageData_id := Some "2";
                              Webhook.pageData_title := [js "acme"] |}) |}.

Definition nameless_delivery : Webhook.Request :=
  {| Webhook.method := "POST";
     Webhook.body :=
       Some (Webhook.Wrapped {| Webhook.pageData_id := Some "7";
                                Webhook.pageData_title := [] |}) |}.

Definition get_request : Webhook.Request :=
  {| Webhook.method := "GET"; Webhook.body := None |}.

(** A store in which the scan is recorded as complete. *)
Definition completed_world : World :=
  write_progress {| last_cursor := None; total_indexed := 3; completed := true |}
    (write_progress initial_progress backfill_world).

(** The database of [backfill_world] once both "Acme" records are tagged. *)
Definition reconciled_world : World :=
  set_notion_pages
    [{| page_id := "1"; title := [js "Acme"];
        duplicate_flag := MultiSelectFlag [js "Duplicate"] |};
     {| page_id := "2"; title := [js " acme "];
        duplicate_flag := MultiSelectFlag [js "Duplicate"] |};
     solo5]
    empty_world.

(** A record whose id happens to contain "500", and an API that refuses
    the first request with a 400. *)
Definition page_a500 : NotionPage :=
  {| page_id := "a-500"; title := [js "Beta"]; duplicate_flag := MultiSelectFlag [] |}.

Definition refusing_api_world : World :=
  set_http_faults [HttpStatus 400 "validation_error"]
    (set_notion_pages [page_a500] empty_world).

(** The index store answering "429" once, and three times. *)
Definition busy_store_world : World :=
  set_sqlite_faults [Some (Error "429 Too Many Requests")] webhook_world.

Definition overloaded_store_world : World :=
  set_sqlite_faults
    [Some (Error "429 Too Many Requests"); Some (Error "429 Too Many Requests");
     Some (Error "429 Too Many Requests")]
    webhook_world.

(** The delivery of a record whose name nobody else bears. *)
Definition zeta_delivery : Webhook.Request :=
  {| Webhook.method := "POST";
     Webhook.body :=
       Some (Webhook.Plain {| Webhook.pageData_id := Some "9";
                              Webhook.pageData_title := [js "Zeta"] |}) |}.


(** A delivery whose JSON body is [null]. *)
Definition null_delivery : Webhook.Request :=
  {| Webhook.method := "POST"; Webhook.body := Some Webhook.NullBody |}.

(** The index store answering "429" to one statement and failing the
    next. *)
Definition flaky_store_world : World :=
  set_sqlite_faults
    [Some (Error "429 Too Many Requests"); Some (Error "disk I/O error")]
    webhook_world.

(** * Properties *)

(** ** Strings *)

Lemma jsstring_eqb_eq (a b : jsstring) : jsstring_eqb a b = true <-> a = b.
Proof.
  revert b; induction a as [|x a IH]; intros [|y b]; simpl; split;
    try discriminate; try reflexivity.
  - intros H. apply andb_true_iff in H as [Hx Hr].
    apply N.eqb_eq in Hx. apply IH in Hr. now subst.
  - intros H. injection H as -> ->. rewrite N.eqb_refl. now apply IH.
Qed.

Lemma jsstring_eqb_refl (a : jsstring) : jsstring_eqb a a = true.
Proof. now apply jsstring_eqb_eq. Qed.

Lemma trimStart_app (a b : jsstring) :
  trimStart (a ++ b) =
  match trimStart a with
  | [] => trimStart b
  | c :: t => (c :: t) ++ b
  end.
Proof.
  induction a as [|c a IH]; simpl.
  - reflexivity.
  - destruct (isWhiteSpace c); [exact IH | reflexivity].
Qed.

Lemma trimStart_whitespace (s : jsstring) :
  forallb isWhiteSpace s = true -> trimStart s = [].
Proof.
  induction s as [|c s IH]; simpl; [reflexivity|].
  intros H. apply andb_true_iff in H as [Hc Hs]. now rewrite Hc, IH.
Qed.

Lemma trimStart_padding (pre s : jsstring) :
  forallb isWhiteSpace pre = true -> trimStart (pre ++ s) = trimStart s.
Proof.
  intros H. rewrite trimStart_app, trimStart_whitespace by exact H. reflexivity.
Qed.

Lemma trimEnd_padding (s post : jsstring) :
  forallb isWhiteSpace post = true -> trimEnd (s ++ post) = trimEnd s.
Proof.
  intros H. unfold trimEnd. rewrite rev_app_distr, trimStart_padding; [reflexivity|].
  rewrite forallb_forall in *. intros c Hc. apply H. now apply in_rev.
Qed.

Lemma trimEnd_nil : trimEnd [] = [].
Proof. reflexivity. Qed.

Lemma trim_padding (pre s post : jsstring) :
  forallb isWhiteSpace pre = true ->
  forallb isWhiteSpace post = true ->
  trim (pre ++ s ++ post) = trim s.
Proof.
  intros Hpre Hpost. unfold trim.
  rewrite trimStart_padding by exact Hpre.
  rewrite trimStart_app.
  destruct (trimStart s) as [|c t].
  - now rewrite (trimStart_whitespace post Hpost).
  - now apply trimEnd_padding.
Qed.

(** Facts about single ASCII code units are checked on the 128 of them. *)
Lemma ascii_cases (P : N -> bool) :
  forallb P (map N.of_nat (seq 0 128)) = true ->
  forall c, isAscii c = true -> P c = true.
Proof.
  intros H c Hc. rewrite forallb_forall in H. apply H.
  apply N.ltb_lt in Hc. rewrite <- (N2Nat.id c).
  apply in_map, in_seq. lia.
Qed.

Lemma asciiUpper_ascii c : isAscii c = true -> isAscii (asciiUpper c) = true.
Proof. apply (ascii_cases (fun c => isAscii (asciiUpper c))). now vm_compute. Qed.

Lemma asciiLower_ascii c : isAscii c = true -> isAscii (asciiLower c) = true.
Proof. apply (ascii_cases (fun c => isAscii (asciiLower c))). now vm_compute. Qed.

Lemma asciiUpper_whitespace c :
  isAscii c = true -> isWhiteSpace (asciiUpper c) = isWhiteSpace c.
Proof.
  intros H. apply Bool.eqb_prop.
  revert c H.
  apply (ascii_cases (fun c => Bool.eqb (isWhiteSpace (asciiUpper c)) (isWhiteSpace c))).
  now vm_compute.
Qed.

Lemma asciiLower_whitespace c :
  isAscii c = true -> isWhiteSpace (asciiLower c) = isWhiteSpace c.
Proof.
  intros H. apply Bool.eqb_prop.
  revert c H.
  apply (ascii_cases (fun c => Bool.eqb (isWhiteSpace (asciiLower c)) (isWhiteSpace c))).
  now vm_compute.
Qed.

Lemma asciiLower_upper c : isAscii c = true -> asciiLower (asciiUpper c) = asciiLower c.
Proof.
  intros H. apply N.eqb_eq. revert c H.
  apply (ascii_cases (fun c => N.eqb (asciiLower (asciiUpper c)) (asciiLower c))).
  now vm_compute.
Qed.

Lemma asciiLower_lower c : asciiLower (asciiLower c) = asciiLower c.
Proof.
  unfold asciiLower.
  destruct ((65 <=? c) && (c <=? 90))%N eqn:E; [|now rewrite E].
  apply andb_true_iff in E as [E _]. apply N.leb_le in E.
  assert ((c + 32 <=? 90)%N = false) as -> by (apply N.leb_gt; lia).
  now rewrite andb_false_r.
Qed.

(** A letter-wise recasing [f] that keeps white space commutes with [trim]. *)
Section Recasing.
Variable f : N -> N.

Lemma trimStart_map (s : jsstring) :
  Forall (fun c => isWhiteSpace (f c) = isWhiteSpace c) s ->
  trimStart (map f s) = map f (trimStart s).
Proof.
  induction 1 as [|c s Hc Hs IH]; simpl; [reflexivity|].
  rewrite Hc. destruct (isWhiteSpace c); [exact IH | reflexivity].
Qed.

Lemma trim_map (s : jsstring) :
  Forall (fun c => isWhiteSpace (f c) = isWhiteSpace c) s ->
  trim (map f s) = map f (trim s).
Proof.
  intros H. unfold trim, trimEnd.
  assert (Hsub : forall t, Forall (fun c => isWhiteSpace (f c) = isWhiteSpace c) t ->
                           Forall (fun c => isWhiteSpace (f c) = isWhiteSpace c) (trimStart t)).
  { induction 1 as [|c t Hc Ht IH]; simpl; [constructor|].
    destruct (isWhiteSpace c) eqn:E; [exact IH|].
    constructor; [congruence | exact Ht]. }
  rewrite trimStart_map by exact H.
  rewrite <- map_rev, trimStart_map, map_rev; [reflexivity|].
  apply Forall_rev. now apply Hsub.
Qed.

End Recasing.

Lemma trimStart_incl (s : jsstring) c : In c (trimStart s) -> In c s.
Proof.
  induction s as [|x s IH]; simpl; [tauto|].
  destruct (isWhiteSpace x); simpl; tauto.
Qed.

Lemma trim_incl (s : jsstring) c : In c (trim s) -> In c s.
Proof.
  unfold trim, trimEnd. intros H. apply in_rev in H.
  apply trimStart_incl in H. apply in_rev in H. now apply trimStart_incl.
Qed.

Lemma trim_ascii (s : jsstring) :
  forallb isAscii s = true -> forallb isAscii (trim s) = true.
Proof.
  rewrite !forallb_forall. intros H c Hc. apply H. now apply trim_incl.
Qed.

Section Normalizer.
Context {U : UnicodeTables}.

Lemma toLowerCase_recased (f : N -> N) (s : jsstring) :
  (forall c, isAscii c = true -> isAscii (f c) = true) ->
  (forall c, isAscii c = true -> asciiLower (f c) = asciiLower c) ->
  forallb isAscii s = true ->
  toLowerCase (map f s) = toLowerCase s.
Proof.
  intros Hascii Hlower Hs. unfold toLowerCase.
  rewrite Hs.
  assert (forallb isAscii (map f s) = true) as ->.
  { rewrite forallb_forall in *. intros c Hc. apply in_map_iff in Hc as (x & <- & Hx).
    now apply Hascii, Hs. }
  rewrite map_map. apply map_ext_in. intros c Hc. apply Hlower.
  rewrite forallb_forall in Hs. now apply Hs.
Qed.

Lemma normalize_recased (f : N -> N) (name : jsstring) :
  (forall c, isAscii c = true -> isAscii (f c) = true) ->
  (forall c, isAscii c = true -> asciiLower (f c) = asciiLower c) ->
  (forall c, isAscii c = true -> isWhiteSpace (f c) = isWhiteSpace c) ->
  forallb isAscii name = true ->
  Webhook.normalizeName (map f name) = Webhook.normalizeName name.
Proof.
  intros Hascii Hlower Hws Hname. unfold Webhook.normalizeName.
  rewrite trim_map.
  - apply toLowerCase_recased; auto using trim_ascii.
  - apply Forall_forall. intros c Hc. apply Hws.
    rewrite forallb_forall in Hname. now apply Hname.
Qed.

(** C9. [normalizeName] is a total function of its input, the same in
    the three scripts, and ASCII-free names go through the Unicode tables
    instead of being refused.  It sends "John Smith", " john smith " and
    "JOHN SMITH" to one key; more generally the key does not depend on
    white space around the name nor, for an ASCII name, on the case of its
    letters. *)
Theorem normalizeName_case_whitespace :
  (forall name, exists key, Webhook.normalizeName name = key
      /\ Backfill.normalizeName name = key /\ IndexBuilder.normalizeName name = key)
  /\ (forall name, forallb isAscii (trim name) = false ->
        Webhook.normalizeName name = unicodeLower (trim name))
  /\ (Webhook.normalizeName (js "John Smith") = js "john smith"
      /\ Webhook.normalizeName (js " john smith ") = js "john smith"
      /\ Webhook.normalizeName (js "JOHN SMITH") = js "john smith")
  /\ (forall pre name post,
        forallb isWhiteSpace pre = true ->
        forallb isWhiteSpace post = true ->
        Webhook.normalizeName (pre ++ name ++ post) = Webhook.normalizeName name)
  /\ (forall name,
        forallb isAscii name = true ->
        Webhook.normalizeName (map asciiUpper name) = Webhook.normalizeName name
        /\ Webhook.normalizeName (map asciiLower name) = Webhook.normalizeName name).
Proof.
  split; [|split; [|split; [|split]]].
  - intros name. now exists (Webhook.normalizeName name).
  - intros name H. unfold Webhook.normalizeName, toLowerCase. now rewrite H.
  - now vm_compute.
  - intros pre name post Hpre Hpost. unfold Webhook.normalizeName.
    now rewrite trim_padding.
  - intros name Hname. split.
    + apply normalize_recased; auto using asciiUpper_ascii, asciiLower_upper,
        asciiUpper_whitespace.
    + apply normalize_recased; auto using asciiLower_ascii, asciiLower_whitespace.
      intros c _. apply asciiLower_lower.
Qed.

End Normalizer.

(** ** The retry policy *)

Lemma last_cons_default {A} (x : A) (l : list A) (d d' : A) :
  last (x :: l) d = last (x :: l) d'.
Proof.
  revert x. induction l as [|y l IH]; intros x; [reflexivity|].
  change (last (y :: l) d = last (y :: l) d'). apply IH.
Qed.

Section Retry.
Context {A : Type}.
Variable retryable : JsError -> bool.
Variable fn : M A.
Variable initialDelay : Z.

Lemma retry_loop_ok remaining i lastError w v w1 :
  fn w = (Ok v, w1) ->
  retry_loop retryable fn initialDelay (S remaining) i lastError w = (Ok v, w1).
Proof. intros H. simpl. unfold try_catch. now rewrite H. Qed.

Lemma retry_loop_rethrow remaining i lastError w e w1 :
  fn w = (Throw e, w1) ->
  retryable e = false ->
  retry_loop retryable fn initialDelay (S remaining) i lastError w = (Throw e, w1).
Proof. intros H He. simpl. unfold try_catch. now rewrite H, He. Qed.

Lemma retry_loop_again remaining i lastError w e w1 :
  fn w = (Throw e, w1) ->
  retryable e = true ->
  retry_loop retryable fn initialDelay (S remaining) i lastError w =
  retry_loop retryable fn initialDelay remaining (S i) e
    (add_sleep (initialDelay * 2 ^ Z.of_nat i) w1).
Proof. intros H He. simpl. unfold try_catch. now rewrite H, He. Qed.

Lemma repeat_snoc (c : Call) m (l : list Call) :
  repeat c m ++ c :: l = repeat c (S m) ++ l.
Proof. induction m as [|m IH]; simpl; [reflexivity|]. now rewrite IH. Qed.

Lemma retry_loop_outcome (c : Call) :
  (forall w, sleeps (snd (fn w)) = sleeps w) ->
  (forall w, calls (snd (fn w)) = c :: calls w) ->
  forall maxRetries i lastError w,
    retry_outcome retryable initialDelay c maxRetries i w
      (retry_loop retryable fn initialDelay maxRetries i lastError w).
Proof.
  intros Hsleeps Hcalls. induction maxRetries as [|n IH]; intros i lastError w.
  - exists 0. simpl. repeat split; auto.
  - specialize (Hsleeps w). specialize (Hcalls w).
    destruct (fn w) as [[v|e] w1] eqn:Hfn; simpl in Hsleeps, Hcalls.
    + rewrite (retry_loop_ok _ _ _ _ _ _ Hfn).
      exists 0. simpl. repeat split; auto; lia.
    + destruct (retryable e) eqn:He.
      * rewrite (retry_loop_again _ _ _ _ _ _ Hfn He).
        destruct (IH (S i) e (add_sleep (initialDelay * 2 ^ Z.of_nat i) w1))
          as (k & Hk & Hs & Hout).
        exists (S k). split; [lia|]. split.
        { rewrite Hs. unfold backoff. simpl. rewrite <- app_assoc. simpl.
          now rewrite Hsleeps. }
        simpl calls in Hout. rewrite Hcalls, !repeat_snoc in Hout.
        destruct (fst (retry_loop retryable fn initialDelay n (S i) e
                         (add_sleep (initialDelay * 2 ^ Z.of_nat i) w1))).
        { destruct Hout. split; [lia | assumption]. }
        { destruct Hout as [(? & ? & ?)|[-> ?]]; [left|right]; repeat split;
            auto; lia. }
      * rewrite (retry_loop_rethrow _ _ _ _ _ _ Hfn He).
        exists 0. simpl. split; [lia|]. split; [auto|].
        left. repeat split; auto; lia.
Qed.

Lemma retry_loop_follows es :
  forall n i lastError w wk,
    waited_on fn initialDelay i w es wk ->
    Forall (fun e => retryable e = true) es ->
    (List.length es < n ->
     match fn wk with
     | (Ok a, w1) => retry_loop retryable fn initialDelay n i lastError w = (Ok a, w1)
     | (Throw e, w1) =>
         retryable e = false ->
         retry_loop retryable fn initialDelay n i lastError w = (Throw e, w1)
     end)
    /\ (List.length es = n ->
        retry_loop retryable fn initialDelay n i lastError w
        = (Throw (last es lastError), wk)).
Proof.
  induction es as [|e es IH]; intros n i lastError w wk Hw Hes.
  - inversion Hw; subst. split.
    + intros Hn. destruct n as [|n]; [simpl in Hn; lia|].
      destruct (fn wk) as [[a|e] w1] eqn:Hfn.
      * now apply retry_loop_ok.
      * intros He. now apply retry_loop_rethrow.
    + intros <-. reflexivity.
  - inversion Hw as [|i' w' e' w1 es' wk' Hfn Hrest]; subst.
    inversion Hes as [|e' es' He Hes']; subst.
    assert (Hlast : forall d, last (e :: es) d = last es e).
    { intros d. destruct es as [|y l]; [reflexivity|].
      change (last (y :: l) d = last (y :: l) e). apply last_cons_default. }
    split.
    + intros Hn. destruct n as [|n]; [simpl in Hn; lia|].
      rewrite (retry_loop_again _ _ _ _ _ _ Hfn He).
      apply (IH n (S i) e _ wk Hrest Hes'). simpl in Hn. lia.
    + intros <-. simpl List.length.
      rewrite (retry_loop_again _ _ _ _ _ _ Hfn He), Hlast.
      now apply (IH (List.length es) (S i) e _ wk Hrest Hes').
Qed.

Lemma retry_loop_attempts n :
  forall i w,
    exists es wk,
      waited_on fn initialDelay i w es wk
      /\ Forall (fun e => retryable e = true) es
      /\ (List.length es = n
          \/ (List.length es < n
              /\ forall e, fst (fn wk) = Throw e -> retryable e = false)).
Proof.
  induction n as [|n IH]; intros i w.
  - exists [], w. split; [constructor|]. split; [constructor|]. now left.
  - destruct (fn w) as [[a|e] w1] eqn:Hfn.
    + exists [], w. split; [constructor|]. split; [constructor|]. right.
      split; [simpl; lia|]. rewrite Hfn. discriminate.
    + destruct (retryable e) eqn:He.
      * destruct (IH (S i) (add_sleep (initialDelay * 2 ^ Z.of_nat i) w1))
          as (es & wk & Hw & Hes & Hend).
        exists (e :: es), wk. split; [econstructor; eassumption|].
        split; [now constructor|]. simpl.
        destruct Hend as [Hend|[Hend Hlast]]; [left; lia | right; split; [lia|exact Hlast]].
      * exists [], w. split; [constructor|]. split; [constructor|]. right.
        split; [simpl; lia|]. rewrite Hfn. intros e' [= <-]. exact He.
Qed.

End Retry.

(** A retry loop around a function that, when it fails, has changed
    nothing that [R] watches, and that establishes [Q] when it succeeds. *)
Lemma retry_loop_hoare {A} retryable (fn : M A) d
    (R : World -> World -> Prop) (Q : World -> A -> World -> Prop) :
  (forall w, R w w) ->
  (forall w1 w2 w3, R w1 w2 -> R w2 w3 -> R w1 w3) ->
  (forall w t, R w (add_sleep t w)) ->
  (forall w w' a w1, R w w' -> Q w' a w1 -> Q w a w1) ->
  (forall w, match fn w with
             | (Ok a, w1) => Q w a w1
             | (Throw _, w1) => R w w1
             end) ->
  forall n i lastError w,
    match retry_loop retryable fn d n i lastError w with
    | (Ok a, w1) => Q w a w1
    | (Throw _, w1) => R w w1
    end.
Proof.
  intros Hrefl Htrans Hsleep Hleft Hfn. induction n as [|n IH]; intros i lastError w.
  - simpl. apply Hrefl.
  - specialize (Hfn w). destruct (fn w) as [[a|e] w1] eqn:E.
    + now rewrite (retry_loop_ok _ _ _ _ _ _ _ _ _ E).
    + destruct (retryable e) eqn:He.
      * rewrite (retry_loop_again _ _ _ _ _ _ _ _ _ E He).
        specialize (IH (S i) e (add_sleep (d * 2 ^ Z.of_nat i) w1)).
        assert (R w (add_sleep (d * 2 ^ Z.of_nat i) w1)) as Hw by eauto.
        destruct (retry_loop retryable fn d n (S i) e _) as [[a|e'] w2]; eauto.
      * now rewrite (retry_loop_rethrow _ _ _ _ _ _ _ _ _ E He).
Qed.

Lemma retry_loop_preserves {A} retryable (fn : M A) d (R : World -> World -> Prop) :
  (forall w, R w w) ->
  (forall w1 w2 w3, R w1 w2 -> R w2 w3 -> R w1 w3) ->
  (forall w t, R w (add_sleep t w)) ->
  (forall w, R w (snd (fn w))) ->
  forall n i lastError w, R w (snd (retry_loop retryable fn d n i lastError w)).
Proof.
  intros Hrefl Htrans Hsleep Hfn n i lastError w.
  assert (Hleft : forall w w' (a : A) w1, R w w' -> R w' w1 -> R w w1) by eauto.
  assert (Hfn' : forall w, match fn w with
                           | (Ok a, w1) => R w w1
                           | (Throw _, w1) => R w w1
                           end).
  { intros w0. specialize (Hfn w0). now destruct (fn w0) as [[?|?] ?]. }
  pose proof (retry_loop_hoare retryable fn d R (fun w _ w1 => R w w1)
                Hrefl Htrans Hsleep Hleft Hfn' n i lastError w) as L.
  now destruct (retry_loop _ _ _ _ _ _ w) as [[?|?] ?].
Qed.

(** What a retry loop throws is what its function throws, or the error
    it was started with when no attempt is left. *)
Lemma retry_loop_thrown {A} retryable (fn : M A) d (I : World -> Prop)
    (E : JsError -> Prop) :
  (forall w t, I w -> I (add_sleep t w)) ->
  (forall w, I w -> match fn w with
                    | (Ok _, _) => True
                    | (Throw e, w1) => E e /\ I w1
                    end) ->
  forall n i lastError w,
    I w -> (n = 0 -> E lastError) ->
    match retry_loop retryable fn d n i lastError w with
    | (Ok _, _) => True
    | (Throw e, _) => E e
    end.
Proof.
  intros Hsleep Hfn. induction n as [|n IH]; intros i lastError w Hw Hlast.
  - simpl. now apply Hlast.
  - specialize (Hfn w Hw). destruct (fn w) as [[a|e] w1] eqn:Hrun.
    + now rewrite (retry_loop_ok _ _ _ _ _ _ _ _ _ Hrun).
    + destruct Hfn as [He Hw1]. destruct (retryable e) eqn:Hr.
      * rewrite (retry_loop_again _ _ _ _ _ _ _ _ _ Hrun Hr).
        apply IH; [now apply Hsleep | intros _; exact He].
      * now rewrite (retry_loop_rethrow _ _ _ _ _ _ _ _ _ Hrun Hr).
Qed.

(** The attempts that meet the failures the store injects. *)
Lemma waited_on_faults {A} (fn : M A) d (P : JsError -> Prop) :
  (forall w e rest,
      sqlite_faults w = Some e :: rest -> P e ->
      exists w1, fn w = (Throw e, w1) /\ sqlite_faults w1 = rest
                 /\ name_index w1 = name_index w) ->
  forall es i w rest,
    sqlite_faults w = map Some es ++ rest ->
    Forall P es ->
    exists wk, waited_on fn d i w es wk /\ sqlite_faults wk = rest
               /\ name_index wk = name_index w.
Proof.
  intros Hfn. induction es as [|e es IH]; intros i w rest Hf Hes.
  - exists w. split; [constructor|]. now split.
  - inversion Hes as [|e' es' He Hes']; subst.
    destruct (Hfn w e (map Some es ++ rest) Hf He) as (w1 & Hrun & Hf1 & Hn1).
    destruct (IH (S i) (add_sleep (d * 2 ^ Z.of_nat i) w1) rest Hf1 Hes')
      as (wk & Hw & Hfk & Hnk).
    exists wk. split; [econstructor; eassumption|]. split; [exact Hfk|].
    rewrite Hnk. exact Hn1.
Qed.

(** C3 (amended). The three copies of [retryWithBackoff] follow one
    policy and differ in what they retry: the webhook and index-builder
    copies retry a failure whose message carries a rate-limit signal and
    no other; the backfill copy retries those that carry a server-error
    signal (500, 502, 503, 504, "Internal server error") as well.  At
    whatever attempt it comes, a failure that is not retried is thrown to
    the caller as it is, without a wait or a further attempt, and a value
    is returned; every failure that is retried is followed by the wait
    [initialDelay * 2^i], [i] counting the attempts from 0; after
    [maxRetries] failed attempts the last error is thrown.  Every run is
    of that kind, so no run makes more than [maxRetries] attempts; for a
    function that sends one request per attempt, the requests and the
    waits of a run are those attempts and those waits. *)
Theorem retryWithBackoff_policy {A : Type} :
  follows_policy rate_limit_signal (@Webhook.retryWithBackoff A)
  /\ follows_policy rate_limit_signal (@IndexBuilder.retryWithBackoff A)
  /\ follows_policy (fun e => Backfill.isRateLimit e || Backfill.isServerError e)
       (@Backfill.retryWithBackoff A)
  /\ (forall e,
        Backfill.isRateLimit e = rate_limit_signal e
        /\ (rate_limit_signal e = true <->
            message_includes e "429" = true \/ message_includes e "Rate limit" = true)
        /\ (Backfill.isServerError e = true <->
            Exists (fun signal => message_includes e signal = true)
              ["502"; "500"; "503"; "504"; "Internal server error"]))
  /\ (forall (fn : M A) maxRetries d w,
        attempts_end rate_limit_signal fn maxRetries d w
        /\ attempts_end (fun e => Backfill.isRateLimit e || Backfill.isServerError e)
             fn maxRetries d w)
  /\ (forall (fn : M A) c,
        (forall w, sleeps (snd (fn w)) = sleeps w) ->
        (forall w, calls (snd (fn w)) = c :: calls w) ->
        forall maxRetries d w,
          retry_outcome rate_limit_signal d c maxRetries 0 w
            (Webhook.retryWithBackoff fn maxRetries d w)
          /\ retry_outcome rate_limit_signal d c maxRetries 0 w
               (IndexBuilder.retryWithBackoff fn maxRetries d w)
          /\ retry_outcome
               (fun e => Backfill.isRateLimit e || Backfill.isServerError e)
               d c maxRetries 0 w
               (Backfill.retryWithBackoff fn maxRetries d w)).
Proof.
  assert (Hpolicy : forall retryable,
             follows_policy retryable
               (fun (fn : M A) n d => retry_loop retryable fn d n 0 undefined_error)).
  { intros retryable fn n d w es wk Hw Hes.
    apply (retry_loop_follows retryable fn d es n 0 undefined_error w wk Hw Hes). }
  split; [apply Hpolicy|]. split; [apply Hpolicy|]. split; [apply Hpolicy|].
  split; [|split].
  - intros e. split; [reflexivity|]. split.
    + unfold rate_limit_signal. apply orb_true_iff.
    + unfold Backfill.isServerError. rewrite !orb_true_iff, !Exists_cons, Exists_nil.
      tauto.
  - intros fn n d w. split; apply retry_loop_attempts.
  - intros fn c Hs Hc maxRetries d w.
    unfold Webhook.retryWithBackoff, IndexBuilder.retryWithBackoff,
      Backfill.retryWithBackoff.
    repeat split; now apply retry_loop_outcome.
Qed.

(** ** The index store *)

Lemma sqlite_execute_served {A} (c : Call) (run : World -> Result A * World) w :
  sqlite_faults w = [] -> sqlite_execute c run w = run (log_call c w).
Proof. intros H. unfold sqlite_execute. simpl. now rewrite H. Qed.

Lemma sqlite_execute_failed {A} (c : Call) (run : World -> Result A * World) w e rest :
  sqlite_faults w = Some e :: rest ->
  sqlite_execute c run w = (Throw e, set_sqlite_faults rest (log_call c w)).
Proof. intros H. unfold sqlite_execute. simpl. now rewrite H. Qed.

Lemma UNIQUE_failed_not_rate_limit : rate_limit_signal UNIQUE_failed = false.
Proof. reflexivity. Qed.

Lemma UNIQUE_failed_recognised : message_includes UNIQUE_failed "UNIQUE constraint" = true.
Proof. reflexivity. Qed.

Lemma entries_for_absent pageId rows :
  has_page_id pageId rows = false -> entries_for pageId rows = 0.
Proof.
  unfold has_page_id, entries_for. induction rows as [|r rows IH]; simpl; [reflexivity|].
  destruct (String.eqb (notion_page_id r) pageId); simpl; [discriminate | exact IH].
Qed.

Lemma entries_for_present pageId rows :
  index_unique rows -> has_page_id pageId rows = true -> entries_for pageId rows = 1.
Proof.
  unfold index_unique, has_page_id. induction rows as [|r rows IH]; simpl; [discriminate|].
  intros Hnd H. inversion Hnd as [|x l Hnotin Hnd']; subst.
  unfold entries_for. simpl.
  destruct (String.eqb (notion_page_id r) pageId) eqn:E; simpl.
  - apply String.eqb_eq in E. subst pageId. f_equal.
    apply entries_for_absent. unfold has_page_id.
    destruct (existsb _ rows) eqn:Ex; [|reflexivity].
    apply existsb_exists in Ex as (r' & Hin & Heq). apply String.eqb_eq in Heq.
    exfalso. apply Hnotin. rewrite <- Heq. now apply in_map.
  - now apply IH.
Qed.

Lemma entries_for_app pageId rows rows' :
  entries_for pageId (rows ++ rows') = entries_for pageId rows + entries_for pageId rows'.
Proof. unfold entries_for. now rewrite filter_app, length_app. Qed.

Lemma index_unique_insert name pageId rows :
  index_unique rows ->
  has_page_id pageId rows = false ->
  index_unique (rows ++ [{| row_name := name; notion_page_id := pageId |}]).
Proof.
  unfold index_unique, has_page_id. intros Hnd Habs.
  rewrite map_app. simpl. apply NoDup_app; [assumption | repeat constructor; auto |].
  intros x Hx [<-|[]]. apply in_map_iff in Hx as (r & Heq & Hin).
  assert (existsb (fun r' => String.eqb (notion_page_id r') pageId) rows = true).
  { apply existsb_exists. exists r. split; [assumption|]. now apply String.eqb_eq. }
  congruence.
Qed.

Lemma select_by_name_spec key rows pageId :
  In pageId (select_by_name key rows) <->
  exists r, In r rows /\ notion_page_id r = pageId /\ nocase_eqb (row_name r) key = true.
Proof.
  unfold select_by_name. rewrite in_map_iff. split.
  - intros (r & Hid & Hin). apply filter_In in Hin as [Hin Hm]. now exists r.
  - intros (r & Hin & Hid & Hm). exists r. split; [assumption|].
    apply filter_In. now split.
Qed.

Lemma select_by_name_app key rows rows' :
  select_by_name key (rows ++ rows') = select_by_name key rows ++ select_by_name key rows'.
Proof. unfold select_by_name. now rewrite filter_app, map_app. Qed.

(** A retry loop around a function that leaves [name_index] alone, and
    whose answer is read off it, does the same. *)
Lemma retry_loop_reads_index {A} retryable (fn : M A) d (answer : list IndexRow -> A) :
  (forall w, name_index (snd (fn w)) = name_index w) ->
  (forall w a, fst (fn w) = Ok a -> a = answer (name_index w)) ->
  forall n i lastError w,
    name_index (snd (retry_loop retryable fn d n i lastError w)) = name_index w
    /\ forall a, fst (retry_loop retryable fn d n i lastError w) = Ok a ->
                 a = answer (name_index w).
Proof.
  intros Hkeep Hans. induction n as [|n IH]; intros i lastError w.
  - simpl. split; [reflexivity | discriminate].
  - specialize (Hkeep w). specialize (Hans w).
    destruct (fn w) as [[v|e] w1] eqn:Hfn; simpl in Hkeep, Hans.
    + rewrite (retry_loop_ok _ _ _ _ _ _ _ _ _ Hfn). simpl. split; [assumption|].
      intros a [= <-]. now apply Hans.
    + destruct (retryable e) eqn:He.
      * rewrite (retry_loop_again _ _ _ _ _ _ _ _ _ Hfn He).
        destruct (IH (S i) e (add_sleep (d * 2 ^ Z.of_nat i) w1)) as [H1 H2].
        simpl name_index in H1, H2. rewrite Hkeep in H1, H2. now split.
      * rewrite (retry_loop_rethrow _ _ _ _ _ _ _ _ _ Hfn He). simpl.
        split; [assumption | discriminate].
Qed.

Section IndexStore.
Context {U : UnicodeTables}.

Lemma insertNameIndex_served name pageId w :
  sqlite_faults w = [] ->
  Webhook.insertNameIndex name pageId w =
  if has_page_id pageId (name_index w)
  then (Ok tt, log_call (SqlInsertName (Webhook.normalizeName name) pageId) w)
  else (Ok tt,
        set_name_index
          (name_index w ++ [{| row_name := Webhook.normalizeName name;
                               notion_page_id := pageId |}])
          (log_call (SqlInsertName (Webhook.normalizeName name) pageId) w)).
Proof.
  intros Hf. unfold Webhook.insertNameIndex, Webhook.retryWithBackoff. simpl.
  unfold try_catch. rewrite sqlite_execute_served by exact Hf.
  unfold run_insert_name. simpl name_index.
  destruct (has_page_id pageId (name_index w)); reflexivity.
Qed.

Lemma insertIntoIndex_served name pageId w :
  sqlite_faults w = [] ->
  IndexBuilder.insertIntoIndex name pageId w =
  if has_page_id pageId (name_index w)
  then (Ok false, log_call (SqlInsertName (IndexBuilder.normalizeName name) pageId) w)
  else (Ok true,
        set_name_index
          (name_index w ++ [{| row_name := IndexBuilder.normalizeName name;
                               notion_page_id := pageId |}])
          (log_call (SqlInsertName (IndexBuilder.normalizeName name) pageId) w)).
Proof.
  intros Hf. unfold IndexBuilder.insertIntoIndex, IndexBuilder.retryWithBackoff. simpl.
  unfold try_catch, bind. rewrite sqlite_execute_served by exact Hf.
  unfold run_insert_name. simpl name_index.
  destruct (has_page_id pageId (name_index w)); reflexivity.
Qed.

Lemma has_page_id_inserted name pageId rows :
  has_page_id pageId (rows ++ [{| row_name := name; notion_page_id := pageId |}]) = true.
Proof.
  unfold has_page_id. rewrite existsb_app. simpl.
  rewrite String.eqb_refl. now rewrite orb_true_r.
Qed.

Lemma entries_for_inserted name pageId rows :
  has_page_id pageId rows = false ->
  entries_for pageId (rows ++ [{| row_name := name; notion_page_id := pageId |}]) = 1.
Proof.
  intros H. rewrite entries_for_app, (entries_for_absent _ _ H).
  unfold entries_for. simpl. now rewrite String.eqb_refl.
Qed.

Lemma genuine_tail f faults : genuine (f :: faults) -> genuine faults.
Proof. unfold genuine. intros H. now inversion H. Qed.

Lemma genuine_head e faults :
  genuine (Some e :: faults) -> message_includes e "UNIQUE constraint" = false.
Proof. unfold genuine. intros H. now inversion H. Qed.

(** What [insertIntoIndex] answers on a store whose uniqueness violations
    are genuine: [true] and a new row when the page had none, [false] and
    no change when it had one; what it throws is never a uniqueness
    violation, and then no row has changed. *)
Lemma insertIntoIndex_genuine name pageId w :
  genuine (sqlite_faults w) ->
  match IndexBuilder.insertIntoIndex name pageId w with
  | (Ok wasInserted, w1) =>
      wasInserted = negb (has_page_id pageId (name_index w))
      /\ name_index w1
         = name_index w
           ++ (if wasInserted
               then [{| row_name := IndexBuilder.normalizeName name;
                        notion_page_id := pageId |}]
               else [])
  | (Throw e, w1) =>
      name_index w1 = name_index w
      /\ message_includes e "UNIQUE constraint" = false
  end.
Proof.
  intros Hg. unfold IndexBuilder.insertIntoIndex, IndexBuilder.retryWithBackoff.
  set (key := IndexBuilder.normalizeName name).
  set (row := {| row_name := key; notion_page_id := pageId |}).
  set (fn := try_catch
               (sqlite_execute (SqlInsertName key pageId) (run_insert_name key pageId) ;;
                ret true)%promise
               (fun error =>
                  if message_includes error "UNIQUE constraint" then ret false
                  else throw error)).
  pose proof (retry_loop_hoare rate_limit_signal fn 1000
                (fun w w1 => name_index w1 = name_index w
                             /\ (genuine (sqlite_faults w) -> genuine (sqlite_faults w1)))
                (fun w (b : bool) w1 =>
                   genuine (sqlite_faults w) ->
                   b = negb (has_page_id pageId (name_index w))
                   /\ name_index w1 = name_index w ++ (if b then [row] else []))) as L.
  assert (Hfn : forall w0,
             match fn w0 with
             | (Ok b, w1) =>
                 genuine (sqlite_faults w0) ->
                 b = negb (has_page_id pageId (name_index w0))
                 /\ name_index w1 = name_index w0 ++ (if b then [row] else [])
             | (Throw e, w1) =>
                 (name_index w1 = name_index w0
                  /\ (genuine (sqlite_faults w0) -> genuine (sqlite_faults w1)))
             end).
  { intros w0. unfold fn, try_catch, bind, sqlite_execute, run_insert_name, ret, throw.
    simpl. destruct (sqlite_faults w0) as [|[e|] rest] eqn:Hf; simpl.
    - destruct (has_page_id pageId (name_index w0)); simpl;
        intros _; rewrite ?app_nil_r; split; reflexivity.
    - destruct (message_includes e "UNIQUE constraint") eqn:Hq; simpl.
      + intros Hg0. apply genuine_head in Hg0. congruence.
      + split; [reflexivity | apply genuine_tail].
    - destruct (has_page_id pageId (name_index w0)); simpl;
        intros _; rewrite ?app_nil_r; split; reflexivity. }
  specialize (L ltac:(intros; split; auto)).
  specialize (L ltac:(intros w1 w2 w3 [H1 H2] [H3 H4]; split; [congruence | auto])).
  specialize (L ltac:(intros; split; auto)).
  specialize (L ltac:(intros w0 w' b w1 [H1 H2] H Hg0;
                      destruct (H (H2 Hg0)) as [Hb Hn]; rewrite H1 in Hb, Hn; now split)).
  specialize (L Hfn 3 0 undefined_error w).
  pose proof (retry_loop_thrown rate_limit_signal fn 1000 (fun _ => True)
                (fun e => message_includes e "UNIQUE constraint" = false)) as T.
  specialize (T ltac:(auto)).
  assert (Hthrown : forall w0, True ->
             match fn w0 with
             | (Ok _, _) => True
             | (Throw e, _) => message_includes e "UNIQUE constraint" = false /\ True
             end).
  { intros w0 _. unfold fn, try_catch, bind, sqlite_execute, run_insert_name, ret, throw.
    simpl. destruct (sqlite_faults w0) as [|[e|] rest]; simpl;
      try (destruct (has_page_id pageId (name_index w0)); simpl; exact I).
    destruct (message_includes e "UNIQUE constraint") eqn:Hq; simpl; auto. }
  specialize (T Hthrown 3 0 undefined_error w I ltac:(discriminate)).
  destruct (retry_loop rate_limit_signal fn 1000 3 0 undefined_error w) as [[b|e] w1].
  - now apply L.
  - split; [apply L | exact T].
Qed.

(** The same of [insertNameIndex], which answers nothing: when it
    returns, the page has a row, the one it had or a new one. *)
Lemma insertNameIndex_genuine name pageId w :
  genuine (sqlite_faults w) ->
  match Webhook.insertNameIndex name pageId w with
  | (Ok _, w1) =>
      name_index w1
      = name_index w
        ++ (if has_page_id pageId (name_index w)
            then []
            else [{| row_name := Webhook.normalizeName name; notion_page_id := pageId |}])
  | (Throw e, w1) =>
      name_index w1 = name_index w
      /\ message_includes e "UNIQUE constraint" = false
  end.
Proof.
  intros Hg. unfold Webhook.insertNameIndex, Webhook.retryWithBackoff.
  set (key := Webhook.normalizeName name).
  set (row := {| row_name := key; notion_page_id := pageId |}).
  set (fn := sqlite_execute (SqlInsertName key pageId) (run_insert_name key pageId)).
  pose proof (retry_loop_hoare rate_limit_signal fn 1000
                (fun w w1 => name_index w1 = name_index w)
                (fun w (_ : unit) w1 =>
                   has_page_id pageId (name_index w) = false
                   /\ name_index w1 = name_index w ++ [row])) as L.
  assert (Hfn : forall w0,
             match fn w0 with
             | (Ok _, w1) =>
                 has_page_id pageId (name_index w0) = false
                 /\ name_index w1 = name_index w0 ++ [row]
             | (Throw e, w1) => name_index w1 = name_index w0
             end).
  { intros w0. unfold fn, sqlite_execute, run_insert_name. simpl.
    destruct (sqlite_faults w0) as [|[e|] rest]; simpl; try reflexivity;
      destruct (has_page_id pageId (name_index w0)); simpl; auto. }
  specialize (L ltac:(intros; reflexivity)).
  specialize (L ltac:(intros; congruence)).
  specialize (L ltac:(intros; reflexivity)).
  specialize (L ltac:(intros w0 w' u w1 H1 [H2 H3]; rewrite H1 in H2, H3; now split)).
  specialize (L Hfn 3 0 undefined_error w).
  pose proof (retry_loop_thrown rate_limit_signal fn 1000
                (fun w0 => name_index w0 = name_index w /\ genuine (sqlite_faults w0))
                (fun e => message_includes e "UNIQUE constraint" = true ->
                          has_page_id pageId (name_index w) = true)) as T.
  specialize (T ltac:(intros ? ? H; exact H)).
  assert (Hthrown : forall w0,
             name_index w0 = name_index w /\ genuine (sqlite_faults w0) ->
             match fn w0 with
             | (Ok _, _) => True
             | (Throw e, w1) =>
                 (message_includes e "UNIQUE constraint" = true ->
                  has_page_id pageId (name_index w) = true)
                 /\ name_index w1 = name_index w /\ genuine (sqlite_faults w1)
             end).
  { intros w0 [Hn Hg0]. unfold fn, sqlite_execute, run_insert_name. simpl.
    destruct (sqlite_faults w0) as [|[e|] rest] eqn:Hf; simpl.
    - destruct (has_page_id pageId (name_index w0)) eqn:Hp; simpl; [|exact I].
      rewrite Hf. split; [intros _; congruence | now split].
    - split; [|split; [exact Hn | now apply genuine_tail in Hg0]].
      apply genuine_head in Hg0. congruence.
    - destruct (has_page_id pageId (name_index w0)) eqn:Hp; simpl; [|exact I].
      split; [intros _; congruence | split; [exact Hn|now apply genuine_tail in Hg0]]. }
  specialize (T Hthrown 3 0 undefined_error w (conj eq_refl Hg) ltac:(discriminate)).
  unfold try_catch.
  destruct (retry_loop rate_limit_signal fn 1000 3 0 undefined_error w) as [[[]|e] w1].
  - destruct L as [Hp ->]. now rewrite Hp.
  - destruct (message_includes e "UNIQUE constraint") eqn:Hq; simpl.
    + rewrite (T eq_refl), app_nil_r. exact L.
    + now split.
Qed.

(** The failures the store injects into the INSERT are met by the
    attempts of both copies, one each. *)
Lemma insertIntoIndex_meets name pageId w e rest :
  sqlite_faults w = Some e :: rest ->
  message_includes e "UNIQUE constraint" = false ->
  exists w1,
    try_catch
      (sqlite_execute (SqlInsertName (IndexBuilder.normalizeName name) pageId)
         (run_insert_name (IndexBuilder.normalizeName name) pageId) ;;
       ret true)%promise
      (fun error =>
         if message_includes error "UNIQUE constraint" then ret false
         else throw error) w
    = (Throw e, w1)
    /\ sqlite_faults w1 = rest /\ name_index w1 = name_index w.
Proof.
  intros Hf Hq. eexists. unfold try_catch, bind.
  rewrite (sqlite_execute_failed _ _ _ _ _ Hf), Hq. unfold throw.
  repeat split.
Qed.

Lemma insertNameIndex_meets name pageId w e rest :
  sqlite_faults w = Some e :: rest ->
  exists w1,
    sqlite_execute (SqlInsertName (Webhook.normalizeName name) pageId)
      (run_insert_name (Webhook.normalizeName name) pageId) w
    = (Throw e, w1)
    /\ sqlite_faults w1 = rest /\ name_index w1 = name_index w.
Proof.
  intros Hf. eexists. rewrite (sqlite_execute_failed _ _ _ _ _ Hf). repeat split.
Qed.

(** C5 (amended). Inserting the same [(name, pageId)] twice into an
    index that respects its UNIQUE constraint leaves exactly one row for
    [pageId] and the second call raises no error: that of
    [insertIntoIndex] answers [false] and that of [insertNameIndex], which
    answers nothing, returns normally; neither changes a row.
    [insertIntoIndex] answers [false] only for a page that has a row, and
    when [insertNameIndex] returns the page has one.  Failures other than
    the uniqueness violation are propagated, the index untouched: a
    failure without rate-limit signal is thrown to the caller as it is,
    also when it comes after rate limits that were retried, and a rate
    limit that outlasts the three attempts is thrown after the third;
    what either copy throws is never a uniqueness violation. *)
Theorem insert_twice (name : jsstring) (pageId : string) (w : World) :
  (sqlite_faults w = [] ->
   index_unique (name_index w) ->
   forall r1 w1 r2 w2,
     IndexBuilder.insertIntoIndex name pageId w = (r1, w1) ->
     IndexBuilder.insertIntoIndex name pageId w1 = (r2, w2) ->
     r1 = Ok (negb (has_page_id pageId (name_index w)))
     /\ r2 = Ok false
     /\ name_index w2 = name_index w1
     /\ entries_for pageId (name_index w2) = 1
     /\ index_unique (name_index w2))
  /\ (sqlite_faults w = [] ->
      index_unique (name_index w) ->
      forall r1 w1 r2 w2,
        Webhook.insertNameIndex name pageId w = (r1, w1) ->
        Webhook.insertNameIndex name pageId w1 = (r2, w2) ->
        r1 = Ok tt
        /\ r2 = Ok tt
        /\ name_index w2 = name_index w1
        /\ entries_for pageId (name_index w2) = 1
        /\ index_unique (name_index w2))
  /\ (genuine (sqlite_faults w) ->
      match IndexBuilder.insertIntoIndex name pageId w with
      | (Ok wasInserted, w1) =>
          wasInserted = negb (has_page_id pageId (name_index w))
          /\ name_index w1
             = name_index w
               ++ (if wasInserted
                   then [{| row_name := IndexBuilder.normalizeName name;
                            notion_page_id := pageId |}]
                   else [])
      | (Throw e, w1) =>
          name_index w1 = name_index w
          /\ message_includes e "UNIQUE constraint" = false
      end)
  /\ (genuine (sqlite_faults w) ->
      match Webhook.insertNameIndex name pageId w with
      | (Ok _, w1) =>
          name_index w1
          = name_index w
            ++ (if has_page_id pageId (name_index w)
                then []
                else [{| row_name := Webhook.normalizeName name;
                         notion_page_id := pageId |}])
      | (Throw e, w1) =>
          name_index w1 = name_index w
          /\ message_includes e "UNIQUE constraint" = false
      end)
  /\ (forall es e rest,
        sqlite_faults w = map Some es ++ Some e :: rest ->
        Forall throttled es ->
        List.length es < 3 ->
        rate_limit_signal e = false ->
        message_includes e "UNIQUE constraint" = false ->
        (exists w1, IndexBuilder.insertIntoIndex name pageId w = (Throw e, w1)
                    /\ name_index w1 = name_index w)
        /\ (exists w1, Webhook.insertNameIndex name pageId w = (Throw e, w1)
                       /\ name_index w1 = name_index w))
  /\ (forall e1 e2 e3 rest,
        sqlite_faults w = Some e1 :: Some e2 :: Some e3 :: rest ->
        throttled e1 -> throttled e2 -> throttled e3 ->
        (exists w1, IndexBuilder.insertIntoIndex name pageId w = (Throw e3, w1)
                    /\ name_index w1 = name_index w)
        /\ (exists w1, Webhook.insertNameIndex name pageId w = (Throw e3, w1)
                       /\ name_index w1 = name_index w)).
Proof.
  split; [|split; [|split; [|split; [|split]]]].
  - intros Hf Hu r1 w1 r2 w2 H1 H2.
    rewrite insertIntoIndex_served in H1 by exact Hf.
    destruct (has_page_id pageId (name_index w)) eqn:Hp;
      injection H1 as <- <-;
      (rewrite insertIntoIndex_served in H2 by exact Hf); simpl name_index in H2.
    + rewrite Hp in H2. injection H2 as <- <-. simpl.
      repeat split; auto using entries_for_present.
    + rewrite has_page_id_inserted in H2. injection H2 as <- <-. simpl.
      repeat split; auto using entries_for_inserted, index_unique_insert.
  - intros Hf Hu r1 w1 r2 w2 H1 H2.
    rewrite insertNameIndex_served in H1 by exact Hf.
    destruct (has_page_id pageId (name_index w)) eqn:Hp;
      injection H1 as <- <-;
      (rewrite insertNameIndex_served in H2 by exact Hf); simpl name_index in H2.
    + rewrite Hp in H2. injection H2 as <- <-. simpl.
      repeat split; auto using entries_for_present.
    + rewrite has_page_id_inserted in H2. injection H2 as <- <-. simpl.
      repeat split; auto using entries_for_inserted, index_unique_insert.
  - apply insertIntoIndex_genuine.
  - apply insertNameIndex_genuine.
  - intros es e rest Hf Hes Hlen Hr Hq.
    assert (Hretry : Forall (fun e => rate_limit_signal e = true) es)
      by (eapply Forall_impl; [|exact Hes]; now intros ? [? _]).
    split.
    + unfold IndexBuilder.insertIntoIndex, IndexBuilder.retryWithBackoff.
      match goal with
      | |- context [retry_loop _ ?f _ _ _ _ _] => set (fn := f)
      end.
      destruct (waited_on_faults fn 1000
                  (fun e => message_includes e "UNIQUE constraint" = false))
        with (es := es) (i := 0) (w := w) (rest := Some e :: rest)
        as (wk & Hw & Hfk & Hnk).
      * intros w0 e0 rest0. apply insertIntoIndex_meets.
      * exact Hf.
      * eapply Forall_impl; [|exact Hes]. now intros ? [_ ?].
      * destruct (insertIntoIndex_meets name pageId wk e rest Hfk Hq)
          as (w1 & Hrun & _ & Hn1).
        exists w1. split; [|congruence].
        pose proof (proj1 (retry_loop_follows rate_limit_signal fn 1000 es 3 0
                             undefined_error w wk Hw Hretry) Hlen) as H.
        fold fn in Hrun. rewrite Hrun in H. now apply H.
    + unfold Webhook.insertNameIndex, Webhook.retryWithBackoff, try_catch.
      match goal with
      | |- context [retry_loop _ ?f _ _ _ _ _] => set (fn := f)
      end.
      destruct (waited_on_faults fn 1000 (fun _ => True))
        with (es := es) (i := 0) (w := w) (rest := Some e :: rest)
        as (wk & Hw & Hfk & Hnk).
      * intros w0 e0 rest0 H0 _. now apply insertNameIndex_meets.
      * exact Hf.
      * apply Forall_forall. auto.
      * destruct (insertNameIndex_meets name pageId wk e rest Hfk)
          as (w1 & Hrun & _ & Hn1).
        exists w1.
        pose proof (proj1 (retry_loop_follows rate_limit_signal fn 1000 es 3 0
                             undefined_error w wk Hw Hretry) Hlen) as H.
        fold fn in Hrun. rewrite Hrun in H. rewrite (H Hr), Hq.
        split; [reflexivity | congruence].
  - intros e1 e2 e3 rest Hf [Hr1 Hq1] [Hr2 Hq2] [Hr3 Hq3].
    assert (Hretry : Forall (fun e => rate_limit_signal e = true) [e1; e2; e3])
      by (repeat constructor; assumption).
    split.
    + unfold IndexBuilder.insertIntoIndex, IndexBuilder.retryWithBackoff.
      match goal with
      | |- context [retry_loop _ ?f _ _ _ _ _] => set (fn := f)
      end.
      destruct (waited_on_faults fn 1000
                  (fun e => message_includes e "UNIQUE constraint" = false))
        with (es := [e1; e2; e3]) (i := 0) (w := w) (rest := rest)
        as (wk & Hw & Hfk & Hnk).
      * intros w0 e0 rest0. apply insertIntoIndex_meets.
      * exact Hf.
      * repeat constructor; assumption.
      * exists wk. split; [|exact Hnk].
        exact (proj2 (retry_loop_follows rate_limit_signal fn 1000 [e1; e2; e3] 3 0
                        undefined_error w wk Hw Hretry) eq_refl).
    + unfold Webhook.insertNameIndex, Webhook.retryWithBackoff, try_catch.
      match goal with
      | |- context [retry_loop _ ?f _ _ _ _ _] => set (fn := f)
      end.
      destruct (waited_on_faults fn 1000 (fun _ => True))
        with (es := [e1; e2; e3]) (i := 0) (w := w) (rest := rest)
        as (wk & Hw & Hfk & Hnk).
      * intros w0 e0 rest0 H0 _. now apply insertNameIndex_meets.
      * exact Hf.
      * repeat constructor.
      * exists wk.
        rewrite (proj2 (retry_loop_follows rate_limit_signal fn 1000 [e1; e2; e3] 3 0
                          undefined_error w wk Hw Hretry) eq_refl).
        change (last [e1; e2; e3] undefined_error) with e3. cbv beta iota.
        rewrite Hq3. split; [reflexivity | exact Hnk].
Qed.

Lemma nocase_until_nul_refl (a : jsstring) : nocase_until_nul a a = true.
Proof.
  induction a as [|x a IH]; simpl; [reflexivity|].
  destruct (x =? 0)%N; [reflexivity|]. now rewrite N.eqb_refl.
Qed.

Lemma nocase_eqb_refl (a : jsstring) : nocase_eqb a a = true.
Proof. unfold nocase_eqb. now rewrite Nat.eqb_refl, nocase_until_nul_refl. Qed.

Lemma asciiLower_plain (c : N) :
  negb ((65 <=? c) && (c <=? 90))%N = true -> asciiLower c = c.
Proof. unfold asciiLower. now destruct ((65 <=? c) && (c <=? 90))%N. Qed.

(** Without NUL and without upper-case letters the comparison looks at
    every code unit and folds none. *)
Lemma nocase_until_nul_plain (a b : jsstring) :
  plain_key a = true -> plain_key b = true ->
  nocase_until_nul a b = true -> a = b.
Proof.
  revert b. induction a as [|x a IH]; intros [|y b]; simpl; try discriminate; auto.
  intros Ha Hb.
  apply andb_prop in Ha as [Hx Ha]. apply andb_prop in Hb as [Hy Hb].
  apply andb_prop in Hx as [Hx0 Hx]. apply andb_prop in Hy as [_ Hy].
  destruct (x =? 0)%N; [discriminate|].
  rewrite (asciiLower_plain x Hx), (asciiLower_plain y Hy).
  intros H. apply andb_prop in H as [Hxy H].
  apply N.eqb_eq in Hxy. subst y. f_equal. now apply IH.
Qed.

Lemma nocase_eqb_plain (a b : jsstring) :
  plain_key a = true -> plain_key b = true ->
  nocase_eqb a b = jsstring_eqb a b.
Proof.
  intros Ha Hb. destruct (jsstring_eqb a b) eqn:E.
  - apply jsstring_eqb_eq in E. subst b. apply nocase_eqb_refl.
  - destruct (nocase_eqb a b) eqn:N; [|reflexivity].
    unfold nocase_eqb in N. apply andb_prop in N as [_ N].
    apply (nocase_until_nul_plain a b Ha Hb) in N.
    apply jsstring_eqb_eq in N. congruence.
Qed.



Lemma nul_free_no_upper_plain (s : jsstring) :
  nul_free s = true -> map asciiLower s = s -> plain_key s = true.
Proof.
  unfold nul_free, plain_key. induction s as [|c s IH]; simpl; [reflexivity|].
  intros H E. apply andb_prop in H as [Hc H]. injection E as Ec Es.
  rewrite Hc, (IH H Es). simpl. rewrite andb_true_r.
  unfold asciiLower in Ec. destruct ((65 <=? c) && (c <=? 90))%N; [lia|reflexivity].
Qed.

Lemma nul_free_incl (s t : jsstring) :
  (forall c, In c t -> In c s) -> nul_free s = true -> nul_free t = true.
Proof.
  unfold nul_free. rewrite !forallb_forall. intros Hin H c Hc. now apply H, Hin.
Qed.

Lemma nul_free_asciiLower (s : jsstring) :
  nul_free s = true -> nul_free (map asciiLower s) = true.
Proof.
  unfold nul_free. rewrite !forallb_forall. intros H c Hc.
  apply in_map_iff in Hc as (x & <- & Hx). specialize (H x Hx).
  unfold asciiLower. destruct ((65 <=? x) && (x <=? 90))%N eqn:E; [|exact H].
  apply andb_prop in E as [E _]. apply N.leb_le in E.
  apply negb_true_iff, N.eqb_neq. lia.
Qed.

(** The key of an ASCII name without NUL is plain. *)
Lemma normalizeName_plain (name : jsstring) :
  forallb isAscii name = true -> nul_free name = true ->
  plain_key (Webhook.normalizeName name) = true.
Proof.
  intros Ha Hn. unfold Webhook.normalizeName, toLowerCase.
  rewrite (trim_ascii name Ha).
  apply nul_free_no_upper_plain.
  - apply nul_free_asciiLower. apply (nul_free_incl name); [apply trim_incl | exact Hn].
  - rewrite map_map. apply map_ext. intros c. apply asciiLower_lower.
Qed.


End IndexStore.

(** ** The real-time detector *)

Lemma bind_ok_inv {A B} (c : M A) (k : A -> M B) w b w2 :
  bind c k w = (Ok b, w2) ->
  exists a w1, c w = (Ok a, w1) /\ k a w1 = (Ok b, w2).
Proof.
  unfold bind. destruct (c w) as [[a|e] w1]; [|discriminate].
  intros H. now exists a, w1.
Qed.

Lemma ret_ok_inv {A} (a b : A) (w w1 : World) :
  ret a w = (Ok b, w1) -> a = b /\ w = w1.
Proof. unfold ret. intros H. injection H. auto. Qed.

Lemma same_sqlite_refl w : same_sqlite w w.
Proof. now repeat split. Qed.

Lemma same_sqlite_trans w1 w2 w3 :
  same_sqlite w1 w2 -> same_sqlite w2 w3 -> same_sqlite w1 w3.
Proof.
  unfold same_sqlite. intros (a & b & c & d) (a' & b' & c' & d').
  repeat split; congruence.
Qed.

Ltac crunch_http :=
  unfold bind, try_catch, getNotionHeaders, fetch, serve_get, serve_patch,
    serve_query, throw, ret, sleep;
  repeat (simpl;
          match goal with
          | |- context [if ?b then _ else _] => destruct b
          | |- context [match http_faults ?w with _ => _ end] =>
              destruct (http_faults w) as [|[| |] ?]
          | |- context [match find_page ?i ?l with _ => _ end] =>
              destruct (find_page i l)
          | |- context [match ?o with Some _ => _ | None => _ end] => destruct o
          end);
  simpl; try apply same_sqlite_refl; try (repeat split; reflexivity).

Section Detector.
Context {U : UnicodeTables}.

Lemma webhook_fetchNotionPage_same_sqlite pageId w :
  same_sqlite w (snd (Webhook.fetchNotionPage pageId w)).
Proof. unfold Webhook.fetchNotionPage. crunch_http. Qed.

Lemma webhook_updateNotionTags_same_sqlite pageId tag w :
  same_sqlite w (snd (Webhook.updateNotionTags pageId tag w)).
Proof. unfold Webhook.updateNotionTags. crunch_http. Qed.

(** The loop over the other matches swallows every failure. *)
Lemma tagOthers_never_throws (otherDuplicates : list string) (w : World) :
  exists w1, Webhook.tagOthers otherDuplicates w = (Ok tt, w1) /\ same_sqlite w w1.
Proof.
  revert w. induction otherDuplicates as [|pageId rest IH]; intros w.
  - exists w. split; [reflexivity | apply same_sqlite_refl].
  - simpl. unfold bind, try_catch, ret.
    pose proof (webhook_fetchNotionPage_same_sqlite pageId w) as Hf.
    destruct (Webhook.fetchNotionPage pageId w) as [[page|e] w1]; simpl in Hf.
    + pose proof (webhook_updateNotionTags_same_sqlite pageId (Webhook.select page) w1)
        as Hu.
      destruct (Webhook.updateNotionTags pageId (Webhook.select page) w1)
        as [[[]|e] w2]; simpl in Hu; destruct (IH w2) as (w3 & H2 & H3);
        exists w3; (split; [exact H2 | eauto using same_sqlite_trans]).
    + destruct (IH w1) as (w3 & H2 & H3). exists w3.
      split; [exact H2 | eauto using same_sqlite_trans].
Qed.

Lemma handle_status req w r w1 :
  Webhook.handle req w = (Ok r, w1) ->
  Webhook.status r = if String.eqb (Webhook.method req) "POST" then 200 else 405.
Proof.
  unfold Webhook.handle, Webhook.skip.
  destruct (String.eqb (Webhook.method req) "POST"); simpl.
  2: { intros [= <- <-]. reflexivity. }
  destruct (Webhook.body req) as [b|]; [|intros [= <- <-]; reflexivity].
  destruct (Webhook.pageData_of b) as [pageData|]; [|discriminate].
  destruct (falsy_string _); [intros [= <- <-]; reflexivity|].
  destruct (falsy_text _); [intros [= <- <-]; reflexivity|].
  destruct (Webhook.pageData_id _) as [pageId|]; [|intros [= <- <-]; reflexivity].
  destruct (hd_error _) as [name|]; [|intros [= <- <-]; reflexivity].
  intros H. apply bind_ok_inv in H as (ids & w2 & _ & H).
  destruct (0 <? _).
  - apply bind_ok_inv in H as (? & ? & _ & H).
    apply bind_ok_inv in H as (? & ? & _ & H).
    apply bind_ok_inv in H as (? & ? & _ & H).
    apply bind_ok_inv in H as (? & ? & _ & H).
    injection H as <- <-. reflexivity.
  - apply bind_ok_inv in H as (? & ? & _ & H).
    injection H as <- <-. reflexivity.
Qed.

(** C10. A request whose method is not POST is answered 405 with the
    error body, and the world is left as it was: no statement is sent to
    the index, no request to Notion.  Every other request is answered
    200. *)
Theorem handler_method_not_allowed (req : Webhook.Request) (w : World) :
  (Webhook.method req <> "POST" ->
   Webhook.handler req w =
   ({| Webhook.status := 405; Webhook.payload := Webhook.MethodNotAllowed |}, w))
  /\ (Webhook.method req = "POST" ->
      Webhook.status (fst (Webhook.handler req w)) = 200)
  /\ (Webhook.status (fst (Webhook.handler req w)) <> 200 ->
      Webhook.method req <> "POST").
Proof.
  assert (Hstatus : Webhook.status (fst (Webhook.handler req w)) =
                    if String.eqb (Webhook.method req) "POST" then 200 else 405).
  { unfold Webhook.handler.
    destruct (Webhook.handle req w) as [[r|e] w1] eqn:H; simpl.
    - now apply handle_status in H.
    - destruct (String.eqb (Webhook.method req) "POST") eqn:E; [reflexivity|].
      unfold Webhook.handle in H. rewrite E in H. discriminate. }
  split; [|split].
  - intros Hm. apply String.eqb_neq in Hm.
    unfold Webhook.handler, Webhook.handle. now rewrite Hm.
  - intros Hm. apply String.eqb_eq in Hm. now rewrite Hstatus, Hm.
  - intros Hs Hm. apply String.eqb_eq in Hm. rewrite Hstatus, Hm in Hs. now apply Hs.
Qed.

(** A body that is [null] has no page data: reading [body.data] throws,
    and the outer [catch] acknowledges with an error, the world unchanged. *)
Lemma handler_null_body (req : Webhook.Request) (w : World) :
  Webhook.method req = "POST" ->
  Webhook.body req = Some Webhook.NullBody ->
  Webhook.handler req w =
  ({| Webhook.status := 200;
      Webhook.payload :=
        Webhook.InternalError
          (Some "Cannot read properties of null (reading 'data')") |}, w).
Proof.
  intros Hm Hb. unfold Webhook.handler, Webhook.handle. now rewrite Hm, Hb.
Qed.

(** C6 (amended). A POST delivery that brings no name (its JSON does not
    parse or is [null], or its page data has no name or an empty one) is
    acknowledged with status 200 and a body carrying [success = false];
    nothing is thrown to the caller and the world, the index store
    included, is unchanged.  The body carries [skipped = true] and a
    reason unless the JSON is [null]: reading [body.data] then throws, and
    the outer [catch] answers with the message of the TypeError and no
    [skipped] member. *)
Theorem handler_skips_missing_name (req : Webhook.Request) (w : World) :
  Webhook.method req = "POST" ->
  nameless req ->
  snd (Webhook.handler req w) = w
  /\ Webhook.status (fst (Webhook.handler req w)) = 200
  /\ Webhook.success (Webhook.payload (fst (Webhook.handler req w))) = Some false
  /\ (Webhook.body req = Some Webhook.NullBody ->
      Webhook.payload (fst (Webhook.handler req w))
      = Webhook.InternalError (Some "Cannot read properties of null (reading 'data')")
      /\ Webhook.skipped (Webhook.payload (fst (Webhook.handler req w))) = None)
  /\ (Webhook.body req <> Some Webhook.NullBody ->
      exists reason,
        Webhook.handler req w =
        ({| Webhook.status := 200; Webhook.payload := Webhook.Skipped reason |}, w)
        /\ Webhook.skipped (Webhook.Skipped reason) = Some true).
Proof.
  intros Hm Hname. unfold nameless in Hname.
  unfold Webhook.handler, Webhook.handle, Webhook.skip. rewrite Hm.
  destruct (Webhook.body req) as [b|]; simpl.
  - destruct b as [data|pageData|]; simpl in *.
    + destruct (falsy_string _); simpl.
      * repeat split; try discriminate. intros _. eexists. split; reflexivity.
      * rewrite Hname. simpl.
        repeat split; try discriminate. intros _. eexists. split; reflexivity.
    + destruct (falsy_string _); simpl.
      * repeat split; try discriminate. intros _. eexists. split; reflexivity.
      * rewrite Hname. simpl.
        repeat split; try discriminate. intros _. eexists. split; reflexivity.
    + repeat split. intros H. now contradiction H.
  - repeat split; try discriminate. intros _. eexists. split; reflexivity.
Qed.

Lemma insertNameIndex_logs name pageId w :
  In (SqlInsertName (Webhook.normalizeName name) pageId)
     (calls (snd (Webhook.insertNameIndex name pageId w))).
Proof.
  unfold Webhook.insertNameIndex, Webhook.retryWithBackoff, try_catch.
  set (c := SqlInsertName (Webhook.normalizeName name) pageId).
  set (fn := sqlite_execute c (run_insert_name (Webhook.normalizeName name) pageId)).
  destruct (retry_loop_outcome rate_limit_signal fn 1000 c) with
    (maxRetries := 3) (i := 0) (lastError := undefined_error) (w := w)
    as (k & Hk & _ & Hout).
  - intros w0. unfold fn, sqlite_execute, run_insert_name. simpl.
    destruct (sqlite_faults w0) as [|[e|] ?]; simpl; try reflexivity;
      destruct (has_page_id _ _); reflexivity.
  - intros w0. unfold fn, sqlite_execute, run_insert_name. simpl.
    destruct (sqlite_faults w0) as [|[e|] ?]; simpl; try reflexivity;
      destruct (has_page_id _ _); reflexivity.
  - destruct (retry_loop rate_limit_signal fn 1000 3 0 undefined_error w)
      as [[[]|e] w1]; simpl in *.
    + destruct Hout as [_ ->]. now left.
    + assert (In c (calls w1)) as Hin
          by (destruct Hout as [(_ & _ & ->)|[_ ->]]; now left).
      destruct (message_includes e "UNIQUE constraint"); exact Hin.
Qed.

Lemma no_insert_refl w : no_insert w w.
Proof. split; reflexivity. Qed.

Lemma no_insert_trans w1 w2 w3 : no_insert w1 w2 -> no_insert w2 w3 -> no_insert w1 w3.
Proof. unfold no_insert. intros [H1 H2] [H3 H4]. split; congruence. Qed.

Lemma findDuplicatePages_no_insert key w :
  no_insert w (snd (Webhook.findDuplicatePages key w)).
Proof.
  unfold Webhook.findDuplicatePages, Webhook.retryWithBackoff.
  apply (retry_loop_preserves rate_limit_signal _ 1000 no_insert);
    auto using no_insert_refl.
  - apply no_insert_trans.
  - intros w0 t. split; reflexivity.
  - intros w0. unfold sqlite_execute. simpl.
    destruct (sqlite_faults w0) as [|[e|] rest]; split; reflexivity.
Qed.

Lemma webhook_fetchNotionPage_no_insert pageId w :
  no_insert w (snd (Webhook.fetchNotionPage pageId w)).
Proof. unfold Webhook.fetchNotionPage. crunch_http; apply no_insert_refl. Qed.

Lemma webhook_updateNotionTags_no_insert pageId tag w :
  no_insert w (snd (Webhook.updateNotionTags pageId tag w)).
Proof. unfold Webhook.updateNotionTags. crunch_http; apply no_insert_refl. Qed.

(** C2 (amended). For a POST delivery carrying an id and a name for
    which the lookup finds at least one other indexed page, the handler
    first fetches the tag state of the delivered page and tags it,
    outside the per-page [try].  A failure of either step reaches the
    outer [catch]: the handler acknowledges with status 200 and the
    message of the failure, no INSERT is sent and the index has the rows
    it had.  Once both steps have succeeded, the handler sends the INSERT
    of [(normalizeName name, pageId)] whatever happens while the other
    matches are fetched and tagged: that loop never throws.  When the
    store does not fail, the page is in the index afterwards and the
    answer reports the duplicates. *)
Theorem handler_inserts_after_tagging (req : Webhook.Request) (w : World)
    (b : Webhook.WebhookBody) (pageId : string) (name : jsstring)
    (rest : list jsstring) (ids : list string) (w1 : World) :
  Webhook.method req = "POST" ->
  Webhook.body req = Some b ->
  Webhook.pageData_of b =
    Some {| Webhook.pageData_id := Some pageId;
            Webhook.pageData_title := name :: rest |} ->
  pageId <> "" ->
  name <> [] ->
  Webhook.findDuplicatePages (Webhook.normalizeName name) w = (Ok ids, w1) ->
  filter (fun id => negb (String.eqb id pageId)) ids <> [] ->
  match Webhook.fetchNotionPage pageId w1 with
  | (Throw e, w2) =>
      Webhook.handler req w =
      ({| Webhook.status := 200;
          Webhook.payload := Webhook.InternalError (message e) |}, w2)
      /\ no_insert w w2
  | (Ok page, w2) =>
      match Webhook.updateNotionTags pageId (Webhook.select page) w2 with
      | (Throw e, w3) =>
          Webhook.handler req w =
          ({| Webhook.status := 200;
              Webhook.payload := Webhook.InternalError (message e) |}, w3)
          /\ no_insert w w3
      | (Ok _, w3) =>
          exists w4,
            Webhook.tagOthers (filter (fun id => negb (String.eqb id pageId)) ids) w3
            = (Ok tt, w4)
            /\ Webhook.handler req w =
               match Webhook.insertNameIndex name pageId w4 with
               | (Ok _, w5) =>
                   ({| Webhook.status := 200;
                       Webhook.payload :=
                         Webhook.Tagged
                           (List.length
                              (filter (fun id => negb (String.eqb id pageId)) ids)) |},
                    w5)
               | (Throw e, w5) =>
                   ({| Webhook.status := 200;
                       Webhook.payload := Webhook.InternalError (message e) |}, w5)
               end
            /\ In (SqlInsertName (Webhook.normalizeName name) pageId)
                  (calls (snd (Webhook.handler req w)))
            /\ (sqlite_faults w1 = [] ->
                has_page_id pageId (name_index (snd (Webhook.handler req w))) = true
                /\ Webhook.payload (fst (Webhook.handler req w)) =
                   Webhook.Tagged
                     (List.length
                        (filter (fun id => negb (String.eqb id pageId)) ids)))
      end
  end.
Proof.
  intros Hm Hb Hpd Hid Hname Hfind Hothers.
  set (others := filter (fun id => negb (String.eqb id pageId)) ids) in *.
  assert (H01 : no_insert w w1).
  { pose proof (findDuplicatePages_no_insert (Webhook.normalizeName name) w) as H.
    now rewrite Hfind in H. }
  assert (Hrun0 : Webhook.handler req w =
                  match (currentPage <- Webhook.fetchNotionPage pageId ;;
                         Webhook.updateNotionTags pageId (Webhook.select currentPage) ;;
                         Webhook.tagOthers others ;;
                         Webhook.insertNameIndex name pageId ;;
                         ret {| Webhook.status := 200;
                                Webhook.payload := Webhook.Tagged (List.length others) |})
                          w1 with
                  | (Ok response, w') => (response, w')
                  | (Throw error, w') =>
                      ({| Webhook.status := 200;
                          Webhook.payload := Webhook.InternalError (message error) |}, w')
                  end).
  { unfold Webhook.handler, Webhook.handle. rewrite Hm, Hb, Hpd. simpl.
    apply String.eqb_neq in Hid. rewrite Hid.
    destruct name as [|c name]; [congruence|]. simpl.
    unfold bind at 1. rewrite Hfind. fold others.
    assert ((0 <? List.length others) = true) as ->
        by (destruct others; [congruence | reflexivity]).
    reflexivity. }
  pose proof (webhook_fetchNotionPage_no_insert pageId w1) as H12.
  pose proof (webhook_fetchNotionPage_same_sqlite pageId w1) as S12.
  destruct (Webhook.fetchNotionPage pageId w1) as [[page|e] w2] eqn:Hfetch;
    simpl in H12, S12.
  2:{ split; [|eauto using no_insert_trans].
      rewrite Hrun0. unfold bind at 1. now rewrite Hfetch. }
  pose proof (webhook_updateNotionTags_no_insert pageId (Webhook.select page) w2) as H23.
  pose proof (webhook_updateNotionTags_same_sqlite pageId (Webhook.select page) w2) as S23.
  destruct (Webhook.updateNotionTags pageId (Webhook.select page) w2)
    as [[[]|e] w3] eqn:Htag; simpl in H23, S23.
  2:{ split; [|eauto using no_insert_trans].
      rewrite Hrun0. unfold bind at 1. rewrite Hfetch.
      unfold bind at 1. now rewrite Htag. }
  destruct (tagOthers_never_throws others w3) as (w4 & Hloop & Hsame).
  exists w4. split; [exact Hloop|].
  assert (Hrun : Webhook.handler req w =
                 match Webhook.insertNameIndex name pageId w4 with
                 | (Ok _, w5) =>
                     ({| Webhook.status := 200;
                         Webhook.payload := Webhook.Tagged (List.length others) |}, w5)
                 | (Throw e, w5) =>
                     ({| Webhook.status := 200;
                         Webhook.payload := Webhook.InternalError (message e) |}, w5)
                 end).
  { rewrite Hrun0. unfold bind at 1. rewrite Hfetch.
    unfold bind at 1. rewrite Htag.
    unfold bind at 1. rewrite Hloop.
    unfold bind at 1.
    destruct (Webhook.insertNameIndex name pageId w4) as [[[]|e] w5];
      reflexivity. }
  split; [exact Hrun|]. split.
  - rewrite Hrun. pose proof (insertNameIndex_logs name pageId w4) as Hlog.
    destruct (Webhook.insertNameIndex name pageId w4) as [[[]|e] w5]; exact Hlog.
  - intros Hf. rewrite Hrun.
    assert (sqlite_faults w4 = []) as Hf4.
    { destruct S12 as (_ & H1 & _), S23 as (_ & H2 & _), Hsame as (_ & H3 & _).
      congruence. }
    rewrite insertNameIndex_served by exact Hf4.
    destruct (has_page_id pageId (name_index w4)) eqn:Hp; simpl.
    + now split.
    + split; [apply has_page_id_inserted | reflexivity].
Qed.

End Detector.

(** ** The resumable scanner *)

Lemma only_reads_refl w : only_reads w w.
Proof. repeat split. now exists []. Qed.

Lemma only_reads_trans w1 w2 w3 : only_reads w1 w2 -> only_reads w2 w3 -> only_reads w1 w3.
Proof.
  intros (a & b & c & d & e & n1 & Hn1 & Hf1) (a' & b' & c' & d' & e' & n2 & Hn2 & Hf2).
  repeat split; try congruence.
  exists (n2 ++ n1). split.
  - now rewrite Hn2, Hn1, app_assoc.
  - rewrite forallb_app. now rewrite Hf1, Hf2.
Qed.

Lemma only_reads_sleep w t : only_reads w (add_sleep t w).
Proof. repeat split. now exists []. Qed.

Lemma sqlite_execute_only_reads {A} (c : Call) (answer : World -> A) w :
  changes_no_row c = true ->
  only_reads w (snd (sqlite_execute c (fun w => (Ok (answer w), w)) w)).
Proof.
  intros Hc. unfold sqlite_execute. simpl.
  destruct (sqlite_faults w) as [|[e|] rest]; simpl; repeat split;
    exists [c]; simpl; now rewrite Hc.
Qed.

Lemma initializeTables_only_reads w :
  only_reads w (snd (IndexBuilder.initializeTables w)).
Proof.
  unfold IndexBuilder.initializeTables, bind.
  pose proof (sqlite_execute_only_reads SqlCreateNameIndex (fun _ => tt) w eq_refl) as H1.
  destruct (sqlite_execute SqlCreateNameIndex _ w) as [[[]|e] w1]; simpl in H1; [|exact H1].
  pose proof (sqlite_execute_only_reads SqlCreateIdxName (fun _ => tt) w1 eq_refl) as H2.
  destruct (sqlite_execute SqlCreateIdxName _ w1) as [[[]|e] w2]; simpl in H2;
    [|eauto using only_reads_trans].
  pose proof (sqlite_execute_only_reads SqlCreateProgress (fun _ => tt) w2 eq_refl) as H3.
  eauto using only_reads_trans.
Qed.

Lemma initializeTables_served w :
  sqlite_faults w = [] ->
  IndexBuilder.initializeTables w =
  (Ok tt, log_call SqlCreateProgress (log_call SqlCreateIdxName
                                        (log_call SqlCreateNameIndex w))).
Proof.
  intros Hf. unfold IndexBuilder.initializeTables, bind.
  rewrite sqlite_execute_served by exact Hf.
  rewrite sqlite_execute_served by exact Hf.
  now rewrite sqlite_execute_served by exact Hf.
Qed.

(** Reading a progress row that exists. *)
Lemma getProgress_existing w row :
  index_builder_progress w = Some row ->
  match IndexBuilder.getProgress w with
  | (Ok progress, w1) => progress = row /\ only_reads w w1
  | (Throw _, w1) => only_reads w w1
  end.
Proof.
  intros Hrow. unfold IndexBuilder.getProgress, IndexBuilder.retryWithBackoff.
  unfold bind at 1.
  assert (Hleft : forall w w' (a : option Progress) w1,
             only_reads w w' ->
             a = index_builder_progress w' /\ only_reads w' w1 ->
             a = index_builder_progress w /\ only_reads w w1).
  { intros w0 w' a w1 H [-> H']. split; [|eauto using only_reads_trans].
    now destruct H as (_ & _ & -> & _). }
  assert (Hfn : forall w,
             match sqlite_execute SqlSelectProgress
                     (fun w => (Ok (index_builder_progress w), w)) w with
             | (Ok a, w1) => a = index_builder_progress w /\ only_reads w w1
             | (Throw _, w1) => only_reads w w1
             end).
  { intros w0.
    pose proof (sqlite_execute_only_reads SqlSelectProgress
                  index_builder_progress w0 eq_refl) as H.
    unfold sqlite_execute in *. simpl in *.
    destruct (sqlite_faults w0) as [|[e|] rest]; simpl in *; auto. }
  pose proof (retry_loop_hoare rate_limit_signal _ 1000 only_reads _
                only_reads_refl only_reads_trans only_reads_sleep Hleft Hfn
                3 0 undefined_error w) as L.
  destruct (retry_loop _ _ _ _ _ _ w) as [[result|e] w1]; [|exact L].
  destruct L as [-> L]. rewrite Hrow. simpl. now split.
Qed.

Lemma bind_case {A B} (c : M A) (k : A -> M B) w (P : Result B * World -> Prop) :
  (forall a w1, c w = (Ok a, w1) -> P (k a w1)) ->
  (forall e w1, c w = (Throw e, w1) -> P (Throw e, w1)) ->
  P (bind c k w).
Proof.
  intros Hok Hthrow. unfold bind. destruct (c w) as [[a|e] w1]; auto.
Qed.

Lemma same_progress_refl w : same_progress w w.
Proof. now split. Qed.

Lemma same_progress_trans w1 w2 w3 :
  same_progress w1 w2 -> same_progress w2 w3 -> same_progress w1 w3.
Proof. intros [a b] [a' b']. split; congruence. Qed.

Lemma same_progress_sleep w t : same_progress w (add_sleep t w).
Proof. now split. Qed.

Lemma same_sqlite_progress w w1 : same_sqlite w w1 -> same_progress w w1.
Proof. intros (_ & _ & a & b). now split. Qed.

Lemma only_reads_progress w w1 : only_reads w w1 -> same_progress w w1.
Proof. intros (_ & _ & a & b & _). now split. Qed.

Lemma grows_refl w : grows w w.
Proof. now exists []. Qed.

Lemma grows_trans w1 w2 w3 : grows w1 w2 -> grows w2 w3 -> grows w1 w3.
Proof.
  intros [n1 H1] [n2 H2]. exists (n2 ++ n1). now rewrite H2, H1, app_assoc.
Qed.

Lemma same_progress_grows w w1 : same_progress w w1 -> grows w w1.
Proof. intros [_ H]. exists []. exact H. Qed.

Lemma same_progress_tracked w w1 :
  same_progress w w1 -> tracked_monotone w -> tracked_monotone w1.
Proof.
  unfold tracked_monotone, progress_tracked. intros [-> ->]. auto.
Qed.

Lemma same_progress_scan_inv t w w1 :
  same_progress w w1 -> scan_inv t w -> scan_inv t w1.
Proof.
  intros H [Ht Hh]. split; [eauto using same_progress_tracked|].
  destruct H as [_ ->]. exact Hh.
Qed.

Lemma scan_inv_weaken t t' w : t <= t' -> scan_inv t w -> scan_inv t' w.
Proof.
  intros Hle [Ht Hh]. split; [exact Ht|].
  destruct (progress_history w); [exact I | lia].
Qed.

Lemma written_scan_inv t data w w1 :
  scan_inv t w ->
  t <= total_indexed data ->
  index_builder_progress w1 = Some data ->
  progress_history w1 = total_indexed data :: progress_history w ->
  scan_inv (total_indexed data) w1.
Proof.
  intros [[Htr Hmono] Hh] Hle Hrow Hhist.
  unfold scan_inv, tracked_monotone, progress_tracked.
  rewrite Hrow, Hhist. simpl. repeat split; auto.
  destruct (progress_history w); [exact I | lia].
Qed.

Lemma updateProgress_inv data t w :
  scan_inv t w ->
  t <= total_indexed data ->
  scan_inv (total_indexed data) (snd (IndexBuilder.updateProgress data w))
  /\ grows w (snd (IndexBuilder.updateProgress data w)).
Proof.
  intros Hinv Hle. unfold IndexBuilder.updateProgress, IndexBuilder.retryWithBackoff.
  set (Q := fun (w : World) (_ : unit) (w1 : World) =>
              same_progress w w1
              \/ (index_builder_progress w1 = Some data
                  /\ progress_history w1 = total_indexed data :: progress_history w)).
  assert (Hleft : forall w w' a w1, same_progress w w' -> Q w' a w1 -> Q w a w1).
  { intros w0 w' a w1 H [H'|[H1 H2]]; [left; eauto using same_progress_trans|].
    right. split; [exact H1|]. destruct H as [_ H]. now rewrite H2, H. }
  assert (Hfn : forall w,
             match sqlite_execute (SqlUpdateProgress data) (run_update_progress data) w with
             | (Ok a, w1) => Q w a w1
             | (Throw _, w1) => same_progress w w1
             end).
  { intros w0. unfold sqlite_execute, run_update_progress, Q. simpl.
    destruct (sqlite_faults w0) as [|[e|] rest]; simpl;
      try (now split); destruct (index_builder_progress w0); simpl;
      (now left; split) || (right; now split). }
  pose proof (retry_loop_hoare rate_limit_signal _ 1000 same_progress Q
                same_progress_refl same_progress_trans same_progress_sleep Hleft Hfn
                3 0 undefined_error w) as L.
  destruct (retry_loop _ _ _ _ _ _ w) as [[[]|e] w1]; simpl.
  - destruct L as [L|[L1 L2]].
    + split; [|now apply same_progress_grows].
      eauto using same_progress_scan_inv, scan_inv_weaken.
    + split; [eauto using written_scan_inv|].
      exists [total_indexed data]. exact L2.
  - split; [|now apply same_progress_grows].
    eauto using same_progress_scan_inv, scan_inv_weaken.
Qed.

Lemma builder_query_same_progress cursor size w :
  same_progress w (snd (IndexBuilder.queryNotionDatabase cursor size w)).
Proof.
  apply same_sqlite_progress. unfold IndexBuilder.queryNotionDatabase. crunch_http.
Qed.

Lemma getExistingIndexCount_same_progress w :
  same_progress w (snd (IndexBuilder.getExistingIndexCount w)).
Proof.
  unfold IndexBuilder.getExistingIndexCount, IndexBuilder.retryWithBackoff.
  apply retry_loop_preserves;
    auto using same_progress_refl, same_progress_sleep.
  - apply same_progress_trans.
  - intros w0. apply only_reads_progress.
    now apply (sqlite_execute_only_reads SqlCountNames
                 (fun w => List.length (name_index w))).
Qed.

Section Scanner.
Context {U : UnicodeTables}.

Lemma insertIntoIndex_same_progress name pageId w :
  same_progress w (snd (IndexBuilder.insertIntoIndex name pageId w)).
Proof.
  unfold IndexBuilder.insertIntoIndex, IndexBuilder.retryWithBackoff.
  apply retry_loop_preserves;
    auto using same_progress_refl, same_progress_sleep.
  - apply same_progress_trans.
  - intros w0. unfold try_catch, bind, sqlite_execute, run_insert_name, ret, throw.
    simpl.
    destruct (sqlite_faults w0) as [|[e|] rest]; simpl;
      try destruct (has_page_id _ _); simpl;
      try destruct (message_includes _ _); simpl; now split.
Qed.

Lemma processBatch_same_progress pages indexed w :
  same_progress w (snd (IndexBuilder.processBatch_from pages indexed w)).
Proof.
  revert indexed w. induction pages as [|page rest IH]; intros indexed w; simpl.
  - apply same_progress_refl.
  - destruct (hd_error (title page)) as [[|c name]|]; try apply IH.
    apply (bind_case _ _ _ (fun out => same_progress w (snd out))).
    + intros a w1 H. pose proof (insertIntoIndex_same_progress (c :: name) (page_id page) w)
        as Hs. rewrite H in Hs. eauto using same_progress_trans.
    + intros e w1 H. pose proof (insertIntoIndex_same_progress (c :: name) (page_id page) w)
        as Hs. now rewrite H in Hs.
Qed.

(** C7. An invocation that finds [completed = true] in the progress row
    sends no request to Notion and writes nothing: the progress row, its
    history, the index and the records are untouched, the only requests
    being statements that change no row.  It never starts scanning: its
    report is "already completed" with the stored total, which is what it
    reports whenever the store answers, or else the error the store threw
    at it. *)
Theorem indexBuilder_completed_is_terminal (startTime : Z) (clock : list Z)
    (w : World) (row : Progress) :
  index_builder_progress w = Some row ->
  completed row = true ->
  only_reads w (snd (IndexBuilder.indexBuilder startTime clock w))
  /\ (forall c, In c (calls (snd (IndexBuilder.indexBuilder startTime clock w))) ->
                In c (calls w) \/ changes_no_row c = true)
  /\ (fst (IndexBuilder.indexBuilder startTime clock w)
      = IndexBuilder.AlreadyCompleted (total_indexed row)
      \/ exists errorMessage,
           fst (IndexBuilder.indexBuilder startTime clock w)
           = IndexBuilder.ErrorReport errorMessage)
  /\ (sqlite_faults w = [] ->
      fst (IndexBuilder.indexBuilder startTime clock w)
      = IndexBuilder.AlreadyCompleted (total_indexed row)).
Proof.
  intros Hrow Hdone.
  assert (Hbuild : match IndexBuilder.build startTime clock w with
                   | (Ok report, w1) =>
                       report = IndexBuilder.AlreadyCompleted (total_indexed row)
                       /\ only_reads w w1
                   | (Throw _, w1) => only_reads w w1
                   end).
  { unfold IndexBuilder.build. unfold bind at 1.
    pose proof (initializeTables_only_reads w) as H0.
    destruct (IndexBuilder.initializeTables w) as [[[]|e] w0]; simpl in H0; [|exact H0].
    assert (index_builder_progress w0 = Some row) as Hrow0
        by (destruct H0 as (_ & _ & -> & _); exact Hrow).
    unfold bind at 1.
    pose proof (getProgress_existing w0 row Hrow0) as H1.
    destruct (IndexBuilder.getProgress w0) as [[progress|e] w1];
      [|eauto using only_reads_trans].
    destruct H1 as [-> H1]. rewrite Hdone. simpl.
    unfold bind, ret. simpl. rewrite Hdone. split; eauto using only_reads_trans. }
  assert (Hreads : only_reads w (snd (IndexBuilder.indexBuilder startTime clock w))).
  { unfold IndexBuilder.indexBuilder.
    destruct (IndexBuilder.build startTime clock w) as [[report|e] w1]; simpl;
      [apply Hbuild | exact Hbuild]. }
  split; [exact Hreads|]. split; [|split].
  - intros c Hc. destruct Hreads as (_ & _ & _ & _ & _ & new & Hnew & Hall).
    rewrite Hnew in Hc. apply in_app_or in Hc as [Hc|Hc]; [right | now left].
    rewrite forallb_forall in Hall. now apply Hall.
  - unfold IndexBuilder.indexBuilder.
    destruct (IndexBuilder.build startTime clock w) as [[report|e] w1]; simpl.
    + left. apply Hbuild.
    + right. now exists (message e).
  - intros Hf. unfold IndexBuilder.indexBuilder, IndexBuilder.build. unfold bind at 1.
    rewrite initializeTables_served by exact Hf.
    unfold bind at 1. unfold IndexBuilder.getProgress, IndexBuilder.retryWithBackoff.
    unfold bind at 1. simpl retry_loop. unfold try_catch.
    rewrite sqlite_execute_served by exact Hf. simpl. rewrite Hrow.
    unfold ret, bind. simpl. rewrite Hdone. simpl. now rewrite Hdone.
Qed.

Lemma getProgress_inv w :
  tracked_monotone w ->
  match IndexBuilder.getProgress w with
  | (Ok progress, w1) => scan_inv (total_indexed progress) w1 /\ grows w w1
  | (Throw _, w1) => tracked_monotone w1 /\ grows w w1
  end.
Proof.
  intros Hw. unfold IndexBuilder.getProgress, IndexBuilder.retryWithBackoff.
  assert (Hsel : match retry_loop rate_limit_signal
                         (sqlite_execute SqlSelectProgress
                            (fun w => (Ok (index_builder_progress w), w)))
                         1000 3 0 undefined_error w with
                 | (Ok a, w1) => a = index_builder_progress w /\ same_progress w w1
                 | (Throw _, w1) => same_progress w w1
                 end).
  { apply (retry_loop_hoare rate_limit_signal _ 1000 same_progress
             (fun w a w1 => a = index_builder_progress w /\ same_progress w w1)
             same_progress_refl same_progress_trans same_progress_sleep).
    - intros w0 w' a w1 H [-> H']. split; [|eauto using same_progress_trans].
      now destruct H as [-> _].
    - intros w0. unfold sqlite_execute. simpl.
      destruct (sqlite_faults w0) as [|[e|] rest]; simpl; repeat split. }
  unfold bind at 1.
  destruct (retry_loop _ _ _ _ _ _ w) as [[result|e] w1].
  2: { split; [eauto using same_progress_tracked | now apply same_progress_grows]. }
  destruct Hsel as [-> Hs].
  pose proof (same_progress_tracked _ _ Hs Hw) as Hw1.
  destruct (index_builder_progress w) as [row|] eqn:Hrow.
  - unfold ret. split; [|now apply same_progress_grows].
    split; [exact Hw1|]. destruct Hw1 as [Htr _]. unfold progress_tracked in Htr.
    destruct Hs as [Hs _]. rewrite Hs, Hrow in Htr. simpl.
    destruct (progress_history w1); [contradiction | lia].
  - assert (Hins : match retry_loop rate_limit_signal
                           (sqlite_execute SqlInsertProgress run_insert_progress)
                           1000 3 0 undefined_error w1 with
                   | (Ok _, w2) =>
                       index_builder_progress w2 = Some initial_progress
                       /\ progress_history w2 = 0 :: progress_history w1
                   | (Throw _, w2) => same_progress w1 w2
                   end).
    { apply (retry_loop_hoare rate_limit_signal _ 1000 same_progress
               (fun w (_ : unit) w2 =>
                  index_builder_progress w2 = Some initial_progress
                  /\ progress_history w2 = 0 :: progress_history w)
               same_progress_refl same_progress_trans same_progress_sleep).
      - intros w0 w' a w2 [_ H] [H1 H2]. split; [exact H1 | congruence].
      - intros w0. unfold sqlite_execute, run_insert_progress. simpl.
        destruct (sqlite_faults w0) as [|[e|] rest]; simpl;
          try destruct (index_builder_progress w0); simpl; repeat split. }
    unfold bind.
    destruct (retry_loop _ _ _ _ _ _ w1) as [[[]|e] w2].
    + destruct Hins as [H1 H2]. unfold ret.
      assert (progress_history w1 = []) as Hnil.
      { destruct Hw1 as [Htr _]. unfold progress_tracked in Htr.
        destruct Hs as [Hs _]. rewrite Hs, Hrow in Htr.
        now destruct (progress_history w1). }
      split.
      * unfold scan_inv, tracked_monotone, progress_tracked.
        rewrite H1, H2, Hnil. simpl. repeat split; auto.
      * apply (grows_trans _ w1); [apply same_progress_grows; exact Hs|].
        exists [0]. exact H2.
    + split; [eauto using same_progress_tracked, same_progress_trans|].
      now apply same_progress_grows, (same_progress_trans _ w1).
Qed.

Lemma batches_inv n :
  forall clock, List.length clock <= n ->
  forall startTime cursor t w,
    scan_inv t w ->
    tracked_monotone (snd (IndexBuilder.batches clock startTime cursor t w))
    /\ grows w (snd (IndexBuilder.batches clock startTime cursor t w)).
Proof.
  induction n as [|n IH]; intros clock Hlen startTime cursor t w Hinv.
  - destruct clock; [|simpl in Hlen; lia]. simpl. split; [apply Hinv | apply grows_refl].
  - destruct clock as [|now clock1]; simpl.
    { split; [apply Hinv | apply grows_refl]. }
    destruct (now - startTime <? IndexBuilder.MAX_RUNTIME_MS)%Z;
      [|split; [apply Hinv | apply grows_refl]].
    pose proof (builder_query_same_progress cursor IndexBuilder.BATCH_SIZE w) as Hq.
    apply (bind_case _ _ _ (fun out => tracked_monotone (snd out) /\ grows w (snd out)));
      intros response wq Eq; rewrite Eq in Hq; simpl in Hq.
    2: { split; [eapply same_progress_tracked; eauto; apply Hinv
                | now apply same_progress_grows]. }
    pose proof (same_progress_scan_inv _ _ _ Hq Hinv) as Hinvq.
    pose proof (same_progress_grows _ _ Hq) as Hgq.
    destruct (List.length (results response) =? 0).
    + pose proof (updateProgress_inv
                    {| last_cursor := None; total_indexed := t; completed := true |}
                    t wq Hinvq (le_n _)) as [Hu Hg].
      apply (bind_case _ _ _ (fun out => tracked_monotone (snd out) /\ grows w (snd out)));
        intros a wu Eu; rewrite Eu in Hu, Hg; simpl in Hu, Hg; simpl;
        (split; [apply Hu | eauto using grows_trans]).
    + pose proof (processBatch_same_progress (results response) 0 wq) as Hp.
      apply (bind_case _ _ _ (fun out => tracked_monotone (snd out) /\ grows w (snd out)));
        intros indexed wp Ep; unfold IndexBuilder.processBatch in Ep;
        rewrite Ep in Hp; simpl in Hp.
      2: { split; [eapply same_progress_tracked; eauto; apply Hinvq
                  | eauto using grows_trans, same_progress_grows]. }
      pose proof (same_progress_scan_inv _ _ _ Hp Hinvq) as Hinvp.
      pose proof (updateProgress_inv
                    {| last_cursor := next_cursor response;
                       total_indexed := t + indexed;
                       completed := negb (has_more response) |}
                    t wp Hinvp (Nat.le_add_r _ _)) as [Hu Hg].
      simpl total_indexed in Hu.
      assert (Hgp : grows w wp) by eauto using grows_trans, same_progress_grows.
      apply (bind_case _ _ _ (fun out => tracked_monotone (snd out) /\ grows w (snd out)));
        intros a wu Eu; rewrite Eu in Hu, Hg; simpl in Hu, Hg.
      2: { split; [apply Hu | eauto using grows_trans]. }
      assert (Hgu : grows w wu) by eauto using grows_trans.
      destruct (negb (has_more response)); [split; [apply Hu | exact Hgu]|].
      destruct clock1 as [|duration [|now2 clock2]];
        try (split; [apply Hu | exact Hgu]).
      destruct (now2 - startTime >? IndexBuilder.PAUSE_AFTER_MS)%Z;
        [split; [apply Hu | exact Hgu]|].
      destruct (IH clock2 ltac:(simpl in Hlen; lia) startTime
                  (next_cursor response) (t + indexed) wu Hu) as [H1 H2].
      split; [exact H1 | eauto using grows_trans].
Qed.

Lemma build_inv startTime clock w :
  tracked_monotone w ->
  tracked_monotone (snd (IndexBuilder.build startTime clock w))
  /\ grows w (snd (IndexBuilder.build startTime clock w)).
Proof.
  intros Hw. unfold IndexBuilder.build.
  pose proof (only_reads_progress _ _ (initializeTables_only_reads w)) as H0.
  apply (bind_case _ _ _ (fun out => tracked_monotone (snd out) /\ grows w (snd out)));
    intros a w0 E0; rewrite E0 in H0; simpl in H0.
  2: { split; [eauto using same_progress_tracked | now apply same_progress_grows]. }
  pose proof (same_progress_tracked _ _ H0 Hw) as Hw0.
  pose proof (same_progress_grows _ _ H0) as Hg0.
  pose proof (getProgress_inv w0 Hw0) as H1.
  apply (bind_case _ _ _ (fun out => tracked_monotone (snd out) /\ grows w (snd out)));
    intros progress w1 E1; rewrite E1 in H1; destruct H1 as [H1 Hg1].
  2: { split; [exact H1 | eauto using grows_trans]. }
  assert (Hgw1 : grows w w1) by eauto using grows_trans.
  assert (Hboot :
    match (if negb (completed progress) && (total_indexed progress =? 0)
           then
             bind IndexBuilder.getExistingIndexCount (fun existingCount =>
               if 0 <? existingCount
               then
                 bind (IndexBuilder.updateProgress
                         {| last_cursor := last_cursor progress;
                            total_indexed := existingCount;
                            completed := completed progress |})
                      (fun _ => ret {| last_cursor := last_cursor progress;
                                       total_indexed := existingCount;
                                       completed := completed progress |})
               else ret progress)
           else ret progress) w1 with
    | (Ok progress', w2) => scan_inv (total_indexed progress') w2 /\ grows w w2
    | (Throw _, w2) => tracked_monotone w2 /\ grows w w2
    end).
  { destruct (negb (completed progress) && (total_indexed progress =? 0)) eqn:Eb;
      [|unfold ret; now split].
    apply andb_true_iff in Eb as [_ Ez]. apply Nat.eqb_eq in Ez.
    pose proof (getExistingIndexCount_same_progress w1) as Hc.
    unfold bind at 1.
    destruct (IndexBuilder.getExistingIndexCount w1) as [[existingCount|e] wc];
      simpl in Hc.
    2: { split; [eapply same_progress_tracked; eauto; apply H1
                | eauto using grows_trans, same_progress_grows]. }
    pose proof (same_progress_scan_inv _ _ _ Hc H1) as Hinvc.
    assert (Hgc : grows w wc) by eauto using grows_trans, same_progress_grows.
    destruct (0 <? existingCount); [|unfold ret; now split].
    pose proof (updateProgress_inv
                  {| last_cursor := last_cursor progress;
                     total_indexed := existingCount;
                     completed := completed progress |}
                  (total_indexed progress) wc Hinvc ltac:(simpl; lia)) as [Hu Hg].
    unfold bind, ret.
    destruct (IndexBuilder.updateProgress _ wc) as [[[]|e] wu]; simpl in Hu, Hg.
    - simpl. split; [exact Hu | eauto using grows_trans].
    - split; [apply Hu | eauto using grows_trans]. }
  apply (bind_case _ _ _ (fun out => tracked_monotone (snd out) /\ grows w (snd out)));
    intros progress' w2 E2; rewrite E2 in Hboot; destruct Hboot as [H2 Hg2].
  2: { now split. }
  destruct (completed progress'); [split; [apply H2 | exact Hg2]|].
  unfold bind. destruct (negb (NOTION_DATABASE_ID w2)).
  - split; [apply H2 | exact Hg2].
  - destruct (batches_inv _ clock (le_n _) startTime (last_cursor progress')
                (total_indexed progress') w2 H2) as [H3 Hg3].
    split; [exact H3 | eauto using grows_trans].
Qed.

Lemma never_decreased_app_head newer oldest rest :
  never_decreased (newer ++ oldest :: rest) ->
  oldest <= hd oldest (newer ++ oldest :: rest).
Proof.
  induction newer as [|a newer IH]; simpl; [lia|].
  intros [Hle Hrest]. specialize (IH Hrest).
  destruct newer as [|b newer]; simpl in *; lia.
Qed.

(** C8. However the scanner is invoked, whatever its clock and the
    failures of the store and of Notion, the values it writes to
    [total_indexed] never go down: the history of the writes, to which
    every invocation only adds, stays ordered, the row keeps holding the
    newest of them, and its total at the end is at least its total at the
    start. *)
Theorem total_indexed_never_decreases (schedule : list Invocation) (w : World) :
  progress_tracked w ->
  never_decreased (progress_history w) ->
  progress_tracked (scanner_runs schedule w)
  /\ never_decreased (progress_history (scanner_runs schedule w))
  /\ (exists newer,
        progress_history (scanner_runs schedule w) = newer ++ progress_history w)
  /\ (forall row,
        index_builder_progress w = Some row ->
        exists row1,
          index_builder_progress (scanner_runs schedule w) = Some row1
          /\ total_indexed row <= total_indexed row1).
Proof.
  intros Htr Hmono.
  assert (H : tracked_monotone (scanner_runs schedule w)
              /\ grows w (scanner_runs schedule w)).
  { assert (Hw : tracked_monotone w) by now split.
    clear Htr Hmono. revert w Hw.
    induction schedule as [|inv later IH]; intros w Hw; simpl.
    - split; [exact Hw | apply grows_refl].
    - set (w0 := set_http_faults (api_faults inv)
                   (set_sqlite_faults (store_faults inv) w)).
      assert (Hw0 : tracked_monotone w0) by exact Hw.
      destruct (build_inv (startTime inv) (clock inv) w0 Hw0) as [H1 Hg1].
      assert (Hsnd : snd (IndexBuilder.indexBuilder (startTime inv) (clock inv) w0) =
                     snd (IndexBuilder.build (startTime inv) (clock inv) w0)).
      { unfold IndexBuilder.indexBuilder.
        now destruct (IndexBuilder.build _ _ w0) as [[?|?] ?]. }
      rewrite Hsnd. destruct (IH _ H1) as [H2 Hg2].
      split; [exact H2|]. eapply grows_trans; [|exact Hg2]. exact Hg1. }
  destruct H as [[Htr1 Hmono1] [newer Hnew]].
  repeat split; auto; [now exists newer|].
  intros row Hrow. unfold progress_tracked in Htr, Htr1. rewrite Hrow in Htr.
  destruct (progress_history w) as [|oldest rest]; [contradiction|].
  rewrite Hnew in Hmono1, Htr1.
  pose proof (never_decreased_app_head _ _ _ Hmono1) as Hle.
  destruct (index_builder_progress (scanner_runs schedule w)) as [row1|].
  - exists row1. split; [reflexivity|].
    destruct (newer ++ oldest :: rest) as [|newest l]; [contradiction|].
    simpl in Hle. lia.
  - destruct newer; contradiction.
Qed.

End Scanner.

(** ** The bulk reconciler *)

Section Reconciler.
Context {U : UnicodeTables}.

Lemma hasDuplicateTag_added tags :
  Backfill.hasDuplicateTag (tags ++ [js "Duplicate"]) = true.
Proof.
  unfold Backfill.hasDuplicateTag. rewrite existsb_app. simpl.
  now rewrite orb_true_r.
Qed.

(** *** Paging through the store *)

(** A query that answers gives the page of the store at the cursor, and
    leaves the store as it is. *)
Lemma backfill_query_answer cursor size w r w1 :
  Backfill.queryNotionDatabase cursor size w = (Ok r, w1) ->
  notion_pages w1 = notion_pages w /\ r = query_page cursor size (notion_pages w).
Proof.
  unfold Backfill.queryNotionDatabase, Backfill.retryWithBackoff. intros H.
  apply bind_ok_inv in H as (response & w2 & Hretry & Hresp).
  set (fn := bind getNotionHeaders
               (fun _ => fetch (HttpQuery cursor size) (serve_query cursor size))) in *.
  pose proof (retry_loop_hoare
                (fun e => Backfill.isRateLimit e || Backfill.isServerError e) fn 1000
                (fun w w1 => notion_pages w1 = notion_pages w)
                (fun w a w1 =>
                   notion_pages w1 = notion_pages w
                   /\ forall j, a = RespOk j -> j = query_page cursor size (notion_pages w)))
    as L.
  specialize (L (fun w => eq_refl)).
  specialize (L ltac:(intros; congruence)).
  specialize (L (fun w t => eq_refl)).
  assert (Hleft : forall w w' (a : Response NotionQueryResponse) w1,
             notion_pages w' = notion_pages w ->
             notion_pages w1 = notion_pages w'
             /\ (forall j, a = RespOk j -> j = query_page cursor size (notion_pages w')) ->
             notion_pages w1 = notion_pages w
             /\ (forall j, a = RespOk j -> j = query_page cursor size (notion_pages w))).
  { intros w0 w' a w3 H0 [H1 H2]. rewrite <- H0. split; [congruence | exact H2]. }
  assert (Hfn : forall w,
             match fn w with
             | (Ok a, w1) =>
                 notion_pages w1 = notion_pages w
                 /\ (forall j, a = RespOk j -> j = query_page cursor size (notion_pages w))
             | (Throw _, w1) => notion_pages w1 = notion_pages w
             end).
  { intros w0. unfold fn, bind, getNotionHeaders, fetch, serve_query. simpl.
    destruct (NOTION_TOKEN w0); [|reflexivity]. simpl.
    destruct (http_faults w0) as [|[| |] rest]; simpl;
      try reflexivity; split; try reflexivity; congruence. }
  specialize (L Hleft Hfn 3 0 undefined_error w). rewrite Hretry in L.
  destruct L as [L1 L2]. destruct response as [json|status text].
  - unfold ret in Hresp. injection Hresp as <- <-. split; [exact L1 | now apply L2].
  - discriminate.
Qed.

(** The fuel of [fetchAllPages] is never used up: more fuel changes
    nothing. *)
Lemma fetchAllPages_loop_fuel fuel :
  forall allPages cursor w extra,
    List.length (notion_pages w) - match cursor with Some k => k | None => 0 end < fuel ->
    Backfill.fetchAllPages_loop (fuel + extra) allPages cursor w
    = Backfill.fetchAllPages_loop fuel allPages cursor w.
Proof.
  induction fuel as [|fuel IH]; intros allPages cursor w extra Hfuel; [lia|].
  simpl. unfold bind at 1 3.
  destruct (Backfill.queryNotionDatabase cursor Backfill.BATCH_SIZE w)
    as [[r|e] w1] eqn:E; [|reflexivity].
  apply backfill_query_answer in E as [Hpages ->].
  unfold query_page. simpl.
  destruct (Backfill.BATCH_SIZE <? _) eqn:Emore; [|reflexivity].
  apply Nat.ltb_lt in Emore. rewrite length_skipn in Emore.
  unfold bind, sleep. apply IH. simpl. rewrite Hpages.
  unfold Backfill.BATCH_SIZE in *. lia.
Qed.

Lemma fetchAllPages_fuel_suffices extra w :
  Backfill.fetchAllPages_loop (S (List.length (notion_pages w)) + extra) [] None w
  = Backfill.fetchAllPages w.
Proof. unfold Backfill.fetchAllPages. apply fetchAllPages_loop_fuel. lia. Qed.

Lemma firstn_more {A} k n (l : list A) :
  firstn k l ++ firstn n (skipn k l) = firstn (k + n) l.
Proof.
  revert l. induction k as [|k IH]; intros l; simpl; [reflexivity|].
  destruct l as [|x l]; simpl; [now rewrite firstn_nil | now rewrite IH].
Qed.

Lemma fetchAllPages_loop_S fuel allPages cursor :
  Backfill.fetchAllPages_loop (S fuel) allPages cursor
  = bind (Backfill.queryNotionDatabase cursor Backfill.BATCH_SIZE)
      (fun response =>
         match next_cursor response with
         | Some c =>
             bind (sleep Backfill.RATE_LIMIT_DELAY)
               (fun _ => Backfill.fetchAllPages_loop fuel
                           (allPages ++ results response) (Some c))
         | None => ret (allPages ++ results response)
         end).
Proof. reflexivity. Qed.

Lemma query_page_results cursor size pages :
  results (query_page cursor size pages)
  = firstn size (skipn (match cursor with Some k => k | None => 0 end) pages).
Proof. reflexivity. Qed.

Lemma query_page_next cursor size pages :
  next_cursor (query_page cursor size pages)
  = if size <? List.length (skipn (match cursor with Some k => k | None => 0 end) pages)
    then Some (match cursor with Some k => k | None => 0 end + size)
    else None.
Proof. reflexivity. Qed.

(** When the fetch phase succeeds it has collected the records of the
    store, all of them, in their order. *)
Lemma fetchAllPages_loop_all fuel :
  forall allPages cursor w fetched w1,
    allPages = firstn (match cursor with Some k => k | None => 0 end) (notion_pages w) ->
    List.length (notion_pages w) - match cursor with Some k => k | None => 0 end < fuel ->
    Backfill.fetchAllPages_loop fuel allPages cursor w = (Ok fetched, w1) ->
    fetched = notion_pages w /\ notion_pages w1 = notion_pages w.
Proof.
  induction fuel as [|fuel IH]; intros allPages cursor w fetched w1 Hall Hfuel H; [lia|].
  rewrite fetchAllPages_loop_S in H. apply bind_ok_inv in H as (r & w2 & Hq & H).
  apply backfill_query_answer in Hq as [Hpages ->].
  rewrite query_page_results, query_page_next in H.
  set (k := match cursor with Some k => k | None => 0 end) in *.
  destruct (Backfill.BATCH_SIZE <? List.length (skipn k (notion_pages w))) eqn:Emore.
  - apply Nat.ltb_lt in Emore. rewrite length_skipn in Emore.
    unfold bind, sleep in H. apply IH in H.
    + change (notion_pages (add_sleep Backfill.RATE_LIMIT_DELAY w2))
        with (notion_pages w2) in H.
      now rewrite Hpages in H.
    + change (notion_pages (add_sleep Backfill.RATE_LIMIT_DELAY w2))
        with (notion_pages w2).
      rewrite Hpages, Hall. apply firstn_more.
    + change (notion_pages (add_sleep Backfill.RATE_LIMIT_DELAY w2))
        with (notion_pages w2).
      rewrite Hpages. unfold Backfill.BATCH_SIZE in *. lia.
  - apply Nat.ltb_ge in Emore. apply ret_ok_inv in H as [<- <-].
    split; [|exact Hpages]. rewrite firstn_all2 by exact Emore. rewrite Hall.
    apply firstn_skipn.
Qed.

Lemma fetchAllPages_all w fetched w1 :
  Backfill.fetchAllPages w = (Ok fetched, w1) ->
  fetched = notion_pages w /\ notion_pages w1 = notion_pages w.
Proof.
  unfold Backfill.fetchAllPages. apply fetchAllPages_loop_all; [reflexivity | lia].
Qed.

(** *** Relations on the store that a run preserves

    [R] relates the records before and after; it holds across a PATCH
    that adds the tag to a page the run [may_patch]. *)
Section StoreRelation.
Variable R : list NotionPage -> list NotionPage -> Prop.
Variable may_patch : string -> Prop.
Hypothesis R_refl : forall l, R l l.
Hypothesis R_trans : forall l1 l2 l3, R l1 l2 -> R l2 l3 -> R l1 l3.
Hypothesis R_patch :
  forall pageId tags l,
    may_patch pageId ->
    R l (map (set_flag pageId (MultiSelectFlag (tags ++ [js "Duplicate"]))) l).

Local Abbreviation related w w1 := (R (notion_pages w) (notion_pages w1)).

Lemma related_refl w : related w w.
Proof. apply R_refl. Qed.

Lemma related_trans w1 w2 w3 : related w1 w2 -> related w2 w3 -> related w1 w3.
Proof. apply R_trans. Qed.

Lemma related_sleep w t : related w (add_sleep t w).
Proof. apply R_refl. Qed.

Lemma fetch_related {A} (c : Call) (serve : World -> Response A * World) w :
  (forall w0, related w0 (snd (serve w0))) ->
  related w (snd (fetch c serve w)).
Proof.
  intros Hserve. unfold fetch. simpl.
  destruct (http_faults w) as [|[| |] rest]; simpl; try apply (related_refl w).
  - specialize (Hserve (log_call c w)).
    destruct (serve (log_call c w)) as [r w2]. exact Hserve.
  - specialize (Hserve (set_http_faults rest (log_call c w))).
    destruct (serve (set_http_faults rest (log_call c w))) as [r w2]. exact Hserve.
Qed.

(** A request: the headers, then the [fetch]. *)
Lemma request_related {A} (c : Call) (serve : World -> Response A * World) w :
  (forall w0, related w0 (snd (serve w0))) ->
  related w (snd (bind getNotionHeaders (fun _ => fetch c serve) w)).
Proof.
  intros Hserve. unfold bind, getNotionHeaders.
  destruct (NOTION_TOKEN w); [|apply related_refl].
  now apply fetch_related.
Qed.

Lemma retry_related {A} (fn : M A) n d w :
  (forall w, related w (snd (fn w))) ->
  related w (snd (Backfill.retryWithBackoff fn n d w)).
Proof.
  intros H. unfold Backfill.retryWithBackoff.
  apply retry_loop_preserves;
    auto using related_refl, related_sleep. apply related_trans.
Qed.

Lemma serve_patch_related pageId tags w :
  may_patch pageId ->
  related w (snd (serve_patch pageId (MultiSelectFlag (tags ++ [js "Duplicate"])) w)).
Proof.
  intros Hok. unfold serve_patch.
  destruct (find_page pageId (notion_pages w)); [|apply related_refl].
  destruct (same_shape _ _); [|apply related_refl].
  now apply R_patch.
Qed.

Lemma patchTags_related pageId tags w :
  may_patch pageId ->
  related w (snd (Backfill.patchTags pageId (tags ++ [js "Duplicate"]) w)).
Proof.
  intros Hok. unfold Backfill.patchTags.
  pose proof (request_related
                (HttpPatchPage pageId (MultiSelectFlag (tags ++ [js "Duplicate"])))
                (serve_patch pageId (MultiSelectFlag (tags ++ [js "Duplicate"]))) w
                (fun w0 => serve_patch_related pageId tags w0 Hok)) as H.
  unfold bind in *. destruct (getNotionHeaders w) as [[[]|e] w1]; [|exact H].
  destruct (fetch _ _ w1) as [[[[]|status text]|e] w2]; exact H.
Qed.

Lemma updateNotionTags_related pageId tags w :
  may_patch pageId ->
  related w (snd (Backfill.updateNotionTags pageId tags w)).
Proof.
  intros Hok. unfold Backfill.updateNotionTags.
  destruct (Backfill.hasDuplicateTag tags); [apply related_refl|].
  destruct Backfill.DRY_RUN; [apply related_refl|].
  pose proof (retry_related (Backfill.patchTags pageId (tags ++ [js "Duplicate"]))
                3 1000 w (fun w0 => patchTags_related pageId tags w0 Hok)) as H.
  unfold bind. destruct (Backfill.retryWithBackoff _ 3 1000 w) as [[[]|e] w1]; exact H.
Qed.

Lemma fetchNotionPage_related pageId w :
  related w (snd (Backfill.fetchNotionPage pageId w)).
Proof.
  unfold Backfill.fetchNotionPage.
  pose proof (retry_related
                (bind getNotionHeaders
                   (fun _ => fetch (HttpGetPage pageId) (serve_get pageId)))
                3 1000 w) as H.
  unfold bind at 1.
  destruct (Backfill.retryWithBackoff _ 3 1000 w) as [[[page|status text]|e] w1];
    apply H; intros w0; apply request_related; intros w2;
    unfold serve_get; destruct (find_page pageId (notion_pages w2)); apply related_refl.
Qed.

Lemma queryNotionDatabase_related cursor size w :
  related w (snd (Backfill.queryNotionDatabase cursor size w)).
Proof.
  unfold Backfill.queryNotionDatabase.
  pose proof (retry_related
                (bind getNotionHeaders
                   (fun _ => fetch (HttpQuery cursor size) (serve_query cursor size)))
                3 1000 w) as H.
  unfold bind at 1.
  destruct (Backfill.retryWithBackoff _ 3 1000 w) as [[[json|status text]|e] w1];
    apply H; intros w0; apply request_related; intros w2; apply related_refl.
Qed.

Lemma tagPages_related pages c w :
  (forall page, In page pages -> may_patch (page_id page)) ->
  related w (snd (Backfill.tagPages pages c w)).
Proof.
  revert c w. induction pages as [|page rest IH]; intros c w Hok; simpl.
  - apply related_refl.
  - assert (Hpage : may_patch (page_id page)) by (apply Hok; now left).
    assert (Hrest : forall p, In p rest -> may_patch (page_id p))
      by (intros p Hp; apply Hok; now right).
    unfold bind at 1. unfold try_catch. unfold bind at 1.
    pose proof (fetchNotionPage_related (page_id page) w) as H1.
    destruct (Backfill.fetchNotionPage (page_id page) w) as [[currentPage|e] w1];
      simpl in H1.
    2: { unfold ret. eapply related_trans; [exact H1 | now apply IH]. }
    unfold bind at 1.
    pose proof (updateNotionTags_related (page_id page)
                  (Backfill.multi_select currentPage) w1 Hpage) as H2.
    destruct (Backfill.updateNotionTags _ _ w1) as [[wasTagged|e] w2]; simpl in H2.
    2: { unfold ret. eapply related_trans; [exact H1|].
         eapply related_trans; [exact H2 | now apply IH]. }
    unfold bind, sleep, ret.
    eapply related_trans; [exact H1|]. eapply related_trans; [exact H2|].
    eapply related_trans; [apply related_sleep | now apply IH].
Qed.

Lemma tagGroups_related nameMap c w :
  (forall pageId, In pageId (duplicated_ids nameMap) -> may_patch pageId) ->
  related w (snd (Backfill.tagGroups nameMap c w)).
Proof.
  revert c w. induction nameMap as [|[name pages] rest IH]; intros c w Hok; simpl.
  - apply related_refl.
  - unfold duplicated_ids in Hok. simpl in Hok.
    assert (Hrest : forall pageId, In pageId (duplicated_ids rest) -> may_patch pageId)
      by (intros pageId Hin; apply Hok, in_or_app; now right).
    destruct (List.length pages <=? 1); [now apply IH|].
    assert (Hpages : forall page, In page pages -> may_patch (page_id page))
      by (intros page Hin; apply Hok, in_or_app; left; now apply in_map).
    unfold bind.
    match goal with |- context [Backfill.tagPages pages ?c0 w] =>
      pose proof (tagPages_related pages c0 w Hpages) as H;
      destruct (Backfill.tagPages pages c0 w) as [[c'|e] w1] end; simpl in H;
      [|exact H].
    eapply related_trans; [exact H | now apply IH].
Qed.

Lemma fetchAllPages_loop_related fuel allPages cursor w :
  related w (snd (Backfill.fetchAllPages_loop fuel allPages cursor w)).
Proof.
  revert allPages cursor w. induction fuel as [|fuel IH]; intros allPages cursor w; simpl.
  - apply related_refl.
  - unfold bind at 1.
    pose proof (queryNotionDatabase_related cursor Backfill.BATCH_SIZE w) as H.
    destruct (Backfill.queryNotionDatabase cursor Backfill.BATCH_SIZE w)
      as [[r|e] w1]; simpl in H; [|exact H].
    destruct (next_cursor r); [|exact H].
    unfold bind, sleep. eapply related_trans; [exact H|].
    eapply related_trans; [apply related_sleep | apply IH].
Qed.

Lemma main_related w :
  (forall pageId,
      In pageId (duplicated_ids (Backfill.buildDuplicateMap (notion_pages w))) ->
      may_patch pageId) ->
  related w (snd (Backfill.main w)).
Proof.
  intros Hok. unfold Backfill.main.
  destruct (negb (NOTION_DATABASE_ID w)); [apply related_refl|].
  destruct (negb (NOTION_TOKEN w)); [apply related_refl|].
  unfold try_catch. unfold bind at 1.
  pose proof (fetchAllPages_loop_related (S (List.length (notion_pages w))) [] None w)
    as H1.
  fold (Backfill.fetchAllPages w) in H1.
  destruct (Backfill.fetchAllPages w) as [[allPages|e] w1] eqn:E; simpl in H1;
    [|exact H1].
  apply fetchAllPages_all in E as [-> Hpages].
  unfold bind, Backfill.tagDuplicates.
  match goal with |- context [Backfill.tagGroups ?m ?c0 w1] =>
    pose proof (tagGroups_related m c0 w1 Hok) as H2;
    destruct (Backfill.tagGroups m c0 w1) as [[counts|e] w2] end; simpl in H2;
    simpl; eapply related_trans; eauto.
Qed.

End StoreRelation.

(** *** What the duplicate map holds *)

Lemma has_key_iff k p : has_key k p = true <-> key_of p = Some k.
Proof.
  unfold has_key. destruct (key_of p) as [k'|]; [|split; discriminate].
  rewrite jsstring_eqb_eq. split; congruence.
Qed.

Lemma buildDuplicateMap_step nameMap page :
  (if falsy_text (Backfill.plain_text page) then nameMap
   else match Backfill.plain_text page with
        | Some name => Backfill.push_page (Backfill.normalizeName name) page nameMap
        | None => nameMap
        end)
  = match key_of page with
    | Some k => Backfill.push_page k page nameMap
    | None => nameMap
    end.
Proof.
  unfold key_of. now destruct (Backfill.plain_text page) as [[|c name]|].
Qed.

Lemma push_page_split k0 page nameMap :
  (~ In k0 (map fst nameMap)
   /\ Backfill.push_page k0 page nameMap = nameMap ++ [(k0, [page])])
  \/ (exists before g after,
        nameMap = before ++ (k0, g) :: after
        /\ Backfill.push_page k0 page nameMap = before ++ (k0, g ++ [page]) :: after).
Proof.
  induction nameMap as [|[k g] rest IH]; simpl.
  - left. split; [tauto | reflexivity].
  - destruct (jsstring_eqb k k0) eqn:E.
    + apply jsstring_eqb_eq in E. subst k. right. now exists [], g, rest.
    + destruct IH as [[Hnot ->]|(before & g0 & after & -> & ->)].
      * left. split; [|reflexivity]. intros [->|H]; [|contradiction].
        rewrite jsstring_eqb_refl in E. discriminate.
      * right. now exists ((k, g) :: before), g0, after.
Qed.

Lemma filter_none {A} (f : A -> bool) l :
  (forall x, In x l -> f x = false) -> filter f l = [].
Proof.
  induction l as [|x l IH]; simpl; intros H; [reflexivity|].
  rewrite (H x) by now left. apply IH. intros y Hy. apply H. now right.
Qed.

Lemma filter_snoc {A} (f : A -> bool) l x :
  filter f (l ++ [x]) = filter f l ++ (if f x then [x] else []).
Proof. rewrite filter_app. simpl. now destruct (f x). Qed.

Lemma has_key_other k k0 page :
  key_of page = Some k0 -> k <> k0 -> has_key k page = false.
Proof.
  intros Hk Hne. destruct (has_key k page) eqn:E; [|reflexivity].
  apply has_key_iff in E. congruence.
Qed.

Lemma push_page_grouped k0 page nameMap seen :
  key_of page = Some k0 ->
  grouped nameMap seen ->
  grouped (Backfill.push_page k0 page nameMap) (seen ++ [page]).
Proof.
  intros Hkey (Hnd & Hgroups & Hkeys).
  assert (Hself : has_key k0 page = true) by now apply has_key_iff.
  destruct (push_page_split k0 page nameMap)
    as [[Hnot ->]|(before & g0 & after & -> & ->)].
  - repeat split.
    + rewrite map_app. simpl. apply NoDup_app; [exact Hnd | repeat constructor; auto|].
      intros k Hk [<-|[]]. contradiction.
    + intros k g Hin. apply in_app_or in Hin as [Hin|[[= <- <-]|[]]].
      * rewrite filter_snoc, (has_key_other k k0), app_nil_r; auto.
        intros ->. apply Hnot. apply in_map_iff. now exists (k0, g).
      * rewrite filter_snoc, Hself. rewrite filter_none; [reflexivity|].
        intros q Hq. destruct (has_key k0 q) eqn:E; [|reflexivity].
        apply has_key_iff in E. exfalso. eauto.
    + intros q k Hq Hk. rewrite map_app. apply in_or_app.
      apply in_app_or in Hq as [Hq|[<-|[]]]; [left; eauto|].
      right. left. simpl. congruence.
  - assert (Hfst : map fst (before ++ (k0, g0 ++ [page]) :: after)
                   = map fst (before ++ (k0, g0) :: after))
      by (rewrite !map_app; reflexivity).
    repeat split.
    + now rewrite Hfst.
    + intros k g Hin.
      assert (Hcases : (k = k0 /\ g = g0 ++ [page])
                       \/ (k <> k0 /\ In (k, g) (before ++ (k0, g0) :: after))).
      { rewrite map_app in Hnd. simpl in Hnd. apply NoDup_remove_2 in Hnd.
        apply in_app_or in Hin as [Hin|[[= <- <-]|Hin]]; [right|now left|right].
        - split; [|apply in_or_app; now left].
          intros ->. apply Hnd, in_or_app. left. apply in_map_iff. now exists (k0, g).
        - split; [|apply in_or_app; right; now right].
          intros ->. apply Hnd, in_or_app. right. apply in_map_iff. now exists (k0, g). }
      destruct Hcases as [[-> ->]|[Hne Hold]].
      * rewrite filter_snoc, Hself. f_equal. apply Hgroups, in_or_app. right. now left.
      * rewrite filter_snoc, (has_key_other k k0), app_nil_r; auto.
    + intros q k Hq Hk. rewrite Hfst.
      apply in_app_or in Hq as [Hq|[<-|[]]]; [eauto|].
      assert (k = k0) as -> by congruence.
      rewrite map_app. apply in_or_app. right. now left.
Qed.

Lemma buildDuplicateMap_grouped pages :
  grouped (Backfill.buildDuplicateMap pages) pages.
Proof.
  unfold Backfill.buildDuplicateMap.
  assert (H : forall todo nameMap seen,
             grouped nameMap seen ->
             grouped (fold_left
                        (fun nameMap page =>
                           if falsy_text (Backfill.plain_text page) then nameMap
                           else match Backfill.plain_text page with
                                | Some name =>
                                    Backfill.push_page (Backfill.normalizeName name)
                                      page nameMap
                                | None => nameMap
                                end)
                        todo nameMap)
                     (seen ++ todo)).
  { induction todo as [|page todo IH]; intros nameMap seen Hg; simpl.
    - now rewrite app_nil_r.
    - replace (seen ++ page :: todo) with ((seen ++ [page]) ++ todo)
        by (rewrite <- app_assoc; reflexivity).
      apply IH. rewrite buildDuplicateMap_step.
      destruct (key_of page) as [k0|] eqn:Hkey; [now apply push_page_grouped|].
      destruct Hg as (Hnd & Hgroups & Hkeys). repeat split; [exact Hnd | |].
      + intros k g Hin. rewrite filter_snoc.
        assert (has_key k page = false) as ->.
        { destruct (has_key k page) eqn:E; [|reflexivity].
          apply has_key_iff in E. congruence. }
        rewrite app_nil_r. now apply Hgroups.
      + intros q k Hq Hk. apply in_app_or in Hq as [Hq|[<-|[]]]; [eauto | congruence]. }
  apply (H pages [] []). repeat split; [constructor | intros k g [] | intros q k []].
Qed.

(** A record alone in its group is in no group of two or more. *)
Lemma alone_not_duplicated pages p :
  NoDup (map page_id pages) ->
  In p pages ->
  List.length (group_of p pages) = 1 ->
  ~ In (page_id p) (duplicated_ids (Backfill.buildDuplicateMap pages)).
Proof.
  intros Hnd Hp Halone Hin.
  destruct (buildDuplicateMap_grouped pages) as (_ & Hgroups & _).
  unfold duplicated_ids in Hin. apply in_flat_map in Hin as ([k g] & Hg & Hin).
  simpl in Hin. destruct (List.length g <=? 1) eqn:Elen; [contradiction|].
  apply Nat.leb_gt in Elen. apply in_map_iff in Hin as (q & Hid & Hq).
  pose proof (Hgroups k g Hg) as ->. apply filter_In in Hq as [Hq Hkey].
  assert (q = p) as ->.
  { clear - Hnd Hp Hq Hid. induction pages as [|x l IH]; [contradiction|].
    simpl in Hnd. inversion Hnd as [|? ? Hnot Hnd']; subst.
    destruct Hp as [->|Hp], Hq as [->|Hq]; auto.
    - exfalso. apply Hnot. rewrite <- Hid. now apply in_map.
    - exfalso. apply Hnot. rewrite Hid. now apply in_map. }
  apply has_key_iff in Hkey. unfold group_of in Halone. rewrite Hkey in Halone. lia.
Qed.

(** *** The two relations *)

Lemma keeps_tag_refl p : keeps_tag p p.
Proof. now repeat split. Qed.

Lemma Forall2_keeps_tag_refl l : Forall2 keeps_tag l l.
Proof. induction l; constructor; auto using keeps_tag_refl. Qed.

Lemma Forall2_keeps_tag_trans l1 l2 l3 :
  Forall2 keeps_tag l1 l2 -> Forall2 keeps_tag l2 l3 -> Forall2 keeps_tag l1 l3.
Proof.
  intros H. revert l3. induction H as [|p p1 l1 l2 Hp Hl IH]; intros l3 H3.
  - exact H3.
  - inversion H3 as [|p1' p2 l2' l3' Hp2 Hl2]; subst. constructor; [|now apply IH].
    destruct Hp as (a & b & c), Hp2 as (a' & b' & c'). repeat split; try congruence; auto.
Qed.

Lemma Forall2_keeps_tag_patch pageId tags l :
  Forall2 keeps_tag l
    (map (set_flag pageId (MultiSelectFlag (tags ++ [js "Duplicate"]))) l).
Proof.
  induction l as [|p l IH]; simpl; constructor; [|exact IH].
  unfold set_flag. destruct (String.eqb (page_id p) pageId); [|apply keeps_tag_refl].
  repeat split. intros _. unfold carries_duplicate. simpl. apply hasDuplicateTag_added.
Qed.

Lemma Forall2_keeps_tag_In l l1 p :
  Forall2 keeps_tag l l1 ->
  In p l ->
  carries_duplicate p = true ->
  exists p1, In p1 l1 /\ page_id p1 = page_id p /\ title p1 = title p
             /\ carries_duplicate p1 = true.
Proof.
  induction 1 as [|q q1 l l1 Hq Hl IH]; intros Hin Hc; [contradiction|].
  destruct Hin as [->|Hin].
  - exists q1. destruct Hq as (a & b & c). repeat split; auto. now left.
  - destruct (IH Hin Hc) as (p1 & H1 & H2). exists p1. split; [now right | exact H2].
Qed.

Lemma main_untouched w :
  untouched (duplicated_ids (Backfill.buildDuplicateMap (notion_pages w)))
    w (snd (Backfill.main w)).
Proof.
  set (ids := duplicated_ids (Backfill.buildDuplicateMap (notion_pages w))).
  unfold untouched.
  apply (main_related
           (fun l l1 => forall p, In p l -> ~ In (page_id p) ids -> In p l1)
           (fun pageId => In pageId ids)).
  - auto.
  - intros l1 l2 l3 H1 H2 p Hp Hid. auto.
  - intros pageId tags l Hok p Hp Hid.
    assert (set_flag pageId (MultiSelectFlag (tags ++ [js "Duplicate"])) p = p) as <-.
    { unfold set_flag. destruct (String.eqb (page_id p) pageId) eqn:E; [|reflexivity].
      apply String.eqb_eq in E. congruence. }
    now apply in_map.
  - auto.
Qed.

(** C1, as implemented. A run of the backfill has no cleanup phase and
    never removes the duplicate tag.  After [main], whatever the failures
    of the API, the database holds the same records in the same order,
    each with its id and title, and every record that carried the tag
    before the run carries it after.  A record that is alone in its group
    (ids being distinct) is not patched at all: it is in the database
    exactly as it was, so that a record that is tagged although no other
    record shares its normalized name is still tagged. *)
Theorem backfill_keeps_tags (w : World) :
  Forall2 keeps_tag (notion_pages w) (notion_pages (snd (Backfill.main w)))
  /\ (forall p,
        In p (notion_pages w) ->
        carries_duplicate p = true ->
        exists p1,
          In p1 (notion_pages (snd (Backfill.main w)))
          /\ page_id p1 = page_id p /\ title p1 = title p
          /\ carries_duplicate p1 = true)
  /\ (forall p,
        NoDup (map page_id (notion_pages w)) ->
        In p (notion_pages w) ->
        List.length (group_of p (notion_pages w)) = 1 ->
        In p (notion_pages (snd (Backfill.main w)))).
Proof.
  assert (H : Forall2 keeps_tag (notion_pages w) (notion_pages (snd (Backfill.main w)))).
  { apply (main_related (Forall2 keeps_tag) (fun _ => True)).
    - apply Forall2_keeps_tag_refl.
    - apply Forall2_keeps_tag_trans.
    - intros pageId tags l _. apply Forall2_keeps_tag_patch.
    - trivial. }
  split; [exact H|]. split.
  - intros p. now apply Forall2_keeps_tag_In.
  - intros p Hnd Hp Halone. apply (main_untouched w p Hp).
    now apply alone_not_duplicated.
Qed.

End Reconciler.

(** * Runs on the sample worlds *)

Lemma normalizeName_case_whitespace_witness :
  forallb isWhiteSpace (js "  ") = true
  /\ forallb isWhiteSpace (js " ") = true
  /\ @Webhook.normalizeName ascii_tables (js "  " ++ js "Acme" ++ js " ")
     = @Webhook.normalizeName ascii_tables (js "Acme").
Proof.
  split; [reflexivity|]. split; [reflexivity|].
  apply (proj1 (proj2 (proj2 (proj2 (@normalizeName_case_whitespace ascii_tables)))));
    reflexivity.
Defined.

Lemma retryWithBackoff_policy_witness :
  fst (Webhook.retryWithBackoff (sqlite_execute SqlCountNames (fun w => (Ok tt, w)))
         3 1000 flaky_store_world)
  = Throw (Error "disk I/O error")
  /\ sleeps (snd (Webhook.retryWithBackoff
                    (sqlite_execute SqlCountNames (fun w => (Ok tt, w)))
                    3 1000 flaky_store_world))
     = [1000%Z].
Proof.
  pose (fn := sqlite_execute SqlCountNames (fun w => (@Ok unit tt, w))).
  pose (w1 := snd (fn flaky_store_world)).
  assert (Hw : waited_on fn 1000 0 flaky_store_world
                 [Error "429 Too Many Requests"] (add_sleep 1000 w1)).
  { apply (waited_more fn 1000 0 flaky_store_world (Error "429 Too Many Requests") w1);
      [reflexivity | constructor]. }
  assert (Hes : Forall (fun e => rate_limit_signal e = true)
                  [Error "429 Too Many Requests"])
    by (constructor; [reflexivity | constructor]).
  assert (Hlt : List.length [Error "429 Too Many Requests"] < 3) by (simpl; lia).
  pose proof (proj1 (proj1 (@retryWithBackoff_policy unit) fn 3 1000%Z flaky_store_world
                       [Error "429 Too Many Requests"] (add_sleep 1000 w1) Hw Hes)
                Hlt eq_refl) as H.
  unfold fn in H. rewrite H. split; reflexivity.
Defined.

(** C3, counterexample. The PATCH of the backfill is answered 500: the
    failure carries no rate-limit signal, and yet [retryWithBackoff] waits
    1000 ms, sends the request again and succeeds. *)
Lemma backfill_retries_server_error :
  fst (Backfill.patchTags "1" [js "Duplicate"] failing_api_world)
  = Throw (Error "Failed to update Notion page 1: 500 Internal server error")
  /\ rate_limit_signal
       (Error "Failed to update Notion page 1: 500 Internal server error") = false
  /\ fst (Backfill.retryWithBackoff (Backfill.patchTags "1" [js "Duplicate"])
            3 1000 failing_api_world) = Ok tt
  /\ sleeps (snd (Backfill.retryWithBackoff (Backfill.patchTags "1" [js "Duplicate"])
                    3 1000 failing_api_world)) = [1000%Z]
  /\ List.length
       (calls (snd (Backfill.retryWithBackoff (Backfill.patchTags "1" [js "Duplicate"])
                      3 1000 failing_api_world))) = 2.
Proof. repeat split; vm_compute; reflexivity. Qed.

Lemma insert_twice_witness :
  sqlite_faults empty_world = []
  /\ index_unique (name_index empty_world)
  /\ fst (@IndexBuilder.insertIntoIndex ascii_tables (js "Acme") "1"
            (snd (@IndexBuilder.insertIntoIndex ascii_tables (js "Acme") "1" empty_world)))
     = Ok false.
Proof.
  assert (Hu : index_unique (name_index empty_world)) by constructor.
  split; [reflexivity|]. split; [exact Hu|].
  apply (proj1 (@insert_twice ascii_tables (js "Acme") "1" empty_world) eq_refl Hu
           (fst (@IndexBuilder.insertIntoIndex ascii_tables (js "Acme") "1" empty_world))
           (snd (@IndexBuilder.insertIntoIndex ascii_tables (js "Acme") "1" empty_world))
           (fst (@IndexBuilder.insertIntoIndex ascii_tables (js "Acme") "1"
                   (snd (@IndexBuilder.insertIntoIndex ascii_tables (js "Acme") "1"
                           empty_world))))
           (snd (@IndexBuilder.insertIntoIndex ascii_tables (js "Acme") "1"
                   (snd (@IndexBuilder.insertIntoIndex ascii_tables (js "Acme") "1"
                           empty_world)))));
    apply surjective_pairing.
Defined.

(** C5, counterexample. [insertNameIndex] answers the second insert of a
    record as it answered the first, which stored the row: with nothing,
    not with [false]. *)
Lemma insertNameIndex_answers_alike :
  name_index (snd (@Webhook.insertNameIndex ascii_tables (js "Acme") "1" empty_world))
  = [{| row_name := js "acme"; notion_page_id := "1" |}]
  /\ fst (@Webhook.insertNameIndex ascii_tables (js "Acme") "1" empty_world) = Ok tt
  /\ fst (@Webhook.insertNameIndex ascii_tables (js "Acme") "1"
            (snd (@Webhook.insertNameIndex ascii_tables (js "Acme") "1" empty_world)))
     = Ok tt
  /\ name_index
       (snd (@Webhook.insertNameIndex ascii_tables (js "Acme") "1"
               (snd (@Webhook.insertNameIndex ascii_tables (js "Acme") "1" empty_world))))
     = [{| row_name := js "acme"; notion_page_id := "1" |}].
Proof. repeat split. Qed.



Lemma handler_method_not_allowed_witness :
  Webhook.method get_request <> "POST"
  /\ @Webhook.handler ascii_tables get_request webhook_world
     = ({| Webhook.status := 405; Webhook.payload := Webhook.MethodNotAllowed |},
        webhook_world).
Proof.
  assert (H : Webhook.method get_request <> "POST") by discriminate.
  split; [exact H|].
  apply (proj1 (@handler_method_not_allowed ascii_tables get_request webhook_world) H).
Defined.

Lemma handler_skips_missing_name_witness :
  Webhook.method nameless_delivery = "POST"
  /\ nameless nameless_delivery
  /\ snd (@Webhook.handler ascii_tables nameless_delivery webhook_world) = webhook_world
  /\ Webhook.success
       (Webhook.payload (fst (@Webhook.handler ascii_tables nameless_delivery webhook_world)))
     = Some false.
Proof.
  split; [reflexivity|]. split; [reflexivity|].
  pose proof (@handler_skips_missing_name ascii_tables nameless_delivery webhook_world
                eq_refl eq_refl) as (Hworld & _ & Hsuccess & _).
  split; [exact Hworld | exact Hsuccess].
Defined.

(** C6, counterexample. A POST whose JSON body is [null] brings no name;
    the handler answers it with [success = false] and the message of the
    TypeError, and the body has no [skipped] member. *)
Lemma handler_null_body_not_skipped :
  Webhook.method null_delivery = "POST"
  /\ nameless null_delivery
  /\ @Webhook.handler ascii_tables null_delivery webhook_world
     = ({| Webhook.status := 200;
           Webhook.payload :=
             Webhook.InternalError
               (Some "Cannot read properties of null (reading 'data')") |},
        webhook_world)
  /\ Webhook.skipped
       (Webhook.payload (fst (@Webhook.handler ascii_tables null_delivery webhook_world)))
     = None.
Proof. repeat split. Qed.

(** C2, counterexample. "acme" is indexed for page 1 and page 2 arrives
    with the same name, so the lookup finds another match; the request
    that fetches the tag state of page 2 is answered 500.  The handler
    acknowledges with [success = false], and page 2 is not in the index:
    no INSERT was sent. *)
Lemma handler_skips_insert_when_own_fetch_fails :
  fst (Webhook.findDuplicatePages
         (@Webhook.normalizeName ascii_tables (js "acme"))
         (set_http_faults [HttpStatus 500 "Internal server error"] webhook_world))
  = Ok ["1"]
  /\ fst (@Webhook.handler ascii_tables acme_delivery
            (set_http_faults [HttpStatus 500 "Internal server error"] webhook_world))
     = {| Webhook.status := 200;
          Webhook.payload :=
            Webhook.InternalError
              (Some "Failed to fetch Notion page 2: 500 Internal server error") |}
  /\ name_index
       (snd (@Webhook.handler ascii_tables acme_delivery
               (set_http_faults [HttpStatus 500 "Internal server error"] webhook_world)))
     = [{| row_name := js "acme"; notion_page_id := "1" |}]
  /\ calls
       (snd (@Webhook.handler ascii_tables acme_delivery
               (set_http_faults [HttpStatus 500 "Internal server error"] webhook_world)))
     = [HttpGetPage "2"; SqlSelectName (js "acme")].
Proof. repeat split; vm_compute; reflexivity. Qed.

Lemma handler_inserts_after_tagging_witness :
  has_page_id "2"
    (name_index
       (snd (@Webhook.handler ascii_tables acme_delivery
               (set_http_faults [HttpServes; HttpServes; HttpStatus 500 "down"]
                  webhook_world)))) = true.
Proof.
  pose (w := set_http_faults [HttpServes; HttpServes; HttpStatus 500 "down"] webhook_world).
  pose (r1 := Webhook.findDuplicatePages (@Webhook.normalizeName ascii_tables (js "acme")) w).
  pose proof (@handler_inserts_after_tagging ascii_tables acme_delivery w
                (Webhook.Plain {| Webhook.pageData_id := Some "2";
                                  Webhook.pageData_title := [js "acme"] |})
                "2" (js "acme") [] ["1"] (snd r1)
                eq_refl eq_refl eq_refl ltac:(discriminate) ltac:(discriminate)
                eq_refl ltac:(discriminate))
    as H.
  change (Webhook.fetchNotionPage "2" (snd r1))
    with (Ok {| page_id := "2"; title := [js "acme"]; duplicate_flag := SelectFlag None |},
          snd (Webhook.fetchNotionPage "2" (snd r1))) in H.
  cbv iota beta in H.
  change (@Webhook.updateNotionTags ascii_tables "2"
            (Webhook.select {| page_id := "2"; title := [js "acme"];
                               duplicate_flag := SelectFlag None |})
            (snd (Webhook.fetchNotionPage "2" (snd r1))))
    with (Ok tt,
          snd (@Webhook.updateNotionTags ascii_tables "2" None
                 (snd (Webhook.fetchNotionPage "2" (snd r1))))) in H.
  cbv iota beta in H.
  destruct H as (w4 & _ & _ & _ & H).
  exact (proj1 (H eq_refl)).
Defined.

Lemma indexBuilder_completed_is_terminal_witness :
  index_builder_progress completed_world
  = Some {| last_cursor := None; total_indexed := 3; completed := true |}
  /\ fst (@IndexBuilder.indexBuilder ascii_tables 0 [10; 20; 30]%Z completed_world)
     = IndexBuilder.AlreadyCompleted 3.
Proof.
  split; [reflexivity|].
  apply (proj2 (proj2 (proj2 (@indexBuilder_completed_is_terminal ascii_tables 0%Z
                         [10; 20; 30]%Z completed_world
                         {| last_cursor := None; total_indexed := 3; completed := true |}
                         eq_refl eq_refl)))).
  reflexivity.
Defined.

Lemma total_indexed_never_decreases_witness :
  progress_tracked backfill_world
  /\ never_decreased (progress_history backfill_world)
  /\ never_decreased
       (progress_history
          (@scanner_runs ascii_tables
             [{| startTime := 0; clock := [10; 20; 30; 40]%Z; store_faults := [];
                 api_faults := [] |};
              {| startTime := 100; clock := [110]%Z; store_faults := [];
                 api_faults := [] |}]
             backfill_world)).
Proof.
  assert (Ht : progress_tracked backfill_world) by exact I.
  assert (Hn : never_decreased (progress_history backfill_world)) by exact I.
  split; [exact Ht|]. split; [exact Hn|].
  apply (@total_indexed_never_decreases ascii_tables _ backfill_world Ht Hn).
Defined.

(** C1, counterexample. Record 5 carries the tag and no other record
    shares its name: it is alone in its group.  The run completes, tagging
    records 1 and 2, and record 5 is exactly as it was, tag included. *)
Lemma backfill_leaves_false_positive_tagged :
  @Backfill.buildDuplicateMap ascii_tables (notion_pages backfill_world)
  = [(js "acme", [acme1; acme2]); (js "solo", [solo5])]
  /\ @carries_duplicate ascii_tables solo5 = true
  /\ fst (@Backfill.main ascii_tables backfill_world)
     = Ok (Backfill.Finished 3
             {| Backfill.totalDuplicates := 2; Backfill.tagged := 2;
                Backfill.skipped := 0; Backfill.processed := 2 |})
  /\ find_page "5" (notion_pages (snd (@Backfill.main ascii_tables backfill_world)))
     = Some solo5.
Proof. repeat split; vm_compute; reflexivity. Qed.

Lemma backfill_keeps_tags_witness :
  NoDup (map page_id (notion_pages backfill_world))
  /\ In solo5 (notion_pages backfill_world)
  /\ List.length (@group_of ascii_tables solo5 (notion_pages backfill_world)) = 1
  /\ @carries_duplicate ascii_tables solo5 = true
  /\ In solo5 (notion_pages (snd (@Backfill.main ascii_tables backfill_world))).
Proof.
  assert (Hnd : NoDup (map page_id (notion_pages backfill_world))).
  { simpl. repeat constructor; simpl; intuition discriminate. }
  assert (Hin : In solo5 (notion_pages backfill_world)) by (simpl; auto).
  split; [exact Hnd|]. split; [exact Hin|]. split; [reflexivity|].
  split; [reflexivity|].
  apply (proj2 (proj2 (@backfill_keeps_tags ascii_tables backfill_world))
           solo5 Hnd Hin eq_refl).
Defined.

(** * Further properties of the scripts *)

(** ** Keys *)

Lemma trimStart_idempotent (s : jsstring) : trimStart (trimStart s) = trimStart s.
Proof.
  induction s as [|c s IH]; simpl; [reflexivity|].
  destruct (isWhiteSpace c) eqn:E; [exact IH|]. simpl. now rewrite E.
Qed.

Lemma trimStart_suffix (s : jsstring) :
  exists pre, s = pre ++ trimStart s /\ forallb isWhiteSpace pre = true.
Proof.
  induction s as [|c s (pre & Hs & Hpre)]; simpl.
  - now exists [].
  - destruct (isWhiteSpace c) eqn:E.
    + exists (c :: pre). simpl. rewrite E, Hpre. split; [now f_equal | reflexivity].
    + now exists [].
Qed.

Lemma trimEnd_prefix (s : jsstring) :
  exists post, s = trimEnd s ++ post /\ forallb isWhiteSpace post = true.
Proof.
  unfold trimEnd. destruct (trimStart_suffix (rev s)) as (pre & Hs & Hpre).
  exists (rev pre). split.
  - rewrite <- rev_app_distr, <- Hs. now rewrite rev_involutive.
  - rewrite forallb_forall in *. intros c Hc. apply Hpre. now apply in_rev.
Qed.

Lemma trimStart_fixed_prefix (a b : jsstring) :
  trimStart (a ++ b) = a ++ b -> trimStart a = a.
Proof.
  destruct a as [|c a]; simpl; [reflexivity|].
  destruct (isWhiteSpace c); [|reflexivity].
  intros H. exfalso.
  destruct (trimStart_suffix (a ++ b)) as (pre & Hs & _).
  apply (f_equal (@List.length N)) in H. rewrite Hs in H at 2.
  simpl in H. rewrite length_app in H. lia.
Qed.

Lemma trim_trimmed (s : jsstring) :
  trimStart (trim s) = trim s /\ trimEnd (trim s) = trim s.
Proof.
  unfold trim. split.
  - destruct (trimEnd_prefix (trimStart s)) as (post & Hs & _).
    apply (trimStart_fixed_prefix _ post). rewrite <- Hs. apply trimStart_idempotent.
  - unfold trimEnd. now rewrite rev_involutive, trimStart_idempotent.
Qed.

Lemma trim_idempotent (s : jsstring) : trim (trim s) = trim s.
Proof.
  destruct (trim_trimmed s) as [H1 H2]. unfold trim at 1. now rewrite H1, H2.
Qed.

Lemma map_asciiLower_idempotent (s : jsstring) :
  map asciiLower (map asciiLower s) = map asciiLower s.
Proof. rewrite map_map. apply map_ext. intros c. apply asciiLower_lower. Qed.

Lemma map_asciiLower_ascii (s : jsstring) :
  forallb isAscii s = true -> forallb isAscii (map asciiLower s) = true.
Proof.
  rewrite !forallb_forall. intros H c Hc.
  apply in_map_iff in Hc as (x & <- & Hx). now apply asciiLower_ascii, H.
Qed.

Section Keys.
Context {U : UnicodeTables}.

Lemma normalizeName_ascii (name : jsstring) :
  forallb isAscii name = true ->
  Webhook.normalizeName name = map asciiLower (trim name).
Proof.
  intros H. unfold Webhook.normalizeName, toLowerCase. now rewrite trim_ascii.
Qed.

(** X1. On a name made of ASCII code units, [normalizeName] yields a
    canonical key: normalizing the key again changes nothing, the key has
    no white space at either end and no upper-case letter left. *)
Theorem normalizeName_canonical (name : jsstring) :
  forallb isAscii name = true ->
  Webhook.normalizeName (Webhook.normalizeName name) = Webhook.normalizeName name
  /\ trim (Webhook.normalizeName name) = Webhook.normalizeName name
  /\ map asciiLower (Webhook.normalizeName name) = Webhook.normalizeName name
  /\ forallb isAscii (Webhook.normalizeName name) = true.
Proof.
  intros H. rewrite (normalizeName_ascii name H).
  assert (Hk : forallb isAscii (map asciiLower (trim name)) = true)
    by now apply map_asciiLower_ascii, trim_ascii.
  assert (Htrim : trim (map asciiLower (trim name)) = map asciiLower (trim name)).
  { rewrite trim_map, trim_idempotent; [reflexivity|].
    apply Forall_forall. intros c Hc. apply asciiLower_whitespace.
    pose proof (trim_ascii name H) as Ht. rewrite forallb_forall in Ht. now apply Ht. }
  repeat split; auto using map_asciiLower_idempotent.
  rewrite (normalizeName_ascii _ Hk), Htrim. apply map_asciiLower_idempotent.
Qed.

(** X2. On the keys of ASCII names without NUL the NOCASE comparison
    of the index column is plain equality: the collation never merges two
    such keys that [normalizeName] tells apart.  (The comparison stops at
    the first NUL, so names with a NUL are left out.) *)
Theorem nocase_agrees_on_keys (a b : jsstring) :
  forallb isAscii a = true ->
  forallb isAscii b = true ->
  nul_free a = true ->
  nul_free b = true ->
  nocase_eqb (Webhook.normalizeName a) (Webhook.normalizeName b) = true
  <-> Webhook.normalizeName a = Webhook.normalizeName b.
Proof.
  intros Ha Hb Hna Hnb.
  rewrite nocase_eqb_plain by now apply normalizeName_plain.
  apply jsstring_eqb_eq.
Qed.

End Keys.

(** ** Retries, as the callers see them *)

Lemma backoff_cons d i k :
  backoff d i (S k) = (d * 2 ^ Z.of_nat i)%Z :: backoff d (S i) k.
Proof. reflexivity. Qed.

(** Failures of the store that the loop retries, fewer than [maxRetries]
    of them, followed by an answer: the statement is run once, after one
    wait per failure. *)
Lemma retry_sqlite_absorbs {A} (retryable : JsError -> bool) (c : Call)
    (run : World -> Result A * World) (d : Z) :
  (forall w e w1, run w = (Throw e, w1) -> retryable e = false) ->
  forall es later n i lastError w,
    sqlite_faults w = map Some es ++ later ->
    Forall (fun e => retryable e = true) es ->
    List.length es < n ->
    store_answers later ->
    exists w1,
      retry_loop retryable (sqlite_execute c run) d n i lastError w = run w1
      /\ same_data w w1
      /\ http_faults w1 = http_faults w
      /\ sqlite_faults w1 = tl later
      /\ sleeps w1 = rev (backoff d i (List.length es)) ++ sleeps w
      /\ calls w1 = repeat c (S (List.length es)) ++ calls w.
Proof.
  intros Hrun.
  induction es as [|e es IH]; intros later n i lastError w Hf Hall Hlen Hans.
  - destruct n as [|n]; [simpl in Hlen; lia|]. simpl in Hf.
    simpl retry_loop. unfold try_catch, sqlite_execute. simpl. rewrite Hf.
    destruct Hans as [->|[rest ->]].
    + exists (log_call c w). split; [|repeat split; simpl; auto].
      destruct (run (log_call c w)) as [[a|e] w1] eqn:E; [reflexivity|].
      now rewrite (Hrun _ _ _ E).
    + exists (set_sqlite_faults rest (log_call c w)).
      split; [|repeat split; simpl; auto].
      destruct (run _) as [[a|e] w1] eqn:E; [reflexivity|].
      now rewrite (Hrun _ _ _ E).
  - destruct n as [|n]; [simpl in Hlen; lia|]. simpl in Hf, Hlen.
    inversion Hall as [|? ? He Hall']; subst.
    rewrite (retry_loop_again retryable _ d n i lastError w e
               (set_sqlite_faults (map Some es ++ later) (log_call c w)));
      [|now apply sqlite_execute_failed | exact He].
    destruct (IH later n (S i) e
                (add_sleep (d * 2 ^ Z.of_nat i)
                   (set_sqlite_faults (map Some es ++ later) (log_call c w))))
      as (w1 & Hrun1 & Hdata & Hhttp & Hsql & Hsleeps & Hcalls);
      [reflexivity | exact Hall' | lia | exact Hans|].
    exists w1. split; [exact Hrun1|]. split; [exact Hdata|].
    split; [exact Hhttp|]. split; [exact Hsql|]. split.
    + rewrite Hsleeps. simpl List.length. rewrite backoff_cons.
      simpl. now rewrite <- app_assoc.
    + rewrite Hcalls. simpl calls. now rewrite repeat_snoc.
Qed.

(** Failures that the loop retries on every one of its attempts. *)
Lemma retry_sqlite_exhausts {A} (retryable : JsError -> bool) (c : Call)
    (run : World -> Result A * World) (d : Z) :
  forall es later i lastError w,
    sqlite_faults w = map Some es ++ later ->
    Forall (fun e => retryable e = true) es ->
    exists w1,
      retry_loop retryable (sqlite_execute c run) d (List.length es) i lastError w
      = (Throw (last es lastError), w1)
      /\ same_data w w1
      /\ http_faults w1 = http_faults w
      /\ sqlite_faults w1 = later
      /\ sleeps w1 = rev (backoff d i (List.length es)) ++ sleeps w
      /\ calls w1 = repeat c (List.length es) ++ calls w.
Proof.
  induction es as [|e es IH]; intros later i lastError w Hf Hall.
  - exists w. simpl in *. repeat split. exact Hf.
  - simpl in Hf. inversion Hall as [|? ? He Hall']; subst. simpl List.length.
    rewrite (retry_loop_again retryable _ d (List.length es) i lastError w e
               (set_sqlite_faults (map Some es ++ later) (log_call c w)));
      [|now apply sqlite_execute_failed | exact He].
    destruct (IH later (S i) e
                (add_sleep (d * 2 ^ Z.of_nat i)
                   (set_sqlite_faults (map Some es ++ later) (log_call c w))))
      as (w1 & Hrun & Hdata & Hhttp & Hsql & Hsleeps & Hcalls);
      [reflexivity | exact Hall'|].
    exists w1. split.
    + rewrite Hrun. f_equal. f_equal.
      destruct es as [|j es]; [reflexivity|].
      exact (last_cons_default j es e lastError).
    + split; [exact Hdata|]. split; [exact Hhttp|]. split; [exact Hsql|]. split.
      * rewrite Hsleeps, backoff_cons. simpl. now rewrite <- app_assoc.
      * rewrite Hcalls. simpl calls. now rewrite repeat_snoc.
Qed.

(** X3. Rate limits of the store on the first one or two attempts of a
    lookup are invisible to the caller: [findDuplicatePages] answers what
    the index holds, having sent the statement once more per failure and
    waited 1000 ms, then 2000 ms, in between. *)
Theorem findDuplicatePages_absorbs_rate_limits (key : jsstring) (w : World)
    (es : list JsError) (later : list (option JsError)) :
  sqlite_faults w = map Some es ++ later ->
  Forall (fun e => rate_limit_signal e = true) es ->
  List.length es <= 2 ->
  store_answers later ->
  exists w1,
    Webhook.findDuplicatePages key w = (Ok (select_by_name key (name_index w)), w1)
    /\ same_data w w1
    /\ sleeps w1 = rev (backoff 1000 0 (List.length es)) ++ sleeps w
    /\ calls w1 = repeat (SqlSelectName key) (S (List.length es)) ++ calls w.
Proof.
  intros Hf Hall Hlen Hans.
  destruct (retry_sqlite_absorbs rate_limit_signal (SqlSelectName key)
              (fun w => (Ok (select_by_name key (name_index w)), w)) 1000
              ltac:(discriminate)
              es later 3 0 undefined_error w Hf Hall ltac:(lia) Hans)
    as (w1 & Hrun & Hdata & _ & _ & Hsleeps & Hcalls).
  exists w1. unfold Webhook.findDuplicatePages, Webhook.retryWithBackoff.
  rewrite Hrun. pose proof Hdata as (_ & Hidx & _). rewrite Hidx.
  repeat split; auto; apply Hdata.
Qed.

(** X4. When the store answers the lookup with a rate limit three times,
    [findDuplicatePages] gives up with the third error, having sent the
    statement three times and waited 1000, 2000 and, after the last
    attempt as well, 4000 ms. *)
Theorem findDuplicatePages_gives_up (key : jsstring) (w : World)
    (e1 e2 e3 : JsError) (later : list (option JsError)) :
  sqlite_faults w = Some e1 :: Some e2 :: Some e3 :: later ->
  rate_limit_signal e1 = true ->
  rate_limit_signal e2 = true ->
  rate_limit_signal e3 = true ->
  exists w1,
    Webhook.findDuplicatePages key w = (Throw e3, w1)
    /\ same_data w w1
    /\ sqlite_faults w1 = later
    /\ sleeps w1 = [4000; 2000; 1000]%Z ++ sleeps w
    /\ calls w1 = [SqlSelectName key; SqlSelectName key; SqlSelectName key] ++ calls w.
Proof.
  intros Hf H1 H2 H3.
  destruct (retry_sqlite_exhausts rate_limit_signal (SqlSelectName key)
              (fun w => (Ok (select_by_name key (name_index w)), w)) 1000
              [e1; e2; e3] later 0 undefined_error w Hf)
    as (w1 & Hrun & Hdata & _ & Hsql & Hsleeps & Hcalls);
    [repeat constructor; assumption|].
  exists w1. repeat split; auto; apply Hdata.
Qed.

(** *** Where a signal is looked for *)

Lemma substring_skip (a b : string) (m n : nat) :
  substring (String.length a + m) n (a ++ b) = substring m n b.
Proof. induction a as [|c a IH]; simpl; [reflexivity | exact IH]. Qed.

Lemma substring_length_le (s : string) (m n : nat) :
  String.length (substring m n s) <= n.
Proof.
  revert m n. induction s as [|c s IH]; intros [|m] [|n]; simpl; try lia;
    try apply IH.
  specialize (IH 0 n). lia.
Qed.

Lemma substring_none (s : string) (m : nat) : substring m 0 s = "".
Proof.
  pose proof (substring_length_le s m 0) as H.
  destruct (substring m 0 s); [reflexivity | simpl in H; lia].
Qed.

Lemma substring_app_l (s b : string) (m n : nat) :
  String.length (substring m n s) = n ->
  substring m n (s ++ b) = substring m n s.
Proof.
  revert m n. induction s as [|c s IH]; intros [|m] [|n]; simpl; intros H;
    try reflexivity; try discriminate;
    rewrite ?substring_none; try reflexivity.
  - f_equal. apply IH. lia.
  - now apply IH.
Qed.

(** A pattern found in a part of a message is found in the message. *)
Lemma includes_right (a b pat : string) :
  pat <> "" ->
  includes b pat = true ->
  includes (a ++ b) pat = true.
Proof.
  intros Hpat. unfold includes.
  destruct (index 0 pat b) as [m|] eqn:Hs; [intros _|discriminate].
  destruct (index 0 pat (a ++ b)) eqn:Hm; [reflexivity|].
  exfalso. apply index_correct1 in Hs.
  apply (index_correct3 0 (String.length a + m) _ _ Hm Hpat); [lia|].
  now rewrite substring_skip.
Qed.

Lemma includes_left (s b pat : string) :
  pat <> "" ->
  includes s pat = true ->
  includes (s ++ b) pat = true.
Proof.
  intros Hpat. unfold includes.
  destruct (index 0 pat s) as [m|] eqn:Hs; [intros _|discriminate].
  destruct (index 0 pat (s ++ b)) eqn:Hm; [reflexivity|].
  exfalso. apply index_correct1 in Hs.
  apply (index_correct3 0 m _ _ Hm Hpat); [lia|].
  rewrite substring_app_l; [exact Hs|]. now rewrite Hs.
Qed.

Lemma includes_self (pat : string) : pat <> "" -> includes pat pat = true.
Proof.
  intros Hpat. unfold includes. destruct (index 0 pat pat) eqn:H; [reflexivity|].
  exfalso. apply (index_correct3 0 0 _ _ H Hpat); [lia|].
  clear. induction pat as [|c pat IH]; simpl; [reflexivity | now f_equal].
Qed.

(** *** Requests of the backfill *)

Lemma fetch_served {A} (c : Call) (serve : World -> Response A * World) w :
  api_serves (http_faults w) ->
  exists w0,
    fetch c serve w = (let (r, w2) := serve w0 in (Ok r, w2))
    /\ same_data w w0 /\ sqlite_faults w0 = sqlite_faults w
    /\ http_faults w0 = tl (http_faults w)
    /\ sleeps w0 = sleeps w /\ calls w0 = c :: calls w.
Proof.
  unfold fetch. simpl. intros [H|[later H]]; rewrite H.
  - exists (log_call c w). repeat split. simpl. now rewrite H.
  - exists (set_http_faults later (log_call c w)). repeat split.
Qed.

Lemma fetch_status {A} (c : Call) (serve : World -> Response A * World) w
    status text later :
  http_faults w = HttpStatus status text :: later ->
  fetch c serve w = (Ok (RespFail status text), set_http_faults later (log_call c w)).
Proof. intros H. unfold fetch. simpl. now rewrite H. Qed.

Lemma getNotionHeaders_ok w : NOTION_TOKEN w = true -> getNotionHeaders w = (Ok tt, w).
Proof. intros H. unfold getNotionHeaders. now rewrite H. Qed.

(** X5. The backfill retries neither a page fetch nor a database query
    that Notion answers with an error status, 429 included: the retry loop
    wraps the bare [fetch], which resolves on such a response, and the
    error is thrown after the loop.  One request is sent, nothing is
    waited, and the caller gets "Failed to ...: status text". *)
Theorem backfill_reads_give_up_on_status (pageId : string) (cursor : option nat)
    (size status : nat) (text : string) (later : list HttpFault) (w : World) :
  NOTION_TOKEN w = true ->
  http_faults w = HttpStatus status text :: later ->
  Backfill.fetchNotionPage pageId w
  = (Throw (Error ("Failed to fetch Notion page " ++ pageId ++ ": "
                   ++ show_nat status ++ " " ++ text)%string),
     set_http_faults later (log_call (HttpGetPage pageId) w))
  /\ Backfill.queryNotionDatabase cursor size w
     = (Throw (Error ("Failed to query Notion database: " ++ show_nat status
                      ++ " " ++ text)%string),
        set_http_faults later (log_call (HttpQuery cursor size) w)).
Proof.
  intros Htoken Hf.
  unfold Backfill.fetchNotionPage, Backfill.queryNotionDatabase,
    Backfill.retryWithBackoff.
  assert (Hfn : forall A (c : Call) (serve : World -> Response A * World),
             bind getNotionHeaders (fun _ => fetch c serve) w
             = (Ok (RespFail status text), set_http_faults later (log_call c w))).
  { intros A c serve. unfold bind. rewrite (getNotionHeaders_ok w Htoken).
    now apply fetch_status. }
  split; unfold bind at 1;
    rewrite (retry_loop_ok _ _ _ _ _ _ _ _ _ (Hfn _ _ _)); reflexivity.
Qed.

Lemma backfill_signal_retried (e : JsError) (sig : string) :
  In sig backfill_signals ->
  message_includes e sig = true ->
  Backfill.isRateLimit e || Backfill.isServerError e = true.
Proof.
  unfold backfill_signals, Backfill.isRateLimit, Backfill.isServerError,
    rate_limit_signal.
  intros [<-|[<-|[<-|[<-|[<-|[]]]]]] ->; repeat rewrite ?orb_true_r, ?orb_true_l;
    reflexivity.
Qed.

Lemma backfill_signal_nonempty sig : In sig backfill_signals -> sig <> "".
Proof. intros [<-|[<-|[<-|[<-|[<-|[]]]]]]; discriminate. Qed.

Lemma patchTags_status pageId tags w status text later :
  NOTION_TOKEN w = true ->
  http_faults w = HttpStatus status text :: later ->
  Backfill.patchTags pageId tags w
  = (Throw (Error ("Failed to update Notion page " ++ pageId ++ ": "
                   ++ show_nat status ++ " " ++ text)%string),
     set_http_faults later (log_call (HttpPatchPage pageId (MultiSelectFlag tags)) w)).
Proof.
  intros Htoken Hf. unfold Backfill.patchTags, bind.
  rewrite (getNotionHeaders_ok w Htoken).
  now rewrite (fetch_status _ _ w status text later Hf).
Qed.

Lemma patchTags_served pageId tags w p old :
  NOTION_TOKEN w = true ->
  api_serves (http_faults w) ->
  find_page pageId (notion_pages w) = Some p ->
  duplicate_flag p = MultiSelectFlag old ->
  exists w1,
    Backfill.patchTags pageId tags w = (Ok tt, w1)
    /\ notion_pages w1 = map (set_flag pageId (MultiSelectFlag tags)) (notion_pages w)
    /\ name_index w1 = name_index w
    /\ NOTION_TOKEN w1 = true
    /\ http_faults w1 = tl (http_faults w)
    /\ sleeps w1 = sleeps w
    /\ calls w1 = HttpPatchPage pageId (MultiSelectFlag tags) :: calls w.
Proof.
  intros Htoken Hserves Hp Hflag. unfold Backfill.patchTags, bind.
  rewrite (getNotionHeaders_ok w Htoken).
  destruct (fetch_served (HttpPatchPage pageId (MultiSelectFlag tags))
              (serve_patch pageId (MultiSelectFlag tags)) w Hserves)
    as (w0 & -> & (Hpages & Hidx & _ & _ & Htok & _) & _ & Hhttp & Hsleeps & Hcalls).
  unfold serve_patch. eexists. split.
  - rewrite Hpages, Hp, Hflag. simpl. reflexivity.
  - simpl. rewrite ?Hpages, Htok. repeat split; auto.
Qed.

Section PatchRetries.
Context {U : UnicodeTables}.

(** A PATCH that fails once with a failure the loop retries, and is
    served on the second attempt. *)
Lemma updateNotionTags_second_attempt pageId tags w status text later p old :
  NOTION_TOKEN w = true ->
  Backfill.hasDuplicateTag tags = false ->
  http_faults w = HttpStatus status text :: later ->
  api_serves later ->
  find_page pageId (notion_pages w) = Some p ->
  duplicate_flag p = MultiSelectFlag old ->
  (let e := Error ("Failed to update Notion page " ++ pageId ++ ": "
                   ++ show_nat status ++ " " ++ text)%string in
   Backfill.isRateLimit e || Backfill.isServerError e = true) ->
  exists w1,
    Backfill.updateNotionTags pageId tags w = (Ok true, w1)
    /\ notion_pages w1
       = map (set_flag pageId (MultiSelectFlag (tags ++ [js "Duplicate"])))
           (notion_pages w)
    /\ sleeps w1 = 1000%Z :: sleeps w
    /\ calls w1
       = [HttpPatchPage pageId (MultiSelectFlag (tags ++ [js "Duplicate"]));
          HttpPatchPage pageId (MultiSelectFlag (tags ++ [js "Duplicate"]))]
         ++ calls w.
Proof.
  intros Htoken Htags Hf Hserves Hp Hflag Hretry.
  unfold Backfill.updateNotionTags. rewrite Htags. simpl.
  unfold Backfill.retryWithBackoff, bind.
  rewrite (retry_loop_again _ _ _ _ _ _ _ _ _
             (patchTags_status pageId _ w status text later Htoken Hf) Hretry).
  set (w' := add_sleep _ _).
  destruct (patchTags_served pageId (tags ++ [js "Duplicate"]) w' p old)
    as (w1 & Hrun & Hpages & _ & _ & _ & Hsleeps & Hcalls); auto.
  rewrite (retry_loop_ok _ _ _ _ _ _ _ _ _ Hrun).
  exists w1. unfold ret. repeat split; auto.
Qed.

(** X6. A PATCH of the backfill that Notion answers with 429, 500, 502,
    503 or 504 is retried, because here the error is thrown inside the
    retried function: [updateNotionTags] waits 1000 ms, sends the PATCH
    again and, when that is served, reports the page as tagged, the tag
    appended to the tags it was given. *)
Theorem updateNotionTags_retries_status (pageId : string) (tags old : list jsstring)
    (w : World) (status : nat) (text : string) (later : list HttpFault)
    (p : NotionPage) :
  NOTION_TOKEN w = true ->
  Backfill.hasDuplicateTag tags = false ->
  http_faults w = HttpStatus status text :: later ->
  api_serves later ->
  find_page pageId (notion_pages w) = Some p ->
  duplicate_flag p = MultiSelectFlag old ->
  In (show_nat status) backfill_signals ->
  exists w1,
    Backfill.updateNotionTags pageId tags w = (Ok true, w1)
    /\ notion_pages w1
       = map (set_flag pageId (MultiSelectFlag (tags ++ [js "Duplicate"])))
           (notion_pages w)
    /\ sleeps w1 = 1000%Z :: sleeps w
    /\ calls w1
       = [HttpPatchPage pageId (MultiSelectFlag (tags ++ [js "Duplicate"]));
          HttpPatchPage pageId (MultiSelectFlag (tags ++ [js "Duplicate"]))]
         ++ calls w.
Proof.
  intros Htoken Htags Hf Hserves Hp Hflag Hstatus.
  apply (updateNotionTags_second_attempt pageId tags w status text later p old);
    auto.
  apply (backfill_signal_retried _ (show_nat status) Hstatus).
  pose proof (backfill_signal_nonempty _ Hstatus) as Hne.
  unfold message_includes, Error. cbn [message].
  apply includes_right; [exact Hne|]. apply includes_right; [exact Hne|].
  apply includes_right; [exact Hne|]. apply includes_left; [exact Hne|].
  now apply includes_self.
Qed.

(** X7. The signal is looked for anywhere in the message, and the message
    of a failed PATCH quotes the page id: when the id of the page contains
    429, 500, 502, 503 or 504, a failed PATCH is retried whatever status
    Notion answered. *)
Theorem updateNotionTags_retries_on_page_id (pageId : string) (tags old : list jsstring)
    (w : World) (status : nat) (text sig : string) (later : list HttpFault)
    (p : NotionPage) :
  NOTION_TOKEN w = true ->
  Backfill.hasDuplicateTag tags = false ->
  http_faults w = HttpStatus status text :: later ->
  api_serves later ->
  find_page pageId (notion_pages w) = Some p ->
  duplicate_flag p = MultiSelectFlag old ->
  In sig backfill_signals ->
  includes pageId sig = true ->
  exists w1,
    Backfill.updateNotionTags pageId tags w = (Ok true, w1)
    /\ notion_pages w1
       = map (set_flag pageId (MultiSelectFlag (tags ++ [js "Duplicate"])))
           (notion_pages w)
    /\ sleeps w1 = 1000%Z :: sleeps w
    /\ calls w1
       = [HttpPatchPage pageId (MultiSelectFlag (tags ++ [js "Duplicate"]));
          HttpPatchPage pageId (MultiSelectFlag (tags ++ [js "Duplicate"]))]
         ++ calls w.
Proof.
  intros Htoken Htags Hf Hserves Hp Hflag Hsig Hid.
  apply (updateNotionTags_second_attempt pageId tags w status text later p old);
    auto.
  apply (backfill_signal_retried _ sig Hsig).
  pose proof (backfill_signal_nonempty _ Hsig) as Hne.
  unfold message_includes, Error. cbn [message].
  apply includes_right; [exact Hne|]. now apply includes_left.
Qed.

End PatchRetries.

(** ** The webhook and the index *)

Lemma index_effect_refl pageId w : index_effect pageId w w.
Proof. now left. Qed.

Lemma index_effect_same pageId w w1 w2 :
  name_index w1 = name_index w -> index_effect pageId w1 w2 -> index_effect pageId w w2.
Proof. unfold index_effect. intros ->. auto. Qed.

Lemma findDuplicatePages_keeps_index key w :
  name_index (snd (Webhook.findDuplicatePages key w)) = name_index w.
Proof.
  unfold Webhook.findDuplicatePages, Webhook.retryWithBackoff.
  apply (retry_loop_preserves rate_limit_signal _ 1000
           (fun w w1 => name_index w1 = name_index w)); auto; try congruence.
  intros w0. unfold sqlite_execute. simpl.
  destruct (sqlite_faults w0) as [|[e|] rest]; reflexivity.
Qed.

Section WebhookIndex.
Context {U : UnicodeTables}.

Lemma insertNameIndex_effect name pageId w :
  index_effect pageId w (snd (Webhook.insertNameIndex name pageId w)).
Proof.
  unfold Webhook.insertNameIndex, Webhook.retryWithBackoff, try_catch.
  pose proof (retry_loop_hoare rate_limit_signal
                (sqlite_execute (SqlInsertName (Webhook.normalizeName name) pageId)
                   (run_insert_name (Webhook.normalizeName name) pageId))
                1000 (fun w w1 => name_index w1 = name_index w)
                (fun w (_ : unit) w1 => index_effect pageId w w1)) as L.
  specialize (L (fun w => eq_refl)). specialize (L ltac:(intros; congruence)).
  specialize (L (fun w t => eq_refl)).
  specialize (L ltac:(intros w0 w' a w1 H H'; exact (index_effect_same _ _ _ _ H H'))).
  assert (Hfn : forall w,
             match sqlite_execute (SqlInsertName (Webhook.normalizeName name) pageId)
                     (run_insert_name (Webhook.normalizeName name) pageId) w with
             | (Ok _, w1) => index_effect pageId w w1
             | (Throw _, w1) => name_index w1 = name_index w
             end).
  { intros w0. unfold sqlite_execute, run_insert_name. simpl.
    destruct (sqlite_faults w0) as [|[e|] rest]; simpl; try reflexivity;
      destruct (has_page_id pageId (name_index w0)) eqn:E; simpl; try reflexivity;
      right; (split; [exact E | eexists; reflexivity]). }
  specialize (L Hfn 3 0 undefined_error w).
  destruct (retry_loop _ _ _ _ _ _ w) as [[[]|e] w1]; [exact L|].
  destruct (message_includes e "UNIQUE constraint"); left; exact L.
Qed.

Lemma tagOthers_keeps_index others w :
  name_index (snd (Webhook.tagOthers others w)) = name_index w.
Proof.
  destruct (tagOthers_never_throws others w) as (w1 & -> & H). apply H.
Qed.

(** X8. Whatever the delivery and whatever fails, the handler never
    deletes nor rewrites a row of the index: it leaves the index as it
    was, or appends one row for the delivered page when the page had none.
    A page that is already indexed is therefore never indexed under
    another name. *)
Theorem handler_index_effect (req : Webhook.Request) (w : World) :
  index_effect (delivered_id req) w (snd (Webhook.handler req w))
  /\ (index_unique (name_index w) ->
      index_unique (name_index (snd (Webhook.handler req w)))).
Proof.
  assert (H : index_effect (delivered_id req) w (snd (Webhook.handler req w))).
  { assert (Hh : index_effect (delivered_id req) w (snd (Webhook.handle req w))).
    { unfold Webhook.handle, Webhook.skip, delivered_id.
      destruct (negb _); [apply index_effect_refl|].
      destruct (Webhook.body req) as [b|]; [|apply index_effect_refl].
      destruct (Webhook.pageData_of b) as [pageData|]; [|apply index_effect_refl].
      destruct (falsy_string _); [apply index_effect_refl|].
      destruct (falsy_text _); [apply index_effect_refl|].
      destruct (Webhook.pageData_id pageData) as [pageId|]; [|apply index_effect_refl].
      destruct (hd_error _) as [name|]; [|apply index_effect_refl].
      apply (bind_case _ _ _ (fun out => index_effect pageId w (snd out)));
        intros ids w1 E1;
        pose proof (findDuplicatePages_keeps_index (Webhook.normalizeName name) w) as H1;
        rewrite E1 in H1; simpl in H1; [|now left].
      apply (index_effect_same _ _ _ _ H1).
      destruct (0 <? _).
      - apply (bind_case _ _ _ (fun out => index_effect pageId w1 (snd out)));
          intros page w2 E2;
          pose proof (webhook_fetchNotionPage_same_sqlite pageId w1) as H2;
          rewrite E2 in H2; destruct H2 as (H2 & _); simpl in H2; [|now left].
        apply (index_effect_same _ _ _ _ H2).
        apply (bind_case _ _ _ (fun out => index_effect pageId w2 (snd out)));
          intros [] w3 E3;
          pose proof (webhook_updateNotionTags_same_sqlite pageId
                        (Webhook.select page) w2) as H3;
          rewrite E3 in H3; destruct H3 as (H3 & _); simpl in H3; [|now left].
        apply (index_effect_same _ _ _ _ H3).
        apply (bind_case _ _ _ (fun out => index_effect pageId w3 (snd out)));
          intros [] w4 E4;
          match type of E4 with Webhook.tagOthers ?l _ = _ =>
            pose proof (tagOthers_keeps_index l w3) as H4 end;
          rewrite E4 in H4; simpl in H4; [|now left].
        apply (index_effect_same _ _ _ _ H4).
        apply (bind_case _ _ _ (fun out => index_effect pageId w4 (snd out)));
          intros a w5 E5;
          pose proof (insertNameIndex_effect name pageId w4) as H5;
          now rewrite E5 in H5.
      - apply (bind_case _ _ _ (fun out => index_effect pageId w1 (snd out)));
          intros a w5 E5;
          pose proof (insertNameIndex_effect name pageId w1) as H5;
          now rewrite E5 in H5. }
    unfold Webhook.handler. now destruct (Webhook.handle req w) as [[?|?] ?]. }
  split; [exact H|]. intros Hu.
  destruct H as [->|(Habs & key & ->)]; [exact Hu|].
  now apply index_unique_insert.
Qed.

End WebhookIndex.

(** ** Deliveries served without a failure *)

Section MarkedAs.
Variable tagged_flag : Flag -> Prop.

Lemma marked_refl ids p : marked_as tagged_flag ids p p.
Proof. unfold marked_as. auto. Qed.

Lemma Forall2_marked_refl ids l : Forall2 (marked_as tagged_flag ids) l l.
Proof. induction l; constructor; auto using marked_refl. Qed.

Lemma marked_weaken ids ids' p p1 :
  incl ids ids' -> marked_as tagged_flag ids p p1 -> marked_as tagged_flag ids' p p1.
Proof.
  unfold marked_as. intros Hi (H1 & H2 & [H3|[H3 H4]]); repeat split; auto.
Qed.

Lemma Forall2_marked_weaken ids ids' l l1 :
  incl ids ids' ->
  Forall2 (marked_as tagged_flag ids) l l1 -> Forall2 (marked_as tagged_flag ids') l l1.
Proof. intros Hi H. induction H; constructor; eauto using marked_weaken. Qed.

Lemma Forall2_marked_trans ids l1 l2 l3 :
  Forall2 (marked_as tagged_flag ids) l1 l2 ->
  Forall2 (marked_as tagged_flag ids) l2 l3 ->
  Forall2 (marked_as tagged_flag ids) l1 l3.
Proof.
  intros H. revert l3. induction H as [|p p1 l l' Hp _ IH]; intros l3 H3.
  - inversion H3. constructor.
  - inversion H3 as [|? p2 ? l'' Hp2 Hl]; subst. constructor; [|now apply IH].
    destruct Hp as (A1 & A2 & A3), Hp2 as (B1 & B2 & B3).
    repeat split; try congruence.
    destruct B3 as [->|[B3 B4]]; [exact A3|].
    right. split; [congruence | exact B4].
Qed.

Lemma find_page_marked ids pageId l l1 p :
  Forall2 (marked_as tagged_flag ids) l l1 ->
  find_page pageId l = Some p ->
  exists p1, find_page pageId l1 = Some p1 /\ marked_as tagged_flag ids p p1.
Proof.
  unfold find_page. intros H. induction H as [|q q1 l l1 Hq _ IH]; simpl; [discriminate|].
  destruct Hq as (Hid & Hq). rewrite Hid.
  destruct (String.eqb (page_id q) pageId).
  - intros [= <-]. exists q1. split; [reflexivity|]. now split.
  - exact IH.
Qed.

End MarkedAs.

Arguments marked_refl {tagged_flag}.
Arguments Forall2_marked_refl {tagged_flag}.
Arguments marked_weaken {tagged_flag}.
Arguments Forall2_marked_weaken {tagged_flag}.
Arguments Forall2_marked_trans {tagged_flag}.
Arguments find_page_marked {tagged_flag}.

Lemma Forall2_marked_patch pageId l :
  Forall2 (marked [pageId]) l (map (set_flag pageId (SelectFlag (Some (js "Duplicate")))) l).
Proof.
  induction l as [|p l IH]; simpl; [constructor|]. constructor; [|exact IH].
  unfold marked, marked_as, set_flag.
  destruct (String.eqb (page_id p) pageId) eqn:E; simpl; auto.
  apply String.eqb_eq in E. split; [reflexivity|]. split; [reflexivity|].
  right. split; [now left | reflexivity].
Qed.

Lemma find_page_set_flag pageId pageId' value l :
  find_page pageId (map (set_flag pageId' value) l)
  = option_map (set_flag pageId' value) (find_page pageId l).
Proof.
  unfold find_page. induction l as [|p l IH]; simpl; [reflexivity|].
  assert (page_id (set_flag pageId' value p) = page_id p) as ->
      by (unfold set_flag; now destruct (String.eqb (page_id p) pageId')).
  now destruct (String.eqb (page_id p) pageId).
Qed.

Lemma find_page_id pageId l p : find_page pageId l = Some p -> page_id p = pageId.
Proof.
  unfold find_page. intros H. apply find_some in H as [_ H]. now apply String.eqb_eq.
Qed.

Lemma selectable_marked ids ids' l l1 :
  Forall2 (marked ids') l l1 -> selectable ids l -> selectable ids l1.
Proof.
  intros H Hs pageId Hin. destruct (Hs pageId Hin) as (p & tag & Hf & Hflag).
  destruct (find_page_marked _ _ _ _ _ H Hf) as (p1 & Hf1 & _ & _ & [->|[_ Hd]]).
  - now exists p, tag.
  - now exists p1, (Some (js "Duplicate")).
Qed.

Lemma findDuplicatePages_served key w :
  sqlite_faults w = [] ->
  Webhook.findDuplicatePages key w
  = (Ok (select_by_name key (name_index w)), log_call (SqlSelectName key) w).
Proof.
  intros Hf. unfold Webhook.findDuplicatePages, Webhook.retryWithBackoff.
  apply retry_loop_ok. now rewrite sqlite_execute_served by exact Hf.
Qed.

Section ServedDeliveries.
Context {U : UnicodeTables}.

Lemma all_tagged_marked ids ids' l l1 :
  Forall2 (marked ids') l l1 -> all_tagged ids l -> all_tagged ids l1.
Proof.
  intros H Hs pageId Hin. destruct (Hs pageId Hin) as (p & Hf & Hc).
  destruct (find_page_marked _ _ _ _ _ H Hf) as (p1 & Hf1 & _ & _ & [->|[_ Hd]]).
  - now exists p.
  - exists p1. split; [exact Hf1|]. unfold carries_duplicate. now rewrite Hd.
Qed.

(** Fetching a page and tagging it, when the API serves both requests. *)
Lemma webhook_tag_served pageId w p tag :
  NOTION_TOKEN w = true ->
  http_faults w = [] ->
  find_page pageId (notion_pages w) = Some p ->
  duplicate_flag p = SelectFlag tag ->
  exists w1,
    (duplicatePage <- Webhook.fetchNotionPage pageId ;;
     Webhook.updateNotionTags pageId (Webhook.select duplicatePage))%promise w
    = (Ok tt, w1)
    /\ NOTION_TOKEN w1 = true /\ http_faults w1 = [] /\ same_sqlite w w1
    /\ Forall2 (marked [pageId]) (notion_pages w) (notion_pages w1)
    /\ all_tagged [pageId] (notion_pages w1).
Proof.
  intros Ht Hh Hp Hflag.
  unfold Webhook.fetchNotionPage, Webhook.updateNotionTags, Webhook.select,
    bind, getNotionHeaders, fetch, serve_get, ret. rewrite Ht. simpl. rewrite Hh, Hp.
  rewrite Hflag. destruct (Webhook.hasDuplicateTag tag) eqn:Hc.
  - eexists. split; [reflexivity|]. simpl. repeat split; auto.
    + apply Forall2_marked_refl.
    + intros i [<-|[]]. exists p. split; [exact Hp|].
      unfold carries_duplicate. now rewrite Hflag.
  - unfold serve_patch. simpl. rewrite Ht. simpl. rewrite Hh, Hp, Hflag. simpl.
    eexists. split; [reflexivity|]. simpl. repeat split; auto.
    + apply Forall2_marked_patch.
    + intros i [<-|[]]. rewrite find_page_set_flag, Hp. simpl.
      eexists. split; [reflexivity|].
      unfold carries_duplicate, set_flag.
      rewrite (find_page_id _ _ _ Hp), String.eqb_refl. reflexivity.
Qed.

Lemma tagOthers_served others : forall w,
  NOTION_TOKEN w = true ->
  http_faults w = [] ->
  selectable others (notion_pages w) ->
  exists w1,
    Webhook.tagOthers others w = (Ok tt, w1)
    /\ NOTION_TOKEN w1 = true /\ http_faults w1 = [] /\ same_sqlite w w1
    /\ Forall2 (marked others) (notion_pages w) (notion_pages w1)
    /\ all_tagged others (notion_pages w1).
Proof.
  induction others as [|pageId rest IH]; intros w Ht Hh Hsel.
  - exists w. simpl. split; [reflexivity|]. split; [exact Ht|]. split; [exact Hh|].
    split; [apply same_sqlite_refl|].
    split; [apply Forall2_marked_refl | intros i []].
  - destruct (Hsel pageId (or_introl eq_refl)) as (p & tag & Hp & Hflag).
    destruct (webhook_tag_served pageId w p tag Ht Hh Hp Hflag)
      as (w1 & Hrun & Ht1 & Hh1 & Hs1 & Hm1 & Ha1).
    assert (Hsel1 : selectable rest (notion_pages w1)).
    { apply (selectable_marked _ _ _ _ Hm1). intros i Hi. apply Hsel. now right. }
    destruct (IH w1 Ht1 Hh1 Hsel1) as (w2 & Hrun2 & Ht2 & Hh2 & Hs2 & Hm2 & Ha2).
    exists w2. cbn [Webhook.tagOthers]. unfold bind at 1, try_catch.
    rewrite Hrun. unfold ret. rewrite Hrun2.
    split; [reflexivity|]. split; [exact Ht2|]. split; [exact Hh2|].
    split; [eapply same_sqlite_trans; eassumption|]. split.
    + apply Forall2_marked_trans with (notion_pages w1).
      * apply (Forall2_marked_weaken [pageId]); [|exact Hm1].
        intros i [<-|[]]. now left.
      * apply (Forall2_marked_weaken rest); [|exact Hm2]. intros i Hi. now right.
    + intros i [<-|Hi].
      * apply (all_tagged_marked _ _ _ _ Hm2 Ha1). now left.
      * now apply Ha2.
Qed.

(** X9. A delivery whose name no other indexed page bears is answered
    "indexed" after one SELECT and one INSERT, and sends nothing to Notion:
    no token is needed and no record changes.  The page is in the index
    afterwards; if it was there already, the index is left as it was. *)
Theorem handler_unique_name (req : Webhook.Request) (w : World)
    (b : Webhook.WebhookBody) (pageId : string) (name : jsstring)
    (rest : list jsstring) :
  Webhook.method req = "POST" ->
  Webhook.body req = Some b ->
  Webhook.pageData_of b =
    Some {| Webhook.pageData_id := Some pageId;
            Webhook.pageData_title := name :: rest |} ->
  pageId <> "" ->
  name <> [] ->
  sqlite_faults w = [] ->
  filter (fun id => negb (String.eqb id pageId))
    (select_by_name (Webhook.normalizeName name) (name_index w)) = [] ->
  let w1 := snd (Webhook.handler req w) in
  fst (Webhook.handler req w)
  = {| Webhook.status := 200; Webhook.payload := Webhook.Indexed |}
  /\ calls w1 = [SqlInsertName (Webhook.normalizeName name) pageId;
                 SqlSelectName (Webhook.normalizeName name)] ++ calls w
  /\ notion_pages w1 = notion_pages w
  /\ sleeps w1 = sleeps w
  /\ has_page_id pageId (name_index w1) = true
  /\ (has_page_id pageId (name_index w) = true -> name_index w1 = name_index w).
Proof.
  intros Hm Hb Hpd Hid Hname Hf Hothers.
  assert (Hfind : Webhook.findDuplicatePages (Webhook.normalizeName name) w
                  = (Ok (select_by_name (Webhook.normalizeName name) (name_index w)),
                     log_call (SqlSelectName (Webhook.normalizeName name)) w)).
  { now apply findDuplicatePages_served. }
  assert (Hrun : Webhook.handler req w =
                 match Webhook.insertNameIndex name pageId
                         (log_call (SqlSelectName (Webhook.normalizeName name)) w) with
                 | (Ok _, w5) =>
                     ({| Webhook.status := 200; Webhook.payload := Webhook.Indexed |}, w5)
                 | (Throw e, w5) =>
                     ({| Webhook.status := 200;
                         Webhook.payload := Webhook.InternalError (message e) |}, w5)
                 end).
  { unfold Webhook.handler, Webhook.handle. rewrite Hm, Hb, Hpd. simpl.
    apply String.eqb_neq in Hid. rewrite Hid.
    destruct name as [|c name]; [congruence|]. simpl.
    unfold bind at 1. rewrite Hfind, Hothers. simpl.
    unfold bind at 1.
    destruct (Webhook.insertNameIndex (c :: name) pageId _) as [[[]|e] w5];
      reflexivity. }
  cbv zeta. rewrite Hrun, insertNameIndex_served by exact Hf. simpl name_index.
  destruct (has_page_id pageId (name_index w)) eqn:Hp; simpl.
  - repeat split; auto.
  - repeat split; try discriminate. apply has_page_id_inserted.
Qed.

(** X11. When neither the store nor the API fails and the name of the
    delivered page is that of other indexed pages, the handler answers
    with their number, and afterwards the delivered page and every one of
    those pages carry the tag in Notion.  No other record is changed, no
    title is, and the delivered page is in the index. *)
Theorem handler_tags_all_matches (req : Webhook.Request) (w : World)
    (b : Webhook.WebhookBody) (pageId : string) (name : jsstring)
    (rest : list jsstring) (others : list string) :
  Webhook.method req = "POST" ->
  Webhook.body req = Some b ->
  Webhook.pageData_of b =
    Some {| Webhook.pageData_id := Some pageId;
            Webhook.pageData_title := name :: rest |} ->
  pageId <> "" ->
  name <> [] ->
  sqlite_faults w = [] ->
  http_faults w = [] ->
  NOTION_TOKEN w = true ->
  others = filter (fun id => negb (String.eqb id pageId))
             (select_by_name (Webhook.normalizeName name) (name_index w)) ->
  others <> [] ->
  selectable (pageId :: others) (notion_pages w) ->
  let w1 := snd (Webhook.handler req w) in
  fst (Webhook.handler req w)
  = {| Webhook.status := 200; Webhook.payload := Webhook.Tagged (List.length others) |}
  /\ all_tagged (pageId :: others) (notion_pages w1)
  /\ Forall2 (marked (pageId :: others)) (notion_pages w) (notion_pages w1)
  /\ has_page_id pageId (name_index w1) = true.
Proof.
  intros Hm Hb Hpd Hid Hname Hf Hh Ht Hothers Hne Hsel.
  assert (Hfind : Webhook.findDuplicatePages (Webhook.normalizeName name) w
                  = (Ok (select_by_name (Webhook.normalizeName name) (name_index w)),
                     log_call (SqlSelectName (Webhook.normalizeName name)) w)).
  { now apply findDuplicatePages_served. }
  set (w0 := log_call (SqlSelectName (Webhook.normalizeName name)) w) in *.
  destruct (Hsel pageId (or_introl eq_refl)) as (p & tag & Hp & Hflag).
  destruct (webhook_tag_served pageId w0 p tag Ht Hh Hp Hflag)
    as (w2 & Hrun & Ht2 & Hh2 & Hs2 & Hm2 & Ha2).
  assert (Hsel2 : selectable others (notion_pages w2)).
  { apply (selectable_marked _ _ _ _ Hm2). intros i Hi. apply Hsel. now right. }
  destruct (tagOthers_served others w2 Ht2 Hh2 Hsel2)
    as (w3 & Hrun3 & Ht3 & Hh3 & Hs3 & Hm3 & Ha3).
  assert (Hf3 : sqlite_faults w3 = []).
  { destruct Hs2 as (_ & H2 & _), Hs3 as (_ & H3 & _). simpl in H2. congruence. }
  assert (Hrun' : Webhook.handler req w =
                  match Webhook.insertNameIndex name pageId w3 with
                  | (Ok _, w5) =>
                      ({| Webhook.status := 200;
                          Webhook.payload := Webhook.Tagged (List.length others) |}, w5)
                  | (Throw e, w5) =>
                      ({| Webhook.status := 200;
                          Webhook.payload := Webhook.InternalError (message e) |}, w5)
                  end).
  { unfold Webhook.handler, Webhook.handle. rewrite Hm, Hb, Hpd. simpl.
    apply String.eqb_neq in Hid. rewrite Hid.
    destruct name as [|c name]; [congruence|]. simpl.
    unfold bind at 1. rewrite Hfind. fold w0. rewrite <- Hothers.
    assert ((0 <? List.length others) = true) as ->
        by (destruct others; [congruence | reflexivity]).
    apply bind_ok_inv in Hrun as (page & w1 & Hfetch & Htag).
    unfold bind at 1. rewrite Hfetch.
    unfold bind at 1. rewrite Htag.
    unfold bind at 1. rewrite Hrun3. unfold bind at 1.
    destruct (Webhook.insertNameIndex (c :: name) pageId w3) as [[[]|e] w5];
      reflexivity. }
  assert (Hpages : Forall2 (marked (pageId :: others)) (notion_pages w) (notion_pages w3)).
  { apply Forall2_marked_trans with (notion_pages w2).
    - apply (Forall2_marked_weaken [pageId]); [|exact Hm2].
      intros i [<-|[]]. now left.
    - apply (Forall2_marked_weaken others); [|exact Hm3]. intros i Hi. now right. }
  assert (Htagged : all_tagged (pageId :: others) (notion_pages w3)).
  { intros i [<-|Hi].
    - apply (all_tagged_marked _ _ _ _ Hm3 Ha2). now left.
    - now apply Ha3. }
  cbv zeta. rewrite Hrun', insertNameIndex_served by exact Hf3.
  destruct (has_page_id pageId (name_index w3)) eqn:Hp3; simpl.
  - repeat split; auto.
  - repeat split; auto. apply has_page_id_inserted.
Qed.

End ServedDeliveries.

(** ** The loop over the other matches *)

Section OtherMatches.
Context {U : UnicodeTables}.

Lemma webhook_tag_attempt pageId w :
  NOTION_TOKEN w = true ->
  exists w1,
    try_catch
      (duplicatePage <- Webhook.fetchNotionPage pageId ;;
       Webhook.updateNotionTags pageId (Webhook.select duplicatePage))%promise
      (fun _ => ret tt) w = (Ok tt, w1)
    /\ NOTION_TOKEN w1 = true
    /\ filter is_get_page (calls w1) = HttpGetPage pageId :: filter is_get_page (calls w).
Proof.
  intros Ht.
  unfold Webhook.fetchNotionPage, Webhook.updateNotionTags, try_catch, bind,
    getNotionHeaders, fetch, serve_get, serve_patch, throw, ret.
  rewrite Ht. simpl.
  repeat (simpl; rewrite ?Ht;
          match goal with
          | |- context [if ?b then _ else _] => destruct b
          | |- context [match http_faults ?w with _ => _ end] =>
              destruct (http_faults w) as [|[| |] ?]
          | |- context [match find_page ?i ?l with _ => _ end] =>
              destruct (find_page i l)
          | |- context [match ?l with nil => _ | cons _ _ => _ end] =>
              destruct l as [|[| |] ?]
          end);
    simpl; eexists; (split; [reflexivity|]); simpl; split; auto.
Qed.

(** X10. The loop over the other matches attempts every one of them, in
    the order of the lookup, whatever happens to the ones before: each is
    fetched exactly once, a failed fetch or a failed update is swallowed,
    and the loop itself never fails nor touches the index. *)
Theorem tagOthers_visits_every_match (others : list string) (w : World) :
  NOTION_TOKEN w = true ->
  exists w1,
    Webhook.tagOthers others w = (Ok tt, w1)
    /\ filter is_get_page (calls w1)
       = rev (map HttpGetPage others) ++ filter is_get_page (calls w)
    /\ name_index w1 = name_index w.
Proof.
  revert w. induction others as [|pageId rest IH]; intros w Ht.
  - exists w. now repeat split.
  - destruct (webhook_tag_attempt pageId w Ht) as (w1 & Hrun & Ht1 & Hc1).
    destruct (IH w1 Ht1) as (w2 & Hrun2 & Hc2 & Hi2).
    exists w2. cbn [Webhook.tagOthers]. unfold bind at 1. rewrite Hrun.
    split; [exact Hrun2|]. split.
    + rewrite Hc2, Hc1. simpl. now rewrite <- app_assoc.
    + rewrite Hi2.
      pose proof (tagOthers_keeps_index [pageId] w) as H.
      cbn [Webhook.tagOthers] in H. unfold bind at 1 in H. now rewrite Hrun in H.
Qed.

End OtherMatches.

(** ** The total of the scanner and the rows of the index *)

Lemma progress_written_refl data w : progress_written data w w.
Proof. unfold progress_written. auto. Qed.

Lemma progress_written_trans data w1 w2 w3 :
  progress_written data w1 w2 -> progress_written data w2 w3 ->
  progress_written data w1 w3.
Proof.
  unfold progress_written. intros (A1 & A2 & A3) (B1 & B2 & B3).
  repeat split; try congruence. destruct B3 as [B3|B3]; [|now right].
  rewrite B3. exact A3.
Qed.

Lemma progress_written_sleep data w t : progress_written data w (add_sleep t w).
Proof. unfold progress_written. simpl. auto. Qed.

Lemma progress_written_within data w w1 :
  total_indexed data <= List.length (name_index w) ->
  progress_written data w w1 -> within_index w -> within_index w1.
Proof.
  unfold progress_written, within_index. intros Hd (H1 & _ & [H3|H3]) Hw;
    rewrite H3, H1; assumption.
Qed.

Lemma updateProgress_written data w :
  progress_written data w (snd (IndexBuilder.updateProgress data w)).
Proof.
  unfold IndexBuilder.updateProgress, IndexBuilder.retryWithBackoff.
  apply retry_loop_preserves;
    auto using progress_written_refl, progress_written_sleep.
  - apply progress_written_trans.
  - intros w0. unfold sqlite_execute, run_update_progress, progress_written. simpl.
    destruct (sqlite_faults w0) as [|[e|] rest]; simpl; auto;
      destruct (index_builder_progress w0) eqn:E; simpl; rewrite ?E;
      repeat split; auto.
Qed.

Lemma insertProgress_written w :
  progress_written initial_progress w
    (snd (IndexBuilder.retryWithBackoff
            (sqlite_execute SqlInsertProgress run_insert_progress) 3 1000 w)).
Proof.
  unfold IndexBuilder.retryWithBackoff.
  apply retry_loop_preserves;
    auto using progress_written_refl, progress_written_sleep.
  - apply progress_written_trans.
  - intros w0. unfold sqlite_execute, run_insert_progress, progress_written. simpl.
    destruct (sqlite_faults w0) as [|[e|] rest]; simpl; auto;
      destruct (index_builder_progress w0) eqn:E; simpl; rewrite ?E;
      repeat split; auto.
Qed.

Lemma selectProgress_reads w :
  match IndexBuilder.retryWithBackoff
          (sqlite_execute SqlSelectProgress
             (fun w => (Ok (index_builder_progress w), w))) 3 1000 w with
  | (Ok result, w1) => result = index_builder_progress w /\ only_reads w w1
  | (Throw _, w1) => only_reads w w1
  end.
Proof.
  unfold IndexBuilder.retryWithBackoff.
  assert (Hleft : forall w w' (a : option Progress) w1,
             only_reads w w' ->
             a = index_builder_progress w' /\ only_reads w' w1 ->
             a = index_builder_progress w /\ only_reads w w1).
  { intros w0 w' a w1 H [-> H']. split; [|eauto using only_reads_trans].
    now destruct H as (_ & _ & -> & _). }
  assert (Hfn : forall w,
             match sqlite_execute SqlSelectProgress
                     (fun w => (Ok (index_builder_progress w), w)) w with
             | (Ok a, w1) => a = index_builder_progress w /\ only_reads w w1
             | (Throw _, w1) => only_reads w w1
             end).
  { intros w0.
    pose proof (sqlite_execute_only_reads SqlSelectProgress
                  index_builder_progress w0 eq_refl) as H.
    unfold sqlite_execute in *. simpl in *.
    destruct (sqlite_faults w0) as [|[e|] rest]; simpl in *; auto. }
  exact (retry_loop_hoare rate_limit_signal _ 1000 only_reads _
           only_reads_refl only_reads_trans only_reads_sleep Hleft Hfn
           3 0 undefined_error w).
Qed.

Lemma only_reads_within w w1 : only_reads w w1 -> within_index w -> within_index w1.
Proof.
  unfold within_index. intros (_ & H1 & H2 & _). now rewrite H1, H2.
Qed.

Lemma getProgress_within w :
  within_index w ->
  match IndexBuilder.getProgress w with
  | (Ok progress, w1) =>
      within_index w1 /\ total_indexed progress <= List.length (name_index w1)
  | (Throw _, w1) => within_index w1
  end.
Proof.
  intros Hw. unfold IndexBuilder.getProgress. unfold bind at 1.
  pose proof (selectProgress_reads w) as H.
  destruct (IndexBuilder.retryWithBackoff _ 3 1000 w) as [[result|e] w1];
    [|eauto using only_reads_within].
  destruct H as [-> H]. pose proof (only_reads_within _ _ H Hw) as Hw1.
  destruct (index_builder_progress w) as [row|] eqn:Hrow.
  - unfold ret. split; [exact Hw1|].
    unfold within_index in Hw. rewrite Hrow in Hw.
    destruct H as (_ & -> & _). exact Hw.
  - pose proof (insertProgress_written w1) as Hi.
    assert (Hw2 : within_index
                    (snd (IndexBuilder.retryWithBackoff
                            (sqlite_execute SqlInsertProgress run_insert_progress)
                            3 1000 w1)))
      by (apply (progress_written_within initial_progress w1); auto; simpl; lia).
    unfold bind, ret.
    destruct (IndexBuilder.retryWithBackoff _ 3 1000 w1) as [[[]|e] w2];
      simpl in *; [|exact Hw2].
    split; [exact Hw2 | lia].
Qed.

Lemma getExistingIndexCount_counts w :
  match IndexBuilder.getExistingIndexCount w with
  | (Ok n, w1) => n = List.length (name_index w) /\ only_reads w w1
  | (Throw _, w1) => only_reads w w1
  end.
Proof.
  unfold IndexBuilder.getExistingIndexCount, IndexBuilder.retryWithBackoff.
  assert (Hleft : forall w w' (a : nat) w1,
             only_reads w w' ->
             a = List.length (name_index w') /\ only_reads w' w1 ->
             a = List.length (name_index w) /\ only_reads w w1).
  { intros w0 w' a w1 H [-> H']. split; [|eauto using only_reads_trans].
    now destruct H as (_ & -> & _). }
  assert (Hfn : forall w,
             match sqlite_execute SqlCountNames
                     (fun w => (Ok (List.length (name_index w)), w)) w with
             | (Ok a, w1) => a = List.length (name_index w) /\ only_reads w w1
             | (Throw _, w1) => only_reads w w1
             end).
  { intros w0.
    pose proof (sqlite_execute_only_reads SqlCountNames
                  (fun w => List.length (name_index w)) w0 eq_refl) as H.
    unfold sqlite_execute in *. simpl in *.
    destruct (sqlite_faults w0) as [|[e|] rest]; simpl in *; auto. }
  exact (retry_loop_hoare rate_limit_signal _ 1000 only_reads _
           only_reads_refl only_reads_trans only_reads_sleep Hleft Hfn
           3 0 undefined_error w).
Qed.

Lemma builder_query_within cursor size w :
  within_index w ->
  within_index (snd (IndexBuilder.queryNotionDatabase cursor size w))
  /\ name_index (snd (IndexBuilder.queryNotionDatabase cursor size w)) = name_index w.
Proof.
  assert (H : same_sqlite w (snd (IndexBuilder.queryNotionDatabase cursor size w)))
    by (unfold IndexBuilder.queryNotionDatabase; crunch_http).
  destruct H as (H1 & _ & H2 & _). unfold within_index. rewrite H1, H2. auto.
Qed.

Section Totals.
Context {U : UnicodeTables}.

(** What an insert of the scanner does to the index: a row when it
    answers [true], nothing otherwise. *)
Lemma insertIntoIndex_count name pageId w :
  match IndexBuilder.insertIntoIndex name pageId w with
  | (Ok wasInserted, w1) =>
      name_index w1
      = name_index w
        ++ (if wasInserted
            then [{| row_name := IndexBuilder.normalizeName name;
                     notion_page_id := pageId |}]
            else [])
      /\ (wasInserted = true -> has_page_id pageId (name_index w) = false)
  | (Throw _, w1) => name_index w1 = name_index w
  end.
Proof.
  unfold IndexBuilder.insertIntoIndex, IndexBuilder.retryWithBackoff.
  set (row := {| row_name := IndexBuilder.normalizeName name; notion_page_id := pageId |}).
  apply (retry_loop_hoare rate_limit_signal _ 1000
           (fun w w1 => name_index w1 = name_index w)
           (fun w (b : bool) w1 =>
              name_index w1 = name_index w ++ (if b then [row] else [])
              /\ (b = true -> has_page_id pageId (name_index w) = false))); auto.
  - intros; congruence.
  - intros w0 w' a w1 -> H. exact H.
  - intros w0. unfold try_catch, bind, sqlite_execute, run_insert_name, ret, throw.
    simpl.
    destruct (sqlite_faults w0) as [|[e|] rest]; simpl;
      try destruct (has_page_id pageId (name_index w0)) eqn:E; simpl;
      try destruct (message_includes _ _); simpl;
      rewrite ?app_nil_r; try split; auto; discriminate.
Qed.

(** A row the scanner makes of a page. *)
Lemma processBatch_from_count pages : forall indexed w,
  match IndexBuilder.processBatch_from pages indexed w with
  | (Ok n, w1) =>
      exists new, name_index w1 = name_index w ++ new
                  /\ n = indexed + List.length new
                  /\ List.length new <= List.length pages
                  /\ Forall (fun row => exists page name,
                                In page pages
                                /\ hd_error (title page) = Some name
                                /\ row = {| row_name := IndexBuilder.normalizeName name;
                                            notion_page_id := page_id page |}) new
                  /\ (index_unique (name_index w) -> index_unique (name_index w1))
  | (Throw _, w1) =>
      exists new, name_index w1 = name_index w ++ new
                  /\ (index_unique (name_index w) -> index_unique (name_index w1))
  end.
Proof.
  induction pages as [|page rest IH]; intros indexed w; simpl.
  - exists []. rewrite app_nil_r. repeat split; auto; simpl; lia.
  - assert (Hskip : forall indexed w,
               match IndexBuilder.processBatch_from rest indexed w with
               | (Ok n, w1) =>
                   exists new, name_index w1 = name_index w ++ new
                     /\ n = indexed + List.length new
                     /\ List.length new <= S (List.length rest)
                     /\ Forall (fun row => exists page0 name,
                                   (page = page0 \/ In page0 rest)
                                   /\ hd_error (title page0) = Some name
                                   /\ row = {| row_name := IndexBuilder.normalizeName name;
                                               notion_page_id := page_id page0 |}) new
                     /\ (index_unique (name_index w) -> index_unique (name_index w1))
               | (Throw _, w1) =>
                   exists new, name_index w1 = name_index w ++ new
                     /\ (index_unique (name_index w) -> index_unique (name_index w1))
               end).
    { intros i0 w0. specialize (IH i0 w0).
      destruct (IndexBuilder.processBatch_from rest i0 w0) as [[n|e] w1]; [|exact IH].
      destruct IH as (new & H1 & H2 & H3 & H4 & H5). exists new.
      repeat split; auto.
      eapply Forall_impl; [|exact H4]. intros row (p0 & nm & Hin & Hr). eauto 6. }
    destruct (hd_error (title page)) as [[|c name]|] eqn:Htitle; try apply Hskip.
    unfold bind at 1.
    pose proof (insertIntoIndex_count (c :: name) (page_id page) w) as H.
    destruct (IndexBuilder.insertIntoIndex (c :: name) (page_id page) w)
      as [[wasInserted|e] w1].
    + destruct H as [H Habs].
      assert (Hu1 : index_unique (name_index w) -> index_unique (name_index w1)).
      { intros Hu. rewrite H. destruct wasInserted; [|now rewrite app_nil_r].
        apply index_unique_insert; auto. }
      specialize (IH (if wasInserted then S indexed else indexed) w1).
      destruct (IndexBuilder.processBatch_from rest _ w1) as [[n|e] w2].
      * destruct IH as (new & Hn & -> & Hlen & Hall & Hu).
        rewrite H, <- app_assoc in Hn.
        eexists. split; [exact Hn|]. rewrite length_app.
        split; [destruct wasInserted; simpl; lia|].
        split; [destruct wasInserted; simpl; lia|].
        split; [|auto].
        apply Forall_app. split.
        -- destruct wasInserted; constructor; [|constructor].
           exists page, (c :: name). auto.
        -- eapply Forall_impl; [|exact Hall].
           intros row (p0 & nm & Hin & Hr). eauto 6.
      * destruct IH as (new & Hn & Hu). rewrite H, <- app_assoc in Hn. eauto.
    + exists []. rewrite app_nil_r, H. auto.
Qed.


Lemma updateProgress_within data w :
  total_indexed data <= List.length (name_index w) ->
  within_index w ->
  within_index (snd (IndexBuilder.updateProgress data w))
  /\ name_index (snd (IndexBuilder.updateProgress data w)) = name_index w.
Proof.
  intros Hd Hw. pose proof (updateProgress_written data w) as H.
  split; [eapply progress_written_within; eauto | apply H].
Qed.

Lemma processBatch_within pages w :
  within_index w ->
  match IndexBuilder.processBatch pages w with
  | (Ok n, w1) =>
      within_index w1 /\ List.length (name_index w1) = List.length (name_index w) + n
  | (Throw _, w1) => within_index w1
  end.
Proof.
  intros Hw. pose proof (processBatch_from_count pages 0 w) as L.
  pose proof (processBatch_same_progress pages 0 w) as [Hp _].
  unfold IndexBuilder.processBatch, within_index in *.
  destruct (IndexBuilder.processBatch_from pages 0 w) as [[n|e] w1]; simpl in Hp.
  - destruct L as (new & H1 & H2 & _). rewrite Hp, H1, length_app.
    split; [destruct (index_builder_progress w); lia | simpl in H2; lia].
  - destruct L as (new & H1 & _). rewrite Hp, H1, length_app.
    destruct (index_builder_progress w); lia.
Qed.

Lemma batches_within n :
  forall clock, List.length clock <= n ->
  forall startTime cursor t w,
    t <= List.length (name_index w) ->
    within_index w ->
    let out := IndexBuilder.batches clock startTime cursor t w in
    within_index (snd out)
    /\ match fst out with
       | Ok report =>
           forall total, report_total report = Some total ->
                         total <= List.length (name_index (snd out))
       | Throw _ => True
       end.
Proof.
  set (P := fun (out : Result IndexBuilder.Report * World) =>
              within_index (snd out)
              /\ match fst out with
                 | Ok report =>
                     forall total, report_total report = Some total ->
                                   total <= List.length (name_index (snd out))
                 | Throw _ => True
                 end).
  assert (Hstop : forall t w, t <= List.length (name_index w) -> within_index w ->
                              P (Ok (IndexBuilder.Partial t), w)).
  { intros t w Ht Hw. split; [exact Hw|]. simpl. now intros total [= <-]. }
  induction n as [|n IH]; intros clock Hlen startTime cursor t w Ht Hw; cbv zeta;
    fold (P (IndexBuilder.batches clock startTime cursor t w)).
  - destruct clock; [|simpl in Hlen; lia]. now apply Hstop.
  - destruct clock as [|now clock1]; simpl; [now apply Hstop|].
    destruct (now - startTime <? IndexBuilder.MAX_RUNTIME_MS)%Z; [|now apply Hstop].
    pose proof (builder_query_within cursor IndexBuilder.BATCH_SIZE w Hw) as [Hwq Hiq].
    apply (bind_case _ _ _ P); intros response wq Eq; rewrite Eq in Hwq, Hiq;
      simpl in Hwq, Hiq; [|now split].
    assert (Htq : t <= List.length (name_index wq)) by (rewrite Hiq; exact Ht).
    destruct (List.length (results response) =? 0).
    + pose proof (updateProgress_within
                    {| last_cursor := None; total_indexed := t; completed := true |}
                    wq Htq Hwq) as [Hu Hi].
      apply (bind_case _ _ _ P); intros a wu Eu; rewrite Eu in Hu, Hi;
        simpl in Hu, Hi; [|now split].
      split; [exact Hu|]. simpl. intros total [= <-]. now rewrite Hi.
    + pose proof (processBatch_within (results response) wq Hwq) as Hp.
      apply (bind_case _ _ _ P); intros indexed wp Ep; rewrite Ep in Hp;
        [|now split].
      destruct Hp as [Hwp Hlp].
      assert (Htp : t + indexed <= List.length (name_index wp)) by lia.
      pose proof (updateProgress_within
                    {| last_cursor := next_cursor response;
                       total_indexed := t + indexed;
                       completed := negb (has_more response) |}
                    wp Htp Hwp) as [Hu Hi].
      apply (bind_case _ _ _ P); intros a wu Eu; rewrite Eu in Hu, Hi;
        simpl in Hu, Hi; [|now split].
      assert (Htu : t + indexed <= List.length (name_index wu)) by (rewrite Hi; exact Htp).
      assert (Hdone : forall r, report_total r = Some (t + indexed) -> P (Ok r, wu)).
      { intros r Hr. split; [exact Hu|]. simpl. intros total Ht'. congruence. }
      destruct (negb (has_more response)); [now apply Hdone|].
      destruct clock1 as [|duration [|now2 clock2]]; try now apply Hdone.
      destruct (now2 - startTime >? IndexBuilder.PAUSE_AFTER_MS)%Z; [now apply Hdone|].
      exact (IH clock2 ltac:(simpl in Hlen; lia) startTime
               (next_cursor response) (t + indexed) wu Htu Hu).
Qed.

(** X14. The scanner never reports more pages than the index holds: if
    the total of the progress row is at most the number of rows of the
    index when an invocation starts, it still is when the invocation ends,
    and so is the total of the report, whatever the clock, the store and
    Notion do. *)
Theorem indexBuilder_never_overcounts (startTime : Z) (clock : list Z) (w : World) :
  within_index w ->
  let out := IndexBuilder.indexBuilder startTime clock w in
  within_index (snd out)
  /\ forall total, report_total (fst out) = Some total ->
                   total <= List.length (name_index (snd out)).
Proof.
  intros Hw.
  set (P := fun (out : Result IndexBuilder.Report * World) =>
              within_index (snd out)
              /\ match fst out with
                 | Ok report =>
                     forall total, report_total report = Some total ->
                                   total <= List.length (name_index (snd out))
                 | Throw _ => True
                 end).
  assert (Hbuild : P (IndexBuilder.build startTime clock w)).
  { unfold IndexBuilder.build.
    pose proof (only_reads_within _ _ (initializeTables_only_reads w) Hw) as H0.
    apply (bind_case _ _ _ P); intros a w0 E0; rewrite E0 in H0; simpl in H0;
      [|now split].
    pose proof (getProgress_within w0 H0) as H1.
    apply (bind_case _ _ _ P); intros progress w1 E1; rewrite E1 in H1; [|now split].
    destruct H1 as [Hw1 Ht1].
    assert (Hboot :
      match (if negb (completed progress) && (total_indexed progress =? 0)
             then
               bind IndexBuilder.getExistingIndexCount (fun existingCount =>
                 if 0 <? existingCount
                 then
                   bind (IndexBuilder.updateProgress
                           {| last_cursor := last_cursor progress;
                              total_indexed := existingCount;
                              completed := completed progress |})
                        (fun _ => ret {| last_cursor := last_cursor progress;
                                         total_indexed := existingCount;
                                         completed := completed progress |})
                 else ret progress)
             else ret progress) w1 with
      | (Ok progress', w2) =>
          within_index w2 /\ total_indexed progress' <= List.length (name_index w2)
      | (Throw _, w2) => within_index w2
      end).
    { destruct (negb (completed progress) && (total_indexed progress =? 0));
        [|unfold ret; now split].
      pose proof (getExistingIndexCount_counts w1) as Hc.
      unfold bind at 1.
      destruct (IndexBuilder.getExistingIndexCount w1) as [[existingCount|e] wc];
        [|eauto using only_reads_within].
      destruct Hc as [-> Hc]. pose proof (only_reads_within _ _ Hc Hw1) as Hwc.
      assert (Hic : name_index wc = name_index w1) by apply Hc.
      destruct (0 <? List.length (name_index w1)); [|unfold ret; split; [auto|]; now rewrite Hic].
      pose proof (updateProgress_within
                    {| last_cursor := last_cursor progress;
                       total_indexed := List.length (name_index w1);
                       completed := completed progress |}
                    wc ltac:(simpl; rewrite Hic; lia) Hwc) as [Hu Hi].
      unfold bind, ret.
      destruct (IndexBuilder.updateProgress _ wc) as [[[]|e] wu]; simpl in Hu, Hi;
        [|exact Hu].
      split; [exact Hu|]. simpl. rewrite Hi, Hic. lia. }
    apply (bind_case _ _ _ P); intros progress' w2 E2; rewrite E2 in Hboot;
      [|now split].
    destruct Hboot as [Hw2 Ht2].
    destruct (completed progress').
    { split; [exact Hw2|]. simpl. now intros total [= <-]. }
    unfold bind. destruct (negb (NOTION_DATABASE_ID w2)); [now split|].
    exact (batches_within _ clock (le_n _) startTime (last_cursor progress')
             (total_indexed progress') w2 Ht2 Hw2). }
  unfold IndexBuilder.indexBuilder. cbv zeta.
  destruct (IndexBuilder.build startTime clock w) as [[report|e] w1];
    destruct Hbuild as [H1 H2]; simpl in *; split; auto; discriminate.
Qed.

End Totals.

(** ** What a scan that is over has covered *)

Lemma has_page_id_app pageId rows new :
  has_page_id pageId (rows ++ new) = has_page_id pageId rows || has_page_id pageId new.
Proof. unfold has_page_id. apply existsb_app. Qed.

Lemma covered_frame k w w1 :
  notion_pages w1 = notion_pages w ->
  (exists new, name_index w1 = name_index w ++ new) ->
  covered k w -> covered k w1.
Proof.
  unfold covered. intros Hp (new & Hi) H p Hin Hn. rewrite Hp in Hin.
  rewrite Hi, has_page_id_app, (H p Hin Hn). reflexivity.
Qed.

Lemma covered_same k w w1 :
  notion_pages w1 = notion_pages w -> name_index w1 = name_index w ->
  covered k w -> covered k w1.
Proof.
  intros Hp Hi. apply covered_frame; [exact Hp|]. exists []. now rewrite app_nil_r.
Qed.

Lemma covered_beyond k w :
  List.length (notion_pages w) <= k -> covered k w ->
  covered (List.length (notion_pages w)) w.
Proof.
  unfold covered. intros Hk H p Hin. apply H.
  rewrite firstn_all in Hin. now rewrite firstn_all2 by exact Hk.
Qed.

Lemma scan_covers_same w w1 :
  notion_pages w1 = notion_pages w -> name_index w1 = name_index w ->
  index_builder_progress w1 = index_builder_progress w ->
  scan_covers w -> scan_covers w1.
Proof.
  unfold scan_covers. intros Hp Hi ->. destruct (index_builder_progress w); [|auto].
  rewrite Hp. intros [H1 H2]. split; [|intros Hc]; eapply covered_same; eauto.
Qed.

Lemma updateProgress_served data w :
  sqlite_faults w = [] ->
  IndexBuilder.updateProgress data w
  = (Ok tt,
     match index_builder_progress w with
     | Some _ => write_progress data (log_call (SqlUpdateProgress data) w)
     | None => log_call (SqlUpdateProgress data) w
     end).
Proof.
  intros Hf. unfold IndexBuilder.updateProgress, IndexBuilder.retryWithBackoff.
  apply retry_loop_ok. rewrite sqlite_execute_served by exact Hf.
  unfold run_update_progress. simpl. now destruct (index_builder_progress w).
Qed.

Lemma getProgress_served w :
  sqlite_faults w = [] ->
  IndexBuilder.getProgress w
  = match index_builder_progress w with
    | Some row => (Ok row, log_call SqlSelectProgress w)
    | None =>
        (Ok initial_progress,
         write_progress initial_progress
           (log_call SqlInsertProgress (log_call SqlSelectProgress w)))
    end.
Proof.
  intros Hf. unfold IndexBuilder.getProgress, IndexBuilder.retryWithBackoff.
  unfold bind at 1.
  rewrite (retry_loop_ok rate_limit_signal
             (sqlite_execute SqlSelectProgress
                (fun w => (Ok (index_builder_progress w), w))) 1000 2 0
             undefined_error w (index_builder_progress w)
             (log_call SqlSelectProgress w))
    by now rewrite sqlite_execute_served by exact Hf.
  destruct (index_builder_progress w) eqn:Hrow; [reflexivity|].
  unfold bind.
  rewrite (retry_loop_ok rate_limit_signal
             (sqlite_execute SqlInsertProgress run_insert_progress) 1000 2 0
             undefined_error (log_call SqlSelectProgress w) tt
             (write_progress initial_progress
                (log_call SqlInsertProgress (log_call SqlSelectProgress w))));
    [reflexivity|].
  rewrite sqlite_execute_served by exact Hf.
  unfold run_insert_progress. simpl. now rewrite Hrow.
Qed.

Lemma getExistingIndexCount_served w :
  sqlite_faults w = [] ->
  IndexBuilder.getExistingIndexCount w
  = (Ok (List.length (name_index w)), log_call SqlCountNames w).
Proof.
  intros Hf. unfold IndexBuilder.getExistingIndexCount, IndexBuilder.retryWithBackoff.
  apply retry_loop_ok. now rewrite sqlite_execute_served by exact Hf.
Qed.

Lemma builder_query_answer cursor size w :
  let out := IndexBuilder.queryNotionDatabase cursor size w in
  notion_pages (snd out) = notion_pages w
  /\ same_sqlite w (snd out)
  /\ forall r, fst out = Ok r -> r = query_page cursor size (notion_pages w).
Proof.
  cbv zeta. unfold IndexBuilder.queryNotionDatabase, bind, getNotionHeaders, fetch,
    serve_query, throw, ret.
  destruct (NOTION_TOKEN w); simpl;
    [|split; [reflexivity | split; [apply same_sqlite_refl | discriminate]]].
  destruct (http_faults w) as [|[| |] rest]; simpl;
    (split; [reflexivity | split; [now repeat split|]]);
    intros r; try discriminate; now intros [= <-].
Qed.

Section Coverage.
Context {U : UnicodeTables}.

Lemma processBatch_from_served pages : forall indexed w,
  sqlite_faults w = [] ->
  exists n w1,
    IndexBuilder.processBatch_from pages indexed w = (Ok n, w1)
    /\ sqlite_faults w1 = []
    /\ notion_pages w1 = notion_pages w
    /\ index_builder_progress w1 = index_builder_progress w
    /\ (exists new, name_index w1 = name_index w ++ new)
    /\ (forall p, In p pages -> named p = true ->
                  has_page_id (page_id p) (name_index w1) = true).
Proof.
  induction pages as [|page rest IH]; intros indexed w Hf.
  - exists indexed, w. simpl. split; [reflexivity|]. split; [exact Hf|].
    split; [reflexivity|]. split; [reflexivity|].
    split; [exists []; now rewrite app_nil_r | intros p []].
  - assert (Hskip : named page = false ->
              exists n w1,
                IndexBuilder.processBatch_from rest indexed w = (Ok n, w1)
                /\ sqlite_faults w1 = []
                /\ notion_pages w1 = notion_pages w
                /\ index_builder_progress w1 = index_builder_progress w
                /\ (exists new, name_index w1 = name_index w ++ new)
                /\ (forall p, In p (page :: rest) -> named p = true ->
                              has_page_id (page_id p) (name_index w1) = true)).
    { intros Hn. destruct (IH indexed w Hf) as (n & w1 & H1 & H2 & H3 & H4 & H5 & H6).
      exists n, w1. do 5 (split; [assumption|]).
      intros p [<-|Hin] Hp; [congruence | auto]. }
    simpl. unfold named in Hskip.
    destruct (hd_error (title page)) as [[|c name]|] eqn:Htitle;
      try (apply Hskip; reflexivity).
    unfold bind at 1. rewrite insertIntoIndex_served by exact Hf.
    set (row := {| row_name := IndexBuilder.normalizeName (c :: name);
                   notion_page_id := page_id page |}).
    set (w0 := log_call (SqlInsertName (IndexBuilder.normalizeName (c :: name))
                           (page_id page)) w).
    destruct (has_page_id (page_id page) (name_index w)) eqn:Hhas.
    + destruct (IH indexed w0 Hf) as (n & w1 & H1 & H2 & H3 & H4 & (new & H5) & H6).
      exists n, w1. do 4 (split; [assumption|]). split; [now exists new|].
      intros p [<-|Hin] Hp; [|auto].
      rewrite H5. simpl. now rewrite has_page_id_app, Hhas.
    + destruct (IH (S indexed) (set_name_index (name_index w ++ [row]) w0) Hf)
        as (n & w1 & H1 & H2 & H3 & H4 & (new & H5) & H6).
      exists n, w1. do 4 (split; [assumption|]). split.
      * exists (row :: new). rewrite H5. simpl. now rewrite <- app_assoc.
      * intros p [<-|Hin] Hp; [|auto].
        rewrite H5. simpl. rewrite has_page_id_app.
        unfold row. now rewrite has_page_id_inserted.
Qed.


Lemma covered_batch k w w1 :
  notion_pages w1 = notion_pages w ->
  (exists new, name_index w1 = name_index w ++ new) ->
  covered k w ->
  (forall p, In p (firstn IndexBuilder.BATCH_SIZE (skipn k (notion_pages w))) ->
             named p = true -> has_page_id (page_id p) (name_index w1) = true) ->
  covered (k + IndexBuilder.BATCH_SIZE) w1.
Proof.
  intros Hp Hi Hk Hb p Hin Hn. rewrite Hp, <- firstn_more in Hin.
  apply in_app_or in Hin as [Hin|Hin]; [|now apply Hb].
  apply (covered_frame k w w1 Hp Hi Hk); [now rewrite Hp | exact Hn].
Qed.

Lemma batches_covers n :
  forall clock, List.length clock <= n ->
  forall startTime cursor t w,
    sqlite_faults w = [] ->
    index_builder_progress w <> None ->
    covered (cursor_position cursor) w ->
    scan_covers w ->
    let out := IndexBuilder.batches clock startTime cursor t w in
    notion_pages (snd out) = notion_pages w
    /\ scan_covers (snd out)
    /\ forall report, fst out = Ok report -> finished report = true ->
                      covered (List.length (notion_pages w)) (snd out)
                      /\ marked_completed (snd out).
Proof.
  set (P := fun (w : World) (out : Result IndexBuilder.Report * World) =>
              notion_pages (snd out) = notion_pages w
              /\ scan_covers (snd out)
              /\ forall report, fst out = Ok report -> finished report = true ->
                                covered (List.length (notion_pages w)) (snd out)
                                /\ marked_completed (snd out)).
  assert (Hstop : forall t w, scan_covers w -> P w (Ok (IndexBuilder.Partial t), w)).
  { intros t w Hw. split; [reflexivity|]. split; [exact Hw|].
    simpl. intros report [= <-]. discriminate. }
  assert (Hweak : forall w w1 out,
             notion_pages w1 = notion_pages w -> P w1 out -> P w out).
  { intros w w1 out Hp (H1 & H2 & H3). split; [congruence|]. split; [exact H2|].
    rewrite <- Hp. exact H3. }
  induction n as [|n IH]; intros clock Hlen startTime cursor t w Hf Hrow Hk Hw; cbv zeta;
    fold (P w (IndexBuilder.batches clock startTime cursor t w)).
  - destruct clock; [|simpl in Hlen; lia]. now apply Hstop.
  - destruct clock as [|now clock1]; simpl; [now apply Hstop|].
    destruct (now - startTime <? IndexBuilder.MAX_RUNTIME_MS)%Z; [|now apply Hstop].
    pose proof (builder_query_answer cursor IndexBuilder.BATCH_SIZE w) as Hq.
    cbv zeta in Hq.
    apply (bind_case _ _ _ (P w)); intros response wq Eq; rewrite Eq in Hq;
      simpl in Hq; destruct Hq as (Hpq & (Hiq & Hfq & Hrq & _) & Hans).
    2: { split; [exact Hpq|]. split; [now apply (scan_covers_same w)|]. discriminate. }
    specialize (Hans response eq_refl).
    assert (Hfq' : sqlite_faults wq = []) by congruence.
    assert (Hkq : covered (cursor_position cursor) wq) by now apply (covered_same _ w).
    assert (Hwq : scan_covers wq) by now apply (scan_covers_same w).
    assert (Hrowq : index_builder_progress wq <> None) by congruence.
    apply (Hweak w wq _ Hpq). clear Hw Hk Hrow Hf.
    assert (Hres : results response
                   = firstn IndexBuilder.BATCH_SIZE
                       (skipn (cursor_position cursor) (notion_pages w)))
      by (rewrite Hans; destruct cursor; reflexivity).
    rewrite <- Hpq in Hres.
    destruct (List.length (results response) =? 0) eqn:Hempty.
    + unfold bind. rewrite updateProgress_served by exact Hfq'.
      destruct (index_builder_progress wq) as [row|] eqn:Hrow; [|congruence].
      apply Nat.eqb_eq, length_zero_iff_nil in Hempty.
      assert (Hall : covered (List.length (notion_pages wq)) wq).
      { apply covered_beyond with (cursor_position cursor); [|exact Hkq].
        rewrite Hempty in Hres. symmetry in Hres.
        destruct (skipn (cursor_position cursor) (notion_pages wq)) eqn:Hs;
          [|discriminate].
        pose proof (length_skipn (cursor_position cursor) (notion_pages wq)) as Hl.
        rewrite Hs in Hl. simpl in Hl. lia. }
      split; [reflexivity|]. split.
      * unfold scan_covers. simpl. split; [intros p []|intros _; exact Hall].
      * simpl. intros report [= <-] _. split; [exact Hall|].
        eexists. split; reflexivity.
    + destruct (processBatch_from_served (results response) 0 wq Hfq')
        as (indexed & wp & Hrun & Hfp & Hpp & Hrp & Hip & Hcov).
      unfold bind at 1. unfold IndexBuilder.processBatch. rewrite Hrun.
      unfold bind at 1. rewrite updateProgress_served by exact Hfp.
      destruct (index_builder_progress wp) as [row|] eqn:Hrow; [|congruence].
      set (data := {| last_cursor := next_cursor response;
                      total_indexed := t + indexed;
                      completed := negb (has_more response) |}).
      set (wu := write_progress data (log_call (SqlUpdateProgress data) wp)).
      assert (Hnext : covered (cursor_position cursor + IndexBuilder.BATCH_SIZE) wp).
      { apply (covered_batch _ wq wp Hpp Hip Hkq). rewrite <- Hres. exact Hcov. }
      assert (Hmore : has_more response
                      = (IndexBuilder.BATCH_SIZE
                         <? List.length (skipn (cursor_position cursor)
                                           (notion_pages wq))))
        by (rewrite Hans, <- Hpq; destruct cursor; reflexivity).
      assert (Hcur : next_cursor response
                     = if has_more response
                       then Some (cursor_position cursor + IndexBuilder.BATCH_SIZE)
                       else None)
        by (rewrite Hans; destruct cursor; reflexivity).
      assert (Hall : has_more response = false ->
                     covered (List.length (notion_pages wu)) wu).
      { intros Hno. rewrite Hno in Hmore. symmetry in Hmore.
        apply Nat.ltb_ge in Hmore. rewrite length_skipn in Hmore.
        apply (covered_same _ wp); try reflexivity.
        change (covered (List.length (notion_pages wp)) wp).
        apply covered_beyond with (cursor_position cursor + IndexBuilder.BATCH_SIZE);
          [rewrite Hpp; lia | exact Hnext]. }
      assert (Hwu : scan_covers wu).
      { unfold scan_covers. simpl. rewrite Hcur.
        destruct (has_more response); simpl.
        - split; [|discriminate]. now apply (covered_same _ wp).
        - split; [intros p []|]. intros _. now apply Hall. }
      assert (Hpu : notion_pages wu = notion_pages wq) by exact Hpp.
      destruct (has_more response) eqn:Hm; simpl negb; cbv iota.
      * assert (Hpause : forall t', P wq (Ok (IndexBuilder.Partial t'), wu)).
        { intros t'. split; [exact Hpu|]. split; [exact Hwu|].
          simpl. intros report [= <-]. discriminate. }
        destruct clock1 as [|duration [|now2 clock2]]; try apply Hpause.
        destruct (now2 - startTime >? IndexBuilder.PAUSE_AFTER_MS)%Z; [apply Hpause|].
        apply (Hweak wq wu _ Hpu). rewrite Hcur.
        apply (IH clock2 ltac:(simpl in Hlen; lia) startTime
                 (Some (cursor_position cursor + IndexBuilder.BATCH_SIZE))
                 (t + indexed) wu); auto; try discriminate.
      * split; [exact Hpu|]. split; [exact Hwu|].
        simpl. intros report [= <-] _. rewrite <- Hpu. split; [now apply Hall|].
        exists data. split; [reflexivity|]. unfold data. simpl.
        rewrite ?Hm. reflexivity.
Qed.

Lemma bootstrap_served progress w1 :
  sqlite_faults w1 = [] ->
  index_builder_progress w1 = Some progress ->
  exists progress' w2,
    (if negb (completed progress) && (total_indexed progress =? 0)
     then
       bind IndexBuilder.getExistingIndexCount (fun existingCount =>
         if 0 <? existingCount
         then
           bind (IndexBuilder.updateProgress
                   {| last_cursor := last_cursor progress;
                      total_indexed := existingCount;
                      completed := completed progress |})
                (fun _ => ret {| last_cursor := last_cursor progress;
                                 total_indexed := existingCount;
                                 completed := completed progress |})
         else ret progress)
     else ret progress) w1 = (Ok progress', w2)
    /\ sqlite_faults w2 = []
    /\ notion_pages w2 = notion_pages w1
    /\ name_index w2 = name_index w1
    /\ index_builder_progress w2 = Some progress'
    /\ last_cursor progress' = last_cursor progress
    /\ completed progress' = completed progress.
Proof.
  intros Hf Hrow.
  destruct (negb (completed progress) && (total_indexed progress =? 0)).
  - unfold bind at 1. rewrite getExistingIndexCount_served by exact Hf.
    destruct (0 <? List.length (name_index w1)).
    + unfold bind, ret. rewrite updateProgress_served by exact Hf.
      simpl index_builder_progress. rewrite Hrow.
      eexists. eexists. split; [reflexivity|]. simpl. now repeat split.
    + exists progress. eexists. split; [reflexivity|]. simpl. now repeat split.
  - exists progress, w1. now repeat split.
Qed.

(** X15. When the store does not fail, the scanner resumes without gaps:
    if the records before the stored cursor are indexed when an invocation
    starts, they still are when it ends, wherever the clock or a failure
    of Notion stopped it, and no record of Notion is changed.  An
    invocation that reports the scan over has every named record of the
    database in the index and the progress row marked completed. *)
Theorem indexBuilder_resumes_without_gaps (startTime : Z) (clock : list Z) (w : World) :
  sqlite_faults w = [] ->
  scan_covers w ->
  let out := IndexBuilder.indexBuilder startTime clock w in
  notion_pages (snd out) = notion_pages w
  /\ scan_covers (snd out)
  /\ (finished (fst out) = true ->
      covered (List.length (notion_pages w)) (snd out)
      /\ marked_completed (snd out)).
Proof.
  intros Hf Hw. cbv zeta.
  set (P := fun out : IndexBuilder.Report * World =>
              notion_pages (snd out) = notion_pages w
              /\ scan_covers (snd out)
              /\ (finished (fst out) = true ->
                  covered (List.length (notion_pages w)) (snd out)
                  /\ marked_completed (snd out))).
  change (P (IndexBuilder.indexBuilder startTime clock w)).
  unfold IndexBuilder.indexBuilder, IndexBuilder.build.
  unfold bind at 1. rewrite initializeTables_served by exact Hf.
  set (w0 := log_call SqlCreateProgress
               (log_call SqlCreateIdxName (log_call SqlCreateNameIndex w))).
  unfold bind at 1. rewrite getProgress_served by exact Hf.
  assert (Hstart : exists progress w1,
             match index_builder_progress w0 with
             | Some row => (Ok row, log_call SqlSelectProgress w0)
             | None =>
                 (Ok initial_progress,
                  write_progress initial_progress
                    (log_call SqlInsertProgress (log_call SqlSelectProgress w0)))
             end = (Ok progress, w1)
             /\ sqlite_faults w1 = []
             /\ notion_pages w1 = notion_pages w
             /\ index_builder_progress w1 = Some progress
             /\ scan_covers w1).
  { change (index_builder_progress w0) with (index_builder_progress w).
    destruct (index_builder_progress w) as [row|] eqn:Hrow.
    - eexists. eexists. split; [reflexivity|]. simpl.
      split; [exact Hf|]. split; [reflexivity|]. split; [exact Hrow|].
      now apply (scan_covers_same w).
    - eexists. eexists. split; [reflexivity|]. simpl.
      split; [exact Hf|]. split; [reflexivity|]. split; [reflexivity|].
      unfold scan_covers. simpl. split; [intros p [] | discriminate]. }
  destruct Hstart as (progress & w1 & -> & Hf1 & Hp1 & Hrow1 & Hw1).
  destruct (bootstrap_served progress w1 Hf1 Hrow1)
    as (progress' & w2 & Hboot & Hf2 & Hp2 & Hi2 & Hrow2 & Hcur & Hdone).
  unfold bind at 1. rewrite Hboot.
  assert (Hw2 : scan_covers w2).
  { unfold scan_covers in *. rewrite Hrow2. rewrite Hrow1 in Hw1.
    rewrite Hcur, Hdone, Hp2. destruct Hw1 as [H1 H2].
    split; [|intros Hc]; eapply covered_same; eauto. }
  assert (Hpages : notion_pages w2 = notion_pages w) by congruence.
  destruct (completed progress') eqn:Hc.
  { unfold P. simpl. split; [exact Hpages|]. split; [exact Hw2|]. intros _.
    split; [|now exists progress'].
    rewrite <- Hpages. unfold scan_covers in Hw2. rewrite Hrow2 in Hw2.
    now apply Hw2. }
  unfold bind. simpl fst. simpl snd.
  destruct (negb (NOTION_DATABASE_ID w2)).
  { unfold P. simpl. split; [exact Hpages|]. split; [exact Hw2 | discriminate]. }
  assert (Hk : covered (cursor_position (last_cursor progress')) w2).
  { unfold scan_covers in Hw2. rewrite Hrow2 in Hw2. apply Hw2. }
  pose proof (batches_covers _ clock (le_n _) startTime (last_cursor progress')
                (total_indexed progress') w2 Hf2 ltac:(congruence) Hk Hw2) as H.
  cbv zeta in H.
  destruct (IndexBuilder.batches clock startTime (last_cursor progress')
              (total_indexed progress') w2) as [[report|e] w3];
    unfold P; simpl in *; destruct H as (H1 & H2 & H3).
  - split; [congruence|]. split; [exact H2|]. intros Hfin.
    rewrite <- Hpages. now apply (H3 report).
  - split; [congruence|]. split; [exact H2 | discriminate].
Qed.

End Coverage.

(** ** A backfill that nothing disturbs *)

Lemma backfill_query_served cursor size w :
  NOTION_TOKEN w = true ->
  http_faults w = [] ->
  Backfill.queryNotionDatabase cursor size w
  = (Ok (query_page cursor size (notion_pages w)), log_call (HttpQuery cursor size) w).
Proof.
  intros Ht Hh. unfold Backfill.queryNotionDatabase, Backfill.retryWithBackoff.
  unfold bind at 1.
  rewrite (retry_loop_ok _ _ _ _ _ _ w
             (RespOk (query_page cursor size (notion_pages w)))
             (log_call (HttpQuery cursor size) w)); [reflexivity|].
  unfold bind, getNotionHeaders, fetch, serve_query. rewrite Ht. simpl. now rewrite Hh.
Qed.

Lemma backfill_fetch_served pageId w p :
  NOTION_TOKEN w = true ->
  http_faults w = [] ->
  find_page pageId (notion_pages w) = Some p ->
  Backfill.fetchNotionPage pageId w = (Ok p, log_call (HttpGetPage pageId) w).
Proof.
  intros Ht Hh Hp. unfold Backfill.fetchNotionPage, Backfill.retryWithBackoff.
  unfold bind at 1.
  rewrite (retry_loop_ok _ _ _ _ _ _ w (RespOk p) (log_call (HttpGetPage pageId) w));
    [reflexivity|].
  unfold bind, getNotionHeaders, fetch, serve_get. rewrite Ht. simpl.
  now rewrite Hh, Hp.
Qed.

Lemma fetchAllPages_loop_served fuel : forall allPages cursor w,
  NOTION_TOKEN w = true ->
  http_faults w = [] ->
  exists fetched w1,
    Backfill.fetchAllPages_loop fuel allPages cursor w = (Ok fetched, w1)
    /\ NOTION_TOKEN w1 = true /\ http_faults w1 = []
    /\ notion_pages w1 = notion_pages w
    /\ same_sqlite w w1
    /\ filter is_patch (calls w1) = filter is_patch (calls w).
Proof.
  induction fuel as [|fuel IH]; intros allPages cursor w Ht Hh.
  - exists allPages, w. simpl. repeat split; auto.
  - rewrite fetchAllPages_loop_S. unfold bind at 1.
    rewrite backfill_query_served by assumption.
    destruct (next_cursor (query_page cursor Backfill.BATCH_SIZE (notion_pages w)))
      as [c|].
    + unfold bind, sleep.
      destruct (IH (allPages ++ results (query_page cursor Backfill.BATCH_SIZE
                                           (notion_pages w)))
                  (Some c)
                  (add_sleep Backfill.RATE_LIMIT_DELAY
                     (log_call (HttpQuery cursor Backfill.BATCH_SIZE) w)) Ht Hh)
        as (fetched & w1 & H1 & H2 & H3 & H4 & H5 & H6).
      exists fetched, w1. split; [exact H1|]. repeat split; auto; apply H5.
    + eexists. eexists. split; [reflexivity|]. simpl. now repeat split.
Qed.

Section UndisturbedBackfill.
Context {U : UnicodeTables}.

(** X16. The fetch phase of the backfill returns the database: whenever
    it succeeds it has collected every record, once, in the order of the
    database, and it has changed none; and it does succeed when the token
    is set and Notion serves the requests. *)
Theorem fetchAllPages_returns_database (w : World) :
  (forall fetched w1,
      Backfill.fetchAllPages w = (Ok fetched, w1) ->
      fetched = notion_pages w /\ notion_pages w1 = notion_pages w)
  /\ (NOTION_TOKEN w = true -> http_faults w = [] ->
      exists w1, Backfill.fetchAllPages w = (Ok (notion_pages w), w1)
                 /\ same_sqlite w w1).
Proof.
  split; [intros fetched w1; apply fetchAllPages_all|].
  intros Ht Hh.
  destruct (fetchAllPages_loop_served (S (List.length (notion_pages w))) [] None w Ht Hh)
    as (fetched & w1 & H1 & _ & _ & _ & H5 & _).
  exists w1. split; [|exact H5].
  change (Backfill.fetchAllPages w = (Ok fetched, w1)) in H1.
  now destruct (fetchAllPages_all w fetched w1 H1) as [<- _].
Qed.

Lemma Forall2_marked_multi_patch pageId tags l :
  Forall2 (marked_multi [pageId]) l
    (map (set_flag pageId (MultiSelectFlag (tags ++ [js "Duplicate"]))) l).
Proof.
  induction l as [|p l IH]; simpl; [constructor|]. constructor; [|exact IH].
  unfold marked_multi, marked_as, set_flag.
  destruct (String.eqb (page_id p) pageId) eqn:E; simpl; auto.
  apply String.eqb_eq in E. split; [reflexivity|]. split; [reflexivity|].
  right. split; [now left|]. eexists. split; [reflexivity|].
  apply hasDuplicateTag_added.
Qed.

Lemma all_tagged_marked_multi ids ids' l l1 :
  Forall2 (marked_multi ids') l l1 -> all_tagged ids l -> all_tagged ids l1.
Proof.
  intros H Hs pageId Hin. destruct (Hs pageId Hin) as (p & Hf & Hc).
  destruct (find_page_marked _ _ _ _ _ H Hf)
    as (p1 & Hf1 & _ & _ & [->|[_ (tags & Hd & Htags)]]).
  - now exists p.
  - exists p1. split; [exact Hf1|]. unfold carries_duplicate. now rewrite Hd.
Qed.

Lemma multi_selectable_marked ids ids' l l1 :
  Forall2 (marked_multi ids') l l1 -> multi_selectable ids l -> multi_selectable ids l1.
Proof.
  intros H Hs pageId Hin. destruct (Hs pageId Hin) as (p & tags & Hf & Hflag).
  destruct (find_page_marked _ _ _ _ _ H Hf)
    as (p1 & Hf1 & _ & _ & [->|[_ (tags1 & Hd & _)]]).
  - now exists p, tags.
  - now exists p1, tags1.
Qed.

(** One round of the inner loop, when Notion serves its requests. *)
Lemma backfill_tag_served page c w p tags :
  NOTION_TOKEN w = true ->
  http_faults w = [] ->
  find_page (page_id page) (notion_pages w) = Some p ->
  duplicate_flag p = MultiSelectFlag tags ->
  exists c' w1,
    try_catch
      (currentPage <- Backfill.fetchNotionPage (page_id page) ;;
       let currentTags := Backfill.multi_select currentPage in
       wasTagged <- Backfill.updateNotionTags (page_id page) currentTags ;;
       sleep Backfill.RATE_LIMIT_DELAY ;;
       ret {| Backfill.totalDuplicates := Backfill.totalDuplicates c;
              Backfill.tagged :=
                if wasTagged then S (Backfill.tagged c) else Backfill.tagged c;
              Backfill.skipped :=
                if wasTagged then Backfill.skipped c else S (Backfill.skipped c);
              Backfill.processed := S (Backfill.processed c) |})%promise
      (fun _ => ret c) w = (Ok c', w1)
    /\ NOTION_TOKEN w1 = true /\ http_faults w1 = [] /\ same_sqlite w w1
    /\ Forall2 (marked_multi [page_id page]) (notion_pages w) (notion_pages w1)
    /\ all_tagged [page_id page] (notion_pages w1)
    /\ Backfill.totalDuplicates c' = Backfill.totalDuplicates c
    /\ Backfill.processed c' = S (Backfill.processed c)
    /\ Backfill.tagged c' + Backfill.skipped c'
       = S (Backfill.tagged c + Backfill.skipped c).
Proof.
  intros Ht Hh Hp Hflag. unfold try_catch. unfold bind at 1.
  rewrite (backfill_fetch_served _ _ _ Ht Hh Hp).
  unfold Backfill.multi_select. rewrite Hflag. cbv zeta.
  unfold Backfill.updateNotionTags.
  destruct (Backfill.hasDuplicateTag tags) eqn:Hc.
  - unfold bind, ret, sleep. eexists. eexists. split; [reflexivity|]. simpl.
    split; [exact Ht|]. split; [exact Hh|]. split; [now repeat split|].
    split; [apply Forall2_marked_refl|].
    split; [|repeat split; lia].
    intros i [<-|[]]. exists p. split; [exact Hp|].
    unfold carries_duplicate. now rewrite Hflag.
  - change Backfill.DRY_RUN with false. cbv iota.
    unfold Backfill.retryWithBackoff. unfold bind at 1 2.
    rewrite (retry_loop_ok _ _ _ _ _ _
               (log_call (HttpGetPage (page_id page)) w) tt
               (set_notion_pages
                  (map (set_flag (page_id page)
                          (MultiSelectFlag (tags ++ [js "Duplicate"])))
                     (notion_pages w))
                  (log_call (HttpPatchPage (page_id page)
                               (MultiSelectFlag (tags ++ [js "Duplicate"])))
                     (log_call (HttpGetPage (page_id page)) w)))).
    + unfold bind, ret, sleep. eexists. eexists. split; [reflexivity|]. simpl.
      split; [exact Ht|]. split; [exact Hh|]. split; [now repeat split|].
      split; [apply Forall2_marked_multi_patch|].
      split; [|repeat split; lia].
      intros i [<-|[]]. rewrite find_page_set_flag, Hp. simpl.
      eexists. split; [reflexivity|].
      unfold carries_duplicate, set_flag.
      rewrite (find_page_id _ _ _ Hp), String.eqb_refl. simpl.
      apply hasDuplicateTag_added.
    + unfold Backfill.patchTags, bind, getNotionHeaders, fetch, serve_patch, ret.
      simpl. rewrite Ht. simpl. rewrite Hh, Hp, Hflag. reflexivity.
Qed.

Lemma tagPages_served pages : forall c w,
  NOTION_TOKEN w = true ->
  http_faults w = [] ->
  multi_selectable (map page_id pages) (notion_pages w) ->
  exists c' w1,
    Backfill.tagPages pages c w = (Ok c', w1)
    /\ NOTION_TOKEN w1 = true /\ http_faults w1 = [] /\ same_sqlite w w1
    /\ Forall2 (marked_multi (map page_id pages)) (notion_pages w) (notion_pages w1)
    /\ all_tagged (map page_id pages) (notion_pages w1)
    /\ Backfill.totalDuplicates c' = Backfill.totalDuplicates c
    /\ Backfill.processed c' = Backfill.processed c + List.length pages
    /\ Backfill.tagged c' + Backfill.skipped c'
       = Backfill.tagged c + Backfill.skipped c + List.length pages.
Proof.
  induction pages as [|page rest IH]; intros c w Ht Hh Hsel.
  - exists c, w. simpl. split; [reflexivity|]. split; [exact Ht|]. split; [exact Hh|].
    split; [apply same_sqlite_refl|]. split; [apply Forall2_marked_refl|].
    split; [intros i []|]. repeat split; lia.
  - destruct (Hsel (page_id page) (or_introl eq_refl)) as (p & tags & Hp & Hflag).
    destruct (backfill_tag_served page c w p tags Ht Hh Hp Hflag)
      as (c1 & w1 & Hrun & Ht1 & Hh1 & Hs1 & Hm1 & Ha1 & Hd1 & Hp1 & Hts1).
    assert (Hsel1 : multi_selectable (map page_id rest) (notion_pages w1)).
    { apply (multi_selectable_marked _ _ _ _ Hm1). intros i Hi. apply Hsel. now right. }
    destruct (IH c1 w1 Ht1 Hh1 Hsel1)
      as (c2 & w2 & Hrun2 & Ht2 & Hh2 & Hs2 & Hm2 & Ha2 & Hd2 & Hp2 & Hts2).
    exists c2, w2. cbn [Backfill.tagPages]. unfold bind at 1.
    cbv zeta in Hrun. rewrite Hrun.
    split; [exact Hrun2|]. split; [exact Ht2|]. split; [exact Hh2|].
    split; [eapply same_sqlite_trans; eassumption|]. split; [|split].
    + apply Forall2_marked_trans with (notion_pages w1).
      * apply (Forall2_marked_weaken [page_id page]); [|exact Hm1].
        intros i [<-|[]]. now left.
      * apply (Forall2_marked_weaken (map page_id rest)); [|exact Hm2].
        intros i Hi. now right.
    + intros i [<-|Hi].
      * apply (all_tagged_marked_multi _ _ _ _ Hm2 Ha1). now left.
      * now apply Ha2.
    + simpl. repeat split; lia.
Qed.

Lemma tagGroups_served nameMap : forall c w,
  NOTION_TOKEN w = true ->
  http_faults w = [] ->
  multi_selectable (duplicated_ids nameMap) (notion_pages w) ->
  exists c' w1,
    Backfill.tagGroups nameMap c w = (Ok c', w1)
    /\ NOTION_TOKEN w1 = true /\ http_faults w1 = [] /\ same_sqlite w w1
    /\ Forall2 (marked_multi (duplicated_ids nameMap)) (notion_pages w) (notion_pages w1)
    /\ all_tagged (duplicated_ids nameMap) (notion_pages w1)
    /\ Backfill.totalDuplicates c'
       = Backfill.totalDuplicates c + List.length (duplicated_ids nameMap)
    /\ Backfill.processed c'
       = Backfill.processed c + List.length (duplicated_ids nameMap)
    /\ Backfill.tagged c' + Backfill.skipped c'
       = Backfill.tagged c + Backfill.skipped c + List.length (duplicated_ids nameMap).
Proof.
  induction nameMap as [|[k pages] rest IH]; intros c w Ht Hh Hsel.
  - exists c, w. simpl. split; [reflexivity|]. split; [exact Ht|]. split; [exact Hh|].
    split; [apply same_sqlite_refl|]. split; [apply Forall2_marked_refl|].
    split; [intros i []|]. repeat split; lia.
  - unfold duplicated_ids in *. simpl flat_map in *. simpl Backfill.tagGroups.
    destruct (List.length pages <=? 1) eqn:Hlen; [now apply IH|].
    set (c0 := {| Backfill.totalDuplicates :=
                    Backfill.totalDuplicates c + List.length pages;
                  Backfill.tagged := Backfill.tagged c;
                  Backfill.skipped := Backfill.skipped c;
                  Backfill.processed := Backfill.processed c |}).
    destruct (tagPages_served pages c0 w Ht Hh)
      as (c1 & w1 & Hrun & Ht1 & Hh1 & Hs1 & Hm1 & Ha1 & Hd1 & Hp1 & Hts1).
    { intros i Hi. apply Hsel. apply in_or_app. now left. }
    assert (Hsel1 : multi_selectable
                      (flat_map (fun group => if List.length (snd group) <=? 1 then []
                                              else map page_id (snd group)) rest)
                      (notion_pages w1)).
    { apply (multi_selectable_marked _ _ _ _ Hm1). intros i Hi. apply Hsel.
      apply in_or_app. now right. }
    destruct (IH c1 w1 Ht1 Hh1 Hsel1)
      as (c2 & w2 & Hrun2 & Ht2 & Hh2 & Hs2 & Hm2 & Ha2 & Hd2 & Hp2 & Hts2).
    exists c2, w2. unfold bind at 1. rewrite Hrun.
    split; [exact Hrun2|]. split; [exact Ht2|]. split; [exact Hh2|].
    split; [eapply same_sqlite_trans; eassumption|]. split; [|split].
    + apply Forall2_marked_trans with (notion_pages w1).
      * apply (Forall2_marked_weaken (map page_id pages)); [|exact Hm1].
        intros i Hi. apply in_or_app. now left.
      * eapply Forall2_marked_weaken; [|exact Hm2].
        intros i Hi. apply in_or_app. now right.
    + intros i Hi. apply in_app_or in Hi as [Hi|Hi].
      * exact (all_tagged_marked_multi (map page_id pages) _ _ _ Hm2 Ha1 i Hi).
      * now apply Ha2.
    + rewrite length_app, length_map. simpl in *. repeat split; lia.
Qed.

(** A record that shares its key is in a group of the duplicate map. *)
Lemma duplicated_ids_spec pages p :
  In p pages ->
  2 <= List.length (group_of p pages) ->
  In (page_id p) (duplicated_ids (Backfill.buildDuplicateMap pages)).
Proof.
  intros Hp Hlen. destruct (buildDuplicateMap_grouped pages) as (_ & Hgroups & Hkeys).
  unfold group_of in Hlen. destruct (key_of p) as [k|] eqn:Hk; [|simpl in Hlen; lia].
  specialize (Hkeys p k Hp Hk). apply in_map_iff in Hkeys as ([k' g] & Hfst & Hin).
  simpl in Hfst. subst k'. pose proof (Hgroups k g Hin) as Hg.
  unfold duplicated_ids. apply in_flat_map. exists (k, g). split; [exact Hin|].
  simpl. rewrite Hg.
  destruct (List.length (filter (has_key k) pages) <=? 1) eqn:E;
    [apply Nat.leb_le in E; lia|].
  apply in_map. apply filter_In. split; [exact Hp|]. now apply has_key_iff.
Qed.

Lemma duplicated_ids_pages pages pageId :
  In pageId (duplicated_ids (Backfill.buildDuplicateMap pages)) ->
  exists p, In p pages /\ page_id p = pageId /\ 2 <= List.length (group_of p pages).
Proof.
  intros Hin. destruct (buildDuplicateMap_grouped pages) as (_ & Hgroups & _).
  unfold duplicated_ids in Hin. apply in_flat_map in Hin as ([k g] & Hg & Hin).
  simpl in Hin. destruct (List.length g <=? 1) eqn:E; [destruct Hin|].
  apply Nat.leb_gt in E. apply in_map_iff in Hin as (p & Hid & Hp).
  pose proof (Hgroups k g Hg) as Hgk. rewrite Hgk in Hp.
  apply filter_In in Hp as [Hp Hkey]. apply has_key_iff in Hkey.
  exists p. split; [exact Hp|]. split; [exact Hid|].
  unfold group_of. rewrite Hkey, <- Hgk. lia.
Qed.

Lemma find_page_In pageId l p : find_page pageId l = Some p -> In p l.
Proof. unfold find_page. intros H. now apply find_some in H. Qed.

Lemma find_page_exists l p : In p l -> exists p', find_page (page_id p) l = Some p'.
Proof.
  unfold find_page. intros Hp.
  destruct (find (fun q => String.eqb (page_id q) (page_id p)) l) eqn:E; [eauto|].
  apply (find_none _ _ E) in Hp. now rewrite String.eqb_refl in Hp.
Qed.

Lemma filter_never {A} (l : list A) : filter (fun _ => false) l = [].
Proof. induction l as [|x l IH]; [reflexivity | exact IH]. Qed.

Lemma filter_or_length {A} (f g : A -> bool) (l : list A) :
  (forall x, In x l -> f x = true -> g x = false) ->
  List.length (filter (fun x => f x || g x) l)
  = List.length (filter f l) + List.length (filter g l).
Proof.
  induction l as [|x l IH]; intros H; [reflexivity|]. simpl.
  assert (IH' := IH (fun y Hy => H y (or_intror Hy))).
  destruct (f x) eqn:Ef; simpl.
  - rewrite (H x (or_introl eq_refl) Ef). simpl. now rewrite IH'.
  - destruct (g x); simpl; rewrite IH'; lia.
Qed.

(** The records with the key [k] that sit in a group of two or more are
    the whole group or none. *)
Lemma duplicated_with_key pages k :
  filter (fun p => (2 <=? List.length (group_of p pages)) && has_key k p) pages
  = if 2 <=? List.length (filter (has_key k) pages)
    then filter (has_key k) pages else [].
Proof.
  rewrite (filter_ext_in
             (fun p => (2 <=? List.length (group_of p pages)) && has_key k p)
             (fun p => (2 <=? List.length (filter (has_key k) pages)) && has_key k p)).
  - destruct (2 <=? List.length (filter (has_key k) pages)); simpl;
      [reflexivity | apply filter_never].
  - intros p _. destruct (has_key k p) eqn:Hk; [|now rewrite !andb_false_r].
    apply has_key_iff in Hk. unfold group_of. now rewrite Hk.
Qed.

Lemma duplicated_count_keys pages nameMap :
  NoDup (map fst nameMap) ->
  (forall k g, In (k, g) nameMap -> g = filter (has_key k) pages) ->
  List.length (duplicated_ids nameMap)
  = List.length
      (filter (fun p => (2 <=? List.length (group_of p pages))
                        && match key_of p with
                           | Some k => existsb (jsstring_eqb k) (map fst nameMap)
                           | None => false
                           end)
         pages).
Proof.
  induction nameMap as [|[k g] rest IH]; intros Hnd Hg.
  - simpl. rewrite (filter_ext _ (fun _ => false)); [now rewrite filter_never|].
    intros p. destruct (key_of p); apply andb_false_r.
  - inversion Hnd as [|k' ks Hk Hnd']; subst.
    unfold duplicated_ids. simpl flat_map. rewrite length_app.
    fold (duplicated_ids rest).
    rewrite (IH Hnd' (fun k0 g0 H => Hg k0 g0 (or_intror H))).
    rewrite (filter_ext
               (fun p => (2 <=? List.length (group_of p pages))
                         && match key_of p with
                            | Some k0 => existsb (jsstring_eqb k0) (map fst ((k, g) :: rest))
                            | None => false
                            end)
               (fun p => ((2 <=? List.length (group_of p pages)) && has_key k p)
                         || ((2 <=? List.length (group_of p pages))
                             && match key_of p with
                                | Some k0 => existsb (jsstring_eqb k0) (map fst rest)
                                | None => false
                                end))).
    2:{ intros p. unfold has_key. simpl map. simpl existsb.
        destruct (key_of p); [apply andb_orb_distrib_r|].
        now rewrite !andb_false_r. }
    rewrite filter_or_length.
    2:{ intros p _ Hp. apply andb_prop in Hp as [_ Hp]. apply has_key_iff in Hp.
        rewrite Hp. apply andb_false_intro2.
        destruct (existsb (jsstring_eqb k) (map fst rest)) eqn:E; [|reflexivity].
        apply existsb_exists in E as (k0 & Hin & E). apply jsstring_eqb_eq in E.
        subst k0. now contradiction Hk. }
    f_equal. rewrite duplicated_with_key, (Hg k g (or_introl eq_refl)). simpl snd.
    destruct (Nat.leb_spec (List.length (filter (has_key k) pages)) 1) as [H1|H1];
      destruct (Nat.leb_spec 2 (List.length (filter (has_key k) pages))) as [H2|H2];
      try lia; [reflexivity | apply length_map].
Qed.

(** The records the backfill counts as duplicates are the records of the
    database that share their key with another one. *)
Lemma duplicated_count pages :
  List.length (duplicated_ids (Backfill.buildDuplicateMap pages))
  = List.length (filter (fun p => 2 <=? List.length (group_of p pages)) pages).
Proof.
  destruct (buildDuplicateMap_grouped pages) as (Hnd & Hgroups & Hkeys).
  rewrite (duplicated_count_keys pages _ Hnd Hgroups). f_equal.
  apply filter_ext_in. intros p Hp.
  destruct (key_of p) as [k|] eqn:Hk.
  - assert (existsb (jsstring_eqb k)
              (map fst (Backfill.buildDuplicateMap pages)) = true) as ->.
    { apply existsb_exists. exists k. split; [now apply (Hkeys p) | now apply jsstring_eqb_eq]. }
    apply andb_true_r.
  - rewrite andb_false_r. unfold group_of. now rewrite Hk.
Qed.

(** X17. A backfill that nothing disturbs tags every duplicate: with both
    environment variables set, Notion serving every request and every
    record a multi-select, [main] finishes, the duplicates it reports are
    the records of the database that share their normalized name with
    another one, it has processed every one of them, tagging it or
    skipping it, and in the database each of these records carries the
    tag afterwards. *)
Theorem backfill_tags_every_duplicate (w : World) :
  NOTION_DATABASE_ID w = true ->
  NOTION_TOKEN w = true ->
  http_faults w = [] ->
  multi_selects (notion_pages w) ->
  exists counts w1,
    Backfill.main w = (Ok (Backfill.Finished (List.length (notion_pages w)) counts), w1)
    /\ Backfill.totalDuplicates counts
       = List.length
           (filter (fun p => 2 <=? List.length (group_of p (notion_pages w)))
              (notion_pages w))
    /\ Backfill.processed counts = Backfill.totalDuplicates counts
    /\ Backfill.tagged counts + Backfill.skipped counts = Backfill.processed counts
    /\ (forall p, In p (notion_pages w) ->
                  2 <= List.length (group_of p (notion_pages w)) ->
                  exists p1, find_page (page_id p) (notion_pages w1) = Some p1
                             /\ carries_duplicate p1 = true)
    /\ same_sqlite w w1.
Proof.
  intros Hdb Ht Hh Hmulti.
  destruct (fetchAllPages_loop_served (S (List.length (notion_pages w))) [] None w Ht Hh)
    as (fetched & w0 & Hfetch & Ht0 & Hh0 & Hp0 & Hs0 & _).
  change (Backfill.fetchAllPages w = (Ok fetched, w0)) in Hfetch.
  destruct (fetchAllPages_all w fetched w0 Hfetch) as [-> _].
  set (nameMap := Backfill.buildDuplicateMap (notion_pages w)).
  assert (Hsel : multi_selectable (duplicated_ids nameMap) (notion_pages w0)).
  { intros pageId Hin. rewrite Hp0.
    destruct (duplicated_ids_pages _ _ Hin) as (p & Hp & <- & _).
    destruct (find_page_exists _ _ Hp) as (p' & Hf).
    destruct (Hmulti p' (find_page_In _ _ _ Hf)) as (tags & Hflag).
    now exists p', tags. }
  destruct (tagGroups_served nameMap
              {| Backfill.totalDuplicates := 0; Backfill.tagged := 0;
                 Backfill.skipped := 0; Backfill.processed := 0 |} w0 Ht0 Hh0 Hsel)
    as (c & w1 & Hrun & _ & _ & Hs1 & _ & Ha1 & Hd1 & Hp1 & Hts1).
  exists c, w1. split.
  - unfold Backfill.main. rewrite Hdb, Ht. simpl negb. cbv iota.
    unfold try_catch, bind. rewrite Hfetch. fold nameMap.
    unfold Backfill.tagDuplicates. rewrite Hrun. reflexivity.
  - pose proof (duplicated_count (notion_pages w)) as Hcount. fold nameMap in Hcount.
    simpl in Hd1, Hp1, Hts1. split; [lia|]. split; [lia|]. split; [lia|]. split.
    + intros p Hp Hlen. apply Ha1. now apply duplicated_ids_spec.
    + eapply same_sqlite_trans; eassumption.
Qed.

End UndisturbedBackfill.

(** ** The groups and the counters of the backfill *)

Lemma nothing_patched_refl w : nothing_patched w w.
Proof. now split. Qed.

Lemma nothing_patched_trans w1 w2 w3 :
  nothing_patched w1 w2 -> nothing_patched w2 w3 -> nothing_patched w1 w3.
Proof. unfold nothing_patched. intros [A1 A2] [B1 B2]. split; congruence. Qed.

Lemma nothing_patched_sleep w t : nothing_patched w (add_sleep t w).
Proof. now split. Qed.

Lemma backfill_fetch_answer pageId w :
  match Backfill.fetchNotionPage pageId w with
  | (Ok p, w1) => find_page pageId (notion_pages w) = Some p /\ nothing_patched w w1
  | (Throw _, w1) => nothing_patched w w1
  end.
Proof.
  unfold Backfill.fetchNotionPage, Backfill.retryWithBackoff. unfold bind at 1.
  set (fn := bind getNotionHeaders
               (fun _ => fetch (HttpGetPage pageId) (serve_get pageId))).
  pose proof (retry_loop_hoare
                (fun e => Backfill.isRateLimit e || Backfill.isServerError e) fn 1000
                nothing_patched
                (fun w a w1 =>
                   nothing_patched w w1
                   /\ forall p, a = RespOk p -> find_page pageId (notion_pages w) = Some p)
                nothing_patched_refl nothing_patched_trans nothing_patched_sleep) as L.
  assert (Hleft : forall w w' (a : Response NotionPage) w1,
             nothing_patched w w' ->
             nothing_patched w' w1
             /\ (forall p, a = RespOk p -> find_page pageId (notion_pages w') = Some p) ->
             nothing_patched w w1
             /\ (forall p, a = RespOk p -> find_page pageId (notion_pages w) = Some p)).
  { intros w0 w' a w3 H0 [H1 H2]. split; [eauto using nothing_patched_trans|].
    destruct H0 as [H0 _]. now rewrite <- H0. }
  assert (Hfn : forall w,
             match fn w with
             | (Ok a, w1) =>
                 nothing_patched w w1
                 /\ (forall p, a = RespOk p -> find_page pageId (notion_pages w) = Some p)
             | (Throw _, w1) => nothing_patched w w1
             end).
  { intros w0. unfold fn, bind, getNotionHeaders, fetch, serve_get. simpl.
    destruct (NOTION_TOKEN w0); [|apply nothing_patched_refl]. simpl.
    destruct (http_faults w0) as [|[| |] rest]; simpl;
      try destruct (find_page pageId (notion_pages w0)) eqn:E; simpl;
      try (now split); (split; [now split|]); congruence. }
  specialize (L Hleft Hfn 3 0 undefined_error w).
  destruct (retry_loop _ fn 1000 3 0 undefined_error w) as [[[p|status text]|e] w1];
    unfold ret, throw; [|apply L..].
  destruct L as [L1 L2]. split; [now apply L2 | exact L1].
Qed.

Lemma backfill_query_nothing_patched cursor size w :
  nothing_patched w (snd (Backfill.queryNotionDatabase cursor size w)).
Proof.
  unfold Backfill.queryNotionDatabase, Backfill.retryWithBackoff.
  apply (bind_case _ _ _ (fun out => nothing_patched w (snd out)));
    intros a w1 E;
    pose proof (retry_loop_preserves
                  (fun e => Backfill.isRateLimit e || Backfill.isServerError e)
                  (bind getNotionHeaders
                     (fun _ => fetch (HttpQuery cursor size) (serve_query cursor size)))
                  1000 nothing_patched
                  nothing_patched_refl nothing_patched_trans nothing_patched_sleep) as L;
    assert (Hfn : forall w, nothing_patched w
                              (snd (bind getNotionHeaders
                                      (fun _ => fetch (HttpQuery cursor size)
                                                  (serve_query cursor size)) w)))
      by (intros w0; unfold bind, getNotionHeaders, fetch, serve_query; simpl;
          destruct (NOTION_TOKEN w0); [|apply nothing_patched_refl]; simpl;
          destruct (http_faults w0) as [|[| |] rest]; simpl; now split);
    specialize (L Hfn 3 0 undefined_error w); rewrite E in L; simpl in L.
  - destruct a; exact L.
  - exact L.
Qed.

Lemma fetchAllPages_loop_nothing_patched fuel : forall allPages cursor w,
  nothing_patched w (snd (Backfill.fetchAllPages_loop fuel allPages cursor w)).
Proof.
  induction fuel as [|fuel IH]; intros allPages cursor w; [apply nothing_patched_refl|].
  rewrite fetchAllPages_loop_S.
  pose proof (backfill_query_nothing_patched cursor Backfill.BATCH_SIZE w) as Hq.
  apply (bind_case _ _ _ (fun out => nothing_patched w (snd out)));
    intros r w1 E; rewrite E in Hq; simpl in Hq; [|exact Hq].
  destruct (next_cursor r) as [c|]; [|exact Hq].
  unfold bind, sleep.
  eapply nothing_patched_trans; [exact Hq|].
  eapply nothing_patched_trans; [apply (nothing_patched_sleep w1)|]. apply IH.
Qed.

Lemma NoDup_page_id_inj l p q :
  NoDup (map page_id l) -> In p l -> In q l -> page_id p = page_id q -> p = q.
Proof.
  induction l as [|x l IH]; simpl; [intros _ []|].
  intros Hnd [->|Hp] [->|Hq] Heq; inversion Hnd as [|? ? Hnotin Hnd']; subst; auto.
  - exfalso. apply Hnotin. rewrite Heq. now apply in_map.
  - exfalso. apply Hnotin. rewrite <- Heq. now apply in_map.
Qed.

Section Groups.
Context {U : UnicodeTables}.

(** X18. The duplicate map groups the records by normalized name: its
    keys are distinct, the group of a key is the list of the records that
    have this key, in the order of the database, and a record is in the
    group of [k] exactly when it has a name, not empty, that normalizes to
    [k]; a record without name is in no group. *)
Theorem buildDuplicateMap_groups_by_key (pages : list NotionPage) :
  let nameMap := Backfill.buildDuplicateMap pages in
  NoDup (map fst nameMap)
  /\ (forall k g, In (k, g) nameMap -> g = filter (has_key k) pages)
  /\ (forall p k, In p pages ->
                  (key_of p = Some k <-> exists g, In (k, g) nameMap /\ In p g)).
Proof.
  cbv zeta. destruct (buildDuplicateMap_grouped pages) as (Hnd & Hgroups & Hkeys).
  split; [exact Hnd|]. split; [exact Hgroups|].
  intros p k Hp. split.
  - intros Hk. pose proof (Hkeys p k Hp Hk) as Hin.
    apply in_map_iff in Hin as ([k' g] & Hfst & Hin). simpl in Hfst. subst k'.
    exists g. split; [exact Hin|]. rewrite (Hgroups k g Hin).
    apply filter_In. split; [exact Hp|]. now apply has_key_iff.
  - intros (g & Hin & Hpg). rewrite (Hgroups k g Hin) in Hpg.
    apply filter_In in Hpg as [_ Hkey]. now apply has_key_iff.
Qed.

(** One round of the inner loop, whatever happens. *)
Lemma tagPages_round page c w :
  exists c1 w1,
    try_catch
      (currentPage <- Backfill.fetchNotionPage (page_id page) ;;
       wasTagged <- Backfill.updateNotionTags (page_id page)
                      (Backfill.multi_select currentPage) ;;
       sleep Backfill.RATE_LIMIT_DELAY ;;
       ret {| Backfill.totalDuplicates := Backfill.totalDuplicates c;
              Backfill.tagged :=
                if wasTagged then S (Backfill.tagged c) else Backfill.tagged c;
              Backfill.skipped :=
                if wasTagged then Backfill.skipped c else S (Backfill.skipped c);
              Backfill.processed := S (Backfill.processed c) |})%promise
      (fun _ => ret c) w = (Ok c1, w1)
    /\ Backfill.totalDuplicates c1 = Backfill.totalDuplicates c
    /\ exists done,
         done <= 1
         /\ Backfill.processed c1 = Backfill.processed c + done
         /\ Backfill.tagged c1 + Backfill.skipped c1
            = Backfill.tagged c + Backfill.skipped c + done.
Proof.
  unfold try_catch.
  match goal with |- context [let (r, w1) := ?body w in _] =>
    destruct (body w) as [[c1|e] w1] eqn:E end.
  - exists c1, w1. split; [reflexivity|].
    apply bind_ok_inv in E as (currentPage & w2 & _ & E).
    apply bind_ok_inv in E as (wasTagged & w3 & _ & E).
    unfold bind, sleep, ret in E. injection E as <- _.
    simpl. split; [reflexivity|]. exists 1. destruct wasTagged; lia.
  - exists c, w1. split; [reflexivity|]. split; [reflexivity|]. exists 0. lia.
Qed.

Lemma tagPages_counts pages : forall c w,
  exists c' w1,
    Backfill.tagPages pages c w = (Ok c', w1)
    /\ Backfill.totalDuplicates c' = Backfill.totalDuplicates c
    /\ exists done,
         done <= List.length pages
         /\ Backfill.processed c' = Backfill.processed c + done
         /\ Backfill.tagged c' + Backfill.skipped c'
            = Backfill.tagged c + Backfill.skipped c + done.
Proof.
  induction pages as [|page rest IH]; intros c w.
  - exists c, w. split; [reflexivity|]. split; [reflexivity|]. exists 0. simpl. lia.
  - destruct (tagPages_round page c w) as (c1 & w1 & Hrun & Hd1 & d1 & Hle1 & Hp1 & Hts1).
    destruct (IH c1 w1) as (c2 & w2 & Hrun2 & Hd2 & d2 & Hle2 & Hp2 & Hts2).
    exists c2, w2. cbn [Backfill.tagPages]. unfold bind at 1. rewrite Hrun.
    split; [exact Hrun2|]. split; [congruence|]. exists (d1 + d2). simpl. lia.
Qed.

Lemma tagGroups_counts nameMap : forall c w,
  exists c' w1,
    Backfill.tagGroups nameMap c w = (Ok c', w1)
    /\ Backfill.totalDuplicates c'
       = Backfill.totalDuplicates c + List.length (duplicated_ids nameMap)
    /\ exists done,
         done <= List.length (duplicated_ids nameMap)
         /\ Backfill.processed c' = Backfill.processed c + done
         /\ Backfill.tagged c' + Backfill.skipped c'
            = Backfill.tagged c + Backfill.skipped c + done.
Proof.
  induction nameMap as [|[k pages] rest IH]; intros c w.
  - exists c, w. split; [reflexivity|]. split; [simpl; lia|]. exists 0. simpl. lia.
  - unfold duplicated_ids in *. simpl flat_map. simpl Backfill.tagGroups.
    destruct (List.length pages <=? 1) eqn:Hlen; [now apply IH|].
    destruct (tagPages_counts pages
                {| Backfill.totalDuplicates :=
                     Backfill.totalDuplicates c + List.length pages;
                   Backfill.tagged := Backfill.tagged c;
                   Backfill.skipped := Backfill.skipped c;
                   Backfill.processed := Backfill.processed c |} w)
      as (c1 & w1 & Hrun & Hd1 & d1 & Hle1 & Hp1 & Hts1).
    destruct (IH c1 w1) as (c2 & w2 & Hrun2 & Hd2 & d2 & Hle2 & Hp2 & Hts2).
    exists c2, w2. unfold bind at 1. rewrite Hrun.
    split; [exact Hrun2|]. rewrite length_app, length_map. simpl in *.
    split; [lia|]. exists (d1 + d2). lia.
Qed.

Lemma attempted_refl w : attempted [] w w.
Proof. split; [reflexivity|]. exists []. split; [reflexivity|]. intros _ i []. Qed.

Lemma attempted_app a b w w1 w2 :
  attempted a w w1 -> attempted b w1 w2 -> attempted (a ++ b) w w2.
Proof.
  intros (Ht1 & n1 & Hc1 & Hg1) (Ht2 & n2 & Hc2 & Hg2).
  split; [congruence|]. exists (n2 ++ n1).
  split; [now rewrite Hc2, Hc1, app_assoc|].
  intros Ht i Hi. apply in_or_app. apply in_app_or in Hi as [Hi|Hi].
  - right. now apply Hg1.
  - left. apply Hg2; [congruence | exact Hi].
Qed.

Lemma attempted_then ids w w1 w2 :
  attempted ids w w1 -> attempted [] w1 w2 -> attempted ids w w2.
Proof. intros H1 H2. rewrite <- (app_nil_r ids). now apply (attempted_app _ _ _ w1). Qed.

Lemma attempted_trans w w1 w2 :
  attempted [] w w1 -> attempted [] w1 w2 -> attempted [] w w2.
Proof. apply attempted_then. Qed.

Lemma attempted_weaken ids w w1 : attempted ids w w1 -> attempted [] w w1.
Proof.
  intros (Ht & n & Hc & _). split; [exact Ht|]. exists n. split; [exact Hc|].
  intros _ i [].
Qed.

Lemma attempted_sleep w t : attempted [] w (add_sleep t w).
Proof. split; [reflexivity|]. exists []. split; [reflexivity|]. intros _ i []. Qed.

Lemma attempted_bind {A B} ids (c : M A) (k : A -> M B) w :
  attempted ids w (snd (c w)) ->
  (forall a w1, attempted [] w1 (snd (k a w1))) ->
  attempted ids w (snd (bind c k w)).
Proof.
  intros Hc Hk. unfold bind. destruct (c w) as [[a|e] w1]; simpl in *; [|exact Hc].
  apply (attempted_then _ _ w1); [exact Hc | apply Hk].
Qed.

(** One attempt of the GET of the backfill. *)
Lemma backfill_get_attempted pageId w :
  attempted [pageId] w
    (snd ((getNotionHeaders ;; fetch (HttpGetPage pageId) (serve_get pageId))%promise w)).
Proof.
  unfold bind, getNotionHeaders, fetch, serve_get.
  destruct (NOTION_TOKEN w) eqn:Ht; simpl.
  - assert (Hone : forall i, In i [pageId] -> In (HttpGetPage i) [HttpGetPage pageId])
      by (intros i [<-|[]]; now left).
    destruct (http_faults w) as [|[| |] rest]; simpl;
      try destruct (find_page pageId (notion_pages w)); simpl;
      (split; [reflexivity|]); exists [HttpGetPage pageId];
      (split; [reflexivity | intros _; exact Hone]).
  - split; [reflexivity|]. exists []. split; [reflexivity|]. intros H. congruence.
Qed.

Lemma backfill_fetch_attempted pageId w :
  attempted [pageId] w (snd (Backfill.fetchNotionPage pageId w)).
Proof.
  unfold Backfill.fetchNotionPage, Backfill.retryWithBackoff.
  apply attempted_bind.
  2:{ intros [p|status errorText] w1; apply attempted_refl. }
  set (fn := (getNotionHeaders ;; fetch (HttpGetPage pageId) (serve_get pageId))%promise).
  set (retryable := fun e => Backfill.isRateLimit e || Backfill.isServerError e).
  pose proof (backfill_get_attempted pageId w) as Hfirst. fold fn in Hfirst.
  destruct (fn w) as [[a|e] w1] eqn:Hrun; simpl in Hfirst.
  - now rewrite (retry_loop_ok retryable fn 1000 2 0 undefined_error w a w1 Hrun).
  - destruct (retryable e) eqn:Hr.
    + rewrite (retry_loop_again retryable fn 1000 2 0 undefined_error w e w1 Hrun Hr).
      apply (attempted_then _ _ w1); [exact Hfirst|].
      apply (attempted_trans _ (add_sleep (1000 * 2 ^ Z.of_nat 0) w1));
        [apply attempted_sleep|].
      apply (retry_loop_preserves retryable fn 1000 (attempted []));
        auto using attempted_refl, attempted_sleep.
      * apply attempted_trans.
      * intros w0. apply (attempted_weaken [pageId]), backfill_get_attempted.
    + now rewrite (retry_loop_rethrow retryable fn 1000 2 0 undefined_error w e w1 Hrun Hr).
Qed.

Lemma backfill_patch_attempted pageId tags w :
  attempted [] w (snd (Backfill.patchTags pageId tags w)).
Proof.
  unfold Backfill.patchTags, bind, getNotionHeaders, fetch, serve_patch, throw, ret.
  destruct (NOTION_TOKEN w) eqn:Ht; simpl; [|apply attempted_refl].
  assert (Hlog : forall w1, NOTION_TOKEN w1 = NOTION_TOKEN w ->
                            calls w1 = HttpPatchPage pageId (MultiSelectFlag tags) :: calls w ->
                            attempted [] w w1).
  { intros w1 H1 H2. split; [exact H1|]. exists [HttpPatchPage pageId (MultiSelectFlag tags)].
    split; [exact H2 | intros _ i []]. }
  destruct (http_faults w) as [|[| |] rest]; simpl;
    repeat match goal with
           | |- context [match find_page ?i ?l with _ => _ end] =>
               destruct (find_page i l); simpl
           | |- context [if ?b then _ else _] => destruct b; simpl
           end;
    apply Hlog; reflexivity.
Qed.

Lemma backfill_update_attempted pageId tags w :
  attempted [] w (snd (Backfill.updateNotionTags pageId tags w)).
Proof.
  unfold Backfill.updateNotionTags.
  destruct (Backfill.hasDuplicateTag tags); [apply attempted_refl|].
  change Backfill.DRY_RUN with false. cbv iota.
  apply attempted_bind; [|intros; apply attempted_refl].
  unfold Backfill.retryWithBackoff.
  apply (retry_loop_preserves _ _ 1000 (attempted []));
    auto using attempted_refl, attempted_sleep.
  - apply attempted_trans.
  - intros w0. apply backfill_patch_attempted.
Qed.

(** The pages of a group are attempted one after the other, whatever
    happens to the ones before. *)
Lemma tagPages_attempted pages : forall c w,
  attempted (map page_id pages) w (snd (Backfill.tagPages pages c w)).
Proof.
  induction pages as [|page rest IH]; intros c w; [apply attempted_refl|].
  cbn [Backfill.tagPages map].
  change (page_id page :: map page_id rest)
    with ([page_id page] ++ map page_id rest).
  unfold bind at 1.
  destruct (tagPages_round page c w) as (c1 & w1 & Hrun & _).
  assert (Hround : attempted [page_id page] w w1).
  { unfold try_catch in Hrun.
    match type of Hrun with
    | context [let (r, w1) := ?body w in _] =>
        assert (Hbody : attempted [page_id page] w (snd (body w)));
        [|destruct (body w) as [[c2|e] w2]; injection Hrun as _ <-; exact Hbody]
    end.
    apply attempted_bind; [apply backfill_fetch_attempted|].
    intros currentPage w2. apply attempted_bind; [apply backfill_update_attempted|].
    intros wasTagged w3. apply attempted_bind; [apply attempted_sleep|].
    intros; apply attempted_refl. }
  rewrite Hrun. apply (attempted_app _ _ _ w1); [exact Hround | apply IH].
Qed.

Lemma tagGroups_attempted nameMap : forall c w,
  attempted (duplicated_ids nameMap) w (snd (Backfill.tagGroups nameMap c w)).
Proof.
  induction nameMap as [|[k pages] rest IH]; intros c w; [apply attempted_refl|].
  unfold duplicated_ids. simpl flat_map. fold (duplicated_ids rest).
  simpl Backfill.tagGroups.
  destruct (List.length pages <=? 1); [apply IH|].
  unfold bind.
  match goal with
  | |- context [Backfill.tagPages pages ?c0 w] =>
      pose proof (tagPages_attempted pages c0 w) as Hgroup;
      destruct (tagPages_counts pages c0 w) as (c1 & w1 & Hrun & _);
      rewrite Hrun in Hgroup |- *
  end.
  apply (attempted_app _ _ _ w1); [exact Hgroup | apply IH].
Qed.

(** X19. The tagging phase of the backfill never fails, and its counters
    add up: what goes wrong on a page is caught and the loop goes on, so
    that, the token being set, every record of a group of two or more is
    asked for, whatever happened to the ones before; the run counts as
    duplicates the records of the groups of two or more, every page it
    got through is either tagged or skipped, and it got through no more
    pages than there are duplicates.  So a run that fetched the database
    always finishes. *)
Theorem tagDuplicates_accounts (nameMap : list (jsstring * list NotionPage))
    (w : World) :
  exists counts w1,
    Backfill.tagDuplicates nameMap w = (Ok counts, w1)
    /\ Backfill.totalDuplicates counts = List.length (duplicated_ids nameMap)
    /\ Backfill.tagged counts + Backfill.skipped counts = Backfill.processed counts
    /\ Backfill.processed counts <= Backfill.totalDuplicates counts
    /\ attempted (duplicated_ids nameMap) w w1.
Proof.
  pose proof (tagGroups_attempted nameMap
                {| Backfill.totalDuplicates := 0; Backfill.tagged := 0;
                   Backfill.skipped := 0; Backfill.processed := 0 |} w) as Hall.
  destruct (tagGroups_counts nameMap
              {| Backfill.totalDuplicates := 0; Backfill.tagged := 0;
                 Backfill.skipped := 0; Backfill.processed := 0 |} w)
    as (c & w1 & Hrun & Hd & d & Hle & Hp & Hts).
  rewrite Hrun in Hall.
  exists c, w1. split; [exact Hrun|]. simpl in *. repeat split; try lia; apply Hall.
Qed.

Lemma tagPages_idle pages : forall c w,
  (forall page p, In page pages ->
                  find_page (page_id page) (notion_pages w) = Some p ->
                  Backfill.hasDuplicateTag (Backfill.multi_select p) = true) ->
  nothing_patched w (snd (Backfill.tagPages pages c w))
  /\ forall c', fst (Backfill.tagPages pages c w) = Ok c' ->
                Backfill.tagged c' = Backfill.tagged c.
Proof.
  induction pages as [|page rest IH]; intros c w Htagged.
  - simpl. split; [apply nothing_patched_refl | now intros c' [= <-]].
  - assert (Hround : exists c1 w1,
               try_catch
                 (currentPage <- Backfill.fetchNotionPage (page_id page) ;;
                  wasTagged <- Backfill.updateNotionTags (page_id page)
                                 (Backfill.multi_select currentPage) ;;
                  sleep Backfill.RATE_LIMIT_DELAY ;;
                  ret {| Backfill.totalDuplicates := Backfill.totalDuplicates c;
                         Backfill.tagged :=
                           if wasTagged then S (Backfill.tagged c)
                           else Backfill.tagged c;
                         Backfill.skipped :=
                           if wasTagged then Backfill.skipped c
                           else S (Backfill.skipped c);
                         Backfill.processed := S (Backfill.processed c) |})%promise
                 (fun _ => ret c) w = (Ok c1, w1)
               /\ nothing_patched w w1
               /\ Backfill.tagged c1 = Backfill.tagged c).
    { unfold try_catch. unfold bind at 1.
      pose proof (backfill_fetch_answer (page_id page) w) as Hf.
      destruct (Backfill.fetchNotionPage (page_id page) w) as [[p|e] w1].
      - destruct Hf as [Hp Hn].
        unfold Backfill.updateNotionTags.
        rewrite (Htagged page p (or_introl eq_refl) Hp).
        unfold bind, ret, sleep. eexists. eexists. split; [reflexivity|].
        split; [|reflexivity]. exact Hn.
      - unfold ret. eexists. eexists. split; [reflexivity|]. now split. }
    destruct Hround as (c1 & w1 & Hrun & Hn1 & Ht1).
    set (out := Backfill.tagPages (page :: rest) c w).
    assert (Hout : out = Backfill.tagPages rest c1 w1)
      by (unfold out; cbn [Backfill.tagPages]; unfold bind at 1; now rewrite Hrun).
    rewrite Hout. clear out Hout.
    destruct (IH c1 w1) as [Hn2 Ht2].
    { intros page0 p Hin Hp. apply (Htagged page0 p); [now right|].
      destruct Hn1 as [Hn1 _]. now rewrite <- Hn1. }
    split; [eauto using nothing_patched_trans|].
    intros c' Hc'. rewrite (Ht2 c' Hc'). exact Ht1.
Qed.

Lemma tagGroups_idle nameMap : forall c w,
  (forall pageId p, In pageId (duplicated_ids nameMap) ->
                    find_page pageId (notion_pages w) = Some p ->
                    Backfill.hasDuplicateTag (Backfill.multi_select p) = true) ->
  nothing_patched w (snd (Backfill.tagGroups nameMap c w))
  /\ forall c', fst (Backfill.tagGroups nameMap c w) = Ok c' ->
                Backfill.tagged c' = Backfill.tagged c.
Proof.
  induction nameMap as [|[k pages] rest IH]; intros c w Htagged.
  - simpl. split; [apply nothing_patched_refl | now intros c' [= <-]].
  - unfold duplicated_ids in *. simpl flat_map in Htagged. simpl Backfill.tagGroups.
    destruct (List.length pages <=? 1) eqn:Hlen; [now apply IH|].
    set (c0 := {| Backfill.totalDuplicates :=
                    Backfill.totalDuplicates c + List.length pages;
                  Backfill.tagged := Backfill.tagged c;
                  Backfill.skipped := Backfill.skipped c;
                  Backfill.processed := Backfill.processed c |}).
    destruct (tagPages_idle pages c0 w) as [Hn1 Ht1].
    { intros page p Hin. apply Htagged. apply in_or_app. left. now apply in_map. }
    unfold bind.
    destruct (Backfill.tagPages pages c0 w) as [[c1|e] w1]; simpl in Hn1, Ht1;
      [|split; [exact Hn1 | discriminate]].
    destruct (IH c1 w1) as [Hn2 Ht2].
    { intros pageId p Hin Hp. apply (Htagged pageId p); [apply in_or_app; now right|].
      destruct Hn1 as [Hn1 _]. now rewrite <- Hn1. }
    split; [eauto using nothing_patched_trans|].
    intros c' Hc'. rewrite (Ht2 c' Hc'). now apply Ht1.
Qed.

(** X20. The backfill is idempotent: on a database whose records have
    distinct ids and where every record that shares its normalized name
    already has the tag among its multi-select, a run sends no PATCH and
    leaves every record as it is, whatever Notion does to its requests;
    when it finishes, it reports no page tagged. *)
Theorem backfill_leaves_tagged_database (w : World) :
  NoDup (map page_id (notion_pages w)) ->
  (forall p, In p (notion_pages w) ->
             2 <= List.length (group_of p (notion_pages w)) ->
             Backfill.hasDuplicateTag (Backfill.multi_select p) = true) ->
  notion_pages (snd (Backfill.main w)) = notion_pages w
  /\ filter is_patch (calls (snd (Backfill.main w))) = filter is_patch (calls w)
  /\ forall scanned counts,
       fst (Backfill.main w) = Ok (Backfill.Finished scanned counts) ->
       Backfill.tagged counts = 0.
Proof.
  intros Hnd Htagged.
  assert (H : nothing_patched w (snd (Backfill.main w))
              /\ forall scanned counts,
                   fst (Backfill.main w) = Ok (Backfill.Finished scanned counts) ->
                   Backfill.tagged counts = 0).
  { unfold Backfill.main.
    destruct (negb (NOTION_DATABASE_ID w));
      [split; [apply nothing_patched_refl | discriminate]|].
    destruct (negb (NOTION_TOKEN w));
      [split; [apply nothing_patched_refl | discriminate]|].
    match goal with |- nothing_patched _ (snd ?t) /\ _ => set (out := t) end.
    pose proof (fetchAllPages_loop_nothing_patched
                  (S (List.length (notion_pages w))) [] None w) as Hn0.
    change (nothing_patched w (snd (Backfill.fetchAllPages w))) in Hn0.
    destruct (Backfill.fetchAllPages w) as [[fetched|e] w0] eqn:Hfetch; simpl in Hn0.
    2: { assert (Hout : out = (Ok (Backfill.Exit1 e), w0))
           by (unfold out, try_catch, bind; now rewrite Hfetch).
         rewrite Hout. split; [exact Hn0 | discriminate]. }
    destruct (fetchAllPages_all w fetched w0 Hfetch) as [-> Hp0].
    destruct (tagGroups_idle (Backfill.buildDuplicateMap (notion_pages w))
                {| Backfill.totalDuplicates := 0; Backfill.tagged := 0;
                   Backfill.skipped := 0; Backfill.processed := 0 |} w0)
      as [Hn1 Ht1].
    { intros pageId p' Hin Hf. rewrite Hp0 in Hf.
      destruct (duplicated_ids_pages _ _ Hin) as (p & Hp & Hid & Hlen).
      assert (p' = p) as ->.
      { apply (NoDup_page_id_inj (notion_pages w)); auto.
        - now apply find_page_In in Hf.
        - apply find_page_id in Hf. congruence. }
      now apply Htagged. }
    assert (Hout : out =
                   match Backfill.tagGroups
                           (Backfill.buildDuplicateMap (notion_pages w))
                           {| Backfill.totalDuplicates := 0; Backfill.tagged := 0;
                              Backfill.skipped := 0; Backfill.processed := 0 |} w0 with
                   | (Ok c, w1) =>
                       (Ok (Backfill.Finished (List.length (notion_pages w)) c), w1)
                   | (Throw e, w1) => (Ok (Backfill.Exit1 e), w1)
                   end).
    { unfold out, try_catch. unfold bind at 1. rewrite Hfetch. cbv zeta.
      unfold Backfill.tagDuplicates, bind, ret.
      now destruct (Backfill.tagGroups _ _ w0) as [[c|e] w1]. }
    rewrite Hout.
    destruct (Backfill.tagGroups _ _ w0) as [[c|e] w1]; simpl in *.
    - split; [eauto using nothing_patched_trans|].
      intros scanned counts [= _ <-]. now apply Ht1.
    - split; [eauto using nothing_patched_trans | discriminate]. }
  destruct H as [[H1 H2] H3]. auto.
Qed.

End Groups.

(** ** What a delivery may change in Notion *)

Lemma findDuplicatePages_keeps_pages key w :
  notion_pages (snd (Webhook.findDuplicatePages key w)) = notion_pages w.
Proof.
  unfold Webhook.findDuplicatePages, Webhook.retryWithBackoff.
  apply (retry_loop_preserves rate_limit_signal _ 1000
           (fun w w1 => notion_pages w1 = notion_pages w)); auto; try congruence.
  intros w0. unfold sqlite_execute. simpl.
  destruct (sqlite_faults w0) as [|[e|] rest]; reflexivity.
Qed.

Lemma findDuplicatePages_answer key w ids w1 :
  Webhook.findDuplicatePages key w = (Ok ids, w1) ->
  ids = select_by_name key (name_index w).
Proof.
  intros H. unfold Webhook.findDuplicatePages, Webhook.retryWithBackoff in H.
  destruct (retry_loop_reads_index rate_limit_signal
              (sqlite_execute (SqlSelectName key)
                 (fun w => (Ok (select_by_name key (name_index w)), w)))
              1000 (select_by_name key)) with
    (n := 3) (i := 0) (lastError := undefined_error) (w := w) as [_ Hans].
  - intros w0. unfold sqlite_execute. simpl.
    destruct (sqlite_faults w0) as [|[e|] rest]; reflexivity.
  - intros w0 a. unfold sqlite_execute. simpl.
    destruct (sqlite_faults w0) as [|[e|] rest]; simpl; congruence.
  - apply Hans. now rewrite H.
Qed.

Lemma webhook_fetch_keeps_pages pageId w :
  notion_pages (snd (Webhook.fetchNotionPage pageId w)) = notion_pages w.
Proof.
  unfold Webhook.fetchNotionPage, bind, getNotionHeaders, fetch, serve_get, throw, ret.
  destruct (NOTION_TOKEN w); simpl; [|reflexivity].
  destruct (http_faults w) as [|[| |] rest]; simpl; try reflexivity;
    destruct (find_page pageId (notion_pages w)); reflexivity.
Qed.

Section TouchedPages.
Context {U : UnicodeTables}.

Lemma insertNameIndex_keeps_pages name pageId w :
  notion_pages (snd (Webhook.insertNameIndex name pageId w)) = notion_pages w.
Proof.
  unfold Webhook.insertNameIndex, Webhook.retryWithBackoff, try_catch.
  pose proof (retry_loop_preserves rate_limit_signal
                (sqlite_execute (SqlInsertName (Webhook.normalizeName name) pageId)
                   (run_insert_name (Webhook.normalizeName name) pageId))
                1000 (fun w w1 => notion_pages w1 = notion_pages w)) as L.
  specialize (L (fun w => eq_refl)). specialize (L ltac:(intros; congruence)).
  specialize (L (fun w t => eq_refl)).
  assert (Hfn : forall w,
             notion_pages
               (snd (sqlite_execute (SqlInsertName (Webhook.normalizeName name) pageId)
                       (run_insert_name (Webhook.normalizeName name) pageId) w))
             = notion_pages w).
  { intros w0. unfold sqlite_execute, run_insert_name. simpl.
    destruct (sqlite_faults w0) as [|[e|] rest]; simpl; try reflexivity;
      destruct (has_page_id pageId (name_index w0)); reflexivity. }
  specialize (L Hfn 3 0 undefined_error w).
  destruct (retry_loop _ _ _ _ _ _ w) as [[[]|e] w1]; [exact L|].
  destruct (message_includes e "UNIQUE constraint"); exact L.
Qed.

Lemma webhook_update_marked pageId tag w :
  Forall2 (marked [pageId]) (notion_pages w)
    (notion_pages (snd (Webhook.updateNotionTags pageId tag w))).
Proof.
  unfold Webhook.updateNotionTags.
  destruct (Webhook.hasDuplicateTag tag); [apply Forall2_marked_refl|].
  unfold bind, getNotionHeaders, fetch, serve_patch, throw, ret.
  destruct (NOTION_TOKEN w); simpl; [|apply Forall2_marked_refl].
  destruct (http_faults w) as [|[| |] rest]; simpl; try apply Forall2_marked_refl;
    destruct (find_page pageId (notion_pages w)) as [p|]; simpl;
    try apply Forall2_marked_refl;
    destruct (same_shape (duplicate_flag p) _); simpl;
    try apply Forall2_marked_refl; apply Forall2_marked_patch.
Qed.

Lemma tagOthers_marked others : forall w,
  Forall2 (marked others) (notion_pages w)
    (notion_pages (snd (Webhook.tagOthers others w))).
Proof.
  induction others as [|pageId rest IH]; intros w; [apply Forall2_marked_refl|].
  cbn [Webhook.tagOthers]. unfold bind at 1, try_catch. unfold bind at 1.
  pose proof (webhook_fetch_keeps_pages pageId w) as Hf.
  destruct (Webhook.fetchNotionPage pageId w) as [[page|e] w1]; simpl in Hf.
  - pose proof (webhook_update_marked pageId (Webhook.select page) w1) as Hu.
    rewrite Hf in Hu.
    assert (Hstep : forall out,
               Forall2 (marked [pageId]) (notion_pages w) (notion_pages out) ->
               Forall2 (marked (pageId :: rest)) (notion_pages w)
                 (notion_pages (snd (Webhook.tagOthers rest out)))).
    { intros out Hout. apply Forall2_marked_trans with (notion_pages out).
      - apply (Forall2_marked_weaken [pageId]); [|exact Hout].
        intros i [<-|[]]. now left.
      - apply (Forall2_marked_weaken rest); [|apply IH]. intros i Hi. now right. }
    destruct (Webhook.updateNotionTags pageId (Webhook.select page) w1)
      as [[[]|e] w2]; simpl in Hu; unfold ret; now apply Hstep.
  - unfold ret. rewrite <- Hf.
    apply (Forall2_marked_weaken rest); [|apply IH]. intros i Hi. now right.
Qed.

(** X21. Whatever the delivery and whatever fails, the handler changes a
    record of Notion in one way only: it sets its select to the tag, and
    only for the delivered page and the pages the index lists under its
    normalized name.  Every record keeps its id and its title, no record
    is added or removed, and every other record is left exactly as it
    was. *)
Theorem handler_touches_only_matches (req : Webhook.Request) (w : World) :
  Forall2
    (marked (delivered_id req
             :: select_by_name (Webhook.normalizeName (delivered_name req))
                  (name_index w)))
    (notion_pages w) (notion_pages (snd (Webhook.handler req w))).
Proof.
  set (ids := delivered_id req
              :: select_by_name (Webhook.normalizeName (delivered_name req))
                   (name_index w)).
  assert (Hh : Forall2 (marked ids) (notion_pages w)
                 (notion_pages (snd (Webhook.handle req w)))).
  { unfold Webhook.handle, Webhook.skip, delivered_id, delivered_name in *.
    destruct (negb _); [apply Forall2_marked_refl|].
    destruct (Webhook.body req) as [b|]; [|apply Forall2_marked_refl].
    destruct (Webhook.pageData_of b) as [pageData|]; [|apply Forall2_marked_refl].
    destruct (falsy_string _); [apply Forall2_marked_refl|].
    destruct (falsy_text _); [apply Forall2_marked_refl|].
    destruct (Webhook.pageData_id pageData) as [pageId|]; [|apply Forall2_marked_refl].
    destruct (hd_error _) as [name|]; [|apply Forall2_marked_refl].
    set (P := fun (w0 : World) (out : Result Webhook.HttpResponse * World) =>
                Forall2 (marked ids) (notion_pages w0) (notion_pages (snd out))).
    assert (Hsame : forall w0 w1 out,
               notion_pages w1 = notion_pages w0 -> P w1 out -> P w0 out).
    { unfold P. intros w0 w1 out <-. auto. }
    change (P w (bind (Webhook.findDuplicatePages (Webhook.normalizeName name))
                   (fun duplicatePageIds =>
                      let otherDuplicates :=
                        filter (fun id => negb (String.eqb id pageId)) duplicatePageIds in
                      if 0 <? List.length otherDuplicates
                      then
                        bind (Webhook.fetchNotionPage pageId) (fun currentPage =>
                        bind (Webhook.updateNotionTags pageId (Webhook.select currentPage))
                          (fun _ =>
                        bind (Webhook.tagOthers otherDuplicates) (fun _ =>
                        bind (Webhook.insertNameIndex name pageId) (fun _ =>
                        ret {| Webhook.status := 200;
                               Webhook.payload :=
                                 Webhook.Tagged (List.length otherDuplicates) |}))))
                      else
                        bind (Webhook.insertNameIndex name pageId) (fun _ =>
                        ret {| Webhook.status := 200;
                               Webhook.payload := Webhook.Indexed |})) w)).
    pose proof (findDuplicatePages_keeps_pages (Webhook.normalizeName name) w) as H1.
    pose proof (findDuplicatePages_answer (Webhook.normalizeName name) w) as Hids.
    apply (bind_case _ _ _ (P w)); intros found w1 E1; rewrite E1 in H1; simpl in H1;
      [|unfold P; simpl; rewrite H1; apply Forall2_marked_refl].
    specialize (Hids found w1 E1). subst found.
    apply (Hsame w w1 _ H1). cbv zeta.
    set (others := filter (fun id => negb (String.eqb id pageId))
                     (select_by_name (Webhook.normalizeName name) (name_index w))).
    assert (Hincl : incl (pageId :: others) ids).
    { intros i [<-|Hi]; [now left|]. right. unfold others in Hi.
      now apply filter_In in Hi. }
    destruct (0 <? List.length others).
    - pose proof (webhook_fetch_keeps_pages pageId w1) as H2.
      apply (bind_case _ _ _ (P w1)); intros page w2 E2; rewrite E2 in H2; simpl in H2;
        [|unfold P; simpl; rewrite H2; apply Forall2_marked_refl].
      apply (Hsame w1 w2 _ H2).
      pose proof (webhook_update_marked pageId (Webhook.select page) w2) as H3.
      assert (H3' : Forall2 (marked ids) (notion_pages w2)
                      (notion_pages
                         (snd (Webhook.updateNotionTags pageId (Webhook.select page) w2)))).
      { apply (Forall2_marked_weaken [pageId]); [|exact H3].
        intros i [<-|[]]. apply Hincl. now left. }
      apply (bind_case _ _ _ (P w2)); intros [] w3 E3; rewrite E3 in H3'; simpl in H3';
        [|exact H3'].
      pose proof (tagOthers_marked others w3) as H4.
      assert (H4' : Forall2 (marked ids) (notion_pages w2)
                      (notion_pages (snd (Webhook.tagOthers others w3)))).
      { apply Forall2_marked_trans with (notion_pages w3); [exact H3'|].
        apply (Forall2_marked_weaken others); [|exact H4].
        intros i Hi. apply Hincl. now right. }
      apply (bind_case _ _ _ (P w2)); intros [] w4 E4; rewrite E4 in H4'; simpl in H4';
        [|exact H4'].
      unfold P, bind, ret.
      pose proof (insertNameIndex_keeps_pages name pageId w4) as H5.
      destruct (Webhook.insertNameIndex name pageId w4) as [[[]|e] w5];
        simpl in *; now rewrite H5.
    - unfold P, bind, ret.
      pose proof (insertNameIndex_keeps_pages name pageId w1) as H5.
      destruct (Webhook.insertNameIndex name pageId w1) as [[[]|e] w5];
        simpl in *; rewrite H5; apply Forall2_marked_refl. }
  unfold Webhook.handler. now destruct (Webhook.handle req w) as [[?|?] ?].
Qed.

End TouchedPages.

(** ** Deliveries that are skipped *)

Section SkippedDeliveries.
Context {U : UnicodeTables}.

(** X22. The handler validates before it acts.  It answers "skipped"
    only to a POST it cannot use, and it has then made no request at all:
    no lookup, no request to Notion, no insert.  A usable delivery is never
    reported as skipped, whatever fails while it is handled. *)
Theorem handler_skips_only_unusable_deliveries (req : Webhook.Request) (w : World)
    (reason : string) :
  Webhook.payload (fst (Webhook.handler req w)) = Webhook.Skipped reason ->
  snd (Webhook.handler req w) = w
  /\ Webhook.method req = "POST"
  /\ unusable req.
Proof.
  unfold Webhook.handler.
  set (P := fun (out : Result Webhook.HttpResponse * World) =>
              match fst out with
              | Ok r => forall reason, Webhook.payload r <> Webhook.Skipped reason
              | Throw _ => True
              end).
  assert (Hnever : forall out,
             P out ->
             Webhook.payload
               (fst (match out with
                     | (Ok response, w1) => (response, w1)
                     | (Throw error, w1) =>
                         ({| Webhook.status := 200;
                             Webhook.payload := Webhook.InternalError (message error) |},
                          w1)
                     end)) = Webhook.Skipped reason -> False).
  { intros [[r|e] w1] Hp; simpl; [apply Hp | discriminate]. }
  unfold Webhook.handle, Webhook.skip, unusable.
  destruct (negb (String.eqb (Webhook.method req) "POST")) eqn:Hm; [discriminate|].
  apply negb_false_iff, String.eqb_eq in Hm.
  destruct (Webhook.body req) as [b|]; [|unfold ret; simpl; auto].
  destruct (Webhook.pageData_of b) as [pageData|] eqn:Hpd; [|discriminate].
  destruct (falsy_string (Webhook.pageData_id pageData)) eqn:Hid.
  { unfold ret. simpl. intros _. split; [reflexivity|]. split; [exact Hm|].
    right. exists b, pageData. auto. }
  destruct (falsy_text (hd_error (Webhook.pageData_title pageData))) eqn:Hname.
  { unfold ret. simpl. intros _. split; [reflexivity|]. split; [exact Hm|].
    right. exists b, pageData. auto. }
  destruct (Webhook.pageData_id pageData) as [pageId|]; [|discriminate].
  destruct (hd_error (Webhook.pageData_title pageData)) as [name|]; [|discriminate].
  intros H. exfalso. revert H. apply Hnever.
  apply (bind_case _ _ _ P); intros ids w1 _; [|exact I].
  cbv zeta. destruct (0 <? _).
  - apply (bind_case _ _ _ P); intros page w2 _; [|exact I].
    apply (bind_case _ _ _ P); intros [] w3 _; [|exact I].
    apply (bind_case _ _ _ P); intros [] w4 _; [|exact I].
    apply (bind_case _ _ _ P); intros [] w5 _; [|exact I].
    unfold P, ret. simpl. discriminate.
  - apply (bind_case _ _ _ P); intros [] w5 _; [|exact I].
    unfold P, ret. simpl. discriminate.
Qed.

End SkippedDeliveries.

(** ** What the scanner asks of Notion *)

Lemma pages_left_alone_refl w : pages_left_alone w w.
Proof. now split. Qed.

Lemma pages_left_alone_trans w1 w2 w3 :
  pages_left_alone w1 w2 -> pages_left_alone w2 w3 -> pages_left_alone w1 w3.
Proof. unfold pages_left_alone. intros [A1 A2] [B1 B2]. split; congruence. Qed.

Lemma pages_left_alone_sleep w t : pages_left_alone w (add_sleep t w).
Proof. now split. Qed.

Lemma sqlite_execute_leaves_pages {A} (c : Call) (run : World -> Result A * World) :
  is_page_request c = false ->
  (forall w, pages_left_alone w (snd (run w))) ->
  forall w, pages_left_alone w (snd (sqlite_execute c run w)).
Proof.
  intros Hc Hrun w. unfold sqlite_execute. simpl.
  assert (Hlog : forall fs, pages_left_alone w (set_sqlite_faults fs (log_call c w))).
  { intros fs. split; [reflexivity|]. simpl. now rewrite Hc. }
  destruct (sqlite_faults w) as [|[e|] rest] eqn:Hf; simpl.
  - apply pages_left_alone_trans with (log_call c w); [|apply Hrun].
    split; [reflexivity|]. simpl. now rewrite Hc.
  - apply Hlog.
  - eapply pages_left_alone_trans; [apply (Hlog rest) | apply Hrun].
Qed.

Lemma retry_sqlite_leaves_pages {A} (c : Call) (run : World -> Result A * World) n w :
  is_page_request c = false ->
  (forall w, pages_left_alone w (snd (run w))) ->
  pages_left_alone w
    (snd (IndexBuilder.retryWithBackoff (sqlite_execute c run) n 1000 w)).
Proof.
  intros Hc Hrun. unfold IndexBuilder.retryWithBackoff.
  apply retry_loop_preserves;
    auto using pages_left_alone_refl, pages_left_alone_sleep.
  - apply pages_left_alone_trans.
  - now apply sqlite_execute_leaves_pages.
Qed.

Lemma builder_query_leaves_pages cursor size w :
  pages_left_alone w (snd (IndexBuilder.queryNotionDatabase cursor size w)).
Proof.
  unfold IndexBuilder.queryNotionDatabase, bind, getNotionHeaders, fetch, serve_query,
    throw, ret.
  destruct (NOTION_TOKEN w); simpl; [|apply pages_left_alone_refl].
  destruct (http_faults w) as [|[| |] rest]; simpl; now split.
Qed.

Section QuietScanner.
Context {U : UnicodeTables}.

Lemma insertIntoIndex_leaves_pages name pageId w :
  pages_left_alone w (snd (IndexBuilder.insertIntoIndex name pageId w)).
Proof.
  unfold IndexBuilder.insertIntoIndex, IndexBuilder.retryWithBackoff.
  apply retry_loop_preserves;
    auto using pages_left_alone_refl, pages_left_alone_sleep.
  - apply pages_left_alone_trans.
  - intros w0. unfold try_catch, bind, sqlite_execute, run_insert_name, ret, throw.
    simpl.
    destruct (sqlite_faults w0) as [|[e|] rest]; simpl;
      try destruct (has_page_id _ _); simpl;
      try destruct (message_includes _ _); simpl; now split.
Qed.

Lemma processBatch_leaves_pages pages : forall indexed w,
  pages_left_alone w (snd (IndexBuilder.processBatch_from pages indexed w)).
Proof.
  induction pages as [|page rest IH]; intros indexed w; simpl.
  - apply pages_left_alone_refl.
  - destruct (hd_error (title page)) as [[|c name]|]; try apply IH.
    pose proof (insertIntoIndex_leaves_pages (c :: name) (page_id page) w) as Hs.
    apply (bind_case _ _ _ (fun out => pages_left_alone w (snd out)));
      intros a w1 H; rewrite H in Hs; [|exact Hs].
    eapply pages_left_alone_trans; [exact Hs | apply IH].
Qed.

Lemma batches_leave_pages n :
  forall clock, List.length clock <= n ->
  forall startTime cursor t w,
    pages_left_alone w (snd (IndexBuilder.batches clock startTime cursor t w)).
Proof.
  induction n as [|n IH]; intros clock Hlen startTime cursor t w.
  - destruct clock; [|simpl in Hlen; lia]. apply pages_left_alone_refl.
  - destruct clock as [|now clock1]; simpl; [apply pages_left_alone_refl|].
    destruct (now - startTime <? IndexBuilder.MAX_RUNTIME_MS)%Z;
      [|apply pages_left_alone_refl].
    pose proof (builder_query_leaves_pages cursor IndexBuilder.BATCH_SIZE w) as Hq.
    apply (bind_case _ _ _ (fun out => pages_left_alone w (snd out)));
      intros response wq Eq; rewrite Eq in Hq; simpl in Hq; [|exact Hq].
    assert (Hup : forall data w0,
               pages_left_alone w0 (snd (IndexBuilder.updateProgress data w0))).
    { intros data w0. unfold IndexBuilder.updateProgress.
      apply retry_sqlite_leaves_pages; [reflexivity|].
      intros w1. unfold run_update_progress.
      destruct (index_builder_progress w1); now split. }
    destruct (List.length (results response) =? 0).
    + apply (bind_case _ _ _ (fun out => pages_left_alone w (snd out)));
        intros a wu Eu;
        match type of Eu with IndexBuilder.updateProgress ?d _ = _ =>
          pose proof (Hup d wq) as Hu end;
        rewrite Eu in Hu; simpl in *; eauto using pages_left_alone_trans.
    + pose proof (processBatch_leaves_pages (results response) 0 wq) as Hp.
      apply (bind_case _ _ _ (fun out => pages_left_alone w (snd out)));
        intros indexed wp Ep; unfold IndexBuilder.processBatch in Ep;
        rewrite Ep in Hp; simpl in Hp; [|eauto using pages_left_alone_trans].
      assert (Hwp : pages_left_alone w wp) by eauto using pages_left_alone_trans.
      apply (bind_case _ _ _ (fun out => pages_left_alone w (snd out)));
        intros a wu Eu;
        match type of Eu with IndexBuilder.updateProgress ?d _ = _ =>
          pose proof (Hup d wp) as Hu end;
        rewrite Eu in Hu; simpl in Hu; [|eauto using pages_left_alone_trans].
      assert (Hwu : pages_left_alone w wu) by eauto using pages_left_alone_trans.
      destruct (negb (has_more response)); [exact Hwu|].
      destruct clock1 as [|duration [|now2 clock2]]; try exact Hwu.
      destruct (now2 - startTime >? IndexBuilder.PAUSE_AFTER_MS)%Z; [exact Hwu|].
      eapply pages_left_alone_trans; [exact Hwu|].
      apply IH. simpl in Hlen. lia.
Qed.

(** X23. The scanner only reads Notion: whatever its clock and whatever
    fails, an invocation neither fetches nor updates a page, and the
    records of the database are afterwards what they were. *)
Theorem indexBuilder_only_queries_notion (startTime : Z) (clock : list Z) (w : World) :
  pages_left_alone w (snd (IndexBuilder.indexBuilder startTime clock w)).
Proof.
  assert (H : pages_left_alone w (snd (IndexBuilder.build startTime clock w))).
  { unfold IndexBuilder.build.
    assert (H0 : pages_left_alone w (snd (IndexBuilder.initializeTables w))).
    { destruct (initializeTables_only_reads w) as (H1 & _ & _ & _ & _ & new & H2 & H3).
      split; [exact H1|]. rewrite H2, filter_app.
      assert (filter is_page_request new = []) as ->; [|reflexivity].
      clear H2. induction new as [|c new IH]; [reflexivity|]. simpl in *.
      apply andb_true_iff in H3 as [Hc H3]. rewrite (IH H3).
      now destruct c. }
    apply (bind_case _ _ _ (fun out => pages_left_alone w (snd out)));
      intros a w0 E0; rewrite E0 in H0; simpl in H0; [|exact H0].
    assert (H1 : pages_left_alone w0 (snd (IndexBuilder.getProgress w0))).
    { unfold IndexBuilder.getProgress.
      pose proof (retry_sqlite_leaves_pages SqlSelectProgress
                    (fun w => (Ok (index_builder_progress w), w)) 3 w0 eq_refl
                    (fun w => pages_left_alone_refl w)) as Hs.
      apply (bind_case _ _ _ (fun out => pages_left_alone w0 (snd out)));
        intros result ws Es; rewrite Es in Hs; simpl in Hs; [|exact Hs].
      destruct result as [row|]; [exact Hs|].
      pose proof (retry_sqlite_leaves_pages SqlInsertProgress run_insert_progress 3 ws
                    eq_refl) as Hi.
      assert (Hrun : forall w, pages_left_alone w (snd (run_insert_progress w))).
      { intros w1. unfold run_insert_progress.
        destruct (index_builder_progress w1); now split. }
      specialize (Hi Hrun). unfold bind, ret.
      destruct (IndexBuilder.retryWithBackoff _ 3 1000 ws) as [[[]|e] wi];
        simpl in *; eauto using pages_left_alone_trans. }
    apply (bind_case _ _ _ (fun out => pages_left_alone w (snd out)));
      intros progress w1 E1; rewrite E1 in H1; simpl in H1;
      [|eauto using pages_left_alone_trans].
    assert (Hw1 : pages_left_alone w w1) by eauto using pages_left_alone_trans.
    assert (Hup : forall data w0,
               pages_left_alone w0 (snd (IndexBuilder.updateProgress data w0))).
    { intros data wx. unfold IndexBuilder.updateProgress.
      apply retry_sqlite_leaves_pages; [reflexivity|].
      intros wy. unfold run_update_progress.
      destruct (index_builder_progress wy); now split. }
    assert (Hboot :
      pages_left_alone w1
        (snd ((if negb (completed progress) && (total_indexed progress =? 0)
               then
                 bind IndexBuilder.getExistingIndexCount (fun existingCount =>
                   if 0 <? existingCount
                   then
                     bind (IndexBuilder.updateProgress
                             {| last_cursor := last_cursor progress;
                                total_indexed := existingCount;
                                completed := completed progress |})
                          (fun _ => ret {| last_cursor := last_cursor progress;
                                           total_indexed := existingCount;
                                           completed := completed progress |})
                   else ret progress)
               else ret progress) w1))).
    { destruct (negb (completed progress) && (total_indexed progress =? 0));
        [|apply pages_left_alone_refl].
      assert (Hc : pages_left_alone w1 (snd (IndexBuilder.getExistingIndexCount w1))).
      { unfold IndexBuilder.getExistingIndexCount.
        apply retry_sqlite_leaves_pages; [reflexivity|].
        intros wx. apply pages_left_alone_refl. }
      apply (bind_case _ _ _ (fun out => pages_left_alone w1 (snd out)));
        intros existingCount wc Ec; rewrite Ec in Hc; simpl in Hc; [|exact Hc].
      destruct (0 <? existingCount); [|exact Hc].
      unfold bind, ret.
      match goal with |- context [IndexBuilder.updateProgress ?d wc] =>
        pose proof (Hup d wc) as Hu;
        destruct (IndexBuilder.updateProgress d wc) as [[[]|e] wu] end;
        simpl in *; eauto using pages_left_alone_trans. }
    apply (bind_case _ _ _ (fun out => pages_left_alone w (snd out)));
      intros progress' w2 E2; rewrite E2 in Hboot; simpl in Hboot;
      [|eauto using pages_left_alone_trans].
    assert (Hw2 : pages_left_alone w w2) by eauto using pages_left_alone_trans.
    destruct (completed progress'); [exact Hw2|].
    unfold bind. destruct (negb (NOTION_DATABASE_ID w2)); [exact Hw2|].
    eapply pages_left_alone_trans; [exact Hw2|].
    apply (batches_leave_pages _ clock (le_n _)). }
  unfold IndexBuilder.indexBuilder.
  now destruct (IndexBuilder.build startTime clock w) as [[report|e] w1].
Qed.

End QuietScanner.

(** ** A scan that is given the time *)

Lemma builder_query_served cursor size w :
  NOTION_TOKEN w = true ->
  http_faults w = [] ->
  IndexBuilder.queryNotionDatabase cursor size w
  = (Ok (query_page cursor size (notion_pages w)), log_call (HttpQuery cursor size) w).
Proof.
  intros Ht Hh. unfold IndexBuilder.queryNotionDatabase, bind, getNotionHeaders, fetch,
    serve_query, ret.
  rewrite Ht. simpl. now rewrite Hh.
Qed.

Section TimelyScan.
Context {U : UnicodeTables}.

Lemma processBatch_from_env pages : forall indexed w,
  sqlite_faults w = [] ->
  http_faults (snd (IndexBuilder.processBatch_from pages indexed w)) = http_faults w
  /\ NOTION_TOKEN (snd (IndexBuilder.processBatch_from pages indexed w)) = NOTION_TOKEN w.
Proof.
  induction pages as [|page rest IH]; intros indexed w Hf; simpl; [now split|].
  destruct (hd_error (title page)) as [[|c name]|]; try (now apply IH).
  unfold bind at 1 2. rewrite insertIntoIndex_served by exact Hf.
  destruct (has_page_id (page_id page) (name_index w)).
  - match goal with |- context [IndexBuilder.processBatch_from rest ?i ?w0] =>
      destruct (IH i w0 Hf) as [H1 H2] end.
    now rewrite H1, H2.
  - match goal with |- context [IndexBuilder.processBatch_from rest ?i ?w0] =>
      destruct (IH i w0 Hf) as [H1 H2] end.
    now rewrite H1, H2.
Qed.

Lemma batches_finish n :
  forall clock startTime cursor t w,
    sqlite_faults w = [] ->
    http_faults w = [] ->
    NOTION_TOKEN w = true ->
    within_budget startTime clock ->
    List.length (notion_pages w) - cursor_position cursor
    <= IndexBuilder.BATCH_SIZE * S n ->
    3 * n + 1 <= List.length clock ->
    exists report w1,
      IndexBuilder.batches clock startTime cursor t w = (Ok report, w1)
      /\ finished report = true.
Proof.
  induction n as [|n IH]; intros clock startTime cursor t w Hf Hh Ht Hclock Hleft Hlen.
  all: destruct clock as [|now clock1]; [simpl in Hlen; lia|].
  all: inversion Hclock as [|? ? Hnow Hclock1]; subst.
  all: cbn [IndexBuilder.batches].
  all: assert ((now - startTime <? IndexBuilder.MAX_RUNTIME_MS)%Z = true) as ->
         by (apply Z.ltb_lt; unfold IndexBuilder.PAUSE_AFTER_MS,
               IndexBuilder.MAX_RUNTIME_MS in *; lia).
  all: unfold bind at 1; rewrite builder_query_served by assumption.
  all: set (wq := log_call (HttpQuery cursor IndexBuilder.BATCH_SIZE) w).
  all: set (response := query_page cursor IndexBuilder.BATCH_SIZE (notion_pages w)).
  all: assert (Hmore : has_more response
                       = (IndexBuilder.BATCH_SIZE
                          <? List.length (notion_pages w) - cursor_position cursor))
         by (unfold response, query_page; simpl has_more; rewrite length_skipn;
             destruct cursor; reflexivity).
  all: assert (Hcur : next_cursor response
                      = if has_more response
                        then Some (cursor_position cursor + IndexBuilder.BATCH_SIZE)
                        else None)
         by (unfold response; destruct cursor; reflexivity).
  all: destruct (List.length (results response) =? 0);
         [unfold bind; rewrite updateProgress_served by exact Hf;
          eexists; eexists; split; reflexivity|].
  all: destruct (processBatch_from_served (results response) 0 wq Hf)
         as (indexed & wp & Hrun & Hfp & Hpp & _).
  all: pose proof (processBatch_from_env (results response) 0 wq Hf) as [Hhp Htp].
  all: rewrite Hrun in Hhp, Htp; simpl in Hhp, Htp.
  all: unfold bind at 1; unfold IndexBuilder.processBatch; rewrite Hrun.
  all: unfold bind at 1; rewrite updateProgress_served by exact Hfp.
  - assert (has_more response = false) as Hno
        by (rewrite Hmore; apply Nat.ltb_ge; lia).
    rewrite Hno. simpl negb. cbv iota. eexists. eexists. split; reflexivity.
  - destruct (has_more response) eqn:Hm; simpl negb; cbv iota;
      [|eexists; eexists; split; reflexivity].
    symmetry in Hmore. apply Nat.ltb_lt in Hmore.
    destruct clock1 as [|duration [|now2 clock2]]; try (simpl in Hlen; lia).
    inversion Hclock1 as [|? ? _ Hclock2]; subst.
    inversion Hclock2 as [|? ? Hnow2 Hclock3]; subst.
    assert ((now2 - startTime >? IndexBuilder.PAUSE_AFTER_MS)%Z = false) as ->
        by (rewrite Z.gtb_ltb; apply Z.ltb_ge; exact Hnow2).
    rewrite Hcur. change (negb true) with false. cbv iota.
    match goal with |- context [IndexBuilder.batches clock2 startTime ?c ?t' ?w'] =>
      apply (IH clock2 startTime c t' w') end.
    + destruct (index_builder_progress wp); exact Hfp.
    + destruct (index_builder_progress wp); simpl; rewrite Hhp; exact Hh.
    + destruct (index_builder_progress wp); simpl; rewrite Htp; exact Ht.
    + exact Hclock3.
    + simpl cursor_position. unfold IndexBuilder.BATCH_SIZE in *.
      match goal with |- List.length (notion_pages ?x) - _ <= _ =>
        assert (notion_pages x = notion_pages w) as ->
          by (destruct (index_builder_progress wp); exact Hpp) end.
      lia.
    + simpl in Hlen. lia.
Qed.

Lemma bootstrap_env progress w1 :
  sqlite_faults w1 = [] ->
  exists progress' w2,
    (if negb (completed progress) && (total_indexed progress =? 0)
     then
       bind IndexBuilder.getExistingIndexCount (fun existingCount =>
         if 0 <? existingCount
         then
           bind (IndexBuilder.updateProgress
                   {| last_cursor := last_cursor progress;
                      total_indexed := existingCount;
                      completed := completed progress |})
                (fun _ => ret {| last_cursor := last_cursor progress;
                                 total_indexed := existingCount;
                                 completed := completed progress |})
         else ret progress)
     else ret progress) w1 = (Ok progress', w2)
    /\ http_faults w2 = http_faults w1
    /\ NOTION_TOKEN w2 = NOTION_TOKEN w1
    /\ NOTION_DATABASE_ID w2 = NOTION_DATABASE_ID w1.
Proof.
  intros Hf.
  destruct (negb (completed progress) && (total_indexed progress =? 0)).
  - unfold bind at 1. rewrite getExistingIndexCount_served by exact Hf.
    destruct (0 <? List.length (name_index w1)).
    + unfold bind, ret. rewrite updateProgress_served by exact Hf.
      eexists. eexists. split; [reflexivity|]. simpl index_builder_progress.
      destruct (index_builder_progress w1); simpl; now repeat split.
    + exists progress. eexists. split; [reflexivity|]. simpl. now repeat split.
  - exists progress, w1. now repeat split.
Qed.

(** X24. A scan that is given the time completes in one invocation: when
    the store and Notion serve every request, both environment variables
    are set, and the clock never shows more than [PAUSE_AFTER_MS] since the
    start for as many readings as the batches of 100 records need (three
    per batch), the report of the invocation says that the scan is
    over. *)
Theorem indexBuilder_finishes_in_time (startTime : Z) (clock : list Z) (w : World)
    (n : nat) :
  sqlite_faults w = [] ->
  http_faults w = [] ->
  NOTION_TOKEN w = true ->
  NOTION_DATABASE_ID w = true ->
  within_budget startTime clock ->
  List.length (notion_pages w) <= IndexBuilder.BATCH_SIZE * S n ->
  3 * n + 1 <= List.length clock ->
  finished (fst (IndexBuilder.indexBuilder startTime clock w)) = true.
Proof.
  intros Hf Hh Ht Hdb Hclock Hsize Hlen.
  unfold IndexBuilder.indexBuilder, IndexBuilder.build.
  unfold bind at 1. rewrite initializeTables_served by exact Hf.
  set (w0 := log_call SqlCreateProgress
               (log_call SqlCreateIdxName (log_call SqlCreateNameIndex w))).
  unfold bind at 1. rewrite getProgress_served by exact Hf.
  assert (Hstart : exists progress w1,
             match index_builder_progress w0 with
             | Some row => (Ok row, log_call SqlSelectProgress w0)
             | None =>
                 (Ok initial_progress,
                  write_progress initial_progress
                    (log_call SqlInsertProgress (log_call SqlSelectProgress w0)))
             end = (Ok progress, w1)
             /\ sqlite_faults w1 = [] /\ http_faults w1 = []
             /\ NOTION_TOKEN w1 = true /\ NOTION_DATABASE_ID w1 = true
             /\ notion_pages w1 = notion_pages w
             /\ index_builder_progress w1 = Some progress).
  { change (index_builder_progress w0) with (index_builder_progress w).
    destruct (index_builder_progress w) as [row|] eqn:Hrow;
      eexists; eexists; (split; [reflexivity|]); simpl; repeat split; auto. }
  destruct Hstart as (progress & w1 & -> & Hf1 & Hh1 & Ht1 & Hdb1 & Hp1 & Hrow1).
  destruct (bootstrap_served progress w1 Hf1 Hrow1)
    as (progress' & w2 & Hboot & Hf2 & Hp2 & _).
  destruct (bootstrap_env progress w1 Hf1) as (p2 & w2' & Hboot' & Hh2 & Ht2 & Hdb2).
  rewrite Hboot in Hboot'. injection Hboot' as _ <-.
  unfold bind at 1. rewrite Hboot.
  destruct (completed progress'); [reflexivity|].
  unfold bind. simpl fst. simpl snd. rewrite Hdb2, Hdb1.
  change (negb true) with false. cbv iota.
  destruct (batches_finish n clock startTime (last_cursor progress')
              (total_indexed progress') w2) as (report & w3 & Hrun & Hfin); auto;
    try congruence.
  - rewrite Hp2, Hp1. lia.
  - rewrite Hrun. exact Hfin.
Qed.

End TimelyScan.

(** ** Further runs on the sample worlds *)

Lemma normalizeName_canonical_witness :
  @Webhook.normalizeName ascii_tables (@Webhook.normalizeName ascii_tables (js " Acme "))
  = @Webhook.normalizeName ascii_tables (js " Acme ").
Proof.
  exact (proj1 (@normalizeName_canonical ascii_tables (js " Acme ") eq_refl)).
Defined.

Lemma nocase_agrees_on_keys_witness :
  @Webhook.normalizeName ascii_tables (js "ACME ")
  = @Webhook.normalizeName ascii_tables (js " acme").
Proof.
  exact (proj1 (@nocase_agrees_on_keys ascii_tables (js "ACME ") (js " acme")
                  eq_refl eq_refl eq_refl eq_refl) eq_refl).
Defined.

Lemma findDuplicatePages_absorbs_rate_limits_witness :
  fst (Webhook.findDuplicatePages (js "acme") busy_store_world) = Ok ["1"].
Proof.
  assert (Hsignal : Forall (fun e => rate_limit_signal e = true)
                      [Error "429 Too Many Requests"])
    by (constructor; [reflexivity | constructor]).
  destruct (findDuplicatePages_absorbs_rate_limits (js "acme") busy_store_world
              [Error "429 Too Many Requests"] [] eq_refl
              Hsignal (le_S _ _ (le_n 1)) (or_introl eq_refl)) as (w1 & H & _).
  rewrite H. reflexivity.
Defined.

Lemma findDuplicatePages_gives_up_witness :
  sleeps (snd (Webhook.findDuplicatePages (js "acme") overloaded_store_world))
  = [4000; 2000; 1000]%Z.
Proof.
  destruct (findDuplicatePages_gives_up (js "acme") overloaded_store_world
              (Error "429 Too Many Requests") (Error "429 Too Many Requests")
              (Error "429 Too Many Requests") [] eq_refl eq_refl eq_refl eq_refl)
    as (w1 & H & _ & _ & Hs & _).
  rewrite H. exact Hs.
Defined.

Lemma backfill_reads_give_up_on_status_witness :
  calls (snd (Backfill.fetchNotionPage "1"
                (set_http_faults [HttpStatus 429 "rate_limited"] backfill_world)))
  = [HttpGetPage "1"].
Proof.
  rewrite (proj1 (backfill_reads_give_up_on_status "1" None 100 429 "rate_limited" []
                    (set_http_faults [HttpStatus 429 "rate_limited"] backfill_world)
                    eq_refl eq_refl)).
  reflexivity.
Defined.

Lemma updateNotionTags_retries_status_witness :
  fst (@Backfill.updateNotionTags ascii_tables "1" []
         (set_http_faults [HttpStatus 503 "service_unavailable"] backfill_world))
  = Ok true.
Proof.
  destruct (@updateNotionTags_retries_status ascii_tables "1" [] []
              (set_http_faults [HttpStatus 503 "service_unavailable"] backfill_world)
              503 "service_unavailable" [] acme1
              eq_refl eq_refl eq_refl (or_introl eq_refl) eq_refl eq_refl
              (or_intror (or_intror (or_intror (or_introl eq_refl)))))
    as (w1 & H & _).
  rewrite H. reflexivity.
Defined.

Lemma updateNotionTags_retries_on_page_id_witness :
  sleeps (snd (@Backfill.updateNotionTags ascii_tables "a-500" [] refusing_api_world))
  = [1000%Z].
Proof.
  destruct (@updateNotionTags_retries_on_page_id ascii_tables "a-500" [] []
              refusing_api_world 400 "validation_error" "500" [] page_a500
              eq_refl eq_refl eq_refl (or_introl eq_refl) eq_refl eq_refl
              (or_intror (or_introl eq_refl)) eq_refl)
    as (w1 & H & _ & Hs & _).
  rewrite H. exact Hs.
Defined.

Lemma handler_unique_name_witness :
  Webhook.payload (fst (@Webhook.handler ascii_tables zeta_delivery webhook_world))
  = Webhook.Indexed
  /\ has_page_id "9"
       (name_index (snd (@Webhook.handler ascii_tables zeta_delivery webhook_world)))
     = true.
Proof.
  pose proof (@handler_unique_name ascii_tables zeta_delivery webhook_world
                (Webhook.Plain {| Webhook.pageData_id := Some "9";
                                  Webhook.pageData_title := [js "Zeta"] |})
                "9" (js "Zeta") []
                eq_refl eq_refl eq_refl ltac:(discriminate) ltac:(discriminate)
                eq_refl eq_refl) as (H1 & _ & _ & _ & H2 & _).
  split; [rewrite H1; reflexivity | exact H2].
Defined.

Lemma tagOthers_visits_every_match_witness :
  filter is_get_page
    (calls (snd (@Webhook.tagOthers ascii_tables ["1"; "2"]
                   (set_http_faults [HttpStatus 500 "down"] webhook_world))))
  = [HttpGetPage "2"; HttpGetPage "1"].
Proof.
  destruct (@tagOthers_visits_every_match ascii_tables ["1"; "2"]
              (set_http_faults [HttpStatus 500 "down"] webhook_world) eq_refl)
    as (w1 & H & Hc & _).
  rewrite H. exact Hc.
Defined.

Lemma handler_tags_all_matches_witness :
  Webhook.payload (fst (@Webhook.handler ascii_tables acme_delivery webhook_world))
  = Webhook.Tagged 1
  /\ @all_tagged ascii_tables ["2"; "1"]
       (notion_pages (snd (@Webhook.handler ascii_tables acme_delivery webhook_world))).
Proof.
  assert (Hsel : selectable ["2"; "1"] (notion_pages webhook_world)).
  { intros i [<-|[<-|[]]]; eexists; eexists; split; reflexivity. }
  pose proof (@handler_tags_all_matches ascii_tables acme_delivery webhook_world
                (Webhook.Plain {| Webhook.pageData_id := Some "2";
                                  Webhook.pageData_title := [js "acme"] |})
                "2" (js "acme") [] ["1"]
                eq_refl eq_refl eq_refl ltac:(discriminate) ltac:(discriminate)
                eq_refl eq_refl eq_refl eq_refl ltac:(discriminate) Hsel)
    as (H1 & H2 & _).
  split; [rewrite H1; reflexivity | exact H2].
Defined.



Lemma indexBuilder_never_overcounts_witness :
  within_index
    (snd (@IndexBuilder.indexBuilder ascii_tables 0%Z [0; 0; 0]%Z backfill_world)).
Proof.
  exact (proj1 (@indexBuilder_never_overcounts ascii_tables 0%Z [0; 0; 0]%Z
                  backfill_world I)).
Defined.

Lemma indexBuilder_resumes_without_gaps_witness :
  covered 3
    (snd (@IndexBuilder.indexBuilder ascii_tables 0%Z [0; 0; 0]%Z backfill_world)).
Proof.
  exact (proj1 (proj2 (proj2 (@indexBuilder_resumes_without_gaps ascii_tables 0%Z
                                [0; 0; 0]%Z backfill_world eq_refl I)) eq_refl)).
Defined.

Lemma backfill_tags_every_duplicate_witness :
  exists counts w1,
    @Backfill.main ascii_tables backfill_world
    = (Ok (Backfill.Finished 3 counts), w1)
    /\ Backfill.totalDuplicates counts = 2
    /\ Backfill.processed counts = Backfill.totalDuplicates counts
    /\ @all_tagged ascii_tables ["1"; "2"] (notion_pages w1).
Proof.
  assert (Hmulti : multi_selects (notion_pages backfill_world)).
  { intros p [<-|[<-|[<-|[]]]]; eexists; reflexivity. }
  destruct (@backfill_tags_every_duplicate ascii_tables backfill_world
              eq_refl eq_refl eq_refl Hmulti) as (c & w1 & H & Hd & Hp & _ & Hall & _).
  exists c, w1. split; [exact H|]. split; [exact Hd|]. split; [exact Hp|].
  intros i [<-|[<-|[]]].
  - exact (Hall acme1 (or_introl eq_refl) (le_n 2)).
  - exact (Hall acme2 (or_intror (or_introl eq_refl)) (le_n 2)).
Defined.

Lemma backfill_leaves_tagged_database_witness :
  notion_pages (snd (@Backfill.main ascii_tables reconciled_world))
  = notion_pages reconciled_world.
Proof.
  assert (Hnd : NoDup (map page_id (notion_pages reconciled_world))).
  { simpl. repeat constructor; simpl; intuition discriminate. }
  assert (Htagged : forall p, In p (notion_pages reconciled_world) ->
             2 <= List.length (@group_of ascii_tables p (notion_pages reconciled_world)) ->
             @Backfill.hasDuplicateTag ascii_tables (Backfill.multi_select p) = true).
  { intros p [<-|[<-|[<-|[]]]] _; reflexivity. }
  exact (proj1 (@backfill_leaves_tagged_database ascii_tables reconciled_world
                  Hnd Htagged)).
Defined.

Lemma handler_skips_only_unusable_deliveries_witness :
  snd (@Webhook.handler ascii_tables nameless_delivery webhook_world) = webhook_world.
Proof.
  exact (proj1 (@handler_skips_only_unusable_deliveries ascii_tables nameless_delivery
                  webhook_world _ eq_refl)).
Defined.

Lemma indexBuilder_finishes_in_time_witness :
  finished (fst (@IndexBuilder.indexBuilder ascii_tables 0%Z [0%Z] backfill_world))
  = true.
Proof.
  assert (Hclock : within_budget 0 [0%Z]).
  { constructor; [|constructor]. unfold IndexBuilder.PAUSE_AFTER_MS. lia. }
  assert (Hsize : List.length (notion_pages backfill_world)
                  <= IndexBuilder.BATCH_SIZE * 1)
    by (simpl; unfold IndexBuilder.BATCH_SIZE; lia).
  exact (@indexBuilder_finishes_in_time ascii_tables 0%Z [0%Z] backfill_world 0
           eq_refl eq_refl eq_refl eq_refl Hclock Hsize (le_n 1)).
Defined.
